(** * The code-mapping engine of prd-task-decomposition-system

    A shallow embedding of the JavaScript sources under
    [src/code-mapping-engine] (indexer, semantic analyzer, dependency
    analyzer, mapping algorithm, change predictor, engine entry point and
    the vector utilities), followed by the properties that the design
    document states about them.

    Conventions of the embedding:
    - an object used as a dictionary is a [gmap] of the properties the
      object itself holds when the code only looks keys up, and an
      association list when the code enumerates it. A read [object[key]]
      goes through [JsObject.get], which also answers for the members that
      every object inherits from [Object.prototype] (["constructor"],
      ["toString"], ...), and a write of a number or a string goes through
      [JsObject.set_primitive], which drops the key ["__proto__"]. The one
      key taken not to occur is a file path equal to ["__proto__"];
    - the vector utilities are given twice: [VectorUtils64] is the code on
      IEEE 754 doubles, and the properties of the utilities themselves are
      stated there; [VectorUtils] is the same cosine distance on real
      numbers ([R], a result that is not a finite number being [None]),
      which the search of the semantic analyzer and the scores of the
      change predictor are stated over, rounding left out;
    - a method that may throw, or that mutates its receiver, is a
      computation in the monad [Js.M] (state that survives a [throw],
      plus [try]/[catch]);
    - the libraries the code calls (Node's [fs] and [path], Babel,
      [natural]) are not part of the repository: [path] is transcribed from
      Node's POSIX implementation, the file system is a record of lookup
      functions, a parsed file is the syntax tree Babel returns for it, and
      [natural] is a record of operations. *)

From Stdlib Require Import Floats.
From Stdlib Require Import Reals Lra String Ascii List ZArith Lia Bool Sorted.
From stdpp Require Import gmap strings list.

Set Warnings "-register-all".

Local Open Scope string_scope.

(** ** JavaScript control effects *)

Module Js.

Inductive Error : Type :=
| TypeError (msg : string)
| PlainError (msg : string)
| IoError (path : string)
| SyntaxError.

Inductive Outcome (A : Type) : Type :=
| Return (a : A)
| Throw (e : Error).

Arguments Return {A} a.
Arguments Throw {A} e.

(** A computation over a mutable receiver of type [S]: the state is handed
    back also when the computation throws, as a [catch] block sees every
    mutation made before the exception. *)
Definition M (S A : Type) : Type := S -> Outcome A * S.

Definition ret {S A} (a : A) : M S A := fun s => (Return a, s).

Definition throw {S A} (e : Error) : M S A := fun s => (Throw e, s).

Definition bind {S A B} (m : M S A) (k : A -> M S B) : M S B :=
  fun s =>
    match m s with
    | (Return a, s') => k a s'
    | (Throw e, s') => (Throw e, s')
    end.

Definition try_catch {S A} (m : M S A) (handler : Error -> M S A) : M S A :=
  fun s =>
    match m s with
    | (Return a, s') => (Return a, s')
    | (Throw e, s') => handler e s'
    end.

Definition get {S} : M S S := fun s => (Return s, s).

Definition modify {S} (f : S -> S) : M S unit := fun s => (Return tt, f s).

(** [await p] on a promise that may reject, and a property read that may
    be undefined. *)
Definition of_option {S A} (o : option A) (e : Error) : M S A :=
  match o with
  | Some a => ret a
  | None => throw e
  end.

(** [for (const x of xs) body(x)]: an exception leaves the loop. *)
Fixpoint for_of {S A} (xs : list A) (body : A -> M S unit) : M S unit :=
  match xs with
  | [] => ret tt
  | x :: xs' => bind (body x) (fun _ => for_of xs' body)
  end.

(** A method of a member object, run on the object that holds it. *)
Definition on_member {S T A} (member : S -> T) (update : T -> S -> S)
    (m : M T A) : M S A :=
  fun s =>
    match m (member s) with
    | (o, t') => (o, update t' s)
    end.

Definition exec {S A} (m : M S A) (s : S) : S := snd (m s).

Definition result {S A} (m : M S A) (s : S) : Outcome A := fst (m s).

End Js.

Notation "'let*' x ':=' m 'in' k" := (Js.bind m (fun x => k))
  (at level 10, x name, m at level 100, k at level 200).

(** ** Property reads on an object created by [{}]

    [object[key]] looks the key up among the properties of the object
    itself and then along its prototype chain, which for an object written
    [{}] is [Object.prototype]. *)

Module JsObject.

(** [Object.getOwnPropertyNames(Object.prototype)] *)
Definition prototype_members : list string :=
  ["constructor"; "__defineGetter__"; "__defineSetter__"; "hasOwnProperty";
   "__lookupGetter__"; "__lookupSetter__"; "isPrototypeOf"; "propertyIsEnumerable";
   "toString"; "valueOf"; "__proto__"; "toLocaleString"].

Definition inherited (key : string) : bool :=
  existsb (String.eqb key) prototype_members.

(** What a read finds: a property of the object itself, or the member of
    [Object.prototype] of that name (a function; for ["__proto__"] the
    prototype itself). Both are objects, hence truthy, when the properties
    of the object hold objects or non-empty strings. *)
Inductive Found (A : Type) : Type :=
| Own (a : A)
| Member (name : string).

Arguments Own {A} a.
Arguments Member {A} name.

(** [object[key]]; [None] is [undefined]. *)
Definition get {A} (object : gmap string A) (key : string) : option (Found A) :=
  match object !! key with
  | Some a => Some (Own a)
  | None => if inherited key then Some (Member key) else None
  end.

(** [object[key] = value] for a value that is no object: the setter of
    ["__proto__"] ignores it, and any other key becomes a property. *)
Definition set_primitive {A} (key : string) (value : A) (object : gmap string A)
    : gmap string A :=
  if String.eqb key "__proto__" then object else <[key := value]> object.

(** [String(member)], as a property key or in a template: a built-in
    function prints as its name and [[native code]], the prototype as
    [[object Object]]. *)
Definition member_text (name : string) : string :=
  if String.eqb name "__proto__" then "[object Object]"
  else
    "function " ++ (if String.eqb name "constructor" then "Object" else name)
      ++ "() { [native code] }".

End JsObject.

(** ** Node's [path] module, POSIX flavour *)

Module Path.

Definition slash : ascii := "/"%char.
Definition dot : ascii := "."%char.

Fixpoint split (sep : ascii) (s : string) : list string :=
  match s with
  | EmptyString => [EmptyString]
  | String c s' =>
      if Ascii.eqb c sep then EmptyString :: split sep s'
      else match split sep s' with
           | [] => [String c EmptyString]
           | w :: ws => String c w :: ws
           end
  end.

Definition join_with (sep : string) (parts : list string) : string :=
  String.concat sep parts.

Definition isAbsolute (p : string) : bool := String.prefix "/" p.

Definition ends_with_slash (p : string) : bool :=
  match String.get (String.length p - 1) p with
  | Some c => Ascii.eqb c slash
  | None => false
  end.

(** [normalizeString]: drops empty and ["."] segments and folds [".."];
    [acc] holds the kept segments, innermost first. *)
Fixpoint normalize_segments (allowAboveRoot : bool) (acc : list string)
    (segs : list string) : list string :=
  match segs with
  | [] => rev acc
  | seg :: rest =>
      if String.eqb seg "" || String.eqb seg "." then
        normalize_segments allowAboveRoot acc rest
      else if String.eqb seg ".." then
        match acc with
        | top :: acc' =>
            if String.eqb top ".." then
              normalize_segments allowAboveRoot (".." :: acc) rest
            else normalize_segments allowAboveRoot acc' rest
        | [] =>
            if allowAboveRoot then
              normalize_segments allowAboveRoot [".."] rest
            else normalize_segments allowAboveRoot [] rest
        end
      else normalize_segments allowAboveRoot (seg :: acc) rest
  end.

Definition normalizeString (p : string) (allowAboveRoot : bool) : string :=
  join_with "/" (normalize_segments allowAboveRoot [] (split slash p)).

Definition normalize (p : string) : string :=
  if String.eqb p "" then "."
  else
    let absolute := isAbsolute p in
    let trailing := ends_with_slash p in
    let body := normalizeString p (negb absolute) in
    if String.eqb body "" then
      if absolute then "/" else if trailing then "./" else "."
    else
      let body := if trailing then body ++ "/" else body in
      if absolute then "/" ++ body else body.

(** [path.join(a, b)] *)
Definition join (a b : string) : string :=
  let joined :=
    if String.eqb a "" then b
    else if String.eqb b "" then a
    else a ++ "/" ++ b in
  normalize joined.

(** [path.resolve(...parts)] in a process whose working directory is
    [cwd]: the arguments are consumed from the right until an absolute one
    is met. *)
Definition resolve (cwd : string) (parts : list string) : string :=
  let step (p acc : string) : string :=
    if isAbsolute acc then acc
    else if String.eqb p "" then acc
    else p ++ "/" ++ acc in
  let joined := fold_right step "" parts in
  let full := if isAbsolute joined then joined else cwd ++ "/" ++ joined in
  "/" ++ normalizeString full false.

(** The loop of [path.dirname]: [rev_chars] are the characters at indices
    [i], [i-1], ..., 1. *)
Fixpoint dirname_scan (rev_chars : list ascii) (i : nat) (matchedSlash : bool)
    : option nat :=
  match rev_chars with
  | [] => None
  | c :: rest =>
      if Ascii.eqb c slash then
        if matchedSlash then dirname_scan rest (i - 1) true else Some i
      else dirname_scan rest (i - 1) false
  end.

Definition dirname (p : string) : string :=
  if String.eqb p "" then "."
  else
    let hasRoot := isAbsolute p in
    let chars := list_ascii_of_string p in
    match dirname_scan (rev (tail chars)) (String.length p - 1) true with
    | None => if hasRoot then "/" else "."
    | Some e =>
        if hasRoot && (e =? 1)%nat then "//" else String.substring 0 e p
    end.

(** [path.basename(p)]: the last non-empty segment. *)
Definition basename (p : string) : string :=
  List.last (List.filter (fun seg => negb (String.eqb seg "")) (split slash p)) "".

Fixpoint last_dot (s : string) (i : nat) (found : option nat) : option nat :=
  match s with
  | EmptyString => found
  | String c s' =>
      last_dot s' (S i) (if Ascii.eqb c dot then Some i else found)
  end.

(** [path.extname(p)]: from the last dot of the base name, unless that dot
    opens the base name or the base name is [".."]. *)
Definition extname (p : string) : string :=
  let b := basename p in
  match last_dot b 0 None with
  | None => ""
  | Some d =>
      if (d =? 0)%nat || String.eqb b ".." then ""
      else String.substring d (String.length b - d) b
  end.

End Path.

(** ** Syntax trees, as [@babel/parser] returns them

    Only what the visitors of the repository read is kept in a node; the
    children are listed in the order in which [@babel/traverse] enters
    them. *)

Module Ast.

Record Loc : Type := { loc_start : nat; loc_end : nat }.

Inductive Callee : Type :=
| CalleeIdentifier (name : string)
| CalleeOther.

Inductive Argument : Type :=
| StringLiteral (value : string)
| ArgumentOther.

Inductive ClassMember : Type :=
| ClassMethod (key_name : string) (params : list (option string)) (loc : Loc)
| MemberOther.

Inductive Kind : Type :=
| ImportDeclaration (source : string)
| CallExpression (callee : Callee) (arguments : list Argument)
| FunctionDeclaration (id : option string) (params : list (option string))
    (loc : Loc) (code : string)
| FunctionExpression
| ArrowFunctionExpression
| VariableDeclarator (id_name : option string)
| ClassDeclaration (id : option string) (body : list ClassMember)
    (loc : Loc) (code : string)
| OtherNode (type : string).

Inductive t : Type :=
| Node (kind : Kind) (children : list t).

(** [traverse(ast, visitor)]: the visitor is called on entering a node,
    with the kinds of the enclosing nodes, nearest first (the [parentPath]
    chain). An exception thrown by the visitor ends the traversal. *)
Fixpoint traverse {S : Type} (visit : list Kind -> Kind -> Js.M S unit)
    (ancestors : list Kind) (ast : t) : Js.M S unit :=
  match ast with
  | Node k children =>
      let* _ := visit ancestors k in
      (fix enter (cs : list t) : Js.M S unit :=
         match cs with
         | [] => Js.ret tt
         | c :: cs' =>
             let* _ := traverse visit (k :: ancestors) c in enter cs'
         end) children
  end.

End Ast.

(** ** The host: file system, working directory, clock *)

Module Host.

Inductive DirentKind : Type := IsFile | IsDirectory | IsOther.

Record Dirent : Type := { d_name : string; d_kind : DirentKind }.

(** The text of a file, through what the code does with it: its length,
    and the tree the parser builds from it ([None]: the parser throws). *)
Record Source : Type := { text_length : nat; parsed : option Ast.t }.

(** What the disk answers: [None] is a rejected promise. *)
Record FileSystem : Type := {
  readdir : string -> option (list Dirent);
  readFile : string -> option Source;
  stat_mtime : string -> option string;
  exists_on_disk : string -> bool
}.

Record t : Type := {
  fs : FileSystem;
  cwd : string;
  now : string
}.

End Host.

(** ** codebase-indexer.js *)

Module CodebaseIndexer.

Record MethodEntry : Type := {
  m_name : string;
  m_params : list string;
  m_loc : Ast.Loc
}.

Record FunctionEntry : Type := {
  fn_name : string;
  fn_params : list string;
  fn_loc : Ast.Loc;
  fn_code : string
}.

Record ClassEntry : Type := {
  cls_name : string;
  cls_methods : list MethodEntry;
  cls_loc : Ast.Loc;
  cls_code : string
}.

Record FileEntry : Type := {
  f_path : string;
  f_name : string;
  f_extension : string;
  f_size : nat;
  f_lastModified : option string;
  f_functions : list FunctionEntry;
  f_classes : list ClassEntry
}.

(** [{...func, filePath}] and [{...cls, filePath}] *)
Record IndexedFunction : Type := { if_func : FunctionEntry; if_filePath : string }.
Record IndexedClass : Type := { ic_cls : ClassEntry; ic_filePath : string }.

Record Metadata : Type := {
  indexedAt : option string;
  totalFiles : nat;
  totalFunctions : nat;
  totalClasses : nat
}.

Record CodeIndex : Type := {
  files : list FileEntry;
  functions : list IndexedFunction;
  classes : list IndexedClass;
  metadata : Metadata
}.

Record Config : Type := {
  excludeDirs : list string;
  fileExtensions : list string;
  indexDepth : nat
}.

Definition default_config : Config :=
  {| excludeDirs := ["node_modules"; ".git"; "dist"; "build"];
     fileExtensions := [".js"; ".jsx"; ".ts"; ".tsx"];
     indexDepth := 3 |}.

Definition includes (xs : list string) (x : string) : bool :=
  existsb (String.eqb x) xs.

Definition empty_index : CodeIndex :=
  {| files := []; functions := []; classes := [];
     metadata := {| indexedAt := None; totalFiles := 0;
                    totalFunctions := 0; totalClasses := 0 |} |}.

Definition resetIndex : Js.M CodeIndex unit := Js.modify (fun _ => empty_index).

Definition updateMetadata (now : string) : Js.M CodeIndex unit :=
  Js.modify (fun idx =>
    {| files := files idx; functions := functions idx; classes := classes idx;
       metadata := {| indexedAt := Some now;
                      totalFiles := length (files idx);
                      totalFunctions := length (functions idx);
                      totalClasses := length (classes idx) |} |}).

Definition param_name (p : option string) : string :=
  match p with Some n => n | None => "unnamed" end.

Definition declared_name (id : option string) : string :=
  match id with Some n => n | None => "anonymous" end.

Definition push_function (fn : FunctionEntry) (fi : FileEntry) : FileEntry :=
  {| f_path := f_path fi; f_name := f_name fi; f_extension := f_extension fi;
     f_size := f_size fi; f_lastModified := f_lastModified fi;
     f_functions := f_functions fi ++ [fn]; f_classes := f_classes fi |}.

Definition push_class (c : ClassEntry) (fi : FileEntry) : FileEntry :=
  {| f_path := f_path fi; f_name := f_name fi; f_extension := f_extension fi;
     f_size := f_size fi; f_lastModified := f_lastModified fi;
     f_functions := f_functions fi; f_classes := f_classes fi ++ [c] |}.

Definition set_lastModified (m : string) (fi : FileEntry) : FileEntry :=
  {| f_path := f_path fi; f_name := f_name fi; f_extension := f_extension fi;
     f_size := f_size fi; f_lastModified := Some m;
     f_functions := f_functions fi; f_classes := f_classes fi |}.

Definition class_methods (body : list Ast.ClassMember) : list MethodEntry :=
  flat_map (fun member =>
    match member with
    | Ast.ClassMethod key params loc =>
        [{| m_name := key; m_params := map param_name params; m_loc := loc |}]
    | Ast.MemberOther => []
    end) body.

Definition index_visitor (_ : list Ast.Kind) (k : Ast.Kind) : Js.M FileEntry unit :=
  match k with
  | Ast.FunctionDeclaration id params loc code =>
      Js.modify (push_function
        {| fn_name := declared_name id; fn_params := map param_name params;
           fn_loc := loc; fn_code := code |})
  | Ast.ClassDeclaration id body loc code =>
      Js.modify (push_class
        {| cls_name := declared_name id; cls_methods := class_methods body;
           cls_loc := loc; cls_code := code |})
  | _ => Js.ret tt
  end.

(** [parseCode(code, fileIndex)]: the receiver is the file entry. *)
Definition parseCode (code : Host.Source) : Js.M FileEntry unit :=
  Js.try_catch
    (let* ast := Js.of_option (Host.parsed code) Js.SyntaxError in
     Ast.traverse index_visitor [] ast)
    (fun _ => Js.ret tt).

Definition push_file (filePath : string) (fi : FileEntry) (idx : CodeIndex) : CodeIndex :=
  {| files := files idx ++ [fi];
     functions := functions idx ++
       map (fun fn => {| if_func := fn; if_filePath := filePath |}) (f_functions fi);
     classes := classes idx ++
       map (fun c => {| ic_cls := c; ic_filePath := filePath |}) (f_classes fi);
     metadata := metadata idx |}.

Definition indexFile (fs : Host.FileSystem) (filePath : string) : Js.M CodeIndex unit :=
  Js.try_catch
    (let* content := Js.of_option (Host.readFile fs filePath) (Js.IoError filePath) in
     let fileIndex :=
       {| f_path := filePath;
          f_name := Path.basename filePath;
          f_extension := Path.extname filePath;
          f_size := Host.text_length content;
          f_lastModified := None;
          f_functions := [];
          f_classes := [] |} in
     let* mtime := Js.of_option (Host.stat_mtime fs filePath) (Js.IoError filePath) in
     let fileIndex := set_lastModified mtime fileIndex in
     let fileIndex := Js.exec (parseCode content) fileIndex in
     Js.modify (push_file filePath fileIndex))
    (fun _ => Js.ret tt).

(** The body of the loop over the entries of a directory; [descend] is
    [scanDirectory] one level down. *)
Definition scanEntry (descend : string -> nat -> Js.M CodeIndex unit)
    (cfg : Config) (fs : Host.FileSystem) (dirPath : string) (depth : nat)
    (entry : Host.Dirent) : Js.M CodeIndex unit :=
  let entryPath := Path.join dirPath (Host.d_name entry) in
  match Host.d_kind entry with
  | Host.IsDirectory =>
      if includes (excludeDirs cfg) (Host.d_name entry) then Js.ret tt
      else descend entryPath (depth + 1)
  | Host.IsFile =>
      let ext := Path.extname (Host.d_name entry) in
      if includes (fileExtensions cfg) ext then indexFile fs entryPath
      else Js.ret tt
  | Host.IsOther => Js.ret tt
  end.

(** [scanDirectory(dirPath, depth)]. The recursion of the source goes one
    level down per call and stops beyond [indexDepth]; [fuel] is the
    structural bound, and [indexCodebase] supplies enough of it. *)
Fixpoint scanDirectory (fuel : nat) (cfg : Config) (fs : Host.FileSystem)
    (dirPath : string) (depth : nat) : Js.M CodeIndex unit :=
  if (indexDepth cfg <? depth)%nat then Js.ret tt
  else
    match fuel with
    | O => Js.ret tt
    | S fuel' =>
        Js.try_catch
          (let* entries :=
             Js.of_option (Host.readdir fs dirPath) (Js.IoError dirPath) in
           Js.for_of entries
             (scanEntry (scanDirectory fuel' cfg fs) cfg fs dirPath depth))
          (fun _ => Js.ret tt)
    end.

Definition indexCodebase (cfg : Config) (host : Host.t) (codebasePath : string)
    : Js.M CodeIndex CodeIndex :=
  let* _ := resetIndex in
  let* _ := scanDirectory (S (indexDepth cfg)) cfg (Host.fs host) codebasePath 0 in
  let* _ := updateMetadata (Host.now host) in
  Js.get.

End CodebaseIndexer.

(** ** utils/vector-utils.js *)

Module VectorUtils.

(** A sparse vector [{term: weight, ...}]. The code enumerates it only to
    add numbers up, so the order of the keys does not matter here. *)
Abbreviation Vector := (gmap string R).

(** A division whose divisor is zero yields [NaN] or an infinity: [None]. *)
Definition divide (x y : R) : option R :=
  if Req_dec_T y 0 then None else Some (x / y)%R.

Definition is_zero (x : R) : bool := if Req_dec_T x 0 then true else false.

(** [if (vector2[term])]: the key is present and its weight is not zero. *)
Definition truthy_weight (w : option R) : bool :=
  match w with
  | Some y => negb (is_zero y)
  | None => false
  end.

Definition dotProduct (vector1 vector2 : Vector) : R :=
  map_fold (fun term v1 acc =>
    if truthy_weight (vector2 !! term)
    then (acc + v1 * default 0%R (vector2 !! term))%R
    else acc) 0%R vector1.

Definition sum_squares (vector : Vector) : R :=
  map_fold (fun _ val sum => (sum + val * val)%R) 0%R vector.

Definition magnitude (vector : Vector) : R := sqrt (sum_squares vector).

(** [vector2[term]] is a property read on a plain object: for a term of
    [vector1] that [vector2] does not hold but [Object.prototype] does
    (["constructor"], say), it is a function, which is truthy and makes
    the product, and with it the sum, [NaN]. *)
Definition meets_member (vector1 vector2 : Vector) : bool :=
  existsb (fun term =>
    match vector1 !! term, vector2 !! term with
    | Some _, None => true
    | _, _ => false
    end) JsObject.prototype_members.

(** [None] as an argument is [null] or [undefined]; [None] as a result is
    a number that is not finite. *)
Definition cosineDistance (vector1 vector2 : option Vector) : option R :=
  match vector1, vector2 with
  | Some v1, Some v2 =>
      if (size v1 =? 0)%nat || (size v2 =? 0)%nat then Some 1%R
      else
        let magnitude1 := magnitude v1 in
        let magnitude2 := magnitude v2 in
        if is_zero magnitude1 || is_zero magnitude2 then Some 1%R
        else if meets_member v1 v2 then None
        else
          match divide (dotProduct v1 v2) (magnitude1 * magnitude2) with
          | Some cosineSimilarity => Some (1 - cosineSimilarity)%R
          | None => None
          end
  | _, _ => Some 1%R
  end.


End VectorUtils.

(** ** utils/vector-utils.js, on the numbers of the language

    The same function on IEEE 754 doubles, rounded to nearest, and with
    the property reads of the language. A vector is the list of the
    properties of the object itself, in the order in which [for ... in],
    [Object.keys] and [Object.values] visit them; no key occurs twice. *)

Module VectorUtils64.

Definition Vector : Type := list (string * float).

Fixpoint own (vector : Vector) (term : string) : option float :=
  match vector with
  | [] => None
  | (k, w) :: rest => if String.eqb k term then Some w else own rest term
  end.

(** [vector[term]] *)
Definition read (vector : Vector) (term : string) : option (JsObject.Found float) :=
  match own vector term with
  | Some w => Some (JsObject.Own w)
  | None => if JsObject.inherited term then Some (JsObject.Member term) else None
  end.

(** A number is truthy unless it is zero or [NaN]; a function is truthy. *)
Definition truthy (value : option (JsObject.Found float)) : bool :=
  match value with
  | Some (JsObject.Own w) => negb (PrimFloat.eqb w 0%float) && PrimFloat.eqb w w
  | Some (JsObject.Member _) => true
  | None => false
  end.

(** The value as an operand of [*]: a function converts to [NaN]. *)
Definition to_number (value : option (JsObject.Found float)) : float :=
  match value with
  | Some (JsObject.Own w) => w
  | _ => PrimFloat.nan
  end.

Definition dotProduct (vector1 vector2 : Vector) : float :=
  fold_left (fun dotProduct entry =>
    let value := read vector2 (fst entry) in
    if truthy value then (dotProduct + snd entry * to_number value)%float
    else dotProduct) vector1 0%float.

Definition magnitude (vector : Vector) : float :=
  PrimFloat.sqrt
    (fold_left (fun sum entry => (sum + snd entry * snd entry)%float) vector 0%float).

(** [magnitude === 0] *)
Definition is_zero (x : float) : bool := PrimFloat.eqb x 0%float.

(** [None] as an argument is [null] or [undefined]. *)
Definition cosineDistance (vector1 vector2 : option Vector) : float :=
  match vector1, vector2 with
  | Some v1, Some v2 =>
      if (length v1 =? 0)%nat || (length v2 =? 0)%nat then 1%float
      else
        let magnitude1 := magnitude v1 in
        let magnitude2 := magnitude v2 in
        if is_zero magnitude1 || is_zero magnitude2 then 1%float
        else
          let cosineSimilarity :=
            (dotProduct v1 v2 / (magnitude1 * magnitude2))%float in
          (1 - cosineSimilarity)%float
  | _, _ => 1%float
  end.

(** [new Set(keys)]: the keys in the order of their first insertion. *)
Fixpoint distinct (seen keys : list string) : list string :=
  match keys with
  | [] => []
  | key :: rest =>
      if existsb (String.eqb key) seen then distinct seen rest
      else key :: distinct (key :: seen) rest
  end.

Definition dimensions (vector1 vector2 : Vector) : list string :=
  distinct [] (map fst vector1 ++ map fst vector2).

(** [vector[dim] || 0], as an operand of [-]: a weight that is zero or
    [NaN] gives 0, and so does a term that neither the vector nor
    [Object.prototype] holds; a member of [Object.prototype] is kept, and
    converts to [NaN]. *)
Definition coordinate (vector : Vector) (dim : string) : float :=
  let value := read vector dim in
  if truthy value then to_number value else 0%float.

Definition euclideanDistance (vector1 vector2 : Vector) : float :=
  PrimFloat.sqrt
    (fold_left (fun sumSquaredDiff dim =>
       let diff := (coordinate vector1 dim - coordinate vector2 dim)%float in
       (sumSquaredDiff + diff * diff)%float)
     (dimensions vector1 vector2) 0%float).

Definition manhattanDistance (vector1 vector2 : Vector) : float :=
  fold_left (fun sumAbsDiff dim =>
    (sumAbsDiff
     + PrimFloat.abs (coordinate vector1 dim - coordinate vector2 dim))%float)
    (dimensions vector1 vector2) 0%float.

(** [normalizeVector(vector)]. [{ ...vector }] copies every property of the
    vector; an assignment [normalizedVector[term] = number] adds the term
    at the end, except that it is ignored for ["__proto__"]. *)
Definition normalizeVector (vector : Vector) : Vector :=
  let magnitude := magnitude vector in
  if is_zero magnitude then vector
  else
    fold_left (fun normalizedVector entry =>
      if String.eqb (fst entry) "__proto__" then normalizedVector
      else (normalizedVector ++ [(fst entry, (snd entry / magnitude)%float)])%list)
      vector [].

Definition weights_mismatch : Js.Error :=
  Js.PlainError "Weights array length must match vectors array length".

(** A property of the object that [mergeVectors] builds: a number, or,
    under a name that [Object.prototype] holds, the string that [+=] makes
    of the inherited member and of the numbers added to it (the text of
    the member, followed by the numbers in decimal). *)
Inductive Merged : Type :=
| Number (x : float)
| Text (name : string) (addends : list float).

Definition MergedVector : Type := list (string * Merged).

Fixpoint held (mergedVector : MergedVector) (term : string) : option Merged :=
  match mergedVector with
  | [] => None
  | (k, value) :: rest => if String.eqb k term then Some value else held rest term
  end.

(** [mergedVector[term] = value] for a term other than ["__proto__"]: a
    property the object holds keeps its place, a new one goes to the end. *)
Fixpoint put (mergedVector : MergedVector) (term : string) (value : Merged)
    : MergedVector :=
  match mergedVector with
  | [] => [(term, value)]
  | (k, old) :: rest =>
      if String.eqb k term then (k, value) :: rest
      else (k, old) :: put rest term value
  end.

(** The body of the inner loop:
    [if (!mergedVector[term]) mergedVector[term] = 0;
     mergedVector[term] += val * weight].
    A sum that is zero or [NaN] is falsy and starts again from 0. Under a
    name of [Object.prototype] the read finds the inherited member, which
    is truthy, and [+=] appends to its text; the assignment of that string
    to ["__proto__"] is ignored. *)
Definition add_weighted (mergedVector : MergedVector) (term : string)
    (val weight : float) : MergedVector :=
  match held mergedVector term with
  | Some (Number sum) =>
      let sum := if truthy (Some (JsObject.Own sum)) then sum else 0%float in
      put mergedVector term (Number (sum + val * weight))
  | Some (Text name addends) =>
      put mergedVector term (Text name (addends ++ [(val * weight)%float])%list)
  | None =>
      if JsObject.inherited term then
        if String.eqb term "__proto__" then mergedVector
        else put mergedVector term (Text term [(val * weight)%float])
      else put mergedVector term (Number (0 + val * weight))
  end.

(** [vectors.length] as a number *)
Definition length_of {A} (array : list A) : float :=
  PrimFloat.of_uint63 (Uint63.of_Z (Z.of_nat (length array))).

(** [mergeVectors(vectors, weights = null)]: [None] is [null] or
    [undefined]. *)
Definition mergeVectors (vectors : option (list Vector)) (weights : option (list float))
    : Js.Outcome MergedVector :=
  match vectors with
  | None | Some [] => Js.Return []
  | Some vs =>
      let ws :=
        match weights with
        | Some ws => ws
        | None => map (fun _ => (1 / length_of vs)%float) vs
        end in
      if negb (length ws =? length vs)%nat then Js.Throw weights_mismatch
      else
        Js.Return
          (fold_left (fun mergedVector vw =>
             fold_left (fun mergedVector entry =>
               add_weighted mergedVector (fst entry) (snd entry) (snd vw))
               (fst vw) mergedVector)
             (combine vs ws) [])
  end.

End VectorUtils64.

(** ** modules/semantic-analyzer.js *)

Module SemanticAnalyzer.

Import VectorUtils.

Record Keyword : Type := { term : string; kw_tfidf : R }.

(** One document of the TF-IDF corpus: [addDocument(tokens, key)]. *)
Record Document : Type := { doc_tokens : list string; doc_key : string }.

(** The operations of [natural] that the analyzer calls. A [TfIdf] object
    is represented by the list of its documents; [holds] says whether
    [documents[i][token]] is truthy on the object that the library built
    for a document. *)
Record Natural : Type := {
  tokenize : string -> list string;
  stem : string -> string;
  tfidf_of : list Document -> string -> string -> Js.Outcome R;
  idf_of : list Document -> string -> R;
  listTerms : list Document -> Z -> list Keyword;
  holds : Document -> string -> bool
}.

Record Config : Type := {
  minTokenLength : nat;
  stopWords : list string;
  similarityThreshold : R
}.

Definition default_config : Config :=
  {| minTokenLength := 3;
     stopWords := ["the"; "and"; "or"; "to"; "a"; "in"; "of"; "for"; "on"; "with"];
     similarityThreshold := 0.7%R |}.

(** An entry of the semantic index. The three kinds of entry are objects
    with different fields; an absent field is [None] ([undefined]). *)
Record Item : Type := {
  it_path : option string;
  it_name : option string;
  it_filePath : option string;
  it_tokens : list string;
  it_vector : option Vector;
  it_keywords : list Keyword;
  it_params : option (list string);
  it_methods : option (list string)
}.

(** An object enumerated with [for ... in]: keys in insertion order. *)
Definition Dict : Type := list (string * Item).

Fixpoint dict_set (k : string) (v : Item) (d : Dict) : Dict :=
  match d with
  | [] => [(k, v)]
  | (k', v') :: d' =>
      if String.eqb k k' then (k, v) :: d' else (k', v') :: dict_set k v d'
  end.

Fixpoint dict_get (d : Dict) (k : string) : option Item :=
  match d with
  | [] => None
  | (k', v') :: d' => if String.eqb k k' then Some v' else dict_get d' k
  end.

Record SemanticIndex : Type := {
  files : Dict;
  functions : Dict;
  classes : Dict
}.

Definition empty_index : SemanticIndex :=
  {| files := []; functions := []; classes := [] |}.

Record t : Type := {
  config : Config;
  natural : Natural;
  tfidf : list Document;
  semanticIndex : SemanticIndex
}.

Definition create (cfg : Config) (lib : Natural) : t :=
  {| config := cfg; natural := lib; tfidf := []; semanticIndex := empty_index |}.

Definition set_tfidf (docs : list Document) (self : t) : t :=
  {| config := config self; natural := natural self; tfidf := docs;
     semanticIndex := semanticIndex self |}.

Definition set_semanticIndex (idx : SemanticIndex) (self : t) : t :=
  {| config := config self; natural := natural self; tfidf := tfidf self;
     semanticIndex := idx |}.

Inductive Section_ : Type := Files | Functions | Classes.

Definition section_of (sec : Section_) (idx : SemanticIndex) : Dict :=
  match sec with
  | Files => files idx
  | Functions => functions idx
  | Classes => classes idx
  end.

Definition set_section (sec : Section_) (d : Dict) (idx : SemanticIndex) : SemanticIndex :=
  match sec with
  | Files => {| files := d; functions := functions idx; classes := classes idx |}
  | Functions => {| files := files idx; functions := d; classes := classes idx |}
  | Classes => {| files := files idx; functions := functions idx; classes := d |}
  end.

Definition store (sec : Section_) (k : string) (v : Item) : Js.M t unit :=
  Js.modify (fun self =>
    set_semanticIndex
      (set_section sec (dict_set k v (section_of sec (semanticIndex self)))
         (semanticIndex self)) self).

Definition addDocument (tokens : list string) (key : string) : Js.M t unit :=
  Js.modify (fun self =>
    set_tfidf (tfidf self ++ [{| doc_tokens := tokens; doc_key := key |}]) self).

Definition is_lower (c : ascii) : bool :=
  let n := nat_of_ascii c in (97 <=? n)%nat && (n <=? 122)%nat.

Definition is_upper (c : ascii) : bool :=
  let n := nat_of_ascii c in (65 <=? n)%nat && (n <=? 90)%nat.

(** [text.replace(/([a-z])([A-Z])/g, '$1 $2')] *)
Fixpoint split_camel (text : string) : string :=
  match text with
  | EmptyString => EmptyString
  | String c rest =>
      match rest with
      | String c' _ =>
          if is_lower c && is_upper c'
          then String c (String " "%char (split_camel rest))
          else String c (split_camel rest)
      | EmptyString => String c EmptyString
      end
  end.

Definition lower_char (c : ascii) : ascii :=
  if is_upper c then ascii_of_nat (nat_of_ascii c + 32) else c.

Fixpoint toLowerCase (text : string) : string :=
  match text with
  | EmptyString => EmptyString
  | String c rest => String (lower_char c) (toLowerCase rest)
  end.

Definition tokenizeAndStem (self : t) (text : string) : list string :=
  let spacedText := split_camel text in
  let tokens := tokenize (natural self) (toLowerCase spacedText) in
  let filteredTokens :=
    List.filter (fun token =>
      (minTokenLength (config self) <=? String.length token)%nat
      && negb (existsb (String.eqb token) (stopWords (config self)))) tokens in
  map (stem (natural self)) filteredTokens.

(** [[...new Set(tokens)]] *)
Fixpoint unique (seen tokens : list string) : list string :=
  match tokens with
  | [] => []
  | tok :: rest =>
      if existsb (String.eqb tok) seen then unique seen rest
      else tok :: unique (tok :: seen) rest
  end.

Fixpoint tfidf_vector (self : t) (docId : string) (tokens : list string)
    (vector : Vector) : Js.Outcome Vector :=
  match tokens with
  | [] => Js.Return vector
  | token :: rest =>
      match tfidf_of (natural self) (tfidf self) token docId with
      | Js.Return w =>
          tfidf_vector self docId rest (JsObject.set_primitive token w vector)
      | Js.Throw e => Js.Throw e
      end
  end.

Definition calculateTfIdfVector (tokens : list string) (docId : string)
    : Js.M t Vector :=
  fun self =>
    (tfidf_vector self docId (unique [] tokens) ∅, self).

(** [this.tfidf.documents.indexOf(docId)]: the documents are objects and
    [docId] is a string, so the search compares an object with a string at
    every position. *)
Definition documents_indexOf (docs : list Document) (docId : string) : Z := (-1)%Z.

Definition extractKeywords (self : t) (docId : string) (count : nat) : list Keyword :=
  firstn count (listTerms (natural self) (tfidf self) (documents_indexOf (tfidf self) docId)).

Definition with_vector (v : Vector) (it : Item) : Item :=
  {| it_path := it_path it; it_name := it_name it; it_filePath := it_filePath it;
     it_tokens := it_tokens it; it_vector := Some v; it_keywords := it_keywords it;
     it_params := it_params it; it_methods := it_methods it |}.

Definition with_keywords (kws : list Keyword) (it : Item) : Item :=
  {| it_path := it_path it; it_name := it_name it; it_filePath := it_filePath it;
     it_tokens := it_tokens it; it_vector := it_vector it; it_keywords := kws;
     it_params := it_params it; it_methods := it_methods it |}.

(** The second loop of [analyzeFiles], [analyzeFunctions] and
    [analyzeClasses]: the stored entry gets its vector and its keywords. *)
Definition complete_entry (sec : Section_) (docId : string) : Js.M t unit :=
  let* self := Js.get in
  let* semantics :=
    Js.of_option (dict_get (section_of sec (semanticIndex self)) docId)
      (Js.TypeError "Cannot read properties of undefined") in
  let* vector := calculateTfIdfVector (it_tokens semantics) docId in
  let* _ := store sec docId (with_vector vector semantics) in
  let* self := Js.get in
  store sec docId
    (with_keywords (extractKeywords self docId 5) (with_vector vector semantics)).

(** [file.name.replace(/\.[^/.]+$/, '')] *)
Definition strip_extension (name : string) : string :=
  match Path.last_dot name 0 None with
  | Some d =>
      let ext := String.substring (S d) (String.length name - S d) name in
      if String.eqb ext "" || existsb (Ascii.eqb Path.slash) (list_ascii_of_string ext)
      then name
      else String.substring 0 d name
  | None => name
  end.

Definition analyzeFiles (fs : list CodebaseIndexer.FileEntry) : Js.M t unit :=
  let* _ := Js.for_of fs (fun file =>
    let* self := Js.get in
    let fileNameTokens :=
      tokenizeAndStem self (strip_extension (CodebaseIndexer.f_name file)) in
    let* _ := addDocument fileNameTokens (CodebaseIndexer.f_path file) in
    store Files (CodebaseIndexer.f_path file)
      {| it_path := Some (CodebaseIndexer.f_path file); it_name := None;
         it_filePath := None; it_tokens := fileNameTokens; it_vector := None;
         it_keywords := []; it_params := None; it_methods := None |}) in
  Js.for_of fs (fun file => complete_entry Files (CodebaseIndexer.f_path file)).

Definition function_docId (fn : CodebaseIndexer.IndexedFunction) : string :=
  "function:" ++ CodebaseIndexer.if_filePath fn ++ ":"
    ++ CodebaseIndexer.fn_name (CodebaseIndexer.if_func fn).

Definition analyzeFunctions (fns : list CodebaseIndexer.IndexedFunction) : Js.M t unit :=
  let* _ := Js.for_of fns (fun func =>
    let* self := Js.get in
    let f := CodebaseIndexer.if_func func in
    let funcNameTokens := tokenizeAndStem self (CodebaseIndexer.fn_name f) in
    let codeTokens := tokenizeAndStem self (CodebaseIndexer.fn_code f) in
    let allTokens := (funcNameTokens ++ codeTokens)%list in
    let docId := function_docId func in
    let* _ := addDocument allTokens docId in
    store Functions docId
      {| it_path := None; it_name := Some (CodebaseIndexer.fn_name f);
         it_filePath := Some (CodebaseIndexer.if_filePath func);
         it_tokens := allTokens; it_vector := None; it_keywords := [];
         it_params := Some (CodebaseIndexer.fn_params f); it_methods := None |}) in
  Js.for_of fns (fun func => complete_entry Functions (function_docId func)).

Definition class_docId (c : CodebaseIndexer.IndexedClass) : string :=
  "class:" ++ CodebaseIndexer.ic_filePath c ++ ":"
    ++ CodebaseIndexer.cls_name (CodebaseIndexer.ic_cls c).

Definition analyzeClasses (cs : list CodebaseIndexer.IndexedClass) : Js.M t unit :=
  let* _ := Js.for_of cs (fun cls =>
    let* self := Js.get in
    let c := CodebaseIndexer.ic_cls cls in
    let classNameTokens := tokenizeAndStem self (CodebaseIndexer.cls_name c) in
    let codeTokens := tokenizeAndStem self (CodebaseIndexer.cls_code c) in
    let allTokens := (classNameTokens ++ codeTokens)%list in
    let docId := class_docId cls in
    let* _ := addDocument allTokens docId in
    store Classes docId
      {| it_path := None; it_name := Some (CodebaseIndexer.cls_name c);
         it_filePath := Some (CodebaseIndexer.ic_filePath cls);
         it_tokens := allTokens; it_vector := None; it_keywords := [];
         it_params := None;
         it_methods := Some (map CodebaseIndexer.m_name (CodebaseIndexer.cls_methods c)) |}) in
  Js.for_of cs (fun cls => complete_entry Classes (class_docId cls)).

Definition analyzeCodebase (codeIndex : CodebaseIndexer.CodeIndex)
    : Js.M t SemanticIndex :=
  let* _ := Js.modify (set_tfidf []) in
  let* _ := Js.modify (set_semanticIndex empty_index) in
  let* _ := analyzeFiles (CodebaseIndexer.files codeIndex) in
  let* _ := analyzeFunctions (CodebaseIndexer.functions codeIndex) in
  let* _ := analyzeClasses (CodebaseIndexer.classes codeIndex) in
  let* self := Js.get in
  Js.ret (semanticIndex self).

(** [1 - distance] *)
Definition calculateSimilarity (vector1 vector2 : option Vector) : option R :=
  match cosineDistance vector1 vector2 with
  | Some distance => Some (1 - distance)%R
  | None => None
  end.

Record Options : Type := {
  o_limit : option nat;
  o_types : option (list string);
  o_threshold : option R
}.

Definition no_options : Options :=
  {| o_limit := None; o_types := None; o_threshold := None |}.

Definition limit_of (opts : Options) : nat := default 10 (o_limit opts).

Definition types_of (opts : Options) : list string :=
  default ["files"; "functions"; "classes"] (o_types opts).

(** The effective threshold: the caller's, else the configured one. *)
Definition threshold_of (self : t) (opts : Options) : R :=
  default (similarityThreshold (config self)) (o_threshold opts).

Record Result : Type := {
  r_type : string;
  r_item : Item;
  r_similarity : R
}.

(** [this.tfidf.documents[i][token]], tested for truthiness *)
Definition document_has (self : t) (doc : Document) (token : string) : bool :=
  holds (natural self) doc token.

(** The weight of a query token: the mean of [idf(token)] over the
    documents that hold the token, 0 when none does. *)
Definition averageIdf (self : t) (token : string) : R :=
  let hits := List.filter (fun doc => document_has self doc token) (tfidf self) in
  let totalIdf :=
    fold_left (fun acc _ => (acc + idf_of (natural self) (tfidf self) token)%R) hits 0%R in
  let count := length hits in
  if (0 <? count)%nat then (totalIdf / INR count)%R else 0%R.

Definition queryVector_of (self : t) (queryTokens : list string) : Vector :=
  fold_left (fun vector token =>
    JsObject.set_primitive token (averageIdf self token) vector) queryTokens ∅.

(** [a >= b] on numbers; a non-finite similarity passes no threshold. *)
Definition geb (a b : R) : bool := if Rle_dec b a then true else false.

Definition search (kind : string) (queryVector : Vector) (threshold : R)
    (d : Dict) : list Result :=
  flat_map (fun entry =>
    match calculateSimilarity (Some queryVector) (it_vector (snd entry)) with
    | Some similarity =>
        if geb similarity threshold
        then [{| r_type := kind; r_item := snd entry; r_similarity := similarity |}]
        else []
    | None => []
    end) d.

(** [results.sort((a, b) => b.similarity - a.similarity)]: the sort of the
    language is stable, and a stable sort is determined by its comparator;
    it is written here as an insertion sort. *)
Fixpoint insert_by {A} (key : A -> R) (x : A) (sorted : list A) : list A :=
  match sorted with
  | [] => [x]
  | y :: rest =>
      if Rle_dec (key y - key x) 0 then x :: y :: rest
      else y :: insert_by key x rest
  end.

Fixpoint sort_desc {A} (key : A -> R) (xs : list A) : list A :=
  match xs with
  | [] => []
  | x :: rest => insert_by key x (sort_desc key rest)
  end.

Definition includes (xs : list string) (x : string) : bool :=
  existsb (String.eqb x) xs.

Definition findSimilarElements (self : t) (query : string) (opts : Options)
    : list Result :=
  let queryTokens := tokenizeAndStem self query in
  let queryVector := queryVector_of self queryTokens in
  let threshold := threshold_of self opts in
  let results : list Result :=
    ((if includes (types_of opts) "files"
      then search "file" queryVector threshold (files (semanticIndex self)) else [])
     ++ (if includes (types_of opts) "functions"
         then search "function" queryVector threshold (functions (semanticIndex self))
         else [])
     ++ (if includes (types_of opts) "classes"
         then search "class" queryVector threshold (classes (semanticIndex self))
         else []))%list in
  firstn (limit_of opts) (sort_desc r_similarity results).

End SemanticAnalyzer.

(** ** modules/dependency-analyzer.js *)

Module DependencyAnalyzer.

Record Config : Type := {
  maxDepth : nat;
  includeNodeModules : bool
}.

Definition default_config : Config :=
  {| maxDepth := 3; includeNodeModules := false |}.

Inductive Node : Type :=
| FileNode (id name path : string) (size : nat) (lastModified : option string)
| FunctionNode (id name filePath : string) (params : list string) (loc : Ast.Loc)
| ClassNode (id name filePath : string)
    (methods : list CodebaseIndexer.MethodEntry) (loc : Ast.Loc)
| MethodNode (id name className filePath : string) (params : list string)
    (loc : Ast.Loc).

Definition node_id (n : Node) : string :=
  match n with
  | FileNode id _ _ _ _ | FunctionNode id _ _ _ _
  | ClassNode id _ _ _ _ | MethodNode id _ _ _ _ _ => id
  end.

Definition node_type (n : Node) : string :=
  match n with
  | FileNode _ _ _ _ _ => "file"
  | FunctionNode _ _ _ _ _ => "function"
  | ClassNode _ _ _ _ _ => "class"
  | MethodNode _ _ _ _ _ _ => "method"
  end.

Record Edge : Type := {
  e_source : string;
  e_target : string;
  e_type : string;
  e_metadata : gmap string R
}.

Record GraphMetadata : Type := {
  createdAt : option string;
  nodeCount : nat;
  edgeCount : nat
}.

Record Graph : Type := {
  nodes : gmap string Node;
  edges : list Edge;
  metadata : GraphMetadata
}.

Definition empty_graph : Graph :=
  {| nodes := ∅; edges := [];
     metadata := {| createdAt := None; nodeCount := 0; edgeCount := 0 |} |}.

Record t : Type := {
  config : Config;
  dependencyGraph : Graph
}.

Definition create (cfg : Config) : t :=
  {| config := cfg; dependencyGraph := empty_graph |}.

Definition on_graph (f : Graph -> Graph) : Js.M t unit :=
  Js.modify (fun self =>
    {| config := config self; dependencyGraph := f (dependencyGraph self) |}).

Definition resetDependencyGraph : Js.M t unit := on_graph (fun _ => empty_graph).

Definition updateGraphMetadata (now : string) : Js.M t unit :=
  on_graph (fun g =>
    {| nodes := nodes g; edges := edges g;
       metadata := {| createdAt := Some now;
                      nodeCount := size (nodes g);
                      edgeCount := length (edges g) |} |}).

(** [this.dependencyGraph.nodes[nodeId] = node] *)
Definition set_node (nodeId : string) (n : Node) : Js.M t unit :=
  on_graph (fun g =>
    {| nodes := <[nodeId := n]> (nodes g); edges := edges g; metadata := metadata g |}).

Definition same_edge (sourceId targetId type : string) (edge : Edge) : bool :=
  String.eqb (e_source edge) sourceId
  && String.eqb (e_target edge) targetId
  && String.eqb (e_type edge) type.

(** [Object.assign(existingEdge.metadata, metadata)] on the first edge that
    [find] returns. *)
Fixpoint assign_metadata (sourceId targetId type : string)
    (md : gmap string R) (es : list Edge) : list Edge :=
  match es with
  | [] => []
  | edge :: rest =>
      if same_edge sourceId targetId type edge then
        {| e_source := e_source edge; e_target := e_target edge;
           e_type := e_type edge; e_metadata := md ∪ e_metadata edge |} :: rest
      else edge :: assign_metadata sourceId targetId type md rest
  end.

(** The test [!nodes[sourceId] || !nodes[targetId]] is a property read on
    the plain object [nodes]: an identifier that names a member of
    [Object.prototype] passes it. *)
Definition addEdge_graph (sourceId targetId type : string)
    (md : gmap string R) (g : Graph) : Graph :=
  match JsObject.get (nodes g) sourceId, JsObject.get (nodes g) targetId with
  | Some _, Some _ =>
      match find (same_edge sourceId targetId type) (edges g) with
      | Some _ =>
          {| nodes := nodes g;
             edges := assign_metadata sourceId targetId type md (edges g);
             metadata := metadata g |}
      | None =>
          {| nodes := nodes g;
             edges := edges g ++
               [{| e_source := sourceId; e_target := targetId; e_type := type;
                   e_metadata := md ∪ {["weight" := 1%R]} |}];
             metadata := metadata g |}
      end
  | _, _ => g
  end.

(** [addEdge(sourceId, targetId, type, metadata = {})] *)
Definition addEdge (sourceId targetId type : string) (md : gmap string R)
    : Js.M t unit :=
  on_graph (addEdge_graph sourceId targetId type md).

Definition addFilesToGraph (fs : list CodebaseIndexer.FileEntry) : Js.M t unit :=
  Js.for_of fs (fun file =>
    let nodeId := "file:" ++ CodebaseIndexer.f_path file in
    set_node nodeId
      (FileNode nodeId (CodebaseIndexer.f_name file) (CodebaseIndexer.f_path file)
         (CodebaseIndexer.f_size file) (CodebaseIndexer.f_lastModified file))).

Definition addFunctionsToGraph (fns : list CodebaseIndexer.IndexedFunction)
    : Js.M t unit :=
  Js.for_of fns (fun func =>
    let f := CodebaseIndexer.if_func func in
    let filePath := CodebaseIndexer.if_filePath func in
    let nodeId := "function:" ++ filePath ++ ":" ++ CodebaseIndexer.fn_name f in
    let* _ := set_node nodeId
      (FunctionNode nodeId (CodebaseIndexer.fn_name f) filePath
         (CodebaseIndexer.fn_params f) (CodebaseIndexer.fn_loc f)) in
    addEdge nodeId ("file:" ++ filePath) "contains" ∅).

Definition addClassesToGraph (cs : list CodebaseIndexer.IndexedClass)
    : Js.M t unit :=
  Js.for_of cs (fun cls =>
    let c := CodebaseIndexer.ic_cls cls in
    let filePath := CodebaseIndexer.ic_filePath cls in
    let nodeId := "class:" ++ filePath ++ ":" ++ CodebaseIndexer.cls_name c in
    let* _ := set_node nodeId
      (ClassNode nodeId (CodebaseIndexer.cls_name c) filePath
         (CodebaseIndexer.cls_methods c) (CodebaseIndexer.cls_loc c)) in
    let* _ := addEdge nodeId ("file:" ++ filePath) "contains" ∅ in
    Js.for_of (CodebaseIndexer.cls_methods c) (fun method =>
      let methodNodeId :=
        "method:" ++ filePath ++ ":" ++ CodebaseIndexer.cls_name c ++ "."
          ++ CodebaseIndexer.m_name method in
      let* _ := set_node methodNodeId
        (MethodNode methodNodeId (CodebaseIndexer.m_name method)
           (CodebaseIndexer.cls_name c) filePath
           (CodebaseIndexer.m_params method) (CodebaseIndexer.m_loc method)) in
      addEdge methodNodeId nodeId "memberOf" ∅)).

(** The object that the name [fs] is bound to, as far as
    [resolveImportPath] uses it: its member [existsSync], if it has one. *)
Record FsObject : Type := {
  existsSync : option (Host.FileSystem -> string -> bool)
}.

(** [require('fs')] *)
Definition node_fs : FsObject := {| existsSync := Some Host.exists_on_disk |}.

(** [require('fs').promises]: the promise API has no synchronous members. *)
Definition node_fs_promises : FsObject := {| existsSync := None |}.

(** Line 6 of the module: [const fs = require('fs').promises;] *)
Definition fs : FsObject := node_fs_promises.

Definition call_existsSync (fsobj : FsObject) (disk : Host.FileSystem) (p : string)
    : Js.Outcome bool :=
  match existsSync fsobj with
  | Some f => Js.Return (f disk p)
  | None => Js.Throw (Js.TypeError "fs.existsSync is not a function")
  end.

(** [try { if (fs.existsSync(p)) return p; } catch (e) { }] *)
Definition probe (fsobj : FsObject) (disk : Host.FileSystem) (p : string) : bool :=
  match call_existsSync fsobj disk p with
  | Js.Return found => found
  | Js.Throw _ => false
  end.

Definition probed_extensions : list string := [".js"; ".jsx"; ".ts"; ".tsx"].

Definition resolveImportPath_with (fsobj : FsObject) (cfg : Config)
    (host : Host.t) (importPath currentFilePath : string) : option string :=
  if negb (includeNodeModules cfg)
     && (String.prefix "node_modules/" importPath
         || (negb (String.prefix "." importPath)
             && negb (String.prefix "/" importPath)))
  then None
  else
    let resolved :=
      if String.prefix "." importPath then
        let currentDir := Path.dirname currentFilePath in
        Some (Path.resolve (Host.cwd host) [currentDir; importPath])
      else if String.prefix "/" importPath then Some importPath
      else None in
    match resolved with
    | None => None
    | Some resolvedPath =>
        if String.eqb (Path.extname resolvedPath) "" then
          match find (probe fsobj (Host.fs host))
                  (map (fun ext => resolvedPath ++ ext) probed_extensions) with
          | Some pathWithExt => Some pathWithExt
          | None =>
              match find (probe fsobj (Host.fs host))
                      (map (fun ext => Path.join resolvedPath ("index" ++ ext))
                         probed_extensions) with
              | Some indexPath => Some indexPath
              | None => Some resolvedPath
              end
          end
        else Some resolvedPath
    end.

Definition resolveImportPath : Config -> Host.t -> string -> string -> option string :=
  resolveImportPath_with fs.

(** [if (resolvedPath) this.addEdge(...)] *)
Definition link_files (resolve : string -> string -> option string)
    (filePath importPath type : string) : Js.M t unit :=
  match resolve importPath filePath with
  | Some resolvedPath =>
      if String.eqb resolvedPath "" then Js.ret tt
      else addEdge ("file:" ++ filePath) ("file:" ++ resolvedPath) type ∅
  | None => Js.ret tt
  end.

Definition import_visitor (resolve : string -> string -> option string)
    (filePath : string) (_ : list Ast.Kind) (k : Ast.Kind) : Js.M t unit :=
  match k with
  | Ast.ImportDeclaration importPath =>
      link_files resolve filePath importPath "imports"
  | Ast.CallExpression (Ast.CalleeIdentifier name) (Ast.StringLiteral importPath :: _) =>
      if String.eqb name "require"
      then link_files resolve filePath importPath "requires"
      else Js.ret tt
  | _ => Js.ret tt
  end.

(** The body of the per-file [try]: read, parse, traverse. *)
Definition read_and_traverse (host : Host.t) (filePath : string)
    (visit : list Ast.Kind -> Ast.Kind -> Js.M t unit) : Js.M t unit :=
  Js.try_catch
    (let* content :=
       Js.of_option (Host.readFile (Host.fs host) filePath) (Js.IoError filePath) in
     let* ast := Js.of_option (Host.parsed content) Js.SyntaxError in
     Ast.traverse visit [] ast)
    (fun _ => Js.ret tt).

Definition analyzeFileDependencies_with (fsobj : FsObject) (host : Host.t)
    (fs : list CodebaseIndexer.FileEntry) : Js.M t unit :=
  Js.for_of fs (fun file =>
    let* self := Js.get in
    read_and_traverse host (CodebaseIndexer.f_path file)
      (import_visitor (resolveImportPath_with fsobj (config self) host)
         (CodebaseIndexer.f_path file))).

Definition analyzeFileDependencies : Host.t -> list CodebaseIndexer.FileEntry -> Js.M t unit :=
  analyzeFileDependencies_with fs.

(** The walk up the [parentPath] chain from a call site. On a function or
    arrow expression the code reads [parent.parent.node.type]; [parent.parent]
    is a syntax node, which has no [node] member. *)
Fixpoint enclosing_function (ancestors : list Ast.Kind) : Js.Outcome (option string) :=
  match ancestors with
  | [] => Js.Return None
  | Ast.FunctionDeclaration id _ _ _ :: _ =>
      Js.Return (Some (CodebaseIndexer.declared_name id))
  | Ast.FunctionExpression :: rest | Ast.ArrowFunctionExpression :: rest =>
      match rest with
      | [] => Js.Return (Some "anonymous")
      | _ :: _ =>
          Js.Throw (Js.TypeError "Cannot read properties of undefined (reading 'type')")
      end
  | _ :: rest => enclosing_function rest
  end.

(** [functionMap[func.name] = ...] on a plain object, for every function
    of the index. *)
Definition build_functionMap (fns : list CodebaseIndexer.IndexedFunction)
    : gmap string string :=
  fold_left (fun functionMap func =>
    let name := CodebaseIndexer.fn_name (CodebaseIndexer.if_func func) in
    JsObject.set_primitive name
      ("function:" ++ CodebaseIndexer.if_filePath func ++ ":" ++ name) functionMap)
    fns ∅.

(** The value of [functionMap[calleeName]] as the identifier that
    [addEdge] receives: a string of the map, or a member of
    [Object.prototype], which [nodes[targetId]] converts to a string. *)
Definition callee_id (found : JsObject.Found string) : string :=
  match found with
  | JsObject.Own calleeId => calleeId
  | JsObject.Member name => JsObject.member_text name
  end.

Definition call_visitor (functionMap : gmap string string) (filePath : string)
    (ancestors : list Ast.Kind) (k : Ast.Kind) : Js.M t unit :=
  match k with
  | Ast.CallExpression (Ast.CalleeIdentifier calleeName) _ =>
      match JsObject.get functionMap calleeName with
      | Some found =>
          match enclosing_function ancestors with
          | Js.Throw e => Js.throw e
          | Js.Return None => Js.ret tt
          | Js.Return (Some currentFunctionName) =>
              if String.eqb currentFunctionName ""
                 || String.eqb currentFunctionName "anonymous"
              then Js.ret tt
              else
                let callerId := "function:" ++ filePath ++ ":" ++ currentFunctionName in
                addEdge callerId (callee_id found) "calls" {["weight" := 1%R]}
          end
      | None => Js.ret tt
      end
  | _ => Js.ret tt
  end.

Definition analyzeFunctionCalls (host : Host.t)
    (fns : list CodebaseIndexer.IndexedFunction)
    (fs : list CodebaseIndexer.FileEntry) : Js.M t unit :=
  let functionMap := build_functionMap fns in
  Js.for_of fs (fun file =>
    read_and_traverse host (CodebaseIndexer.f_path file)
      (call_visitor functionMap (CodebaseIndexer.f_path file))).

Definition buildDependencyGraph_with (fsobj : FsObject) (host : Host.t)
    (codeIndex : CodebaseIndexer.CodeIndex) : Js.M t Graph :=
  let* _ := resetDependencyGraph in
  let* _ := addFilesToGraph (CodebaseIndexer.files codeIndex) in
  let* _ := addFunctionsToGraph (CodebaseIndexer.functions codeIndex) in
  let* _ := addClassesToGraph (CodebaseIndexer.classes codeIndex) in
  let* _ := analyzeFileDependencies_with fsobj host (CodebaseIndexer.files codeIndex) in
  let* _ := analyzeFunctionCalls host (CodebaseIndexer.functions codeIndex)
              (CodebaseIndexer.files codeIndex) in
  let* _ := updateGraphMetadata (Host.now host) in
  let* self := Js.get in
  Js.ret (dependencyGraph self).

Definition buildDependencyGraph : Host.t -> CodebaseIndexer.CodeIndex -> Js.M t Graph :=
  buildDependencyGraph_with fs.

(** *** Traversal *)

Record Options : Type := {
  direction : string;
  types : option (list string);
  depth : nat;
  maxResults : nat
}.

Definition defaults : Options :=
  {| direction := "outgoing"; types := None; depth := 1; maxResults := 100 |}.

Record Dependency : Type := {
  dep_id : string;
  dep_node : JsObject.Found Node;
  dep_edge : Edge;
  dep_depth : nat
}.

(** The two objects that the recursion mutates. *)
Record Walk : Type := {
  visited : gset string;
  dependencies : list Dependency
}.

Definition related_edges (g : Graph) (options : Options) (nodeId : string) : list Edge :=
  let es :=
    List.filter (fun edge =>
      if String.eqb (direction options) "outgoing" then String.eqb (e_source edge) nodeId
      else if String.eqb (direction options) "incoming" then String.eqb (e_target edge) nodeId
      else String.eqb (e_source edge) nodeId || String.eqb (e_target edge) nodeId)
      (edges g) in
  match types options with
  | Some ts => List.filter (fun edge => existsb (String.eqb (e_type edge)) ts) es
  | None => es
  end.

Definition edge_end (options : Options) (edge : Edge) : string :=
  if String.eqb (direction options) "incoming" then e_source edge else e_target edge.

Definition mark_visited (nodeId : string) (w : Walk) : Walk :=
  {| visited := {[nodeId]} ∪ visited w; dependencies := dependencies w |}.

Definition push_dependency (d : Dependency) (w : Walk) : Walk :=
  {| visited := visited w; dependencies := dependencies w ++ [d] |}.

(** The loop over the filtered edges of one call. [recurse] is the call
    one level down; the [return] on reaching [maxResults] ends this loop,
    and with it this call, not the loops of the callers. *)
Fixpoint each_edge (recurse : string -> Walk -> Walk) (g : Graph)
    (options : Options) (currentDepth : nat) (filteredEdges : list Edge)
    (w : Walk) : Walk :=
  match filteredEdges with
  | [] => w
  | edge :: rest =>
      let targetId := edge_end options edge in
      if bool_decide (targetId ∈ visited w) then
        each_edge recurse g options currentDepth rest w
      else
        match JsObject.get (nodes g) targetId with
        | None => each_edge recurse g options currentDepth rest w
        | Some targetNode =>
            let w :=
              push_dependency
                {| dep_id := targetId; dep_node := targetNode;
                   dep_edge := edge; dep_depth := currentDepth + 1 |} w in
            if (maxResults options <=? length (dependencies w))%nat then w
            else
              each_edge recurse g options currentDepth rest (recurse targetId w)
        end
  end.

(** [getDependenciesRecursive]. [currentDepth] grows by one per call and
    the first test stops at [depth options]; [fuel] is the structural
    bound, and [getNodeDependencies] passes [depth options]. *)
Fixpoint getDependenciesRecursive (fuel : nat) (g : Graph) (nodeId : string)
    (options : Options) (w : Walk) (currentDepth : nat) : Walk :=
  if (depth options <=? currentDepth)%nat then w
  else
    match fuel with
    | O => w
    | S fuel' =>
        each_edge
          (fun targetId w =>
             getDependenciesRecursive fuel' g targetId options w (currentDepth + 1))
          g options currentDepth (related_edges g options nodeId)
          (mark_visited nodeId w)
    end.

Definition getNodeDependencies (self : t) (nodeId : string) (options : Options)
    : list Dependency :=
  match JsObject.get (nodes (dependencyGraph self)) nodeId with
  | None => []
  | Some _ =>
      dependencies
        (getDependenciesRecursive (depth options) (dependencyGraph self) nodeId
           options {| visited := ∅; dependencies := [] |} 0)
  end.

Record Impact : Type := {
  i_nodeId : string;
  i_node : option (JsObject.Found Node);
  impactedNodes : list Dependency;
  dependencyNodes : list Dependency;
  impactScore : nat;
  dependencyScore : nat
}.

Definition getImpactAnalysis (self : t) (nodeId : string) : Impact :=
  let impacted :=
    getNodeDependencies self nodeId
      {| direction := "incoming"; types := None;
         depth := maxDepth (config self); maxResults := 100 |} in
  let dependency :=
    getNodeDependencies self nodeId
      {| direction := "outgoing"; types := None;
         depth := maxDepth (config self); maxResults := 100 |} in
  {| i_nodeId := nodeId;
     i_node := JsObject.get (nodes (dependencyGraph self)) nodeId;
     impactedNodes := impacted;
     dependencyNodes := dependency;
     impactScore := length impacted;
     dependencyScore := length dependency |}.

End DependencyAnalyzer.

(** ** The dependency-graph argument of the mapping algorithm and of the
    change predictor

    Both receive an object and test it for the methods they want. The
    repository has two such objects: the data that [buildDependencyGraph]
    returns, with no method, and a [DependencyAnalyzer] instance. *)

Module GraphObject.

(** What [getNodeDependencies] may hand back in its array. *)
Inductive Entry : Type :=
| EntryString (s : string)
| EntryRecord (d : DependencyAnalyzer.Dependency).

Record t : Type := {
  getNodeDependencies :
    option (string -> DependencyAnalyzer.Options -> list Entry);
  getImpactAnalysis : option (string -> DependencyAnalyzer.Impact)
}.

Definition of_graph (g : DependencyAnalyzer.Graph) : t :=
  {| getNodeDependencies := None; getImpactAnalysis := None |}.

Definition of_analyzer (a : DependencyAnalyzer.t) : t :=
  {| getNodeDependencies :=
       Some (fun nodeId options =>
               map EntryRecord (DependencyAnalyzer.getNodeDependencies a nodeId options));
     getImpactAnalysis := Some (DependencyAnalyzer.getImpactAnalysis a) |}.

End GraphObject.

(** ** Process-wide state: the properties of [global] that the code reads *)

Module Global.

Record t : Type := {
  semanticAnalyzer : option SemanticAnalyzer.t
}.

Definition initial : t := {| semanticAnalyzer := None |}.

End Global.

(** ** modules/mapping-algorithm.js *)

Module MappingAlgorithm.

Record Config : Type := {
  similarityThreshold : R;
  maxResults : nat;
  weightKeywords : R;
  weightDescription : R
}.

Definition default_config : Config :=
  {| similarityThreshold := 0.7%R; maxResults := 10;
     weightKeywords := 0.6%R; weightDescription := 0.4%R |}.

Record t : Type := { config : Config }.

Record Task : Type := {
  task_id : option string;
  task_title : option string;
  task_description : option string;
  task_type : option string;
  task_keywords : option (list string);
  task_dependencies : option (list string)
}.

Record TaskAnalysis : Type := {
  ta_task : Task;
  ta_taskText : string;
  ta_keywords : list string;
  ta_title : string;
  ta_description : string;
  ta_type : string
}.

(** [value || ''] on a string that may be undefined or empty *)
Definition or_empty (o : option string) : string := default "" o.

Definition analyzeTask (task : Task) : TaskAnalysis :=
  let keywords := default [] (task_keywords task) in
  let title := or_empty (task_title task) in
  let description := or_empty (task_description task) in
  let type := or_empty (task_type task) in
  {| ta_task := task;
     ta_taskText :=
       title ++ " " ++ description ++ " " ++ type ++ " " ++ String.concat " " keywords;
     ta_keywords := keywords;
     ta_title := title;
     ta_description := description;
     ta_type := type |}.

(** A search result on its way through the algorithm: the fields of the
    semantic result, those that [combineSearchResults] adds, and those that
    [rankResultsByDependencies] adds when the graph can be traversed. *)
Record Element : Type := {
  el_type : string;
  el_item : SemanticAnalyzer.Item;
  el_similarity : R;
  el_weight : R;
  el_originalSimilarity : R;
  el_dependencyScore : option R;
  el_finalScore : option R
}.

(** A property that is [undefined], inside a template literal *)
Definition render (o : option string) : string := default "undefined" o.

Definition item_key (type : string) (item : SemanticAnalyzer.Item) : string :=
  type ++ ":" ++ render (SemanticAnalyzer.it_filePath item) ++ ":"
    ++ render (SemanticAnalyzer.it_name item).

Definition getElementKey (element : Element) : string :=
  item_key (el_type element) (el_item element).

Definition merge_into (result : SemanticAnalyzer.Result) (weight : R)
    (existing : Element) : Element :=
  let similarity :=
    (el_similarity existing * el_weight existing
     + SemanticAnalyzer.r_similarity result * weight)%R in
  let weight' := (el_weight existing + weight)%R in
  {| el_type := el_type existing; el_item := el_item existing;
     el_similarity := (similarity / weight')%R;
     el_weight := weight';
     el_originalSimilarity := el_originalSimilarity existing;
     el_dependencyScore := el_dependencyScore existing;
     el_finalScore := el_finalScore existing |}.

Definition fresh_element (result : SemanticAnalyzer.Result) (weight : R) : Element :=
  {| el_type := SemanticAnalyzer.r_type result;
     el_item := SemanticAnalyzer.r_item result;
     el_similarity := SemanticAnalyzer.r_similarity result;
     el_weight := weight;
     el_originalSimilarity := SemanticAnalyzer.r_similarity result;
     el_dependencyScore := None;
     el_finalScore := None |}.

(** The [Map] of [combineSearchResults], keys in insertion order. *)
Fixpoint combine_one (key : string) (result : SemanticAnalyzer.Result)
    (weight : R) (combinedMap : list (string * Element)) : list (string * Element) :=
  match combinedMap with
  | [] => [(key, fresh_element result weight)]
  | (k, existing) :: rest =>
      if String.eqb k key then (k, merge_into result weight existing) :: rest
      else (k, existing) :: combine_one key result weight rest
  end.

Definition combineSearchResults
    (resultSets : list (list SemanticAnalyzer.Result * R)) : list Element :=
  let combinedMap :=
    fold_left (fun acc set =>
      fold_left (fun acc result =>
        combine_one
          (item_key (SemanticAnalyzer.r_type result) (SemanticAnalyzer.r_item result))
          result (snd set) acc) (fst set) acc) resultSets [] in
  SemanticAnalyzer.sort_desc el_similarity (map snd combinedMap).

Definition findSimilarCodeElements (self : t) (taskAnalysis : TaskAnalysis)
    (semanticAnalyzer : SemanticAnalyzer.t) : list Element :=
  let threshold := similarityThreshold (config self) in
  let query text factor :=
    SemanticAnalyzer.findSimilarElements semanticAnalyzer text
      {| SemanticAnalyzer.o_limit := None; SemanticAnalyzer.o_types := None;
         SemanticAnalyzer.o_threshold := Some (threshold * factor)%R |} in
  let titleResults := query (ta_title taskAnalysis) 0.8%R in
  let descriptionResults :=
    SemanticAnalyzer.findSimilarElements semanticAnalyzer (ta_description taskAnalysis)
      {| SemanticAnalyzer.o_limit := None; SemanticAnalyzer.o_types := None;
         SemanticAnalyzer.o_threshold := Some threshold |} in
  let keywordResults := query (String.concat " " (ta_keywords taskAnalysis)) 0.9%R in
  combineSearchResults
    [(titleResults, 0.3%R); (descriptionResults, 0.4%R); (keywordResults, 0.3%R)].

(** [s.includes(sub)] *)
Fixpoint includes (s sub : string) : bool :=
  String.prefix sub s
  || match s with
     | EmptyString => false
     | String _ rest => includes rest sub
     end.

(** [elemDep.includes(taskDep) || taskDep.includes(elemDep)]: the first
    call reads the member [includes] of the entry, which only a string (or
    an array) has. *)
Definition dependency_matches (taskDep : string) (elemDep : GraphObject.Entry)
    : Js.Outcome bool :=
  match elemDep with
  | GraphObject.EntryString s => Js.Return (includes s taskDep || includes taskDep s)
  | GraphObject.EntryRecord _ =>
      Js.Throw (Js.TypeError "elemDep.includes is not a function")
  end.

(** The two nested loops that add up [dependencyScore]. *)
Fixpoint score_against (taskDep : string) (elementDependencies : list GraphObject.Entry)
    (dependencyScore : R) : Js.Outcome R :=
  match elementDependencies with
  | [] => Js.Return dependencyScore
  | elemDep :: rest =>
      match dependency_matches taskDep elemDep with
      | Js.Throw e => Js.Throw e
      | Js.Return true => score_against taskDep rest (dependencyScore + 0.1)%R
      | Js.Return false => score_against taskDep rest dependencyScore
      end
  end.

Fixpoint score_dependencies (taskDependencies : list string)
    (elementDependencies : list GraphObject.Entry) (dependencyScore : R)
    : Js.Outcome R :=
  match taskDependencies with
  | [] => Js.Return dependencyScore
  | taskDep :: rest =>
      match score_against taskDep elementDependencies dependencyScore with
      | Js.Throw e => Js.Throw e
      | Js.Return score => score_dependencies rest elementDependencies score
      end
  end.

Definition rank_element (traverse : string -> DependencyAnalyzer.Options -> list GraphObject.Entry)
    (taskDependencies : list string) (element : Element) : Js.Outcome Element :=
  let elementKey := getElementKey element in
  let elementDependencies := traverse elementKey DependencyAnalyzer.defaults in
  match score_dependencies taskDependencies elementDependencies 0%R with
  | Js.Throw e => Js.Throw e
  | Js.Return dependencyScore =>
      let finalScore := (el_similarity element * 0.8 + dependencyScore * 0.2)%R in
      Js.Return
        {| el_type := el_type element; el_item := el_item element;
           el_similarity := el_similarity element; el_weight := el_weight element;
           el_originalSimilarity := el_originalSimilarity element;
           el_dependencyScore := Some dependencyScore;
           el_finalScore := Some finalScore |}
  end.

(** [similarElements.map(...)], which an exception leaves *)
Fixpoint map_outcome {A B} (f : A -> Js.Outcome B) (xs : list A) : Js.Outcome (list B) :=
  match xs with
  | [] => Js.Return []
  | x :: rest =>
      match f x with
      | Js.Throw e => Js.Throw e
      | Js.Return y =>
          match map_outcome f rest with
          | Js.Throw e => Js.Throw e
          | Js.Return ys => Js.Return (y :: ys)
          end
      end
  end.

(** The sort key of a ranked element; every ranked element has a score. *)
Definition finalScore_of (element : Element) : R := default 0%R (el_finalScore element).

Definition rankResultsByDependencies (similarElements : list Element)
    (dependencyGraph : option GraphObject.t) (task : Task)
    : Js.Outcome (list Element) :=
  match dependencyGraph with
  | None => Js.Return similarElements
  | Some graph =>
      match GraphObject.getNodeDependencies graph with
      | None => Js.Return similarElements
      | Some traverse =>
          let taskDependencies := default [] (task_dependencies task) in
          match map_outcome (rank_element traverse taskDependencies) similarElements with
          | Js.Throw e => Js.Throw e
          | Js.Return rankedResults =>
              Js.Return (SemanticAnalyzer.sort_desc finalScore_of rankedResults)
          end
      end
  end.

Record MappingResult : Type := {
  mr_task_id : option string;
  mr_task_title : option string;
  mr_task_type : option string;
  mr_element_type : string;
  mr_element_name : option string;
  mr_element_filePath : option string;
  mr_element_location : Ast.Loc;
  mr_similarity : R;
  mr_dependencyScore : R;
  mr_finalScore : R;
  mr_confidence : string
}.

Definition calculateConfidence (score : R) : string :=
  if SemanticAnalyzer.geb score 0.8%R then "high"
  else if SemanticAnalyzer.geb score 0.6%R then "medium"
  else "low".

(** [x || y] on a number that may be undefined: zero is falsy too. *)
Definition number_or (x : option R) (y : R) : R :=
  match x with
  | Some v => if VectorUtils.is_zero v then y else v
  | None => y
  end.

Definition generateMappingResults (self : t) (rankedResults : list Element)
    (task : Task) : list MappingResult :=
  let limitedResults := firstn (maxResults (config self)) rankedResults in
  map (fun result =>
    {| mr_task_id := task_id task;
       mr_task_title := task_title task;
       mr_task_type := task_type task;
       mr_element_type := el_type result;
       mr_element_name := SemanticAnalyzer.it_name (el_item result);
       mr_element_filePath := SemanticAnalyzer.it_filePath (el_item result);
       mr_element_location := {| Ast.loc_start := 0; Ast.loc_end := 0 |};
       mr_similarity := el_similarity result;
       mr_dependencyScore := number_or (el_dependencyScore result) 0%R;
       mr_finalScore := number_or (el_finalScore result) (el_similarity result);
       mr_confidence :=
         calculateConfidence (number_or (el_finalScore result) (el_similarity result)) |})
    limitedResults.

Definition analyzer_missing : Js.Error :=
  Js.PlainError
    "Semantic analyzer not available. Initialize the code mapping engine first.".

(** [mapTask]: the receiver of the computation is [global]. *)
Definition mapTask (self : t) (task : Task) (codeIndex : CodebaseIndexer.CodeIndex)
    (dependencyGraph : option GraphObject.t) : Js.M Global.t (list MappingResult) :=
  let* globals := Js.get in
  let* semanticAnalyzer :=
    Js.of_option (Global.semanticAnalyzer globals) analyzer_missing in
  let taskAnalysis := analyzeTask task in
  let similarElements := findSimilarCodeElements self taskAnalysis semanticAnalyzer in
  match rankResultsByDependencies similarElements dependencyGraph task with
  | Js.Throw e => Js.throw e
  | Js.Return rankedResults =>
      Js.ret (generateMappingResults self rankedResults task)
  end.

End MappingAlgorithm.

(** ** codebase-indexer.js: [searchIndex]

    The search of the index by name, placed here because it compares
    strings with the operations transcribed above ([toLowerCase],
    [includes]); letters are ASCII. *)

Module CodebaseSearch.

Import CodebaseIndexer.

Record Query : Type := {
  fileName : option string;
  functionName : option string;
  className : option string
}.

Record Results : Type := {
  found_files : list FileEntry;
  found_functions : list IndexedFunction;
  found_classes : list IndexedClass
}.

(** [if (q) results = xs.filter(x => x.name.toLowerCase().includes(q.toLowerCase()))]:
    an absent or empty [q] leaves the empty array. *)
Definition matching {A : Type} (name : A -> string) (q : option string) (xs : list A)
    : list A :=
  match q with
  | Some text =>
      if String.eqb text "" then []
      else
        List.filter (fun x =>
          MappingAlgorithm.includes (SemanticAnalyzer.toLowerCase (name x))
            (SemanticAnalyzer.toLowerCase text)) xs
  | None => []
  end.

Definition searchIndex (codeIndex : CodeIndex) (query : Query) : Results :=
  {| found_files := matching f_name (fileName query) (files codeIndex);
     found_functions :=
       matching (fun func => fn_name (if_func func)) (functionName query)
         (functions codeIndex);
     found_classes :=
       matching (fun cls => cls_name (ic_cls cls)) (className query)
         (classes codeIndex) |}.

End CodebaseSearch.

(** ** modules/change-predictor.js: the risk level of a merged impact *)

Module ChangePredictor.

Record ImpactedFile : Type := {
  if_path : string;
  if_elements : list string;
  if_weight : R
}.

Record ImpactedNode : Type := {
  in_node : JsObject.Found DependencyAnalyzer.Node;
  in_sources : list string;
  in_weight : R
}.

(** The object that [mergeImpactAnalysis] returns. *)
Record ImpactAnalysis : Type := {
  impactedNodes : list ImpactedNode;
  dependencyNodes : list ImpactedNode;
  impactedFiles : list ImpactedFile;
  dependencyFiles : list ImpactedFile;
  totalImpactScore : R;
  totalDependencyScore : R
}.

(** [a > b] on numbers *)
Definition gtb (a b : R) : bool := if Rlt_dec b a then true else false.

Definition calculateRiskLevel (impactAnalysis : ImpactAnalysis) : string :=
  let score := totalImpactScore impactAnalysis in
  let fileCount := length (impactedFiles impactAnalysis) in
  if gtb score 50 || (20 <? fileCount)%nat then "high"
  else if gtb score 20 || (10 <? fileCount)%nat then "medium"
  else "low".


(** *** The rest of the predictor *)

Record Config : Type := {
  impactThreshold : R;
  maxImpactedFiles : nat
}.

Definition default_config : Config :=
  {| impactThreshold := 0.5%R; maxImpactedFiles := 20 |}.

Record t : Type := { config : Config }.

(** An element of [codeElementsToModify]. *)
Record CodeElement : Type := {
  ce_id : string;
  ce_type : string;
  ce_name : option string;
  ce_filePath : option string;
  ce_confidence : string
}.

(** [getElementId(result.codeElement)] *)
Definition getElementId (result : MappingAlgorithm.MappingResult) : string :=
  MappingAlgorithm.mr_element_type result ++ ":"
    ++ MappingAlgorithm.render (MappingAlgorithm.mr_element_filePath result) ++ ":"
    ++ MappingAlgorithm.render (MappingAlgorithm.mr_element_name result).

Definition same_path (a b : option string) : bool :=
  match a, b with
  | Some x, Some y => String.eqb x y
  | None, None => true
  | _, _ => false
  end.

(** A [Set] of file paths, in insertion order; [undefined] may be a member. *)
Definition set_has (s : list (option string)) (x : option string) : bool :=
  existsb (same_path x) s.

Definition set_add (x : option string) (s : list (option string)) : list (option string) :=
  if set_has s x then s else (s ++ [x])%list.

Definition element_of (result : MappingAlgorithm.MappingResult) : CodeElement :=
  {| ce_id := getElementId result;
     ce_type := MappingAlgorithm.mr_element_type result;
     ce_name := MappingAlgorithm.mr_element_name result;
     ce_filePath := MappingAlgorithm.mr_element_filePath result;
     ce_confidence := MappingAlgorithm.mr_confidence result |}.

(** The impact of one element, as far as the predictor reads it: the two
    arrays and the two scores. *)
Record Impact : Type := {
  i_nodeId : string;
  i_impactedNodes : list GraphObject.Entry;
  i_dependencyNodes : list GraphObject.Entry;
  i_impactScore : nat;
  i_dependencyScore : nat
}.

Definition of_analysis (a : DependencyAnalyzer.Impact) : Impact :=
  {| i_nodeId := DependencyAnalyzer.i_nodeId a;
     i_impactedNodes := map GraphObject.EntryRecord (DependencyAnalyzer.impactedNodes a);
     i_dependencyNodes := map GraphObject.EntryRecord (DependencyAnalyzer.dependencyNodes a);
     i_impactScore := DependencyAnalyzer.impactScore a;
     i_dependencyScore := DependencyAnalyzer.dependencyScore a |}.

(** The options [{direction, depth: 2}], over the defaults of the callee. *)
Definition two_hops (direction : string) : DependencyAnalyzer.Options :=
  {| DependencyAnalyzer.direction := direction;
     DependencyAnalyzer.types := None;
     DependencyAnalyzer.depth := 2;
     DependencyAnalyzer.maxResults := 100 |}.

Definition fallbackImpactAnalysis (element : CodeElement) (dependencyGraph : GraphObject.t)
    : Impact :=
  match GraphObject.getNodeDependencies dependencyGraph with
  | None =>
      {| i_nodeId := ce_id element; i_impactedNodes := []; i_dependencyNodes := [];
         i_impactScore := 0; i_dependencyScore := 0 |}
  | Some traverse =>
      let impacted := traverse (ce_id element) (two_hops "incoming") in
      let dependency := traverse (ce_id element) (two_hops "outgoing") in
      {| i_nodeId := ce_id element;
         i_impactedNodes := impacted;
         i_dependencyNodes := dependency;
         i_impactScore := length impacted;
         i_dependencyScore := length dependency |}
  end.

Definition analyzeImpact (codeElements : list CodeElement)
    (dependencyGraph : GraphObject.t) : list (CodeElement * Impact) :=
  map (fun element =>
    (element,
     match GraphObject.getImpactAnalysis dependencyGraph with
     | Some analyse => of_analysis (analyse (ce_id element))
     | None => fallbackImpactAnalysis element dependencyGraph
     end)) codeElements.

(** [weight / node.depth] when the depth is not zero *)
Definition by_depth (depth : nat) : R :=
  if (depth =? 0)%nat then 1%R else (1 / INR depth)%R.

Definition calculateNodeWeight (node : DependencyAnalyzer.Dependency)
    (sourceElement : CodeElement) : R :=
  let weight := by_depth (DependencyAnalyzer.dep_depth node) in
  let type := DependencyAnalyzer.e_type (DependencyAnalyzer.dep_edge node) in
  let weight :=
    if String.eqb type "calls" then (weight * 1.5)%R
    else if String.eqb type "imports" || String.eqb type "requires" then (weight * 1.2)%R
    else if String.eqb type "contains" then (weight * 0.8)%R
    else weight in
  let confidence := ce_confidence sourceElement in
  if String.eqb confidence "high" then (weight * 1.2)%R
  else if String.eqb confidence "medium" then (weight * 1.0)%R
  else if String.eqb confidence "low" then (weight * 0.8)%R
  else weight.

(** [node.node.type]: a member of [Object.prototype] has no such
    property. *)
Definition calculateFileWeight (node : DependencyAnalyzer.Dependency) : R :=
  let weight := by_depth (DependencyAnalyzer.dep_depth node) in
  match DependencyAnalyzer.dep_node node with
  | JsObject.Own n =>
      let type := DependencyAnalyzer.node_type n in
      if String.eqb type "file" then (weight * 1.0)%R
      else if String.eqb type "function" then (weight * 1.2)%R
      else if String.eqb type "class" then (weight * 1.5)%R
      else if String.eqb type "method" then (weight * 1.3)%R
      else weight
  | JsObject.Member _ => weight
  end.

(** [allImpactedNodes.has(id) ? push and add : set] on a [Map] in
    insertion order *)
Fixpoint upsert_node (id : string) (n : JsObject.Found DependencyAnalyzer.Node)
    (source : string)
    (weight : R) (m : list (string * ImpactedNode)) : list (string * ImpactedNode) :=
  match m with
  | [] => [(id, {| in_node := n; in_sources := [source]; in_weight := weight |})]
  | (k, existing) :: rest =>
      if String.eqb k id then
        (k, {| in_node := in_node existing;
               in_sources := in_sources existing ++ [source];
               in_weight := (in_weight existing + weight)%R |}) :: rest
      else (k, existing) :: upsert_node id n source weight rest
  end.

Fixpoint upsert_file (filePath id : string) (weight : R)
    (m : list (string * ImpactedFile)) : list (string * ImpactedFile) :=
  match m with
  | [] => [(filePath, {| if_path := filePath; if_elements := [id]; if_weight := weight |})]
  | (k, existing) :: rest =>
      if String.eqb k filePath then
        if existsb (String.eqb id) (if_elements existing) then (k, existing) :: rest
        else
          (k, {| if_path := if_path existing;
                 if_elements := if_elements existing ++ [id];
                 if_weight := (if_weight existing + weight)%R |}) :: rest
      else (k, existing) :: upsert_file filePath id weight rest
  end.

(** The file of a node: [node.node.filePath] when that is a non-empty
    string and the node is no file, else [node.node.path] when that is a
    non-empty string and the node is a file. A member of
    [Object.prototype] has neither property. *)
Definition file_of (n : JsObject.Found DependencyAnalyzer.Node) : option string :=
  match n with
  | JsObject.Own (DependencyAnalyzer.FileNode _ _ path _ _) =>
      if String.eqb path "" then None else Some path
  | JsObject.Own (DependencyAnalyzer.FunctionNode _ _ filePath _ _)
  | JsObject.Own (DependencyAnalyzer.ClassNode _ _ filePath _ _)
  | JsObject.Own (DependencyAnalyzer.MethodNode _ _ _ filePath _ _) =>
      if String.eqb filePath "" then None else Some filePath
  | JsObject.Member _ => None
  end.

(** One pair of maps: the nodes and the files of one side (impacted, or
    dependency). *)
Record Side : Type := {
  side_nodes : list (string * ImpactedNode);
  side_files : list (string * ImpactedFile)
}.

Definition empty_side : Side := {| side_nodes := []; side_files := [] |}.

(** The body of the loops over [impact.impactedNodes] and
    [impact.dependencyNodes]. On an entry that is a string, [node.node] is
    undefined and reading [node.node.filePath] throws. *)
Definition merge_entry (element : CodeElement) (entry : GraphObject.Entry) (side : Side)
    : Js.Outcome Side :=
  match entry with
  | GraphObject.EntryString _ =>
      Js.Throw (Js.TypeError "Cannot read properties of undefined (reading 'filePath')")
  | GraphObject.EntryRecord node =>
      let id := DependencyAnalyzer.dep_id node in
      let nodes' :=
        upsert_node id (DependencyAnalyzer.dep_node node) (ce_id element)
          (calculateNodeWeight node element) (side_nodes side) in
      let files' :=
        match file_of (DependencyAnalyzer.dep_node node) with
        | Some filePath =>
            upsert_file filePath id (calculateFileWeight node) (side_files side)
        | None => side_files side
        end in
      Js.Return {| side_nodes := nodes'; side_files := files' |}
  end.

Fixpoint merge_entries (element : CodeElement) (entries : list GraphObject.Entry)
    (side : Side) : Js.Outcome Side :=
  match entries with
  | [] => Js.Return side
  | entry :: rest =>
      match merge_entry element entry side with
      | Js.Return side' => merge_entries element rest side'
      | Js.Throw e => Js.Throw e
      end
  end.

Fixpoint merge_results (impactResults : list (CodeElement * Impact))
    (impacted dependency : Side) : Js.Outcome (Side * Side) :=
  match impactResults with
  | [] => Js.Return (impacted, dependency)
  | (element, impact) :: rest =>
      match merge_entries element (i_impactedNodes impact) impacted with
      | Js.Throw e => Js.Throw e
      | Js.Return impacted' =>
          match merge_entries element (i_dependencyNodes impact) dependency with
          | Js.Throw e => Js.Throw e
          | Js.Return dependency' => merge_results rest impacted' dependency'
          end
      end
  end.

Definition total_weight (nodesArray : list ImpactedNode) : R :=
  fold_left (fun sum node => (sum + in_weight node)%R) nodesArray 0%R.

Definition mergeImpactAnalysis (impactResults : list (CodeElement * Impact))
    : Js.Outcome ImpactAnalysis :=
  match merge_results impactResults empty_side empty_side with
  | Js.Throw e => Js.Throw e
  | Js.Return (impacted, dependency) =>
      let impactedNodesArray :=
        SemanticAnalyzer.sort_desc in_weight (map snd (side_nodes impacted)) in
      let dependencyNodesArray :=
        SemanticAnalyzer.sort_desc in_weight (map snd (side_nodes dependency)) in
      Js.Return
        {| impactedNodes := impactedNodesArray;
           dependencyNodes := dependencyNodesArray;
           impactedFiles :=
             SemanticAnalyzer.sort_desc if_weight (map snd (side_files impacted));
           dependencyFiles :=
             SemanticAnalyzer.sort_desc if_weight (map snd (side_files dependency));
           totalImpactScore := total_weight impactedNodesArray;
           totalDependencyScore := total_weight dependencyNodesArray |}
  end.

Record Change : Type := {
  c_filePath : option string;
  c_changeType : string;
  c_priority : string;
  c_description : string
}.

Record ImpactSummary : Type := {
  directChanges : nat;
  potentialImpact : nat;
  dependenciesToVerify : nat;
  s_totalImpactScore : R;
  riskLevel : string
}.

Record ChangePlan : Type := {
  primaryChanges : list Change;
  secondaryChanges : list Change;
  dependencyChecks : list Change;
  impactSummary : ImpactSummary
}.

(** [files.filter(...).slice(0, n).map(file => file.path)] *)
Definition candidate_files (self : t) (filesToModify : list (option string))
    (n : nat) (files : list ImpactedFile) : list string :=
  map if_path
    (firstn n
       (List.filter (fun file =>
          negb (set_has filesToModify (Some (if_path file)))
          && SemanticAnalyzer.geb (if_weight file) (impactThreshold (config self)))
          files)).

(** [slice(0, maxImpactedFiles / 2)] truncates its bound. *)
Definition generateChangePlan (self : t) (impactAnalysis : ImpactAnalysis)
    (filesToModify : list (option string)) : ChangePlan :=
  let primaryFiles := filesToModify in
  let secondaryFiles :=
    candidate_files self filesToModify (maxImpactedFiles (config self))
      (impactedFiles impactAnalysis) in
  let dependencyFiles :=
    candidate_files self filesToModify (maxImpactedFiles (config self) / 2)
      (dependencyFiles impactAnalysis) in
  {| primaryChanges :=
       map (fun filePath =>
              {| c_filePath := filePath; c_changeType := "modify"; c_priority := "high";
                 c_description := "直接修改文件以实现功能" |})
         primaryFiles;
     secondaryChanges :=
       map (fun filePath =>
              {| c_filePath := Some filePath; c_changeType := "check";
                 c_priority := "medium";
                 c_description := "检查文件是否需要适配修改" |})
         secondaryFiles;
     dependencyChecks :=
       map (fun filePath =>
              {| c_filePath := Some filePath; c_changeType := "verify";
                 c_priority := "low";
                 c_description := "验证依赖关系是否正常" |})
         dependencyFiles;
     impactSummary :=
       {| directChanges := length primaryFiles;
          potentialImpact := length secondaryFiles;
          dependenciesToVerify := length dependencyFiles;
          s_totalImpactScore := totalImpactScore impactAnalysis;
          riskLevel := calculateRiskLevel impactAnalysis |} |}.

Record Prediction : Type := {
  filesToModify : list (option string);
  codeElementsToModify : list CodeElement;
  impactAnalysis : ImpactAnalysis;
  changePlan : ChangePlan
}.

Definition predictChanges (self : t)
    (mappingResults : list MappingAlgorithm.MappingResult)
    (dependencyGraph : GraphObject.t) : Js.Outcome Prediction :=
  let filesToModify :=
    fold_left (fun s result => set_add (MappingAlgorithm.mr_element_filePath result) s)
      mappingResults [] in
  let codeElementsToModify := map element_of mappingResults in
  let impactAnalysis := analyzeImpact codeElementsToModify dependencyGraph in
  match mergeImpactAnalysis impactAnalysis with
  | Js.Throw e => Js.Throw e
  | Js.Return mergedImpact =>
      Js.Return
        {| filesToModify := filesToModify;
           codeElementsToModify := codeElementsToModify;
           impactAnalysis := mergedImpact;
           changePlan := generateChangePlan self mergedImpact filesToModify |}
  end.

End ChangePredictor.

(** ** code-mapping-engine/index.js *)

Module Engine.

Record Config : Type := {
  indexer_config : CodebaseIndexer.Config;
  semantic_config : SemanticAnalyzer.Config;
  mapping_config : MappingAlgorithm.Config;
  dependency_config : DependencyAnalyzer.Config
}.

Definition default_config : Config :=
  {| indexer_config := CodebaseIndexer.default_config;
     semantic_config := SemanticAnalyzer.default_config;
     mapping_config := MappingAlgorithm.default_config;
     dependency_config := DependencyAnalyzer.default_config |}.

(** An engine instance. The indexer is its configuration and the index it
    holds ([this.codebaseIndexer.codeIndex]). *)
Record t : Type := {
  config : Config;
  codebaseIndexer : CodebaseIndexer.CodeIndex;
  semanticAnalyzer : SemanticAnalyzer.t;
  mappingAlgorithm : MappingAlgorithm.t;
  dependencyAnalyzer : DependencyAnalyzer.t;
  codeIndex : option CodebaseIndexer.CodeIndex;
  dependencyGraph : option DependencyAnalyzer.Graph
}.

(** [new CodeMappingEngine(config)] *)
Definition create (cfg : Config) (lib : SemanticAnalyzer.Natural) : t :=
  {| config := cfg;
     codebaseIndexer := CodebaseIndexer.empty_index;
     semanticAnalyzer := SemanticAnalyzer.create (semantic_config cfg) lib;
     mappingAlgorithm := {| MappingAlgorithm.config := mapping_config cfg |};
     dependencyAnalyzer := DependencyAnalyzer.create (dependency_config cfg);
     codeIndex := None;
     dependencyGraph := None |}.

(** The process: what [global] holds, and the engine. *)
Record Process : Type := {
  globals : Global.t;
  engine : t
}.

Definition set_codebaseIndexer (x : CodebaseIndexer.CodeIndex) (p : Process) : Process :=
  {| globals := globals p;
     engine := {| config := config (engine p); codebaseIndexer := x;
                  semanticAnalyzer := semanticAnalyzer (engine p);
                  mappingAlgorithm := mappingAlgorithm (engine p);
                  dependencyAnalyzer := dependencyAnalyzer (engine p);
                  codeIndex := codeIndex (engine p);
                  dependencyGraph := dependencyGraph (engine p) |} |}.

Definition set_semanticAnalyzer (x : SemanticAnalyzer.t) (p : Process) : Process :=
  {| globals := globals p;
     engine := {| config := config (engine p);
                  codebaseIndexer := codebaseIndexer (engine p);
                  semanticAnalyzer := x;
                  mappingAlgorithm := mappingAlgorithm (engine p);
                  dependencyAnalyzer := dependencyAnalyzer (engine p);
                  codeIndex := codeIndex (engine p);
                  dependencyGraph := dependencyGraph (engine p) |} |}.

Definition set_dependencyAnalyzer (x : DependencyAnalyzer.t) (p : Process) : Process :=
  {| globals := globals p;
     engine := {| config := config (engine p);
                  codebaseIndexer := codebaseIndexer (engine p);
                  semanticAnalyzer := semanticAnalyzer (engine p);
                  mappingAlgorithm := mappingAlgorithm (engine p);
                  dependencyAnalyzer := x;
                  codeIndex := codeIndex (engine p);
                  dependencyGraph := dependencyGraph (engine p) |} |}.

Definition set_codeIndex (x : CodebaseIndexer.CodeIndex) (p : Process) : Process :=
  {| globals := globals p;
     engine := {| config := config (engine p);
                  codebaseIndexer := codebaseIndexer (engine p);
                  semanticAnalyzer := semanticAnalyzer (engine p);
                  mappingAlgorithm := mappingAlgorithm (engine p);
                  dependencyAnalyzer := dependencyAnalyzer (engine p);
                  codeIndex := Some x;
                  dependencyGraph := dependencyGraph (engine p) |} |}.

Definition set_dependencyGraph (x : DependencyAnalyzer.Graph) (p : Process) : Process :=
  {| globals := globals p;
     engine := {| config := config (engine p);
                  codebaseIndexer := codebaseIndexer (engine p);
                  semanticAnalyzer := semanticAnalyzer (engine p);
                  mappingAlgorithm := mappingAlgorithm (engine p);
                  dependencyAnalyzer := dependencyAnalyzer (engine p);
                  codeIndex := codeIndex (engine p);
                  dependencyGraph := Some x |} |}.

Definition set_globals (x : Global.t) (p : Process) : Process :=
  {| globals := x; engine := engine p |}.

Definition initialize (host : Host.t) (codebasePath : string) : Js.M Process unit :=
  let* self := Js.get in
  let cfg := config (engine self) in
  let* index :=
    Js.on_member (fun p => codebaseIndexer (engine p)) set_codebaseIndexer
      (CodebaseIndexer.indexCodebase (indexer_config cfg) host codebasePath) in
  let* _ := Js.modify (set_codeIndex index) in
  let* _ :=
    Js.on_member (fun p => semanticAnalyzer (engine p)) set_semanticAnalyzer
      (SemanticAnalyzer.analyzeCodebase index) in
  let* graph :=
    Js.on_member (fun p => dependencyAnalyzer (engine p)) set_dependencyAnalyzer
      (DependencyAnalyzer.buildDependencyGraph host index) in
  Js.modify (set_dependencyGraph graph).

Definition not_initialized : Js.Error :=
  Js.PlainError "Code mapping engine not initialized. Call initialize() first.".

Definition mapTaskToCode (task : MappingAlgorithm.Task)
    : Js.M Process (list MappingAlgorithm.MappingResult) :=
  let* self := Js.get in
  let* index := Js.of_option (codeIndex (engine self)) not_initialized in
  Js.on_member globals set_globals
    (MappingAlgorithm.mapTask (mappingAlgorithm (engine self)) task index
       (option_map GraphObject.of_graph (dependencyGraph (engine self)))).


Definition graph_not_built : Js.Error :=
  Js.PlainError "Dependency graph not built. Call initialize() first.".

(** [predictChanges(mappingResults)]. [changePredictor] is the member
    [this.changePredictor], which only the constructor assigns. *)
Definition predictChanges (changePredictor : ChangePredictor.t)
    (mappingResults : list MappingAlgorithm.MappingResult)
    : Js.M Process ChangePredictor.Prediction :=
  let* self := Js.get in
  let* graph := Js.of_option (dependencyGraph (engine self)) graph_not_built in
  match ChangePredictor.predictChanges changePredictor mappingResults
          (GraphObject.of_graph graph) with
  | Js.Return changeImpact => Js.ret changeImpact
  | Js.Throw e => Js.throw e
  end.

Record SuggestedChange : Type := {
  sc_filePath : option string;
  sc_location : option Ast.Loc;
  sc_suggestion : string
}.

Record ModificationPlan : Type := {
  mp_filesToModify : list (option string);
  mp_suggestedChanges : list SuggestedChange;
  mp_potentialImpact : nat
}.

Record Suggestions : Type := {
  s_mappingResults : list MappingAlgorithm.MappingResult;
  s_changeImpact : ChangePredictor.Prediction;
  s_modificationPlan : ModificationPlan
}.

(** Members that the objects read do not have: a mapping result holds its
    path and location under [codeElement], and a prediction holds the
    impacted files under [impactAnalysis]. *)
Definition result_filePath (result : MappingAlgorithm.MappingResult) : option string :=
  None.

Definition result_location (result : MappingAlgorithm.MappingResult) : option Ast.Loc :=
  None.

Definition changeImpact_impactedFiles (changeImpact : ChangePredictor.Prediction)
    : option (list ChangePredictor.ImpactedFile) :=
  None.

Definition generateCodeModificationSuggestions (changePredictor : ChangePredictor.t)
    (task : MappingAlgorithm.Task) : Js.M Process Suggestions :=
  let* mappingResults := mapTaskToCode task in
  let* changeImpact := predictChanges changePredictor mappingResults in
  let filesToModify := map result_filePath mappingResults in
  let suggestedChanges :=
    map (fun result =>
           {| sc_filePath := result_filePath result;
              sc_location := result_location result;
              sc_suggestion :=
                "Implement " ++ MappingAlgorithm.render (MappingAlgorithm.task_title task)
                  ++ " here" |})
      mappingResults in
  let* impactedFiles :=
    Js.of_option (changeImpact_impactedFiles changeImpact)
      (Js.TypeError "Cannot read properties of undefined (reading 'length')") in
  Js.ret
    {| s_mappingResults := mappingResults;
       s_changeImpact := changeImpact;
       s_modificationPlan :=
         {| mp_filesToModify := filesToModify;
            mp_suggestedChanges := suggestedChanges;
            mp_potentialImpact := length impactedFiles |} |}.

End Engine.

(** * Vocabulary of the properties *)

(** ** Sequences of calls on a dependency graph *)

Module GraphCalls.

Import DependencyAnalyzer.

Inductive Call : Type :=
| SetNode (nodeId : string) (n : Node)
| AddEdge (sourceId targetId type : string) (md : gmap string R).

Definition run (c : Call) : Js.M t unit :=
  match c with
  | SetNode nodeId n => set_node nodeId n
  | AddEdge sourceId targetId type md => addEdge sourceId targetId type md
  end.

(** The graph that a sequence of calls builds on a fresh analyzer. *)
Definition build (cfg : Config) (calls : list Call) : t :=
  Js.exec (Js.for_of calls run) (create cfg).

Definition edge_key (e : Edge) : string * string * string :=
  (e_source e, e_target e, e_type e).

Definition endpoints_exist (g : Graph) : Prop :=
  Forall (fun e => is_Some (nodes g !! e_source e) /\ is_Some (nodes g !! e_target e))
    (edges g).

Definition no_duplicate_edges (g : Graph) : Prop :=
  NoDup (map edge_key (edges g)).

Definition with_metadata (md : gmap string R) (e : Edge) : Edge :=
  {| e_source := e_source e; e_target := e_target e; e_type := e_type e;
     e_metadata := md |}.

(** Every entry collected so far lies within the requested depth. *)
Definition within (options : Options) (w : Walk) : Prop :=
  Forall (fun d => dep_depth d <= depth options) (dependencies w).

Definition file_node (p : string) : Node := FileNode ("file:" ++ p) p p 0 None.

(** The identifiers of the call name no member of [Object.prototype]. *)
Definition plain_call (c : Call) : Prop :=
  match c with
  | SetNode _ _ => True
  | AddEdge sourceId targetId _ _ =>
      JsObject.inherited sourceId = false /\ JsObject.inherited targetId = false
  end.

(** [a.js] is the only node. *)
Definition lone_file : t :=
  build default_config [SetNode "file:/repo/a.js" (file_node "/repo/a.js")].

(** [a.js] both imports and requires [b.js]. *)
Definition double_link : t :=
  build default_config
    [SetNode "file:/repo/a.js" (file_node "/repo/a.js");
     SetNode "file:/repo/b.js" (file_node "/repo/b.js");
     AddEdge "file:/repo/a.js" "file:/repo/b.js" "imports" ∅;
     AddEdge "file:/repo/a.js" "file:/repo/b.js" "requires" ∅].

(** [a.js] imports [b.js] and [d.js]; [b.js] imports [c.js]. *)
Definition fork : t :=
  build default_config
    [SetNode "file:/repo/a.js" (file_node "/repo/a.js");
     SetNode "file:/repo/b.js" (file_node "/repo/b.js");
     SetNode "file:/repo/c.js" (file_node "/repo/c.js");
     SetNode "file:/repo/d.js" (file_node "/repo/d.js");
     AddEdge "file:/repo/a.js" "file:/repo/b.js" "imports" ∅;
     AddEdge "file:/repo/b.js" "file:/repo/c.js" "imports" ∅;
     AddEdge "file:/repo/a.js" "file:/repo/d.js" "imports" ∅].

Definition two_hops_two_results : Options :=
  {| direction := "outgoing"; types := None; depth := 2; maxResults := 2 |}.

End GraphCalls.

(** The two invariants of the edge list, on an analyzer, and what it means
    for a method to keep them. *)
Definition well_formed (self : DependencyAnalyzer.t) : Prop :=
  GraphCalls.endpoints_exist (DependencyAnalyzer.dependencyGraph self)
  /\ GraphCalls.no_duplicate_edges (DependencyAnalyzer.dependencyGraph self).

Definition keeps {A : Type} (m : Js.M DependencyAnalyzer.t A) : Prop :=
  forall self, well_formed self -> well_formed (snd (m self)).

(** ** Risk of a change *)

Module Risk.

Import ChangePredictor.

Definition is_high (ia : ImpactAnalysis) : Prop :=
  (totalImpactScore ia > 50)%R \/ length (impactedFiles ia) > 20.

Definition is_medium (ia : ImpactAnalysis) : Prop :=
  ~ is_high ia
  /\ ((totalImpactScore ia > 20)%R \/ length (impactedFiles ia) > 10).

Definition touched_file (p : string) : ImpactedFile :=
  {| if_path := p; if_elements := []; if_weight := 1%R |}.

(** Three files touched, total impact 55. *)
Definition three_files_score_55 : ImpactAnalysis :=
  {| impactedNodes := []; dependencyNodes := [];
     impactedFiles := [touched_file "/repo/a.js"; touched_file "/repo/b.js";
                       touched_file "/repo/c.js"];
     dependencyFiles := [];
     totalImpactScore := 55%R; totalDependencyScore := 0%R |}.

End Risk.

(** ** Dependency scores *)

Module Scoring.

Import MappingAlgorithm.

(** Substring containment, in either direction *)
Definition contains_either (taskDep elemDep : string) : bool :=
  includes elemDep taskDep || includes taskDep elemDep.

Definition matches_of (taskDep : string) (elemDeps : list string) : nat :=
  length (List.filter (contains_either taskDep) elemDeps).

(** The number of pairs (task dependency, element dependency) that match *)
Definition match_count (taskDeps elemDeps : list string) : nat :=
  list_sum (map (fun taskDep => matches_of taskDep elemDeps) taskDeps).

(** A traversal whose entries are identifiers *)
Definition strings_of (ids : string -> DependencyAnalyzer.Options -> list string)
    : string -> DependencyAnalyzer.Options -> list GraphObject.Entry :=
  fun nodeId options => map GraphObject.EntryString (ids nodeId options).

(** The identifiers of the entries that an analyzer returns *)
Definition ids_of (a : DependencyAnalyzer.t)
    : string -> DependencyAnalyzer.Options -> list string :=
  fun nodeId options =>
    map DependencyAnalyzer.dep_id (DependencyAnalyzer.getNodeDependencies a nodeId options).

Definition foo_item : SemanticAnalyzer.Item :=
  {| SemanticAnalyzer.it_path := None;
     SemanticAnalyzer.it_name := Some "foo";
     SemanticAnalyzer.it_filePath := Some "/repo/a.js";
     SemanticAnalyzer.it_tokens := ["foo"];
     SemanticAnalyzer.it_vector := None;
     SemanticAnalyzer.it_keywords := [];
     SemanticAnalyzer.it_params := Some [];
     SemanticAnalyzer.it_methods := None |}.

(** A merged search result for the function [foo] of [/repo/a.js] *)
Definition foo_element : Element :=
  {| el_type := "function"; el_item := foo_item;
     el_similarity := 0.9%R; el_weight := 0.4%R; el_originalSimilarity := 0.9%R;
     el_dependencyScore := None; el_finalScore := None |}.

(** The graph of a code base that holds [/repo/a.js] and its function
    [foo]: two nodes and the [contains] edge between them. *)
Definition foo_graph : DependencyAnalyzer.t :=
  GraphCalls.build DependencyAnalyzer.default_config
    [GraphCalls.SetNode "file:/repo/a.js" (GraphCalls.file_node "/repo/a.js");
     GraphCalls.SetNode "function:/repo/a.js:foo"
       (DependencyAnalyzer.FunctionNode "function:/repo/a.js:foo" "foo" "/repo/a.js" []
          {| Ast.loc_start := 1; Ast.loc_end := 1 |});
     GraphCalls.AddEdge "function:/repo/a.js:foo" "file:/repo/a.js" "contains" ∅].

(** A task that declares a dependency on [a.js] *)
Definition task_on_a : Task :=
  {| task_id := Some "T1"; task_title := Some "change foo";
     task_description := Some "change what foo does";
     task_type := Some "feature"; task_keywords := Some ["foo"];
     task_dependencies := Some ["a.js"] |}.

End Scoring.

(** ** Sums over the entries of a vector *)

Module Vectors.

Import VectorUtils.

(** The weight of a term, zero when the term is absent *)
Definition weight_in (v : Vector) (term : string) : R := default 0%R (v !! term).

Definition entries_dot (l : list (string * R)) (v2 : Vector) : R :=
  foldr (fun kx acc => (acc + snd kx * weight_in v2 (fst kx))%R) 0%R l.

Definition entries_squares (l : list (string * R)) : R :=
  foldr (fun kx acc => (acc + snd kx * snd kx)%R) 0%R l.

End Vectors.

(** Signs of doubles, on the format of the Standard Library *)

Module Doubles.

(** A double that is not below zero: a zero of either sign, a positive
    number, the positive infinity, or [NaN]. *)
Definition not_negative (x : spec_float) : Prop :=
  match x with
  | S754_infinity true | S754_finite true _ _ => False
  | _ => True
  end.

(** A double that carries the sign [s], or [NaN]. *)
Definition signed (s : bool) (x : spec_float) : Prop :=
  match x with
  | S754_zero s' | S754_infinity s' | S754_finite s' _ _ => s' = s
  | S754_nan => True
  end.

(** The sign of a double; [NaN] has none. *)
Definition sign_of (x : spec_float) : option bool :=
  match x with
  | S754_zero s | S754_infinity s | S754_finite s _ _ => Some s
  | S754_nan => None
  end.

(** [y] is [NaN] or has the sign of [x]. *)
Definition keeps_sign (x y : spec_float) : Prop :=
  sign_of y = None \/ sign_of y = sign_of x.

End Doubles.

(** ** One term of [mergeVectors] *)

Module Merging.

Import VectorUtils64.

(** The weights that [mergeVectors] uses. *)
Definition weights_used (vectors : list Vector) (weights : option (list float))
    : list float :=
  match weights with
  | Some ws => ws
  | None => map (fun _ => (1 / length_of vectors)%float) vectors
  end.

(** What the vectors give to one term: the products [val * weight], in
    the order in which the two loops meet them. *)
Definition contributions (term : string) (vectors : list Vector)
    (weights : list float) : list float :=
  flat_map (fun vw =>
      map (fun entry => (snd entry * snd vw)%float)
        (List.filter (fun entry => String.eqb (fst entry) term) (fst vw)))
    (combine vectors weights).

(** One more product under a term: what the property of that term is
    afterwards, [None] standing for no property. *)
Definition add_to (term : string) (value : option Merged) (x : float)
    : option Merged :=
  match value with
  | Some (Number sum) =>
      Some (Number ((if truthy (Some (JsObject.Own sum)) then sum else 0) + x))
  | Some (Text name addends) => Some (Text name (addends ++ [x])%list)
  | None =>
      if JsObject.inherited term then
        if String.eqb term "__proto__" then None else Some (Text term [x])
      else Some (Number (0 + x))
  end.

Definition merged_value (term : string) (products : list float) : option Merged :=
  fold_left (add_to term) products None.

End Merging.

(** ** A small code base on disk *)

Module Disk.

Definition file (name : string) : Host.Dirent :=
  {| Host.d_name := name; Host.d_kind := Host.IsFile |}.

Definition line (n : nat) : Ast.Loc := {| Ast.loc_start := n; Ast.loc_end := n |}.

Definition program (body : list Ast.t) : Ast.t :=
  Ast.Node (Ast.OtherNode "File") [Ast.Node (Ast.OtherNode "Program") body].

Definition statement (kind : string) (children : list Ast.t) : Ast.t :=
  Ast.Node (Ast.OtherNode kind) children.

(** [function bar(){}] *)
Definition b_js : Ast.t :=
  program
    [Ast.Node (Ast.FunctionDeclaration (Some "bar") [] (line 1) "function bar(){}")
       [statement "Identifier" []; statement "BlockStatement" []]].

(** [const {bar} = require('./b');] then [function foo(){ bar(); }] *)
Definition a_js : Ast.t :=
  program
    [statement "VariableDeclaration"
       [Ast.Node (Ast.VariableDeclarator None)
          [statement "ObjectPattern" [];
           Ast.Node (Ast.CallExpression (Ast.CalleeIdentifier "require")
                       [Ast.StringLiteral "./b"])
             [statement "Identifier" []; statement "StringLiteral" []]]];
     Ast.Node (Ast.FunctionDeclaration (Some "foo") [] (line 2)
                 "function foo(){ bar(); }")
       [statement "Identifier" [];
        statement "BlockStatement"
          [statement "ExpressionStatement"
             [Ast.Node (Ast.CallExpression (Ast.CalleeIdentifier "bar") [])
                [statement "Identifier" []]]]]].

(** [import { bar } from './b';] then [function foo(){ bar(); }] *)
Definition a_mjs : Ast.t :=
  program
    [Ast.Node (Ast.ImportDeclaration "./b")
       [statement "ImportSpecifier" []; statement "StringLiteral" []];
     Ast.Node (Ast.FunctionDeclaration (Some "foo") [] (line 2)
                 "function foo(){ bar(); }")
       [statement "Identifier" [];
        statement "BlockStatement"
          [statement "ExpressionStatement"
             [Ast.Node (Ast.CallExpression (Ast.CalleeIdentifier "bar") [])
                [statement "Identifier" []]]]]].

(** [const {bar} = require('./b.js');] then [function foo(){ bar(); }] *)
Definition a_js_with_extension : Ast.t :=
  program
    [statement "VariableDeclaration"
       [Ast.Node (Ast.VariableDeclarator None)
          [statement "ObjectPattern" [];
           Ast.Node (Ast.CallExpression (Ast.CalleeIdentifier "require")
                       [Ast.StringLiteral "./b.js"])
             [statement "Identifier" []; statement "StringLiteral" []]]];
     Ast.Node (Ast.FunctionDeclaration (Some "foo") [] (line 2)
                 "function foo(){ bar(); }")
       [statement "Identifier" [];
        statement "BlockStatement"
          [statement "ExpressionStatement"
             [Ast.Node (Ast.CallExpression (Ast.CalleeIdentifier "bar") [])
                [statement "Identifier" []]]]]].

Definition source (length : nat) (ast : option Ast.t) : Host.Source :=
  {| Host.text_length := length; Host.parsed := ast |}.

Definition a_text : Host.Source := source 54 (Some a_js).
Definition a_module_text : Host.Source := source 55 (Some a_mjs).
Definition a_text_with_extension : Host.Source := source 57 (Some a_js_with_extension).
Definition b_text : Host.Source := source 17 (Some b_js).

(** The directory [/repo] holds [a.js], with the text [a], and [b.js], and
    nothing else. The process runs in [/repo]. [root] is the path that is
    indexed and [prefix] what it puts before the names of the two files:
    ["/repo"] and ["/repo/"], or ["."] and [""]. *)
Definition code_base (root prefix : string) (a : Host.Source) : Host.t :=
  {| Host.fs :=
       {| Host.readdir := fun p =>
            if String.eqb p root then Some [file "a.js"; file "b.js"] else None;
          Host.readFile := fun p =>
            if String.eqb p (prefix ++ "a.js") then Some a
            else if String.eqb p (prefix ++ "b.js") then Some b_text
            else None;
          Host.stat_mtime := fun p =>
            if String.eqb p (prefix ++ "a.js") || String.eqb p (prefix ++ "b.js")
            then Some "2024-01-01T00:00:00.000Z" else None;
          Host.exists_on_disk := fun p =>
            String.eqb p "/repo/a.js" || String.eqb p "/repo/b.js"
            || String.eqb p "/repo" |};
     Host.cwd := "/repo";
     Host.now := "2024-01-02T00:00:00.000Z" |}.

(** [buildDependencyGraph] over the index of the code base, on a fresh
    analyzer whose module binds [fs] to [fsobj] *)
Definition graph_of (fsobj : DependencyAnalyzer.FsObject) (host : Host.t)
    (root : string) : DependencyAnalyzer.Graph :=
  let index :=
    Js.exec (CodebaseIndexer.indexCodebase CodebaseIndexer.default_config host root)
      CodebaseIndexer.empty_index in
  DependencyAnalyzer.dependencyGraph
    (Js.exec (DependencyAnalyzer.buildDependencyGraph_with fsobj host index)
       (DependencyAnalyzer.create DependencyAnalyzer.default_config)).

Definition edge_keys (g : DependencyAnalyzer.Graph) : list (string * string * string) :=
  map GraphCalls.edge_key (DependencyAnalyzer.edges g).

Definition has_node (g : DependencyAnalyzer.Graph) (nodeId : string) : bool :=
  bool_decide (is_Some (DependencyAnalyzer.nodes g !! nodeId)).

(** A directory with a file that does not parse, a file that cannot be
    read, and a sound file after them. *)
Definition with_failures : Host.t :=
  {| Host.fs :=
       {| Host.readdir := fun p =>
            if String.eqb p "/repo"
            then Some [file "broken.js"; file "gone.js"; file "b.js"] else None;
          Host.readFile := fun p =>
            if String.eqb p "/repo/broken.js" then Some (source 9 None)
            else if String.eqb p "/repo/b.js" then Some b_text
            else None;
          Host.stat_mtime := fun p => Some "2024-01-01T00:00:00.000Z";
          Host.exists_on_disk := fun p =>
            String.eqb p "/repo/broken.js" || String.eqb p "/repo/gone.js"
            || String.eqb p "/repo/b.js" || String.eqb p "/repo" |};
     Host.cwd := "/repo";
     Host.now := "2024-01-02T00:00:00.000Z" |}.

(** The entry of a file that was read but not parsed *)
Definition bare_entry (filePath : string) (content : Host.Source) (mtime : string)
    : CodebaseIndexer.FileEntry :=
  {| CodebaseIndexer.f_path := filePath;
     CodebaseIndexer.f_name := Path.basename filePath;
     CodebaseIndexer.f_extension := Path.extname filePath;
     CodebaseIndexer.f_size := Host.text_length content;
     CodebaseIndexer.f_lastModified := Some mtime;
     CodebaseIndexer.f_functions := [];
     CodebaseIndexer.f_classes := [] |}.

End Disk.

(** ** A process that runs the engine *)

Module Run.

(** A stand-in for [natural]: one token per text, every weight 1. *)
Definition plain_natural : SemanticAnalyzer.Natural :=
  {| SemanticAnalyzer.tokenize := fun text => [text];
     SemanticAnalyzer.stem := fun token => token;
     SemanticAnalyzer.tfidf_of := fun _ _ _ => Js.Return 1%R;
     SemanticAnalyzer.idf_of := fun _ _ => 1%R;
     SemanticAnalyzer.listTerms := fun _ _ => [];
     SemanticAnalyzer.holds := fun doc token =>
       existsb (String.eqb token) (SemanticAnalyzer.doc_tokens doc) |}.

(** An index with one function, [total] of [/repo/a.js]. *)
Definition one_function : CodebaseIndexer.CodeIndex :=
  {| CodebaseIndexer.files := [];
     CodebaseIndexer.functions :=
       [{| CodebaseIndexer.if_func :=
             {| CodebaseIndexer.fn_name := "total"; CodebaseIndexer.fn_params := [];
                CodebaseIndexer.fn_loc := Disk.line 1;
                CodebaseIndexer.fn_code := "function total() {}" |};
           CodebaseIndexer.if_filePath := "/repo/a.js" |}];
     CodebaseIndexer.classes := [];
     CodebaseIndexer.metadata :=
       {| CodebaseIndexer.indexedAt := None; CodebaseIndexer.totalFiles := 0;
          CodebaseIndexer.totalFunctions := 1; CodebaseIndexer.totalClasses := 0 |} |}.

(** The analyzer after [analyzeCodebase] on that index. *)
Definition analysed : SemanticAnalyzer.t :=
  Js.exec (SemanticAnalyzer.analyzeCodebase one_function)
    (SemanticAnalyzer.create SemanticAnalyzer.default_config plain_natural).

(** The entry of [total] in the semantic index of [analysed]. *)
Definition total_item : SemanticAnalyzer.Item :=
  {| SemanticAnalyzer.it_path := None;
     SemanticAnalyzer.it_name := Some "total";
     SemanticAnalyzer.it_filePath := Some "/repo/a.js";
     SemanticAnalyzer.it_tokens := ["total"; "function total() {}"];
     SemanticAnalyzer.it_vector :=
       Some {["total" := 1%R; "function total() {}" := 1%R]};
     SemanticAnalyzer.it_keywords := [];
     SemanticAnalyzer.it_params := Some [];
     SemanticAnalyzer.it_methods := None |}.

(** A task about [total]. *)
Definition task_total : MappingAlgorithm.Task :=
  {| MappingAlgorithm.task_id := Some "T2";
     MappingAlgorithm.task_title := Some "total";
     MappingAlgorithm.task_description := None;
     MappingAlgorithm.task_type := Some "feature";
     MappingAlgorithm.task_keywords := None;
     MappingAlgorithm.task_dependencies := None |}.

(** A fresh process: nothing assigned to [global], and a new engine. *)
Definition fresh : Engine.Process :=
  {| Engine.globals := Global.initial;
     Engine.engine := Engine.create Engine.default_config plain_natural |}.

End Run.

(** ** What an entry of a traversal says *)

Module Entries.

Import DependencyAnalyzer.

Definition type_allowed (options : Options) (edge : Edge) : Prop :=
  match types options with
  | Some ts => In (e_type edge) ts
  | None => True
  end.

(** The entry holds what [nodes[id]] reads under its name, which is not
    the name of the start node; it was reached over an edge of the graph
    of an allowed type, at a depth of at least one. *)
Definition sound (g : Graph) (options : Options) (start : string) (d : Dependency) : Prop :=
  JsObject.get (nodes g) (dep_id d) = Some (dep_node d)
  /\ dep_id d <> start
  /\ In (dep_edge d) (edges g)
  /\ dep_id d = edge_end options (dep_edge d)
  /\ type_allowed options (dep_edge d)
  /\ 1 <= dep_depth d.

(** The entry holds the node that the graph stores under its name. *)
Definition stored (g : Graph) (d : Dependency) : Prop :=
  exists n, dep_node d = JsObject.Own n /\ nodes g !! dep_id d = Some n.

Definition all_sound (g : Graph) (options : Options) (start : string) (w : Walk) : Prop :=
  Forall (sound g options start) (dependencies w) /\ start ∈ visited w.

Definition usable_edge (g : Graph) (options : Options) (edge : Edge) : Prop :=
  In edge (edges g) /\ type_allowed options edge.

(** How far the list of a call may grow: not at all beyond the depth,
    up to [maxResults] plus one entry per enclosing call, and by one entry
    once [maxResults] is reached. *)
Definition bounded_growth (options : Options) (currentDepth before after : nat) : Prop :=
  before <= after
  /\ (depth options <= currentDepth -> after = before)
  /\ (before < maxResults options ->
      after <= maxResults options + (depth options - currentDepth - 1))
  /\ (maxResults options <= before -> after <= before + 1).

End Entries.


(** ** Effects of a computation *)

Module Effects.

(** [m] keeps [I], also when it throws. *)
Definition preserves {S A : Type} (I : S -> Prop) (m : Js.M S A) : Prop :=
  forall s, I s -> I (snd (m s)).

(** [m] never throws. *)
Definition returns {S A : Type} (m : Js.M S A) : Prop :=
  forall s, exists a, fst (m s) = Js.Return a.

(** The state after [m] is related by [R] to the state before. *)
Definition advances {S A : Type} (R : S -> S -> Prop) (m : Js.M S A) : Prop :=
  forall s, R s (snd (m s)).

End Effects.

(** ** What a built graph holds *)

Module Built.

Import DependencyAnalyzer.

Definition file_id (path : string) : string := "file:" ++ path.

Definition function_id (func : CodebaseIndexer.IndexedFunction) : string :=
  "function:" ++ CodebaseIndexer.if_filePath func ++ ":"
    ++ CodebaseIndexer.fn_name (CodebaseIndexer.if_func func).

Definition class_id (cls : CodebaseIndexer.IndexedClass) : string :=
  "class:" ++ CodebaseIndexer.ic_filePath cls ++ ":"
    ++ CodebaseIndexer.cls_name (CodebaseIndexer.ic_cls cls).

Definition method_id (cls : CodebaseIndexer.IndexedClass)
    (method : CodebaseIndexer.MethodEntry) : string :=
  "method:" ++ CodebaseIndexer.ic_filePath cls ++ ":"
    ++ CodebaseIndexer.cls_name (CodebaseIndexer.ic_cls cls) ++ "."
    ++ CodebaseIndexer.m_name method.

(** Every node is stored under its own identifier, and the identifier
    starts with the type of the node. *)
Definition keyed (g : Graph) : Prop :=
  map_Forall (fun k n => node_id n = k /\ String.prefix (node_type n ++ ":") k = true)
    (nodes g).

Definition counted (g : Graph) : Prop :=
  nodeCount (metadata g) = size (nodes g)
  /\ edgeCount (metadata g) = length (edges g).

Definition has_node (id : string) (g : Graph) : Prop := is_Some (nodes g !! id).

Definition has_node_of (type id : string) (g : Graph) : Prop :=
  exists n, nodes g !! id = Some n /\ node_id n = id /\ node_type n = type.

Definition has_edge (source target type : string) (g : Graph) : Prop :=
  In (source, target, type) (map GraphCalls.edge_key (edges g)).

(** Nothing is taken away: the configuration is the same, and every node
    identifier and every edge (source, target, type) is still there. *)
Definition extends (s s' : t) : Prop :=
  config s' = config s
  /\ (forall id, has_node id (dependencyGraph s) -> has_node id (dependencyGraph s'))
  /\ (forall source target type,
        has_edge source target type (dependencyGraph s) ->
        has_edge source target type (dependencyGraph s')).

(** The identifier starts with the type and a colon. *)
Definition starts (type id : string) : Prop := String.prefix (type ++ ":") id = true.

(** The edges that the builder asks for, by the identifiers of their ends. *)
Definition linked (source target type : string) : Prop :=
  (type = "contains"
   /\ (starts "function" source \/ starts "class" source) /\ starts "file" target)
  \/ (type = "memberOf" /\ starts "method" source /\ starts "class" target)
  \/ ((type = "imports" \/ type = "requires")
      /\ starts "file" source /\ starts "file" target)
  \/ (type = "calls" /\ starts "function" source /\ starts "function" target).

Definition linked_edges (g : Graph) : Prop :=
  Forall (fun e => linked (e_source e) (e_target e) (e_type e)) (edges g).

(** The kinds of edge of a graph: type of edge, type of source, type of
    target. *)
Definition schema : list (string * string * string) :=
  [("contains", "function", "file"); ("contains", "class", "file");
   ("memberOf", "method", "class");
   ("imports", "file", "file"); ("requires", "file", "file");
   ("calls", "function", "function")].

Definition typed_edge (g : Graph) (e : Edge) : Prop :=
  exists source target,
    nodes g !! e_source e = Some source
    /\ nodes g !! e_target e = Some target
    /\ In (e_type e, node_type source, node_type target) schema.

Definition indexed (codeIndex : CodebaseIndexer.CodeIndex) (filePath : string) : Prop :=
  In filePath (map CodebaseIndexer.f_path (CodebaseIndexer.files codeIndex)).

(** The graph has a node for every file, function, class and method of the
    index, a [memberOf] edge from every method to its class, and a
    [contains] edge from every function and class whose file is one of
    the files of the index. [node] says what having a node means. *)
Definition covers_with (node : string -> string -> Graph -> Prop)
    (codeIndex : CodebaseIndexer.CodeIndex) (g : Graph) : Prop :=
  Forall (fun file => node "file" (file_id (CodebaseIndexer.f_path file)) g)
    (CodebaseIndexer.files codeIndex)
  /\ Forall (fun func =>
       node "function" (function_id func) g
       /\ (indexed codeIndex (CodebaseIndexer.if_filePath func) ->
           has_edge (function_id func) (file_id (CodebaseIndexer.if_filePath func))
             "contains" g))
       (CodebaseIndexer.functions codeIndex)
  /\ Forall (fun cls =>
       node "class" (class_id cls) g
       /\ (indexed codeIndex (CodebaseIndexer.ic_filePath cls) ->
           has_edge (class_id cls) (file_id (CodebaseIndexer.ic_filePath cls))
             "contains" g)
       /\ Forall (fun method =>
            node "method" (method_id cls method) g
            /\ has_edge (method_id cls method) (class_id cls) "memberOf" g)
            (CodebaseIndexer.cls_methods (CodebaseIndexer.ic_cls cls)))
       (CodebaseIndexer.classes codeIndex).

Definition covers : CodebaseIndexer.CodeIndex -> Graph -> Prop :=
  covers_with has_node_of.

(** The three phases of [buildDependencyGraph] after the reset. *)
Definition populate (codeIndex : CodebaseIndexer.CodeIndex) : Js.M t unit :=
  let* _ := addFilesToGraph (CodebaseIndexer.files codeIndex) in
  let* _ := addFunctionsToGraph (CodebaseIndexer.functions codeIndex) in
  addClassesToGraph (CodebaseIndexer.classes codeIndex).

Definition analyze (fsobj : FsObject) (host : Host.t)
    (codeIndex : CodebaseIndexer.CodeIndex) : Js.M t unit :=
  let* _ := analyzeFileDependencies_with fsobj host (CodebaseIndexer.files codeIndex) in
  analyzeFunctionCalls host (CodebaseIndexer.functions codeIndex)
    (CodebaseIndexer.files codeIndex).

Definition built (fsobj : FsObject) (host : Host.t)
    (codeIndex : CodebaseIndexer.CodeIndex) (self : t) : t :=
  let s0 := {| config := config self; dependencyGraph := empty_graph |} in
  let s1 := snd (populate codeIndex s0) in
  let s2 := snd (analyze fsobj host codeIndex s1) in
  snd (updateGraphMetadata (Host.now host) s2).

End Built.


(** ** What an index holds *)

Module Indexed.

Import CodebaseIndexer.

(** The nodes of a tree in the order in which a traversal enters them. *)
Fixpoint preorder (ast : Ast.t) : list Ast.Kind :=
  match ast with
  | Ast.Node k children => k :: flat_map preorder children
  end.

Definition function_entries (kinds : list Ast.Kind) : list FunctionEntry :=
  flat_map (fun k =>
    match k with
    | Ast.FunctionDeclaration id params loc code =>
        [{| fn_name := declared_name id; fn_params := map param_name params;
            fn_loc := loc; fn_code := code |}]
    | _ => []
    end) kinds.

Definition class_entries (kinds : list Ast.Kind) : list ClassEntry :=
  flat_map (fun k =>
    match k with
    | Ast.ClassDeclaration id body loc code =>
        [{| cls_name := declared_name id; cls_methods := class_methods body;
            cls_loc := loc; cls_code := code |}]
    | _ => []
    end) kinds.

(** The nodes of a text: none when the parser rejects it. *)
Definition declared (content : Host.Source) : list Ast.Kind :=
  match Host.parsed content with
  | Some ast => preorder ast
  | None => []
  end.

Definition collect (kinds : list Ast.Kind) (fi : FileEntry) : FileEntry :=
  {| f_path := f_path fi; f_name := f_name fi; f_extension := f_extension fi;
     f_size := f_size fi; f_lastModified := f_lastModified fi;
     f_functions := f_functions fi ++ function_entries kinds;
     f_classes := f_classes fi ++ class_entries kinds |}.

Definition functions_of (fi : FileEntry) : list IndexedFunction :=
  map (fun fn => {| if_func := fn; if_filePath := f_path fi |}) (f_functions fi).

Definition classes_of (fi : FileEntry) : list IndexedClass :=
  map (fun c => {| ic_cls := c; ic_filePath := f_path fi |}) (f_classes fi).

(** The entry of a file says what the disk says about its path. *)
Definition described (fs : Host.FileSystem) (fi : FileEntry) : Prop :=
  exists content mtime,
    Host.readFile fs (f_path fi) = Some content
    /\ Host.stat_mtime fs (f_path fi) = Some mtime
    /\ fi = {| f_path := f_path fi;
               f_name := Path.basename (f_path fi);
               f_extension := Path.extname (f_path fi);
               f_size := Host.text_length content;
               f_lastModified := Some mtime;
               f_functions := function_entries (declared content);
               f_classes := class_entries (declared content) |}.

(** The two global lists are the lists of the files, in the order of the
    files, each entry tagged with the path of its file. *)
Definition consistent (fs : Host.FileSystem) (idx : CodeIndex) : Prop :=
  functions idx = flat_map functions_of (files idx)
  /\ classes idx = flat_map classes_of (files idx)
  /\ Forall (described fs) (files idx).

Definition totalled (idx : CodeIndex) : Prop :=
  totalFiles (metadata idx) = length (files idx)
  /\ totalFunctions (metadata idx) = length (functions idx)
  /\ totalClasses (metadata idx) = length (classes idx).

End Indexed.


(** ** Impact of a set of changes *)

Module Impacts.

Import ChangePredictor.

Local Open Scope R_scope.

(** The weights of the record entries of an array, for one element. *)
Definition node_weights (element : CodeElement) (entries : list GraphObject.Entry) : R :=
  fold_right (fun entry acc =>
    match entry with
    | GraphObject.EntryRecord node => calculateNodeWeight node element + acc
    | GraphObject.EntryString _ => acc
    end) 0 entries.

Definition impacted_weights (impactResults : list (CodeElement * Impact)) : R :=
  fold_right (fun result acc =>
    node_weights (fst result) (i_impactedNodes (snd result)) + acc) 0 impactResults.

Definition dependency_weights (impactResults : list (CodeElement * Impact)) : R :=
  fold_right (fun result acc =>
    node_weights (fst result) (i_dependencyNodes (snd result)) + acc) 0 impactResults.

Definition impacted_count (impactResults : list (CodeElement * Impact)) : nat :=
  fold_right (fun result acc => (length (i_impactedNodes (snd result)) + acc)%nat)
    0%nat impactResults.

Definition is_record (entry : GraphObject.Entry) : Prop :=
  match entry with
  | GraphObject.EntryRecord _ => True
  | GraphObject.EntryString _ => False
  end.

(** Every entry of every array is a record [{id, node, edge, depth}]. *)
Definition records_only (impactResults : list (CodeElement * Impact)) : Prop :=
  Forall (fun result =>
            Forall is_record (i_impactedNodes (snd result))
            /\ Forall is_record (i_dependencyNodes (snd result)))
    impactResults.

(** What the maps of one side satisfy between two entries. *)
Definition tidy (side : Side) : Prop :=
  NoDup (map fst (side_nodes side))
  /\ NoDup (map fst (side_files side))
  /\ Forall (fun kv => if_path (snd kv) = fst kv) (side_files side).

Definition descending {A : Type} (key : A -> R) (l : list A) : Prop :=
  StronglySorted (fun a b => key a >= key b) l.

Definition paths_of (changes : list Change) : list (option string) :=
  map c_filePath changes.

(** One impacted node behind one element to modify. *)
Definition one_caller : list (CodeElement * Impact) :=
  let element :=
    {| ce_id := "function:/repo/b.js:bar"; ce_type := "function";
       ce_name := Some "bar"; ce_filePath := Some "/repo/b.js";
       ce_confidence := "high" |} in
  let caller :=
    {| DependencyAnalyzer.dep_id := "function:/repo/a.js:foo";
       DependencyAnalyzer.dep_node :=
         JsObject.Own
           (DependencyAnalyzer.FunctionNode "function:/repo/a.js:foo" "foo" "/repo/a.js" []
              {| Ast.loc_start := 1; Ast.loc_end := 1 |});
       DependencyAnalyzer.dep_edge :=
         {| DependencyAnalyzer.e_source := "function:/repo/a.js:foo";
            DependencyAnalyzer.e_target := "function:/repo/b.js:bar";
            DependencyAnalyzer.e_type := "calls";
            DependencyAnalyzer.e_metadata := {["weight" := 1]} |};
       DependencyAnalyzer.dep_depth := 1 |} in
  [(element,
    {| i_nodeId := "function:/repo/b.js:bar";
       i_impactedNodes := [GraphObject.EntryRecord caller];
       i_dependencyNodes := [];
       i_impactScore := 1; i_dependencyScore := 0 |})].

End Impacts.


(** ** Merged search results *)

Module Combined.

Import MappingAlgorithm.

Local Open Scope R_scope.

Definition key_of (result : SemanticAnalyzer.Result) : string :=
  item_key (SemanticAnalyzer.r_type result) (SemanticAnalyzer.r_item result).

(** All results of all sets have a similarity in [[lo, hi]], and every
    set has a positive weight. *)
Definition bounded (lo hi : R) (resultSets : list (list SemanticAnalyzer.Result * R)) : Prop :=
  Forall (fun set =>
            0 < snd set
            /\ Forall (fun r => lo <= SemanticAnalyzer.r_similarity r <= hi) (fst set))
    resultSets.

Definition all_results (resultSets : list (list SemanticAnalyzer.Result * R))
    : list SemanticAnalyzer.Result :=
  flat_map fst resultSets.

(** An entry of the map between two results. *)
Definition merged (lo hi : R) (kv : string * Element) : Prop :=
  getElementKey (snd kv) = fst kv
  /\ 0 < el_weight (snd kv)
  /\ lo <= el_similarity (snd kv) <= hi
  /\ el_dependencyScore (snd kv) = None
  /\ el_finalScore (snd kv) = None.

(** An element that has not been ranked. *)
Definition unranked (lo hi : R) (element : Element) : Prop :=
  0 < el_weight element
  /\ lo <= el_similarity element <= hi
  /\ el_dependencyScore element = None
  /\ el_finalScore element = None.

End Combined.


(** ** What the semantic index holds *)

Module Semantics.

Import SemanticAnalyzer.

(** No document of the corpus holds the token: [documents[i][token]] is
    falsy for every document. *)
Definition unknown (self : t) (token : string) : Prop :=
  Forall (fun doc => document_has self doc token = false) (tfidf self).

(** The entry of a file: its path, and neither [name] nor [filePath]. *)
Definition file_entry (kv : string * Item) : Prop :=
  it_path (snd kv) = Some (fst kv)
  /\ it_name (snd kv) = None
  /\ it_filePath (snd kv) = None.

(** The entry of a function or class: stored under the key that
    [getElementKey] forms from its [filePath] and [name]. *)
Definition named_entry (kind : string) (kv : string * Item) : Prop :=
  MappingAlgorithm.item_key kind (snd kv) = fst kv
  /\ is_Some (it_name (snd kv))
  /\ is_Some (it_filePath (snd kv)).

Definition entry_of (sec : Section_) : string * Item -> Prop :=
  match sec with
  | Files => file_entry
  | Functions => named_entry "function"
  | Classes => named_entry "class"
  end.

Definition shaped (self : t) : Prop :=
  forall sec, Forall (entry_of sec) (section_of sec (semanticIndex self)).

Definition is_file (element : MappingAlgorithm.Element) : bool :=
  String.eqb (MappingAlgorithm.el_type element) "file".

(** What a hit says about its item: a file hit has the key of all file
    hits, any other hit is an entry of its kind. *)
Definition hit (type : string) (item : Item) : Prop :=
  if String.eqb type "file"
  then MappingAlgorithm.item_key type item = "file:undefined:undefined"
  else is_Some (it_name item) /\ is_Some (it_filePath item).

End Semantics.


(** ** Searching the index by name *)

Module Searches.

Import CodebaseSearch.

Definition lower (query : Query) : Query :=
  {| fileName := option_map SemanticAnalyzer.toLowerCase (fileName query);
     functionName := option_map SemanticAnalyzer.toLowerCase (functionName query);
     className := option_map SemanticAnalyzer.toLowerCase (className query) |}.

Definition for_file (name : string) : Query :=
  {| fileName := Some name; functionName := None; className := None |}.

Definition for_function (name : string) : Query :=
  {| fileName := None; functionName := Some name; className := None |}.

Definition for_class (name : string) : Query :=
  {| fileName := None; functionName := None; className := Some name |}.

(** Nothing is asked for: every field absent or empty. *)
Definition blank (q : option string) : Prop := q = None \/ q = Some "".

End Searches.

(** ** What a traversal has seen *)

Module Reach.

Import DependencyAnalyzer.

Definition ids (w : Walk) : list string := map dep_id (dependencies w).

(** Every visited node is the start node or has an entry. *)
Definition accounted (start : string) (w : Walk) : Prop :=
  forall x, x ∈ visited w -> x = start \/ In x (ids w).

(** The far end of the edge is the start node, or no node of the graph,
    or has an entry in the list. *)
Definition reached (g : Graph) (options : Options) (start : string)
    (found : list string) (edge : Edge) : Prop :=
  edge_end options edge = start
  \/ nodes g !! edge_end options edge = None
  \/ In (edge_end options edge) found.

End Reach.


(** ** Entries that have their vector *)

Module Completed.

Import SemanticAnalyzer.

(** The terms of the vector are the tokens, except ["__proto__"]: an
    assignment of a number to [vector["__proto__"]] creates no property. *)
Definition spans (v : VectorUtils.Vector) (tokens : list string) : Prop :=
  forall term, term ∈ dom v <-> In term tokens /\ term <> "__proto__".

(** The entry under the key has a vector, whose terms are the tokens of
    the entry. *)
Definition complete_at (d : Dict) (k : string) : Prop :=
  exists item v,
    dict_get d k = Some item
    /\ it_vector item = Some v
    /\ spans v (it_tokens item).

Definition completed (sec : Section_) (k : string) (self : t) : Prop :=
  complete_at (section_of sec (semanticIndex self)) k.

Definition same_section (a b : Section_) : bool :=
  match a, b with
  | Files, Files | Functions, Functions | Classes, Classes => true
  | _, _ => false
  end.

(** Every file, function and class of the code index has its entry. *)
Definition covers (codeIndex : CodebaseIndexer.CodeIndex) (idx : SemanticIndex) : Prop :=
  Forall (fun file => complete_at (files idx) (CodebaseIndexer.f_path file))
    (CodebaseIndexer.files codeIndex)
  /\ Forall (fun func => complete_at (functions idx) (function_docId func))
       (CodebaseIndexer.functions codeIndex)
  /\ Forall (fun cls => complete_at (classes idx) (class_docId cls))
       (CodebaseIndexer.classes codeIndex).

End Completed.


(** ** Files that a scan selects *)

Module Scanned.

Import CodebaseIndexer.

(** The directories that a scan from [root] enters, with their depth:
    the root, and below a directory within [indexDepth] every directory
    entry whose name is not excluded. *)
Inductive entered (cfg : Config) (fs : Host.FileSystem) (root : string)
    : nat -> string -> Prop :=
| entered_root : entered cfg fs root 0 root
| entered_sub (depth : nat) (dirPath : string) (entries : list Host.Dirent)
    (entry : Host.Dirent) :
    entered cfg fs root depth dirPath ->
    depth <= indexDepth cfg ->
    Host.readdir fs dirPath = Some entries ->
    In entry entries ->
    Host.d_kind entry = Host.IsDirectory ->
    includes (excludeDirs cfg) (Host.d_name entry) = false ->
    entered cfg fs root (depth + 1) (Path.join dirPath (Host.d_name entry)).

(** The file is a file entry, with one of the configured extensions, of
    a directory that the scan enters within [indexDepth]. *)
Definition selected (cfg : Config) (fs : Host.FileSystem) (root : string)
    (fi : FileEntry) : Prop :=
  exists depth dirPath entries entry,
    entered cfg fs root depth dirPath
    /\ depth <= indexDepth cfg
    /\ Host.readdir fs dirPath = Some entries
    /\ In entry entries
    /\ Host.d_kind entry = Host.IsFile
    /\ includes (fileExtensions cfg) (Path.extname (Host.d_name entry)) = true
    /\ f_path fi = Path.join dirPath (Host.d_name entry).

Definition all_selected (cfg : Config) (fs : Host.FileSystem) (root : string)
    (idx : CodeIndex) : Prop :=
  Forall (selected cfg fs root) (files idx).

(** The path is that of a file entry, with one of the configured
    extensions, of a directory that the scan enters within [indexDepth]. *)
Definition chosen (cfg : Config) (fs : Host.FileSystem) (root path : string) : Prop :=
  exists depth dirPath entries entry,
    entered cfg fs root depth dirPath
    /\ depth <= indexDepth cfg
    /\ Host.readdir fs dirPath = Some entries
    /\ In entry entries
    /\ Host.d_kind entry = Host.IsFile
    /\ includes (fileExtensions cfg) (Path.extname (Host.d_name entry)) = true
    /\ path = Path.join dirPath (Host.d_name entry).

(** The index has an entry for the path; when the text of the file does
    not parse, it is the entry without functions and classes. *)
Definition indexed_at (fs : Host.FileSystem) (path : string) (idx : CodeIndex) : Prop :=
  exists fi,
    In fi (files idx) /\ f_path fi = path
    /\ forall content mtime,
         Host.readFile fs path = Some content ->
         Host.stat_mtime fs path = Some mtime ->
         Host.parsed content = None ->
         fi = Disk.bare_entry path content mtime.

End Scanned.


(** * Properties *)

Example path_dirname_abs : Path.dirname "/repo/a.js" = "/repo".
Proof. reflexivity. Qed.

Example path_dirname_rel : Path.dirname "a.js" = ".".
Proof. reflexivity. Qed.

Example path_resolve_sibling : Path.resolve "/work" ["/repo"; "./b"] = "/repo/b".
Proof. reflexivity. Qed.

Example path_resolve_cwd : Path.resolve "/work" ["."; "./b"] = "/work/b".
Proof. reflexivity. Qed.

Example path_resolve_up : Path.resolve "/work" ["/repo/src"; "../lib/x.js"] = "/repo/lib/x.js".
Proof. reflexivity. Qed.

Example path_extname_js : Path.extname "/repo/b.js" = ".js".
Proof. reflexivity. Qed.

Example path_extname_none : Path.extname "/repo.d/b" = "".
Proof. reflexivity. Qed.

Example path_extname_hidden : Path.extname "/repo/.bashrc" = "".
Proof. reflexivity. Qed.

Example path_join_index : Path.join "/repo/lib" "index.js" = "/repo/lib/index.js".
Proof. reflexivity. Qed.

Example path_basename_file : Path.basename "/repo/a.js" = "a.js".
Proof. reflexivity. Qed.

(** ** The control monad *)

Section JsFacts.

Context {S A : Type}.

Lemma for_of_total (body : A -> Js.M S unit) (xs : list A) (s : S) :
  (forall x s', Js.result (body x) s' = Js.Return tt) ->
  Js.for_of xs body s
  = (Js.Return tt, fold_left (fun s' x => Js.exec (body x) s') xs s).
Proof.
  intros Hbody. revert s.
  induction xs as [|x xs IH]; intros s; simpl; [reflexivity|].
  unfold Js.bind. specialize (Hbody x s). unfold Js.result in Hbody.
  unfold Js.exec at 2.
  destruct (body x s) as [o s']; simpl in *. subst o. apply IH.
Qed.

Lemma for_of_app (body : A -> Js.M S unit) (xs ys : list A) (s : S) :
  Js.for_of (xs ++ ys) body s =
  match Js.for_of xs body s with
  | (Js.Return _, s') => Js.for_of ys body s'
  | (Js.Throw e, s') => (Js.Throw e, s')
  end.
Proof.
  revert s. induction xs as [|x xs IH]; intros s; simpl; [reflexivity|].
  unfold Js.bind. destruct (body x s) as [[[]|e] s']; [apply IH | reflexivity].
Qed.

End JsFacts.

(** ** Edges of the dependency graph *)

Section AddEdge.

Import DependencyAnalyzer GraphCalls.

Lemma same_edge_key s t ty e :
  same_edge s t ty e = true <-> edge_key e = (s, t, ty).
Proof.
  unfold same_edge, edge_key. rewrite !andb_true_iff, !String.eqb_eq.
  split; [intros [[-> ->] ->]; reflexivity | intros [= -> -> ->]; auto].
Qed.

Lemma assign_metadata_keys s t ty md es :
  map edge_key (assign_metadata s t ty md es) = map edge_key es.
Proof.
  induction es as [|e es IH]; simpl; [reflexivity|].
  destruct (same_edge s t ty e); simpl; [reflexivity|]. now rewrite IH.
Qed.

Lemma find_none_key s t ty es :
  find (same_edge s t ty) es = None -> ~ In (s, t, ty) (map edge_key es).
Proof.
  induction es as [|e es IH]; simpl; [tauto|].
  destruct (same_edge s t ty e) eqn:He; [discriminate|].
  intros Hf [Hk|Hin]; [|exact (IH Hf Hin)].
  apply same_edge_key in Hk. congruence.
Qed.

Lemma find_assign_metadata s t ty md es e :
  find (same_edge s t ty) es = Some e ->
  find (same_edge s t ty) (assign_metadata s t ty md es)
  = Some (with_metadata (md ∪ e_metadata e) e).
Proof.
  induction es as [|e' es IH]; simpl; [discriminate|].
  destruct (same_edge s t ty e') eqn:He; simpl.
  - intros [= ->]. unfold same_edge in *. simpl. rewrite He. reflexivity.
  - rewrite He. exact IH.
Qed.

Lemma find_appended s t ty es e :
  find (same_edge s t ty) es = None -> same_edge s t ty e = true ->
  find (same_edge s t ty) (es ++ [e]) = Some e.
Proof.
  induction es as [|e' es IH]; simpl; intros Hf He.
  - now rewrite He.
  - destruct (same_edge s t ty e'); [discriminate|]. now apply IH.
Qed.

Lemma assign_metadata_forall (P : Edge -> Prop) s t ty md es :
  (forall e md', P e -> P (with_metadata md' e)) ->
  Forall P es -> Forall P (assign_metadata s t ty md es).
Proof.
  intros HP. induction 1 as [|e es He Hes IH]; simpl; [constructor|].
  destruct (same_edge s t ty e); constructor; auto.
  apply (HP e _ He).
Qed.

Lemma get_own {A} (object : gmap string A) (key : string) (a : A) :
  object !! key = Some a -> JsObject.get object key = Some (JsObject.Own a).
Proof. intros H. unfold JsObject.get. now rewrite H. Qed.

Lemma get_member {A} (object : gmap string A) (key : string) :
  object !! key = None -> JsObject.inherited key = true ->
  JsObject.get object key = Some (JsObject.Member key).
Proof. intros H Hi. unfold JsObject.get. now rewrite H, Hi. Qed.

Lemma get_plain {A} (object : gmap string A) (key : string) :
  JsObject.inherited key = false ->
  JsObject.get object key = JsObject.Own <$> object !! key.
Proof. intros Hi. unfold JsObject.get. rewrite Hi. now destruct (object !! key). Qed.

Lemma get_Own_inv {A} (object : gmap string A) (key : string) (a : A) :
  JsObject.get object key = Some (JsObject.Own a) -> object !! key = Some a.
Proof.
  unfold JsObject.get. destruct (object !! key); [congruence|].
  destruct (JsObject.inherited key); discriminate.
Qed.

Lemma get_Member_inv {A} (object : gmap string A) (key name : string) :
  JsObject.get object key = Some (JsObject.Member name) ->
  name = key /\ object !! key = None /\ JsObject.inherited key = true.
Proof.
  unfold JsObject.get. destruct (object !! key); [discriminate|].
  destruct (JsObject.inherited key); [|discriminate]. intros [= <-]. auto.
Qed.

Lemma get_None {A} (object : gmap string A) (key : string) :
  JsObject.get object key = None
  <-> object !! key = None /\ JsObject.inherited key = false.
Proof.
  unfold JsObject.get. destruct (object !! key); [split; [|intros [? _]]; discriminate|].
  destruct (JsObject.inherited key); split; try discriminate; auto.
  intros [_ ?]. discriminate.
Qed.

Lemma get_plain_is_Some {A} (object : gmap string A) (key : string) :
  JsObject.inherited key = false ->
  is_Some (JsObject.get object key) -> is_Some (object !! key).
Proof. intros Hi. rewrite (get_plain _ _ Hi). now rewrite fmap_is_Some. Qed.

Lemma member_text_plain (name : string) :
  JsObject.inherited name = true ->
  JsObject.inherited (JsObject.member_text name) = false.
Proof.
  intros H. apply existsb_exists in H as (m & Hin & Heq).
  apply String.eqb_eq in Heq. subst m. simpl in Hin.
  repeat (destruct Hin as [<-|Hin]; [reflexivity|]). contradiction.
Qed.

Lemma file_id_plain (x : string) : JsObject.inherited ("file:" ++ x) = false.
Proof. reflexivity. Qed.

Lemma function_id_plain (x : string) : JsObject.inherited ("function:" ++ x) = false.
Proof. reflexivity. Qed.

Lemma class_id_plain (x : string) : JsObject.inherited ("class:" ++ x) = false.
Proof. reflexivity. Qed.

Lemma method_id_plain (x : string) : JsObject.inherited ("method:" ++ x) = false.
Proof. reflexivity. Qed.

Lemma addEdge_graph_nodes s t ty md g : nodes (addEdge_graph s t ty md g) = nodes g.
Proof.
  unfold addEdge_graph.
  destruct (JsObject.get (nodes g) s), (JsObject.get (nodes g) t); try reflexivity.
  destruct (find _ _); reflexivity.
Qed.

Lemma addEdge_graph_endpoints s t ty md g :
  JsObject.inherited s = false -> JsObject.inherited t = false ->
  endpoints_exist g -> endpoints_exist (addEdge_graph s t ty md g).
Proof.
  unfold endpoints_exist, addEdge_graph. intros Hps Hpt Hg.
  destruct (JsObject.get (nodes g) s) eqn:Hs; [|exact Hg].
  destruct (JsObject.get (nodes g) t) eqn:Ht; [|exact Hg].
  destruct (find _ _); simpl.
  - apply assign_metadata_forall; [|exact Hg]. intros e0 md' He. exact He.
  - apply Forall_app; split; [exact Hg|].
    constructor; [|constructor]. simpl.
    split; apply get_plain_is_Some; try assumption; [rewrite Hs | rewrite Ht]; eauto.
Qed.

Lemma addEdge_graph_no_duplicates s t ty md g :
  no_duplicate_edges g -> no_duplicate_edges (addEdge_graph s t ty md g).
Proof.
  unfold no_duplicate_edges, addEdge_graph. intros Hg.
  destruct (JsObject.get (nodes g) s); [|exact Hg].
  destruct (JsObject.get (nodes g) t); [|exact Hg].
  destruct (find _ _) eqn:Hf; simpl.
  - now rewrite assign_metadata_keys.
  - rewrite map_app. simpl. apply NoDup_app. split; [exact Hg|]. split.
    + intros k Hk Hin. apply list_elem_of_In in Hk.
      apply list_elem_of_In in Hin. destruct Hin as [<-|[]].
      exact (find_none_key _ _ _ _ Hf Hk).
    + apply NoDup_singleton.
Qed.

Lemma set_node_endpoints nodeId n g :
  endpoints_exist g ->
  endpoints_exist
    {| nodes := <[nodeId := n]> (nodes g); edges := edges g; metadata := metadata g |}.
Proof.
  unfold endpoints_exist. simpl. intros Hg. eapply Forall_impl; [exact Hg|].
  simpl. intros e [Hs Ht].
  split; rewrite lookup_insert_is_Some; destruct (decide (nodeId = e_source e));
    destruct (decide (nodeId = e_target e)); auto.
Qed.

Lemma run_returns c self : Js.result (run c) self = Js.Return tt.
Proof. destruct c; reflexivity. Qed.

Lemma run_invariants c self :
  plain_call c ->
  endpoints_exist (dependencyGraph self) /\ no_duplicate_edges (dependencyGraph self) ->
  endpoints_exist (dependencyGraph (Js.exec (run c) self))
  /\ no_duplicate_edges (dependencyGraph (Js.exec (run c) self)).
Proof.
  intros Hc [He Hd]. destruct c; simpl.
  - split; [now apply set_node_endpoints | exact Hd].
  - destruct Hc as [Hs Ht].
    split; [now apply addEdge_graph_endpoints | now apply addEdge_graph_no_duplicates].
Qed.

Lemma build_fold cfg calls :
  build cfg calls = fold_left (fun s' x => Js.exec (run x) s') calls (create cfg).
Proof. unfold build, Js.exec at 1. now rewrite (for_of_total run calls _ run_returns). Qed.

Lemma build_invariants cfg calls :
  Forall plain_call calls ->
  endpoints_exist (dependencyGraph (build cfg calls))
  /\ no_duplicate_edges (dependencyGraph (build cfg calls)).
Proof.
  rewrite build_fold.
  assert (Hinit : endpoints_exist (dependencyGraph (create cfg))
                  /\ no_duplicate_edges (dependencyGraph (create cfg))).
  { split; [constructor | apply NoDup_nil; reflexivity]. }
  revert Hinit. generalize (create cfg).
  induction calls as [|c calls IH]; intros self Hself Hcalls; simpl; [exact Hself|].
  inversion Hcalls; subst. apply IH; [|assumption]. now apply run_invariants.
Qed.

Lemma build_no_duplicates cfg calls :
  no_duplicate_edges (dependencyGraph (build cfg calls)).
Proof.
  rewrite build_fold.
  assert (Hinit : no_duplicate_edges (dependencyGraph (create cfg)))
    by (apply NoDup_nil; reflexivity).
  revert Hinit. generalize (create cfg).
  induction calls as [|c calls IH]; intros self Hself; simpl; [exact Hself|].
  apply IH. destruct c; simpl; [exact Hself | now apply addEdge_graph_no_duplicates].
Qed.

Lemma addEdge_graph_dangling s t ty md g :
  JsObject.get (nodes g) s = None \/ JsObject.get (nodes g) t = None ->
  addEdge_graph s t ty md g = g.
Proof.
  unfold addEdge_graph. intros [-> | ->]; [reflexivity|].
  destruct (JsObject.get (nodes g) s); reflexivity.
Qed.

Lemma addEdge_graph_found s t ty md g :
  is_Some (JsObject.get (nodes g) s) -> is_Some (JsObject.get (nodes g) t) ->
  exists e, find (same_edge s t ty) (edges (addEdge_graph s t ty md g)) = Some e.
Proof.
  intros [ns Hs] [nt Ht]. unfold addEdge_graph. rewrite Hs, Ht.
  destruct (find (same_edge s t ty) (edges g)) eqn:Hf; simpl.
  - eexists. apply find_assign_metadata, Hf.
  - eexists. apply find_appended; [exact Hf|].
    unfold same_edge. simpl. now rewrite !String.eqb_refl.
Qed.

Lemma addEdge_graph_again s t ty md g e :
  find (same_edge s t ty) (edges g) = Some e ->
  map edge_key (edges (addEdge_graph s t ty md g)) = map edge_key (edges g)
  /\ (is_Some (JsObject.get (nodes g) s) -> is_Some (JsObject.get (nodes g) t) ->
      find (same_edge s t ty) (edges (addEdge_graph s t ty md g))
      = Some (with_metadata (md ∪ e_metadata e) e)).
Proof.
  intros Hf. unfold addEdge_graph.
  destruct (JsObject.get (nodes g) s) eqn:Hs; [|split; [reflexivity | intros [? [=]]]].
  destruct (JsObject.get (nodes g) t) eqn:Ht; [|split; [reflexivity | intros _ [? [=]]]].
  rewrite Hf. simpl. split; [apply assign_metadata_keys|].
  intros _ _. apply find_assign_metadata, Hf.
Qed.

Lemma find_same_edge_In s t ty es e :
  find (same_edge s t ty) es = Some e -> In (s, t, ty) (map edge_key es).
Proof.
  intros Hf. apply find_some in Hf as [Hin He]. apply same_edge_key in He.
  rewrite <- He. now apply in_map.
Qed.

(** A repeated call: the second appends nothing and assigns its metadata
    over those of the edge that the first call left. *)
Lemma addEdge_graph_twice s t ty md1 md2 g :
  let g1 := addEdge_graph s t ty md1 g in
  let g2 := addEdge_graph s t ty md2 g1 in
  map edge_key (edges g2) = map edge_key (edges g1)
  /\ (is_Some (JsObject.get (nodes g) s) -> is_Some (JsObject.get (nodes g) t) ->
      exists e1,
        find (same_edge s t ty) (edges g1) = Some e1
        /\ find (same_edge s t ty) (edges g2)
           = Some (with_metadata (md2 ∪ e_metadata e1) e1)).
Proof.
  intros g1 g2.
  assert (Hcases : (JsObject.get (nodes g) s = None \/ JsObject.get (nodes g) t = None)
                   \/ (is_Some (JsObject.get (nodes g) s)
                       /\ is_Some (JsObject.get (nodes g) t))).
  { destruct (JsObject.get (nodes g) s), (JsObject.get (nodes g) t); eauto. }
  destruct Hcases as [Hmiss | [Hs Ht]].
  - assert (E1 : g1 = g) by now apply addEdge_graph_dangling.
    assert (E2 : g2 = g).
    { subst g2. rewrite E1. now apply addEdge_graph_dangling. }
    rewrite E1, E2. split; [reflexivity|].
    intros Hs Ht. destruct Hmiss as [Hn | Hn]; rewrite Hn in *;
      [destruct Hs as [? [=]] | destruct Ht as [? [=]]].
  - destruct (addEdge_graph_found s t ty md1 g Hs Ht) as [e1 Hf1].
    fold g1 in Hf1.
    destruct (addEdge_graph_again s t ty md2 g1 e1 Hf1) as [Hk Hm].
    split; [exact Hk|]. intros _ _. exists e1. split; [exact Hf1|].
    apply Hm; subst g1; rewrite addEdge_graph_nodes; assumption.
Qed.

(** C8, on the code. The guard of [addEdge] reads [nodes[sourceId]] and
    [nodes[targetId]] on a plain object, so an identifier that names a
    member of [Object.prototype] passes for a node. With [a.js] the only
    node, [addEdge(a.js, "constructor", "calls")] appends an edge whose
    target is no key of the node map; and so does every call whose source
    is a node and whose target names such a member and no node. The rest
    of the claim holds: no call ever duplicates an edge, a repeated call
    assigns its metadata over those of the edge found, and calls whose
    identifiers name no member of [Object.prototype] leave every edge with
    both ends in the node map and change nothing when an end is missing. *)
Theorem addEdge_accepts_inherited_member_names :
  let g := dependencyGraph lone_file in
  let g1 := addEdge_graph "file:/repo/a.js" "constructor" "calls" ∅ g in
  (nodes g !! "constructor" = None
   /\ map edge_key (edges g1) = [("file:/repo/a.js", "constructor", "calls")]
   /\ ~ endpoints_exist g1)
  /\ (forall (g : Graph) (s t ty : string) (md : gmap string R),
        is_Some (nodes g !! s) -> nodes g !! t = None ->
        JsObject.inherited t = true ->
        In (s, t, ty) (map edge_key (edges (addEdge_graph s t ty md g)))
        /\ ~ endpoints_exist (addEdge_graph s t ty md g))
  /\ (forall (cfg : Config) (calls : list Call) (s t ty : string)
             (md1 md2 : gmap string R),
        let g := dependencyGraph (build cfg calls) in
        let g1 := addEdge_graph s t ty md1 g in
        let g2 := addEdge_graph s t ty md2 g1 in
        no_duplicate_edges g
        /\ map edge_key (edges g2) = map edge_key (edges g1)
        /\ (is_Some (JsObject.get (nodes g) s) -> is_Some (JsObject.get (nodes g) t) ->
            exists e1,
              find (same_edge s t ty) (edges g1) = Some e1
              /\ find (same_edge s t ty) (edges g2)
                 = Some (with_metadata (md2 ∪ e_metadata e1) e1))
        /\ (Forall plain_call calls -> endpoints_exist g)
        /\ (JsObject.inherited s = false -> JsObject.inherited t = false ->
            nodes g !! s = None \/ nodes g !! t = None -> g1 = g)).
Proof.
  assert (Hgeneral : forall (g : Graph) (s t ty : string) (md : gmap string R),
            is_Some (nodes g !! s) -> nodes g !! t = None ->
            JsObject.inherited t = true ->
            In (s, t, ty) (map edge_key (edges (addEdge_graph s t ty md g)))
            /\ ~ endpoints_exist (addEdge_graph s t ty md g)).
  { intros g s t ty md [n Hs] Ht Hi.
    assert (Hin : In (s, t, ty) (map edge_key (edges (addEdge_graph s t ty md g)))).
    { destruct (addEdge_graph_found s t ty md g) as [e He].
      - rewrite (get_own _ _ _ Hs). eauto.
      - rewrite (get_member _ _ Ht Hi). eauto.
      - exact (find_same_edge_In _ _ _ _ _ He). }
    split; [exact Hin|]. intros Hall.
    apply in_map_iff in Hin as (e & Hk & He). injection Hk as _ Hte _.
    unfold endpoints_exist in Hall. rewrite Forall_forall in Hall.
    destruct (Hall e (proj2 (list_elem_of_In _ _) He)) as [_ [nt Hnt]].
    rewrite addEdge_graph_nodes, Hte, Ht in Hnt. discriminate. }
  cbv zeta. split; [|split; [exact Hgeneral|]].
  - split; [reflexivity|]. split; [reflexivity|].
    apply (Hgeneral (dependencyGraph lone_file) "file:/repo/a.js" "constructor" "calls" ∅);
      [eexists|..]; reflexivity.
  - intros cfg calls s t ty md1 md2.
    split; [apply build_no_duplicates|].
    destruct (addEdge_graph_twice s t ty md1 md2 (dependencyGraph (build cfg calls)))
      as [Hk Hm].
    split; [exact Hk|]. split; [exact Hm|].
    split; [intros Hcalls; exact (proj1 (build_invariants cfg calls Hcalls))|].
    intros Hs Ht Hmiss. apply addEdge_graph_dangling.
    rewrite (get_plain _ _ Hs), (get_plain _ _ Ht).
    destruct Hmiss as [-> | ->]; [left | right]; reflexivity.
Qed.

(** *** The same invariants on the graph that [buildDependencyGraph] returns *)

Lemma keeps_ret {A} (a : A) : keeps (Js.ret a).
Proof. intros self H. exact H. Qed.

Lemma keeps_get : keeps Js.get.
Proof. intros self H. exact H. Qed.

Lemma keeps_throw {A} (e : Js.Error) : keeps (@Js.throw _ A e).
Proof. intros self H. exact H. Qed.

Lemma keeps_of_option {A} (o : option A) (e : Js.Error) : keeps (Js.of_option o e).
Proof. destruct o; [apply keeps_ret | apply keeps_throw]. Qed.

Lemma keeps_bind {A B} (m : Js.M t A) (k : A -> Js.M t B) :
  keeps m -> (forall a, keeps (k a)) -> keeps (Js.bind m k).
Proof.
  intros Hm Hk self H. unfold Js.bind. specialize (Hm self H).
  destruct (m self) as [[a|e] self']; [apply Hk, Hm | exact Hm].
Qed.

Lemma keeps_try_catch {A} (m : Js.M t A) (handler : Js.Error -> Js.M t A) :
  keeps m -> (forall e, keeps (handler e)) -> keeps (Js.try_catch m handler).
Proof.
  intros Hm Hh self H. unfold Js.try_catch. specialize (Hm self H).
  destruct (m self) as [[a|e] self']; [exact Hm | apply Hh, Hm].
Qed.

Lemma keeps_for_of {A} (xs : list A) (body : A -> Js.M t unit) :
  (forall x, keeps (body x)) -> keeps (Js.for_of xs body).
Proof.
  intros Hb. induction xs as [|x xs IH]; simpl; [apply keeps_ret|].
  apply keeps_bind; [apply Hb | intros _; exact IH].
Qed.

Lemma keeps_traverse (visit : list Ast.Kind -> Ast.Kind -> Js.M t unit) :
  (forall ancestors k, keeps (visit ancestors k)) ->
  forall ast ancestors, keeps (Ast.traverse visit ancestors ast).
Proof.
  intros Hv. fix IH 1. intros [k children] ancestors. cbn [Ast.traverse].
  apply keeps_bind; [apply Hv|]. intros _.
  induction children as [|c cs IHcs]; [apply keeps_ret|].
  apply keeps_bind; [apply IH | intros _; exact IHcs].
Qed.

Lemma keeps_set_node nodeId n : keeps (set_node nodeId n).
Proof. intros self H. exact (run_invariants (SetNode nodeId n) self I H). Qed.

Lemma keeps_addEdge s t ty md :
  JsObject.inherited s = false -> JsObject.inherited t = false ->
  keeps (addEdge s t ty md).
Proof.
  intros Hs Ht self H. exact (run_invariants (AddEdge s t ty md) self (conj Hs Ht) H).
Qed.

Lemma keeps_read_and_traverse host filePath visit :
  (forall ancestors k, keeps (visit ancestors k)) ->
  keeps (read_and_traverse host filePath visit).
Proof.
  intros Hv. apply keeps_try_catch; [|intros; apply keeps_ret].
  apply keeps_bind; [apply keeps_of_option|]. intros content.
  apply keeps_bind; [apply keeps_of_option|]. intros ast.
  now apply keeps_traverse.
Qed.

Lemma keeps_import_visitor resolve filePath ancestors k :
  keeps (import_visitor resolve filePath ancestors k).
Proof.
  assert (Hlink : forall importPath type, keeps (link_files resolve filePath importPath type)).
  { intros importPath type. unfold link_files.
    destruct (resolve importPath filePath) as [resolvedPath|]; [|apply keeps_ret].
    destruct (String.eqb resolvedPath "");
      [apply keeps_ret | apply keeps_addEdge; apply file_id_plain]. }
  destruct k as [importPath|callee args| | | | | |]; simpl; try apply keeps_ret.
  - apply Hlink.
  - destruct callee as [name|]; [|apply keeps_ret].
    destruct args as [|[importPath|] args]; try apply keeps_ret.
    destruct (String.eqb name "require"); [apply Hlink | apply keeps_ret].
Qed.

Lemma callee_id_plain (functionMap : gmap string string) (calleeName : string)
    (found : JsObject.Found string) :
  map_Forall (fun _ id => JsObject.inherited id = false) functionMap ->
  JsObject.get functionMap calleeName = Some found ->
  JsObject.inherited (callee_id found) = false.
Proof.
  intros Hmap Hget. destruct found as [calleeId|name]; simpl.
  - exact (Hmap _ _ (get_Own_inv _ _ _ Hget)).
  - apply get_Member_inv in Hget as (-> & _ & Hi). now apply member_text_plain.
Qed.

Lemma build_functionMap_plain (fns : list CodebaseIndexer.IndexedFunction) :
  map_Forall (fun _ id => JsObject.inherited id = false) (build_functionMap fns).
Proof.
  unfold build_functionMap.
  assert (H0 : map_Forall (fun (_ : string) id => JsObject.inherited id = false)
                 (∅ : gmap string string)) by apply map_Forall_empty.
  revert H0. generalize (∅ : gmap string string).
  induction fns as [|func fns IH]; intros m Hm; simpl; [exact Hm|].
  apply IH. unfold JsObject.set_primitive.
  destruct (String.eqb _ "__proto__"); [exact Hm|].
  apply map_Forall_insert_2; [apply function_id_plain | exact Hm].
Qed.

Lemma keeps_call_visitor functionMap filePath ancestors k :
  map_Forall (fun _ id => JsObject.inherited id = false) functionMap ->
  keeps (call_visitor functionMap filePath ancestors k).
Proof.
  intros Hmap.
  destruct k as [|callee args| | | | | |]; simpl; try apply keeps_ret.
  destruct callee as [calleeName|]; [|apply keeps_ret].
  destruct (JsObject.get functionMap calleeName) as [found|] eqn:Hget; [|apply keeps_ret].
  destruct (enclosing_function ancestors) as [[name|]|e];
    [|apply keeps_ret | apply keeps_throw].
  destruct (String.eqb name "" || String.eqb name "anonymous"); [apply keeps_ret|].
  apply keeps_addEdge; [apply function_id_plain | exact (callee_id_plain _ _ _ Hmap Hget)].
Qed.

Lemma keeps_on_graph (f : Graph -> Graph) :
  (forall g, nodes (f g) = nodes g /\ edges (f g) = edges g) -> keeps (on_graph f).
Proof.
  intros Hf self [He Hd]. unfold well_formed, endpoints_exist, no_duplicate_edges in *.
  simpl. destruct (Hf (dependencyGraph self)) as [-> ->]. split; assumption.
Qed.

Lemma returns_own_graph_bind {A} (m : Js.M t A) (k : A -> Js.M t Graph) :
  (forall a self g, fst (k a self) = Js.Return g -> g = dependencyGraph (snd (k a self))) ->
  forall self g,
    fst (Js.bind m k self) = Js.Return g -> g = dependencyGraph (snd (Js.bind m k self)).
Proof.
  intros Hk self g. unfold Js.bind.
  destruct (m self) as [[a|e] self']; [apply Hk | discriminate].
Qed.

(** Whatever the index and the disk, and whatever the object bound to
    [fs], the graph that [buildDependencyGraph] leaves in the analyzer and
    returns has no dangling edge and no duplicate edge. *)
Lemma buildDependencyGraph_well_formed (fsobj : FsObject) (host : Host.t)
    (codeIndex : CodebaseIndexer.CodeIndex) (self : t) :
  well_formed (snd (buildDependencyGraph_with fsobj host codeIndex self))
  /\ forall g,
       fst (buildDependencyGraph_with fsobj host codeIndex self) = Js.Return g ->
       endpoints_exist g /\ no_duplicate_edges g.
Proof.
  assert (Hreturned : forall g,
            fst (buildDependencyGraph_with fsobj host codeIndex self) = Js.Return g ->
            g = dependencyGraph (snd (buildDependencyGraph_with fsobj host codeIndex self))).
  { unfold buildDependencyGraph_with.
    do 7 (apply returns_own_graph_bind; intros ? ?).
    intros g [= <-]. reflexivity. }
  assert (Hwf : well_formed (snd (buildDependencyGraph_with fsobj host codeIndex self))).
  { unfold buildDependencyGraph_with, Js.bind at 1.
    unfold resetDependencyGraph, on_graph, Js.modify at 1.
    match goal with |- well_formed (snd (?m ?s0)) =>
      assert (H0 : well_formed s0)
        by (split; [constructor | apply NoDup_nil; reflexivity]);
      cut (keeps m); [intros Hk; exact (Hk s0 H0)|]
    end.
    apply keeps_bind; [apply keeps_for_of; intros; apply keeps_set_node|]. intros _.
    apply keeps_bind.
    { apply keeps_for_of. intros func.
      apply keeps_bind; [apply keeps_set_node|]. intros _.
      apply keeps_addEdge; [apply function_id_plain | apply file_id_plain]. }
    intros _. apply keeps_bind.
    { apply keeps_for_of. intros cls.
      apply keeps_bind; [apply keeps_set_node|]. intros _.
      apply keeps_bind;
        [apply keeps_addEdge; [apply class_id_plain | apply file_id_plain]|].
      intros _. apply keeps_for_of. intros method.
      apply keeps_bind; [apply keeps_set_node|]. intros _.
      apply keeps_addEdge; [apply method_id_plain | apply class_id_plain]. }
    intros _. apply keeps_bind.
    { apply keeps_for_of. intros file. apply keeps_bind; [apply keeps_get|].
      intros self0. apply keeps_read_and_traverse. intros.
      apply keeps_import_visitor. }
    intros _. apply keeps_bind.
    { apply keeps_for_of. intros file. apply keeps_read_and_traverse. intros.
      apply keeps_call_visitor, build_functionMap_plain. }
    intros _. apply keeps_bind.
    { apply keeps_on_graph. intros g. split; reflexivity. }
    intros _. apply keeps_bind; [apply keeps_get | intros; apply keeps_ret]. }
  split; [exact Hwf|]. intros g Hg. rewrite (Hreturned g Hg). exact Hwf.
Qed.

End AddEdge.

(** ** Traversal of the dependency graph *)

Section Traversal.

Import DependencyAnalyzer GraphCalls.

(** The depth recorded in an entry is the depth of the call that pushed
    it, plus one; that call passed the depth test. *)
Lemma each_edge_depth (options : Options) (g : Graph)
    (recurse : string -> Walk -> Walk) (currentDepth : nat) (es : list Edge) :
  currentDepth < depth options ->
  (forall targetId w, within options w -> within options (recurse targetId w)) ->
  forall w, within options w ->
    within options (each_edge recurse g options currentDepth es w).
Proof.
  intros Hd Hrec. induction es as [|edge es IH]; intros w Hw; simpl; [exact Hw|].
  destruct (bool_decide _); [now apply IH|].
  destruct (JsObject.get (nodes g) _) as [targetNode|]; [|now apply IH].
  match goal with |- context [push_dependency ?d w] =>
    assert (Hw1 : within options (push_dependency d w))
  end.
  { unfold within, push_dependency. simpl. apply Forall_app. split; [exact Hw|].
    constructor; [simpl; lia | constructor]. }
  destruct (maxResults options <=? _)%nat; [exact Hw1|].
  apply IH, Hrec, Hw1.
Qed.

Lemma getDependenciesRecursive_depth (options : Options) (g : Graph) (fuel : nat) :
  forall nodeId w currentDepth,
    within options w ->
    within options (getDependenciesRecursive fuel g nodeId options w currentDepth).
Proof.
  induction fuel as [|fuel IH]; intros nodeId w currentDepth Hw; simpl;
    destruct (depth options <=? currentDepth)%nat eqn:Hd; try exact Hw.
  apply Nat.leb_gt in Hd.
  apply each_edge_depth; [exact Hd | | exact Hw].
  intros targetId w' Hw'. now apply IH.
Qed.

(** What the traversal does keep: no entry lies deeper than the
    requested depth. *)
Lemma getNodeDependencies_within_depth (self : t) (nodeId : string) (options : Options) :
  Forall (fun d => dep_depth d <= depth options)
    (getNodeDependencies self nodeId options).
Proof.
  unfold getNodeDependencies.
  destruct (JsObject.get (nodes (dependencyGraph self)) nodeId); [|constructor].
  apply getDependenciesRecursive_depth. constructor.
Qed.

Lemma each_edge_ext (g : Graph) (options : Options)
    (recurse recurse' : string -> Walk -> Walk) (currentDepth : nat) (es : list Edge) :
  (forall targetId w, recurse targetId w = recurse' targetId w) ->
  forall w, each_edge recurse g options currentDepth es w
            = each_edge recurse' g options currentDepth es w.
Proof.
  intros Hrec. induction es as [|edge es IH]; intros w; simpl; [reflexivity|].
  destruct (bool_decide _); [apply IH|].
  destruct (JsObject.get (nodes g) _); [|apply IH].
  destruct (maxResults options <=? _)%nat; [reflexivity|].
  rewrite Hrec. apply IH.
Qed.

(** The structural bound is never what stops the recursion. *)
Lemma getDependenciesRecursive_fuel (options : Options) (g : Graph) (fuel : nat) :
  forall fuel' nodeId w currentDepth,
    depth options <= fuel + currentDepth ->
    depth options <= fuel' + currentDepth ->
    getDependenciesRecursive fuel g nodeId options w currentDepth
    = getDependenciesRecursive fuel' g nodeId options w currentDepth.
Proof.
  induction fuel as [|fuel IH]; intros fuel' nodeId w currentDepth H1 H2.
  - destruct fuel'; simpl;
      destruct (depth options <=? currentDepth)%nat eqn:Hd; try reflexivity;
      apply Nat.leb_gt in Hd; lia.
  - destruct fuel' as [|fuel']; simpl;
      destruct (depth options <=? currentDepth)%nat eqn:Hd; try reflexivity;
      apply Nat.leb_gt in Hd; [lia|].
    apply each_edge_ext. intros targetId w'. apply IH; lia.
Qed.

(** C1, on the code. With the default options a node that two edges reach
    from the start is listed twice: the callee returns at the depth test
    before it marks itself visited. And where the result limit is reached
    inside a nested call, the caller's loop goes on and pushes once more:
    three entries for [maxResults = 2]. *)
Theorem getNodeDependencies_repeats_and_exceeds_maxResults :
  map dep_id (getNodeDependencies double_link "file:/repo/a.js" defaults)
  = ["file:/repo/b.js"; "file:/repo/b.js"]
  /\ map dep_id (getNodeDependencies fork "file:/repo/a.js" two_hops_two_results)
     = ["file:/repo/b.js"; "file:/repo/c.js"; "file:/repo/d.js"]
  /\ maxResults two_hops_two_results
     < length (getNodeDependencies fork "file:/repo/a.js" two_hops_two_results).
Proof.
  split; [vm_compute; reflexivity|].
  split; [vm_compute; reflexivity|].
  vm_compute. lia.
Qed.

End Traversal.

(** ** Risk level *)

Section RiskLevel.

Import ChangePredictor Risk.

Lemma gtb_true (a b : R) : gtb a b = true <-> (a > b)%R.
Proof. unfold gtb. destruct (Rlt_dec b a); split; (lra || discriminate || auto). Qed.

Lemma gtb_false (a b : R) : gtb a b = false <-> ~ (a > b)%R.
Proof. unfold gtb. destruct (Rlt_dec b a); split; (lra || discriminate || auto). Qed.

Lemma high_test (ia : ImpactAnalysis) :
  gtb (totalImpactScore ia) 50 || (20 <? length (impactedFiles ia))%nat = true
  <-> is_high ia.
Proof.
  unfold is_high, gt. rewrite orb_true_iff, gtb_true, Nat.ltb_lt. tauto.
Qed.

Lemma medium_test (ia : ImpactAnalysis) :
  gtb (totalImpactScore ia) 20 || (10 <? length (impactedFiles ia))%nat = true
  <-> (totalImpactScore ia > 20)%R \/ length (impactedFiles ia) > 10.
Proof. unfold gt. rewrite orb_true_iff, gtb_true, Nat.ltb_lt. tauto. Qed.

(** C7. The risk level is ["high"] exactly when the total impact score
    exceeds 50 or more than 20 files are impacted, ["medium"] exactly when
    it is not high and the score exceeds 20 or more than 10 files are
    impacted, and ["low"] exactly in the remaining case. *)
Theorem calculateRiskLevel_thresholds (ia : ImpactAnalysis) :
  (calculateRiskLevel ia = "high" <-> is_high ia)
  /\ (calculateRiskLevel ia = "medium" <-> is_medium ia)
  /\ (calculateRiskLevel ia = "low" <-> ~ is_high ia /\ ~ is_medium ia).
Proof.
  unfold calculateRiskLevel, is_medium.
  pose proof (high_test ia) as Hh. pose proof (medium_test ia) as Hm.
  destruct (gtb (totalImpactScore ia) 50 || (20 <? length (impactedFiles ia))%nat).
  - assert (is_high ia) by now apply Hh.
    repeat split; try discriminate; tauto.
  - assert (~ is_high ia) by (intros Hc; apply Hh in Hc; discriminate).
    destruct (gtb (totalImpactScore ia) 20 || (10 <? length (impactedFiles ia))%nat).
    + assert ((totalImpactScore ia > 20)%R \/ length (impactedFiles ia) > 10)
        by now apply Hm.
      repeat split; try discriminate; tauto.
    + assert (~ ((totalImpactScore ia > 20)%R \/ length (impactedFiles ia) > 10))
        by (intros Hc; apply Hm in Hc; discriminate).
      repeat split; try discriminate; tauto.
Qed.

(** The scenario of the design document: three files, total impact 55. *)
Lemma calculateRiskLevel_thresholds_witness :
  is_high three_files_score_55 /\ calculateRiskLevel three_files_score_55 = "high".
Proof.
  assert (H : is_high three_files_score_55) by (left; simpl; lra).
  split; [exact H|].
  exact (proj2 (proj1 (calculateRiskLevel_thresholds three_files_score_55)) H).
Defined.

End RiskLevel.

(** ** Ranking by dependencies *)

Section Ranking.

Import MappingAlgorithm Scoring.

Lemma score_against_strings (taskDep : string) (elemDeps : list string) (acc : R) :
  score_against taskDep (map GraphObject.EntryString elemDeps) acc
  = Js.Return (acc + 0.1 * INR (matches_of taskDep elemDeps))%R.
Proof.
  unfold matches_of. revert acc.
  induction elemDeps as [|d ds IH]; intros acc; simpl.
  - f_equal. lra.
  - fold (contains_either taskDep d). destruct (contains_either taskDep d).
    + rewrite IH. f_equal. cbn [length]. rewrite S_INR. lra.
    + apply IH.
Qed.

Lemma score_dependencies_strings (taskDeps elemDeps : list string) (acc : R) :
  score_dependencies taskDeps (map GraphObject.EntryString elemDeps) acc
  = Js.Return (acc + 0.1 * INR (match_count taskDeps elemDeps))%R.
Proof.
  unfold match_count. revert acc.
  induction taskDeps as [|t ts IH]; intros acc; simpl.
  - f_equal. lra.
  - rewrite score_against_strings, IH. f_equal. rewrite plus_INR. lra.
Qed.

(** What the design document describes, for a traversal that answers with
    identifiers: 0.1 per matching pair, and
    [similarity * 0.8 + dependencyScore * 0.2]. *)
Lemma rank_element_on_identifiers
    (ids : string -> DependencyAnalyzer.Options -> list string)
    (taskDeps : list string) (element : Element) :
  exists ranked,
    rank_element (strings_of ids) taskDeps element = Js.Return ranked
    /\ el_dependencyScore ranked
       = Some (0 + 0.1 * INR (match_count taskDeps
                 (ids (getElementKey element) DependencyAnalyzer.defaults)))%R
    /\ el_finalScore ranked
       = Some (el_similarity element * 0.8
               + (0 + 0.1 * INR (match_count taskDeps
                    (ids (getElementKey element) DependencyAnalyzer.defaults))) * 0.2)%R
    /\ el_similarity ranked = el_similarity element
    /\ el_type ranked = el_type element
    /\ el_item ranked = el_item element.
Proof.
  unfold rank_element, strings_of. rewrite score_dependencies_strings.
  eexists. split; [reflexivity|]. simpl. auto.
Qed.

Lemma geb_true (a b : R) : SemanticAnalyzer.geb a b = true <-> (a >= b)%R.
Proof.
  unfold SemanticAnalyzer.geb. destruct (Rle_dec b a); split; (lra || discriminate || auto).
Qed.

Lemma geb_false (a b : R) : SemanticAnalyzer.geb a b = false <-> (a < b)%R.
Proof.
  unfold SemanticAnalyzer.geb. destruct (Rle_dec b a); split; (lra || discriminate || auto).
Qed.

Lemma calculateConfidence_buckets (score : R) :
  ((score >= 0.8)%R -> calculateConfidence score = "high")
  /\ ((0.6 <= score < 0.8)%R -> calculateConfidence score = "medium")
  /\ ((score < 0.6)%R -> calculateConfidence score = "low").
Proof.
  unfold calculateConfidence.
  destruct (SemanticAnalyzer.geb score 0.8) eqn:H8;
    destruct (SemanticAnalyzer.geb score 0.6) eqn:H6;
    rewrite ?geb_true, ?geb_false in *; repeat split; intros; (reflexivity || lra).
Qed.

(** Every emitted result carries the bucket of the score it carries. *)
Lemma generateMappingResults_confidence (self : t) (ranked : list Element) (task : Task) :
  Forall (fun r => mr_confidence r = calculateConfidence (mr_finalScore r))
    (generateMappingResults self ranked task).
Proof.
  unfold generateMappingResults. apply Forall_map. apply Forall_forall.
  intros; reflexivity.
Qed.

Lemma foo_graph_dependencies :
  ids_of foo_graph (getElementKey foo_element) DependencyAnalyzer.defaults
  = ["file:/repo/a.js"].
Proof. vm_compute. reflexivity. Qed.

Lemma foo_graph_records :
  exists d,
    GraphObject.getNodeDependencies (GraphObject.of_analyzer foo_graph)
    = Some (fun nodeId options =>
              map GraphObject.EntryRecord
                (DependencyAnalyzer.getNodeDependencies foo_graph nodeId options))
    /\ DependencyAnalyzer.getNodeDependencies foo_graph (getElementKey foo_element)
         DependencyAnalyzer.defaults = [d]
    /\ DependencyAnalyzer.dep_id d = "file:/repo/a.js".
Proof.
  eexists. split; [reflexivity|]. split; [vm_compute; reflexivity | reflexivity].
Qed.

(** C3, on the code. The only object of the repository that exposes
    [getNodeDependencies] is a [DependencyAnalyzer], whose entries are
    records [{id, node, edge, depth}]; the score loop calls [includes] on
    the entry itself, so ranking throws as soon as a task dependency meets
    an entry. Had the loop compared the identifiers of the same entries,
    the score would be the one the design document gives: 0.1 for the one
    match, and 0.9 * 0.8 + 0.1 * 0.2 with confidence ["medium"]. *)
Theorem rankResultsByDependencies_throws_on_analyzer_entries :
  rankResultsByDependencies [foo_element]
    (Some (GraphObject.of_analyzer foo_graph)) task_on_a
  = Js.Throw (Js.TypeError "elemDep.includes is not a function")
  /\ exists ranked,
       rank_element (strings_of (ids_of foo_graph)) ["a.js"] foo_element
       = Js.Return ranked
       /\ el_dependencyScore ranked = Some (0 + 0.1)%R
       /\ el_finalScore ranked = Some (0.9 * 0.8 + (0 + 0.1) * 0.2)%R
       /\ calculateConfidence (0.9 * 0.8 + (0 + 0.1) * 0.2) = "medium".
Proof.
  split.
  - destruct foo_graph_records as (d & Hget & Hdeps & _).
    unfold rankResultsByDependencies. rewrite Hget. simpl map_outcome.
    unfold rank_element. rewrite Hdeps. reflexivity.
  - unfold rank_element, strings_of. rewrite foo_graph_dependencies.
    eexists. split; [reflexivity|]. simpl. repeat split.
    apply (calculateConfidence_buckets (0.9 * 0.8 + (0 + 0.1) * 0.2)). lra.
Qed.

(** The same on [mapTask]: once a semantic analyzer is installed in
    [global] and finds a candidate, a task that declares dependencies makes
    the call throw on every graph of the repository that can be traversed
    and holds an edge out of the candidate. *)
Lemma rank_element_throws_on_records (a : DependencyAnalyzer.t)
    (taskDep : string) (taskDeps : list string) (element : Element) :
  DependencyAnalyzer.getNodeDependencies a (getElementKey element)
    DependencyAnalyzer.defaults <> [] ->
  rank_element
    (fun nodeId options =>
       map GraphObject.EntryRecord (DependencyAnalyzer.getNodeDependencies a nodeId options))
    (taskDep :: taskDeps) element
  = Js.Throw (Js.TypeError "elemDep.includes is not a function").
Proof.
  intros Hne. unfold rank_element.
  destruct (DependencyAnalyzer.getNodeDependencies a _ _) as [|d ds]; [congruence|].
  reflexivity.
Qed.

Lemma mapTask_throws_on_analyzer_graph (self : t) (task : Task)
    (codeIndex : CodebaseIndexer.CodeIndex) (a : DependencyAnalyzer.t)
    (globals : Global.t) (semanticAnalyzer : SemanticAnalyzer.t)
    (element : Element) (others : list Element)
    (taskDep : string) (taskDeps : list string) :
  Global.semanticAnalyzer globals = Some semanticAnalyzer ->
  findSimilarCodeElements self (analyzeTask task) semanticAnalyzer
  = element :: others ->
  task_dependencies task = Some (taskDep :: taskDeps) ->
  DependencyAnalyzer.getNodeDependencies a (getElementKey element)
    DependencyAnalyzer.defaults <> [] ->
  Js.result (mapTask self task codeIndex (Some (GraphObject.of_analyzer a))) globals
  = Js.Throw (Js.TypeError "elemDep.includes is not a function").
Proof.
  intros Hg Hfound Hdeps Hne.
  unfold Js.result, mapTask, Js.bind, Js.get. rewrite Hg. simpl.
  rewrite Hfound. unfold rankResultsByDependencies, GraphObject.of_analyzer.
  cbn [GraphObject.getNodeDependencies]. rewrite Hdeps.
  change (default [] (Some (taskDep :: taskDeps))) with (taskDep :: taskDeps).
  cbn [map_outcome].
  rewrite (rank_element_throws_on_records a taskDep taskDeps element Hne).
  reflexivity.
Qed.

End Ranking.

(** ** Cosine distance *)

Section Cosine.

Import VectorUtils Vectors.

Local Open Scope R_scope.

Lemma truthy_weight_default (v : Vector) term x acc :
  (if truthy_weight (v !! term) then acc + x * default 0 (v !! term) else acc)
  = acc + x * weight_in v term.
Proof.
  unfold weight_in, truthy_weight, is_zero.
  destruct (v !! term) as [y|]; simpl; [|lra].
  destruct (Req_dec_T y 0) as [->|]; simpl; lra.
Qed.

Lemma dotProduct_entries (v1 v2 : Vector) :
  dotProduct v1 v2 = entries_dot (map_to_list v1) v2.
Proof.
  unfold dotProduct, entries_dot. rewrite map_fold_foldr.
  induction (map_to_list v1) as [|[k x] l IH]; simpl; [reflexivity|].
  rewrite IH. apply truthy_weight_default.
Qed.

Lemma sum_squares_entries (v : Vector) :
  sum_squares v = entries_squares (map_to_list v).
Proof.
  unfold sum_squares, entries_squares. rewrite map_fold_foldr.
  induction (map_to_list v) as [|[k x] l IH]; simpl; [reflexivity|].
  now rewrite IH.
Qed.

Lemma magnitude_empty : magnitude ∅ = 0.
Proof. unfold magnitude, sum_squares. rewrite map_fold_empty. apply sqrt_0. Qed.

Lemma is_zero_true (x : R) : is_zero x = true <-> x = 0.
Proof. unfold is_zero. destruct (Req_dec_T x 0); split; (discriminate || auto). Qed.

Lemma is_zero_false (x : R) : is_zero x = false <-> x <> 0.
Proof.
  unfold is_zero. destruct (Req_dec_T x 0); split; (discriminate || auto).
  intros Hx. contradiction.
Qed.

Lemma divide_nonzero (x y : R) : y <> 0 -> divide x y = Some (x / y).
Proof. intros Hy. unfold divide. destruct (Req_dec_T y 0); [contradiction | reflexivity]. Qed.

(** The guarded branch: what the function computes once both vectors have a
    key and neither magnitude is zero. *)
Lemma cosineDistance_unguarded (v1 v2 : Vector) :
  magnitude v1 <> 0 -> magnitude v2 <> 0 -> meets_member v1 v2 = false ->
  cosineDistance (Some v1) (Some v2)
  = Some (1 - dotProduct v1 v2 / (magnitude v1 * magnitude v2)).
Proof.
  intros H1 H2 Hm. unfold cosineDistance. rewrite Hm.
  assert (Hs : forall v : Vector, magnitude v <> 0 -> (size v =? 0)%nat = false).
  { intros v Hv. apply Nat.eqb_neq. intros Hsz. apply map_size_empty_iff in Hsz.
    subst v. now rewrite magnitude_empty in Hv. }
  rewrite (Hs v1 H1), (Hs v2 H2). simpl.
  rewrite (proj2 (is_zero_false _) H1), (proj2 (is_zero_false _) H2). simpl.
  rewrite divide_nonzero; [reflexivity|].
  apply Rmult_integral_contrapositive_currified; assumption.
Qed.

(** The guards: an absent or empty vector, or a zero magnitude, gives 1. *)
Lemma cosineDistance_guarded (v1 v2 : Vector) :
  v1 = ∅ \/ v2 = ∅ \/ magnitude v1 = 0 \/ magnitude v2 = 0 ->
  cosineDistance (Some v1) (Some v2) = Some 1.
Proof.
  intros H. unfold cosineDistance.
  destruct (size v1 =? 0)%nat eqn:S1; [reflexivity|].
  destruct (size v2 =? 0)%nat eqn:S2; [reflexivity|]. simpl.
  apply Nat.eqb_neq in S1, S2.
  destruct H as [-> | [-> | [H | H]]].
  - now rewrite map_size_empty in S1.
  - now rewrite map_size_empty in S2.
  - now rewrite (proj2 (is_zero_true _) H).
  - rewrite (proj2 (is_zero_true _) H). now rewrite orb_true_r.
Qed.

Lemma magnitude_singleton (k : string) (x : R) : magnitude {[k := x]} = Rabs x.
Proof.
  unfold magnitude, sum_squares. rewrite map_fold_singleton.
  rewrite Rplus_0_l. apply sqrt_Rsqr_abs.
Qed.



End Cosine.

(** ** The distances of vector-utils.js on doubles *)

Section DistancesOnDoubles.

Import VectorUtils64 Doubles.

Lemma binary_round_aux_signed prec emax sx mx ex lx :
  signed sx (binary_round_aux prec emax sx mx ex lx).
Proof.
  unfold binary_round_aux.
  destruct (shr_fexp prec emax mx ex lx) as [mrs' e'].
  destruct (shr_fexp prec emax _ e' loc_Exact) as [mrs'' e''].
  destruct (shr_m mrs''); [reflexivity| |exact I].
  destruct (Z.leb e'' (emax - prec)); reflexivity.
Qed.

Lemma binary_round_signed prec emax sx mx ex :
  signed sx (binary_round prec emax sx mx ex).
Proof.
  unfold binary_round. destruct (shl_align mx ex _).
  apply binary_round_aux_signed.
Qed.

Lemma signed_not_negative x : signed false x -> not_negative x.
Proof. destruct x as [s|s| |s m e]; simpl; intros H; subst; exact I. Qed.

Lemma SFadd_not_negative prec emax x y :
  not_negative x -> not_negative y -> not_negative (SFadd prec emax x y).
Proof.
  destruct x as [sx|sx| |sx mx ex], y as [sy|sy| |sy my ey]; simpl; try tauto;
    try (destruct sx; simpl; tauto); try (destruct sy; simpl; tauto).
  - destruct sx, sy; intros; exact I.
  - destruct sx, sy; simpl; tauto.
  - destruct sx, sy; simpl; try tauto. intros _ _.
    apply signed_not_negative, binary_round_signed.
Qed.

Lemma SFmul_square_not_negative prec emax x : not_negative (SFmul prec emax x x).
Proof.
  destruct x as [s|s| |s m e]; simpl; try exact I.
  - destruct s; exact I.
  - apply signed_not_negative. replace (xorb s s) with false by (now destruct s).
    apply binary_round_aux_signed.
Qed.

Lemma SFabs_not_negative x : not_negative (SFabs x).
Proof. destruct x; exact I. Qed.

Lemma SFsqrt_not_negative prec emax x :
  not_negative x -> not_negative (SFsqrt prec emax x).
Proof.
  destruct x as [s|s| |s m e]; simpl; try tauto.
  - destruct s; tauto.
  - destruct s; [tauto|]. intros _.
    destruct (SFsqrt_core_binary prec emax (Zpos m) e) as [[m' e'] l'].
    apply signed_not_negative, binary_round_aux_signed.
Qed.

Lemma not_negative_ltb (x : float) :
  not_negative (Prim2SF x) -> PrimFloat.ltb x 0 = false.
Proof.
  rewrite ltb_spec. change (Prim2SF 0) with (S754_zero false).
  destruct (Prim2SF x) as [s|s| |s m e]; simpl; try reflexivity.
  - destruct s; [tauto|reflexivity].
  - destruct s; [tauto|reflexivity].
Qed.


Lemma is_nan_of_spec (x : float) : Prim2SF x = S754_nan -> PrimFloat.is_nan x = true.
Proof. intros H. unfold PrimFloat.is_nan. rewrite FloatAxioms.eqb_spec, H. reflexivity. Qed.

Lemma sub_nan_r (x y : float) : Prim2SF y = S754_nan -> Prim2SF (x - y) = S754_nan.
Proof. intros H. rewrite sub_spec, H. unfold SF64sub. destruct (Prim2SF x); reflexivity. Qed.

Lemma sub_nan_l (x y : float) : Prim2SF x = S754_nan -> Prim2SF (x - y) = S754_nan.
Proof. intros H. rewrite sub_spec, H. reflexivity. Qed.

Lemma add_nan_r (x y : float) : Prim2SF y = S754_nan -> Prim2SF (x + y) = S754_nan.
Proof. intros H. rewrite add_spec, H. unfold SF64add. destruct (Prim2SF x); reflexivity. Qed.

Lemma add_nan_l (x y : float) : Prim2SF x = S754_nan -> Prim2SF (x + y) = S754_nan.
Proof. intros H. rewrite add_spec, H. reflexivity. Qed.

Lemma abs_nan (x : float) : Prim2SF x = S754_nan -> Prim2SF (PrimFloat.abs x) = S754_nan.
Proof. intros H. rewrite abs_spec, H. reflexivity. Qed.

Lemma square_nan (x : float) : Prim2SF x = S754_nan -> Prim2SF (x * x) = S754_nan.
Proof. intros H. rewrite mul_spec, H. reflexivity. Qed.

Lemma sqrt_nan (x : float) : Prim2SF x = S754_nan -> Prim2SF (PrimFloat.sqrt x) = S754_nan.
Proof. intros H. rewrite sqrt_spec, H. reflexivity. Qed.

(** [x - x] is [+0] for every number but the infinities. *)
Lemma double_sub_diag (x : float) :
  PrimFloat.is_infinity x = false -> PrimFloat.eqb x x = true -> (x - x)%float = 0%float.
Proof.
  intros Hinf Hnan. apply Prim2SF_inj. rewrite sub_spec.
  change (Prim2SF 0) with (S754_zero false).
  unfold PrimFloat.is_infinity in Hinf. rewrite FloatAxioms.eqb_spec, abs_spec in Hinf.
  rewrite FloatAxioms.eqb_spec in Hnan.
  change (Prim2SF infinity) with (S754_infinity false) in Hinf.
  destruct (Prim2SF x) as [s|s| |s m e]; simpl in *; try discriminate.
  - destruct s; reflexivity.
  - unfold SF64sub, SFsub. rewrite Z.sub_diag. reflexivity.
Qed.

Lemma distinct_In (keys seen : list string) (key : string) :
  In key (distinct seen keys) <-> In key keys /\ ~ In key seen.
Proof.
  revert seen. induction keys as [|k keys IH]; intros seen; simpl; [tauto|].
  destruct (existsb (String.eqb k) seen) eqn:E.
  - rewrite IH. apply existsb_exists in E. destruct E as (k' & Hin & Heq).
    apply String.eqb_eq in Heq. subst k'. split.
    + intros [H1 H2]. auto.
    + intros [[->|H1] H2]; [contradiction|auto].
  - assert (Hk : ~ In k seen).
    { intros Hin. apply not_true_iff_false in E. apply E, existsb_exists.
      exists k. split; [exact Hin|apply String.eqb_refl]. }
    simpl. rewrite IH. simpl. split.
    + intros [->|[H1 H2]]; [auto|]. split; [auto|]. intros H; apply H2; auto.
    + intros [[->|H1] H2]; [auto|].
      destruct (String.eqb_spec k key) as [->|Hne]; [auto|].
      right. split; [exact H1|]. intros [H|H]; [contradiction|contradiction].
Qed.

Lemma dimensions_In (vector1 vector2 : Vector) (dim : string) :
  In dim (dimensions vector1 vector2)
  <-> In dim (map fst vector1) \/ In dim (map fst vector2).
Proof. unfold dimensions. rewrite distinct_In, in_app_iff. simpl. tauto. Qed.

Lemma own_of_key (vector : Vector) (dim : string) :
  In dim (map fst vector) -> exists w, own vector dim = Some w /\ In w (map snd vector).
Proof.
  induction vector as [|[k w] vector IH]; simpl; [tauto|].
  destruct (String.eqb_spec k dim) as [->|Hne].
  - intros _. exists w. auto.
  - intros [H|H]; [contradiction|]. destruct (IH H) as (w' & H1 & H2). exists w'. auto.
Qed.

Lemma coordinate_member (vector : Vector) (dim : string) :
  own vector dim = None -> JsObject.inherited dim = true ->
  Prim2SF (coordinate vector dim) = S754_nan.
Proof.
  intros Hown Hin. unfold coordinate, read. rewrite Hown, Hin. reflexivity.
Qed.

(** The coordinate of a vector at one of its own terms, less itself. *)
Lemma coordinate_sub_diag (vector : Vector) (dim : string) :
  Forall (fun w => PrimFloat.is_infinity w = false) (map snd vector) ->
  In dim (map fst vector) ->
  (coordinate vector dim - coordinate vector dim)%float = 0%float.
Proof.
  intros Hfin Hin. destruct (own_of_key _ _ Hin) as (w & Hown & Hw).
  unfold coordinate, read. rewrite Hown. simpl.
  destruct (negb (PrimFloat.eqb w 0) && PrimFloat.eqb w w) eqn:E; [|reflexivity].
  apply andb_prop in E. destruct E as [_ E].
  apply double_sub_diag; [|exact E]. rewrite List.Forall_forall in Hfin. exact (Hfin w Hw).
Qed.

(** A sum that has met [NaN] stays [NaN]. *)
Lemma fold_meets_nan (step : float -> string -> float) (dims : list string)
    (dim : string) (acc : float) :
  (forall acc, Prim2SF (step acc dim) = S754_nan) ->
  (forall acc d, Prim2SF acc = S754_nan -> Prim2SF (step acc d) = S754_nan) ->
  In dim dims -> Prim2SF (fold_left step dims acc) = S754_nan.
Proof.
  intros Hdim Hkeep. revert acc. induction dims as [|d dims IH]; intros acc; simpl; [tauto|].
  intros [->|Hin]; [|auto].
  assert (Hstay : forall l a, Prim2SF a = S754_nan -> Prim2SF (fold_left step l a) = S754_nan).
  { induction l as [|d' l IHl]; intros a Ha; simpl; [exact Ha|]. apply IHl, Hkeep, Ha. }
  apply Hstay, Hdim.
Qed.

Lemma fold_not_negative (step : float -> string -> float) (dims : list string) (acc : float) :
  (forall acc d, not_negative (Prim2SF acc) -> not_negative (Prim2SF (step acc d))) ->
  not_negative (Prim2SF acc) -> not_negative (Prim2SF (fold_left step dims acc)).
Proof.
  intros Hstep. revert acc. induction dims as [|d dims IH]; intros acc Hacc; simpl; auto.
Qed.

Lemma fold_stays (step : float -> string -> float) (dims : list string) (acc : float) :
  (forall d, In d dims -> step acc d = acc) -> fold_left step dims acc = acc.
Proof.
  induction dims as [|d dims IH]; intros H; simpl; [reflexivity|].
  rewrite (H d) by (left; reflexivity). apply IH. intros d' Hd'. apply H. right. exact Hd'.
Qed.

Lemma manhattanDistance_not_negative (vector1 vector2 : Vector) :
  not_negative (Prim2SF (manhattanDistance vector1 vector2)).
Proof.
  unfold manhattanDistance. apply fold_not_negative; [|exact I].
  intros acc d Hacc. rewrite add_spec, abs_spec.
  apply SFadd_not_negative; [exact Hacc|apply SFabs_not_negative].
Qed.

Lemma euclideanDistance_not_negative (vector1 vector2 : Vector) :
  not_negative (Prim2SF (euclideanDistance vector1 vector2)).
Proof.
  unfold euclideanDistance. rewrite sqrt_spec. apply SFsqrt_not_negative.
  apply fold_not_negative; [|exact I].
  intros acc d Hacc. cbv zeta. rewrite add_spec, mul_spec.
  apply SFadd_not_negative; [exact Hacc|apply SFmul_square_not_negative].
Qed.

Lemma manhattanDistance_meets_member (vector1 vector2 : Vector) (dim : string) :
  In dim (map fst vector1) \/ In dim (map fst vector2) ->
  Prim2SF (coordinate vector1 dim) = S754_nan \/ Prim2SF (coordinate vector2 dim) = S754_nan ->
  Prim2SF (manhattanDistance vector1 vector2) = S754_nan.
Proof.
  intros Hin Hnan. unfold manhattanDistance.
  apply fold_meets_nan with (dim := dim).
  - intros acc. apply add_nan_r, abs_nan.
    destruct Hnan as [H|H]; [apply sub_nan_l|apply sub_nan_r]; exact H.
  - intros acc d Hacc. apply add_nan_l, Hacc.
  - apply dimensions_In, Hin.
Qed.

Lemma euclideanDistance_meets_member (vector1 vector2 : Vector) (dim : string) :
  In dim (map fst vector1) \/ In dim (map fst vector2) ->
  Prim2SF (coordinate vector1 dim) = S754_nan \/ Prim2SF (coordinate vector2 dim) = S754_nan ->
  Prim2SF (euclideanDistance vector1 vector2) = S754_nan.
Proof.
  intros Hin Hnan. unfold euclideanDistance. apply sqrt_nan.
  apply fold_meets_nan with (dim := dim).
  - intros acc. cbv zeta. apply add_nan_r, square_nan.
    destruct Hnan as [H|H]; [apply sub_nan_l|apply sub_nan_r]; exact H.
  - intros acc d Hacc. apply add_nan_l, Hacc.
  - apply dimensions_In, Hin.
Qed.

(** [manhattanDistance] on doubles, with the property reads of the
    language. The distance is never below zero. It is [+0] between a vector
    without an infinite weight and itself. It is [NaN] as soon as a term of
    one vector names a member of [Object.prototype] that the other vector
    does not hold itself, and between [{a: Infinity}] and itself. It
    depends on the order of the arguments, since the terms are added up in
    the order of the keys: [{a: 1e16}] is at 1e16 from [{b: 1, c: 1}], which
    is at 1e16 + 2 from [{a: 1e16}]. *)
Theorem manhattanDistance_on_doubles (vector1 vector2 : Vector) :
  PrimFloat.ltb (manhattanDistance vector1 vector2) 0 = false
  /\ (Forall (fun w => PrimFloat.is_infinity w = false) (map snd vector1) ->
      manhattanDistance vector1 vector1 = 0%float)
  /\ (forall dim, In dim (map fst vector1) -> own vector2 dim = None ->
        JsObject.inherited dim = true ->
        PrimFloat.is_nan (manhattanDistance vector1 vector2) = true
        /\ PrimFloat.is_nan (manhattanDistance vector2 vector1) = true)
  /\ PrimFloat.is_nan (manhattanDistance [("a", infinity)] [("a", infinity)]) = true
  /\ manhattanDistance [("a", 1e16%float)] [("b", 1%float); ("c", 1%float)]
     = 10000000000000000%float
  /\ manhattanDistance [("b", 1%float); ("c", 1%float)] [("a", 1e16%float)]
     = 10000000000000002%float.
Proof.
  split; [apply not_negative_ltb, manhattanDistance_not_negative|].
  split.
  { intros Hfin. unfold manhattanDistance. apply fold_stays. intros d Hd.
    apply dimensions_In in Hd.
    rewrite coordinate_sub_diag; [reflexivity|exact Hfin|tauto]. }
  split.
  { intros dim Hin Hown Hmem. pose proof (coordinate_member _ _ Hown Hmem) as Hnan.
    split; apply is_nan_of_spec; apply manhattanDistance_meets_member with (dim := dim); auto. }
  repeat split; vm_compute; reflexivity.
Qed.

(** [euclideanDistance] on doubles, with the property reads of the
    language. The distance is never below zero. It is [+0] between a vector
    without an infinite weight and itself. It is [NaN] as soon as a term of
    one vector names a member of [Object.prototype] that the other vector
    does not hold itself, and between [{a: Infinity}] and itself. It is
    [Infinity] between [{a: 2 ** 600}] and [{}], whose weights are finite.
    It depends on the order of the arguments: [{a: 2 ** 27}] is at 2 ** 27
    from the vector of six weights 1, which is at the next double from
    [{a: 2 ** 27}]. *)
Theorem euclideanDistance_on_doubles (vector1 vector2 : Vector) :
  PrimFloat.ltb (euclideanDistance vector1 vector2) 0 = false
  /\ (Forall (fun w => PrimFloat.is_infinity w = false) (map snd vector1) ->
      euclideanDistance vector1 vector1 = 0%float)
  /\ (forall dim, In dim (map fst vector1) -> own vector2 dim = None ->
        JsObject.inherited dim = true ->
        PrimFloat.is_nan (euclideanDistance vector1 vector2) = true
        /\ PrimFloat.is_nan (euclideanDistance vector2 vector1) = true)
  /\ PrimFloat.is_nan (euclideanDistance [("a", infinity)] [("a", infinity)]) = true
  /\ euclideanDistance [("a", 0x1p+600%float)] [] = infinity
  /\ euclideanDistance [("a", 0x1p+27%float)]
       [("b", 1%float); ("c", 1%float); ("d", 1%float); ("e", 1%float);
        ("f", 1%float); ("g", 1%float)]
     = 0x1p+27%float
  /\ euclideanDistance
       [("b", 1%float); ("c", 1%float); ("d", 1%float); ("e", 1%float);
        ("f", 1%float); ("g", 1%float)]
       [("a", 0x1p+27%float)]
     = 0x1.0000000000001p+27%float.
Proof.
  split; [apply not_negative_ltb, euclideanDistance_not_negative|].
  split.
  { intros Hfin. unfold euclideanDistance.
    rewrite fold_stays; [vm_compute; reflexivity|]. intros d Hd.
    apply dimensions_In in Hd. cbv zeta.
    rewrite coordinate_sub_diag; [vm_compute; reflexivity|exact Hfin|tauto]. }
  split.
  { intros dim Hin Hown Hmem. pose proof (coordinate_member _ _ Hown Hmem) as Hnan.
    split; apply is_nan_of_spec; apply euclideanDistance_meets_member with (dim := dim); auto. }
  repeat split; vm_compute; reflexivity.
Qed.

End DistancesOnDoubles.

(** ** [normalizeVector] on doubles *)

Section NormalizeOnDoubles.

Import VectorUtils64 Doubles.

Lemma magnitude_not_negative (vector : Vector) :
  not_negative (Prim2SF (magnitude vector)).
Proof.
  unfold magnitude. rewrite sqrt_spec. apply SFsqrt_not_negative.
  generalize 0%float (I : not_negative (Prim2SF 0)).
  induction vector as [|e vector IH]; intros acc Hacc; simpl; [exact Hacc|].
  apply IH. rewrite add_spec, mul_spec.
  apply SFadd_not_negative; [exact Hacc|apply SFmul_square_not_negative].
Qed.

Lemma keeps_sign_refl x : keeps_sign x x.
Proof. right. reflexivity. Qed.

Lemma SFdiv_keeps_sign prec emax x m :
  not_negative m -> (forall s, m <> S754_zero s) ->
  keeps_sign x (SFdiv prec emax x m).
Proof.
  intros Hm Hz. unfold keeps_sign.
  destruct x as [sx|sx| |sx mx ex], m as [sm|sm| |sm mm em]; simpl in *;
    try (left; reflexivity); try (exfalso; exact (Hz sm eq_refl));
    destruct sm; try tauto; try (right; now rewrite xorb_false_r).
  destruct (SFdiv_core_binary prec emax (Z.pos mx) ex (Z.pos mm) em) as [[mz ez] lz].
  rewrite xorb_false_r.
  pose proof (binary_round_aux_signed prec emax sx mz ez lz) as H.
  destruct (binary_round_aux prec emax sx mz ez lz); simpl in *; subst; auto.
Qed.

Lemma is_zero_spec (x : float) :
  is_zero x = false -> forall s, Prim2SF x <> S754_zero s.
Proof.
  unfold is_zero. rewrite FloatAxioms.eqb_spec. change (Prim2SF 0) with (S754_zero false).
  intros H s Hx. rewrite Hx in H. discriminate.
Qed.

Lemma normalize_fold (m : float) (vector acc : Vector) :
  fold_left (fun normalizedVector entry =>
      if String.eqb (fst entry) "__proto__" then normalizedVector
      else (normalizedVector ++ [(fst entry, (snd entry / m)%float)])%list)
    vector acc
  = (acc ++ map (fun entry => (fst entry, (snd entry / m)%float))
       (List.filter (fun entry => negb (String.eqb (fst entry) "__proto__")) vector))%list.
Proof.
  revert acc. induction vector as [|e vector IH]; intros acc; simpl.
  - now rewrite app_nil_r.
  - rewrite IH. destruct (String.eqb (fst e) "__proto__"); simpl; [reflexivity|].
    now rewrite <- app_assoc.
Qed.

(** [normalizeVector] on doubles. A vector whose magnitude computes to
    zero is returned as it is. Otherwise the result has the terms of the
    vector, in their order, except ["__proto__"], and every weight of the
    result is [NaN] or has the sign of the weight it comes from. The result
    need not have magnitude 1, and normalizing is not idempotent:
    [{a: 2 ** 600}] becomes [{a: 0}], since the sum of squares overflows;
    the normalized [{a: 1, b: 1}] has magnitude 1 - 2 ** -53; and
    normalizing the normalized [{a: 1, b: 2}] changes it again. *)
Theorem normalizeVector_on_doubles (vector : Vector) :
  (is_zero (magnitude vector) = true -> normalizeVector vector = vector)
  /\ (is_zero (magnitude vector) = false ->
      map fst (normalizeVector vector)
      = List.filter (fun term => negb (String.eqb term "__proto__")) (map fst vector))
  /\ (forall term w, In (term, w) (normalizeVector vector) ->
        exists w0, In (term, w0) vector /\ keeps_sign (Prim2SF w0) (Prim2SF w))
  /\ normalizeVector [("a", 0x1p+600%float)] = [("a", 0%float)]
  /\ magnitude (normalizeVector [("a", 1%float); ("b", 1%float)])
     = 0x1.fffffffffffffp-1%float
  /\ normalizeVector (normalizeVector [("a", 1%float); ("b", 2%float)])
     <> normalizeVector [("a", 1%float); ("b", 2%float)].
Proof.
  split; [|split; [|split]].
  - intros Hz. unfold normalizeVector. cbv zeta. now rewrite Hz.
  - intros Hz. unfold normalizeVector. cbv zeta. rewrite Hz, normalize_fold. simpl.
    generalize (magnitude vector). intros m. clear Hz.
    induction vector as [|e v IH]; simpl; [reflexivity|].
    destruct (String.eqb (fst e) "__proto__"); simpl; [|f_equal]; apply IH.
  - intros term w. unfold normalizeVector. cbv zeta.
    destruct (is_zero (magnitude vector)) eqn:Hz.
    + intros Hin. exists w. split; [exact Hin|apply keeps_sign_refl].
    + rewrite normalize_fold. simpl. rewrite in_map_iff.
      intros ([k w0] & Heq & Hin). apply List.filter_In in Hin. destruct Hin as [Hin _].
      simpl in Heq. injection Heq as <- <-. exists w0. split; [exact Hin|].
      rewrite div_spec. apply SFdiv_keeps_sign;
        [apply magnitude_not_negative|apply is_zero_spec, Hz].
  - repeat split; try (vm_compute; reflexivity).
    intros H.
    apply (f_equal (fun v : Vector =>
      match v with
      | (_, w) :: _ =>
          PrimFloat.Leibniz.eqb w
            (snd (hd ("", 0%float) (normalizeVector [("a", 1%float); ("b", 2%float)])))
      | [] => false
      end)) in H.
    vm_compute in H. discriminate.
Qed.

End NormalizeOnDoubles.

(** ** [mergeVectors] on doubles *)

Section MergeOnDoubles.

Import VectorUtils64 Merging.

Lemma held_put (mergedVector : MergedVector) (t term : string) (value : Merged) :
  held (put mergedVector t value) term
  = if String.eqb t term then Some value else held mergedVector term.
Proof.
  induction mergedVector as [|[k old] rest IH]; simpl.
  - reflexivity.
  - destruct (String.eqb_spec k t) as [->|Hkt]; simpl.
    + destruct (String.eqb t term); reflexivity.
    + rewrite IH. destruct (String.eqb_spec k term) as [->|Hk]; [|reflexivity].
      destruct (String.eqb_spec t term) as [->|_]; [contradiction|reflexivity].
Qed.

Lemma put_keys (mergedVector : MergedVector) (t : string) (value : Merged) (k : string) :
  In k (map fst (put mergedVector t value)) <-> k = t \/ In k (map fst mergedVector).
Proof.
  induction mergedVector as [|[k' old] rest IH]; simpl; [intuition|].
  destruct (String.eqb_spec k' t) as [->|Hne]; simpl; [intuition|].
  rewrite IH. intuition.
Qed.

Lemma put_NoDup (mergedVector : MergedVector) (t : string) (value : Merged) :
  List.NoDup (map fst mergedVector) -> List.NoDup (map fst (put mergedVector t value)).
Proof.
  induction mergedVector as [|[k old] rest IH]; simpl; intros H.
  - constructor; [intros []|constructor].
  - inversion H as [|? ? Hk Hrest]; subst.
    destruct (String.eqb_spec k t) as [->|Hne]; simpl; [exact H|].
    constructor; [|auto]. rewrite put_keys. intros [->|Hin]; [congruence|contradiction].
Qed.

Lemma held_In (mergedVector : MergedVector) (term : string) :
  In term (map fst mergedVector) <-> held mergedVector term <> None.
Proof.
  induction mergedVector as [|[k old] rest IH]; simpl; [intuition|].
  destruct (String.eqb_spec k term) as [->|Hne].
  - split; [discriminate|auto].
  - rewrite <- IH. intuition.
Qed.

Lemma held_add_weighted (mergedVector : MergedVector) (t term : string) (val weight : float) :
  held (add_weighted mergedVector t val weight) term
  = if String.eqb t term then add_to t (held mergedVector t) (val * weight)
    else held mergedVector term.
Proof.
  unfold add_weighted, add_to.
  destruct (held mergedVector t) as [[sum|name addends]|] eqn:Hheld;
    try (rewrite held_put; reflexivity).
  destruct (JsObject.inherited t); [|rewrite held_put; reflexivity].
  destruct (String.eqb t "__proto__"); [|rewrite held_put; reflexivity].
  destruct (String.eqb_spec t term) as [<-|_]; [exact Hheld|reflexivity].
Qed.

Lemma add_weighted_NoDup (mergedVector : MergedVector) (t : string) (val weight : float) :
  List.NoDup (map fst mergedVector) ->
  List.NoDup (map fst (add_weighted mergedVector t val weight)).
Proof.
  intros H. unfold add_weighted.
  destruct (held mergedVector t) as [[sum|name addends]|]; try (apply put_NoDup, H).
  destruct (JsObject.inherited t); [|apply put_NoDup, H].
  destruct (String.eqb t "__proto__"); [exact H|apply put_NoDup, H].
Qed.

(** The inner loop, seen from one term. *)
Lemma merge_vector_held (vector : Vector) (weight : float) (mergedVector : MergedVector)
    (term : string) :
  held (fold_left (fun mergedVector entry =>
          add_weighted mergedVector (fst entry) (snd entry) weight) vector mergedVector) term
  = fold_left (add_to term)
      (map (fun entry => (snd entry * weight)%float)
         (List.filter (fun entry => String.eqb (fst entry) term) vector))
      (held mergedVector term).
Proof.
  revert mergedVector. induction vector as [|[k x] vector IH]; intros mergedVector; simpl.
  - reflexivity.
  - rewrite IH, held_add_weighted.
    destruct (String.eqb_spec k term) as [->|Hne]; reflexivity.
Qed.

Lemma merge_vector_NoDup (vector : Vector) (weight : float) (mergedVector : MergedVector) :
  List.NoDup (map fst mergedVector) ->
  List.NoDup (map fst (fold_left (fun mergedVector entry =>
          add_weighted mergedVector (fst entry) (snd entry) weight) vector mergedVector)).
Proof.
  revert mergedVector. induction vector as [|e vector IH]; intros mergedVector H; simpl.
  - exact H.
  - apply IH, add_weighted_NoDup, H.
Qed.

(** The two loops, seen from one term. *)
Lemma merge_all_held (pairs : list (Vector * float)) (mergedVector : MergedVector)
    (term : string) :
  held (fold_left (fun mergedVector vw =>
          fold_left (fun mergedVector entry =>
            add_weighted mergedVector (fst entry) (snd entry) (snd vw))
            (fst vw) mergedVector) pairs mergedVector) term
  = fold_left (add_to term)
      (flat_map (fun vw =>
         map (fun entry => (snd entry * snd vw)%float)
           (List.filter (fun entry => String.eqb (fst entry) term) (fst vw))) pairs)
      (held mergedVector term).
Proof.
  revert mergedVector. induction pairs as [|vw pairs IH]; intros mergedVector; simpl.
  - reflexivity.
  - rewrite IH, merge_vector_held, fold_left_app. reflexivity.
Qed.

Lemma merge_all_NoDup (pairs : list (Vector * float)) (mergedVector : MergedVector) :
  List.NoDup (map fst mergedVector) ->
  List.NoDup (map fst (fold_left (fun mergedVector vw =>
          fold_left (fun mergedVector entry =>
            add_weighted mergedVector (fst entry) (snd entry) (snd vw))
            (fst vw) mergedVector) pairs mergedVector)).
Proof.
  revert mergedVector. induction pairs as [|vw pairs IH]; intros mergedVector H; simpl.
  - exact H.
  - apply IH, merge_vector_NoDup, H.
Qed.

(** A property, once there, stays, and stays of its kind. *)
Lemma add_to_kind (term : string) (products : list float) (value : option Merged) :
  match value with
  | Some (Number _) => JsObject.inherited term = false
  | Some (Text name _) => JsObject.inherited term = true /\ name = term
  | None => True
  end ->
  match fold_left (add_to term) products value with
  | Some (Number _) => JsObject.inherited term = false
  | Some (Text name _) => JsObject.inherited term = true /\ name = term
  | None => (value = None /\ (products = [] \/ term = "__proto__"))
  end.
Proof.
  revert value. induction products as [|x products IH]; intros value Hv; simpl.
  - destruct value as [[sum|name addends]|]; auto.
  - specialize (IH (add_to term value x)).
    assert (Hnext : match add_to term value x with
      | Some (Number _) => JsObject.inherited term = false
      | Some (Text name _) => JsObject.inherited term = true /\ name = term
      | None => True
      end).
    { destruct value as [[sum|name addends]|]; simpl; auto.
      destruct (JsObject.inherited term) eqn:E; [|reflexivity].
      destruct (String.eqb term "__proto__"); auto. }
    specialize (IH Hnext).
    destruct (fold_left (add_to term) products (add_to term value x)) as [[sum|name addends]|];
      auto.
    destruct IH as [Hnone _]. destruct value as [[sum|name addends]|]; simpl in Hnone;
      try discriminate.
    split; [reflexivity|]. right.
    destruct (JsObject.inherited term); [|discriminate].
    destruct (String.eqb_spec term "__proto__"); [assumption|discriminate].
Qed.

Lemma add_to_proto (products : list float) :
  fold_left (add_to "__proto__") products None = None.
Proof. induction products as [|x products IH]; simpl; auto. Qed.

Lemma merged_value_None (term : string) (products : list float) :
  merged_value term products = None <-> products = [] \/ term = "__proto__".
Proof.
  unfold merged_value. split.
  - intros H. pose proof (add_to_kind term products None I) as K. rewrite H in K. tauto.
  - intros [->| ->]; [reflexivity|apply add_to_proto].
Qed.

Lemma contributions_some (term : string) (vectors : list Vector) (weights : list float) :
  length weights = length vectors ->
  contributions term vectors weights <> []
  <-> exists v, In v vectors /\ In term (map fst v).
Proof.
  unfold contributions. revert weights.
  induction vectors as [|v vectors IH]; intros [|w weights] Hlen; simpl in *; try discriminate.
  - split; [congruence|intros (v & [] & _)].
  - injection Hlen as Hlen. specialize (IH weights Hlen).
    assert (Hv : map (fun entry : string * float => (snd entry * w)%float)
               (List.filter (fun entry => String.eqb (fst entry) term) v) <> []
             <-> In term (map fst v)).
    { clear. induction v as [|[k x] v IHv]; simpl; [tauto|].
      destruct (String.eqb_spec k term) as [->|Hne]; simpl.
      - split; [auto|discriminate].
      - rewrite IHv. tauto. }
    destruct (map (fun entry : string * float => (snd entry * w)%float)
                (List.filter (fun entry => String.eqb (fst entry) term) v)) as [|p ps]; simpl.
    + rewrite IH. split.
      * intros (v' & Hin & Hterm). exists v'. auto.
      * intros (v' & [<-|Hin] & Hterm); [apply Hv in Hterm; congruence|]. exists v'. auto.
    + split; [|discriminate]. intros _. exists v. split; [auto|]. apply Hv. discriminate.
Qed.

(** [mergeVectors] on doubles, with the property reads of the language.
    Without vectors, or with an empty array, the result is [{}]. With
    vectors, the call throws exactly when weights are given in another
    number than the vectors. When it returns, no term occurs twice in the
    result, and the property of a term depends on that term alone: it is
    what the products [val * weight] of the vectors that hold the term
    give, added one after the other in the order of the loops, a sum that
    is zero or [NaN] starting again from 0. The terms of the result are
    the terms of the vectors except ["__proto__"]. Under a name that
    [Object.prototype] holds the property is a string, built on the
    inherited member, and under any other term a number. So
    [[{a: NaN}, {a: 1}]] merges into [{a: 0.5}]. *)
Theorem mergeVectors_on_doubles (vectors : list Vector) (weights : option (list float)) :
  let ws := weights_used vectors weights in
  (mergeVectors None weights = Js.Return []
   /\ mergeVectors (Some []) weights = Js.Return [])
  /\ (vectors <> [] -> length ws <> length vectors ->
      mergeVectors (Some vectors) weights = Js.Throw weights_mismatch)
  /\ (weights = None -> length ws = length vectors)
  /\ (length ws = length vectors ->
      exists merged,
        mergeVectors (Some vectors) weights = Js.Return merged
        /\ List.NoDup (map fst merged)
        /\ (forall term,
              held merged term = merged_value term (contributions term vectors ws))
        /\ (forall term,
              In term (map fst merged)
              <-> term <> "__proto__"
                  /\ exists v, In v vectors /\ In term (map fst v))
        /\ (forall term value, held merged term = Some value ->
              match value with
              | Number _ => JsObject.inherited term = false
              | Text name _ => JsObject.inherited term = true /\ name = term
              end))
  /\ mergeVectors (Some [[("a", nan)]; [("a", 1%float)]]) None
     = Js.Return [("a", Number 0.5)]
  /\ mergeVectors (Some [[("constructor", 1%float)]; [("constructor", 3%float)]]) None
     = Js.Return [("constructor", Text "constructor" [0.5%float; 1.5%float])].
Proof.
  intros ws. split; [split; reflexivity|].
  split.
  { intros Hne Hlen. unfold mergeVectors. destruct vectors as [|v vectors]; [contradiction|].
    fold ws. apply Nat.eqb_neq in Hlen. fold (weights_used (v :: vectors) weights). fold ws.
    now rewrite Hlen. }
  split.
  { intros ->. unfold ws, weights_used. now rewrite length_map. }
  split; [|split; vm_compute; reflexivity].
  intros Hlen.
  set (merged := fold_left (fun mergedVector vw =>
          fold_left (fun mergedVector entry =>
            add_weighted mergedVector (fst entry) (snd entry) (snd vw))
            (fst vw) mergedVector) (combine vectors ws) ([] : MergedVector)).
  assert (Hheld : forall term,
            held merged term = merged_value term (contributions term vectors ws)).
  { intros term. unfold merged. rewrite merge_all_held. reflexivity. }
  exists merged. split.
  { unfold mergeVectors. destruct vectors as [|v vectors]; [reflexivity|].
    fold (weights_used (v :: vectors) weights). fold ws.
    apply Nat.eqb_eq in Hlen. rewrite Hlen. reflexivity. }
  split; [apply merge_all_NoDup; constructor|].
  split; [exact Hheld|].
  split.
  - intros term. rewrite held_In, Hheld, <- (contributions_some term vectors ws Hlen).
    rewrite merged_value_None. split.
    + intros H. split; intros E; apply H; [right; exact E|left; exact E].
    + intros [H1 H2] [E|E]; [exact (H2 E)|exact (H1 E)].
  - intros term value. rewrite Hheld. unfold merged_value. intros Hv.
    pose proof (add_to_kind term (contributions term vectors ws) None I) as K.
    rewrite Hv in K. exact K.
Qed.

End MergeOnDoubles.

(** ** Similarity search *)

Section SimilaritySearch.

Import SemanticAnalyzer.

Local Open Scope R_scope.

Lemma insert_by_Forall {A} (P : A -> Prop) (key : A -> R) (x : A) (l : list A) :
  P x -> Forall P l -> Forall P (insert_by key x l).
Proof.
  intros Hx. induction 1 as [|y l Hy Hl IH]; simpl.
  - constructor; [exact Hx | constructor].
  - destruct (Rle_dec _ _); constructor; auto.
Qed.

Lemma sort_desc_Forall {A} (P : A -> Prop) (key : A -> R) (l : list A) :
  Forall P l -> Forall P (sort_desc key l).
Proof.
  induction 1 as [|x l Hx Hl IH]; simpl; [constructor|].
  now apply insert_by_Forall.
Qed.

Lemma insert_by_sorted {A} (key : A -> R) (x : A) (l : list A) :
  StronglySorted (fun a b => key a >= key b) l ->
  StronglySorted (fun a b => key a >= key b) (insert_by key x l).
Proof.
  induction 1 as [|y l Hl IH Hy]; simpl.
  - constructor; constructor.
  - destruct (Rle_dec (key y - key x) 0) as [Hle|Hgt].
    + constructor; [now constructor|].
      constructor; [lra|]. eapply Forall_impl; [exact Hy|]. simpl. intros z Hz. lra.
    + constructor; [exact IH|].
      apply insert_by_Forall; [lra | exact Hy].
Qed.

Lemma sort_desc_sorted {A} (key : A -> R) (l : list A) :
  StronglySorted (fun a b => key a >= key b) (sort_desc key l).
Proof.
  induction l as [|x l IH]; simpl; [constructor | now apply insert_by_sorted].
Qed.

Lemma firstn_sorted {A} (Rel : A -> A -> Prop) (n : nat) (l : list A) :
  StronglySorted Rel l -> StronglySorted Rel (firstn n l).
Proof.
  intros Hl. revert n. induction Hl as [|x l Hl IH Hx]; intros [|n]; simpl;
    try constructor; auto.
  apply Forall_take. exact Hx.
Qed.

Lemma search_above_threshold (kind : string) (queryVector : VectorUtils.Vector)
    (threshold : R) (d : Dict) :
  Forall (fun r => r_similarity r >= threshold) (search kind queryVector threshold d).
Proof.
  unfold search. induction d as [|entry d IH]; simpl; [constructor|].
  apply Forall_app. split; [|exact IH].
  destruct (calculateSimilarity _ _) as [similarity|]; [|constructor].
  unfold geb. destruct (Rle_dec threshold similarity); constructor; [simpl; lra | constructor].
Qed.


End SimilaritySearch.

(** ** Indexing *)

Section Indexing.

Import CodebaseIndexer Disk.

Lemma try_catch_returns {S} (m : Js.M S unit) (s : S) :
  Js.result (Js.try_catch m (fun _ => Js.ret tt)) s = Js.Return tt.
Proof.
  unfold Js.result, Js.try_catch. destruct (m s) as [[[]|e] s']; reflexivity.
Qed.

Lemma indexFile_returns (fs : Host.FileSystem) (filePath : string) (idx : CodeIndex) :
  Js.result (indexFile fs filePath) idx = Js.Return tt.
Proof. apply try_catch_returns. Qed.

Lemma parseCode_parse_error (content : Host.Source) (fileIndex : FileEntry) :
  Host.parsed content = None ->
  Js.exec (parseCode content) fileIndex = fileIndex.
Proof.
  intros Hp. unfold Js.exec, parseCode, Js.try_catch, Js.bind. rewrite Hp. reflexivity.
Qed.

Lemma indexFile_parse_error (fs : Host.FileSystem) (filePath : string)
    (idx : CodeIndex) (content : Host.Source) (mtime : string) :
  Host.readFile fs filePath = Some content ->
  Host.stat_mtime fs filePath = Some mtime ->
  Host.parsed content = None ->
  Js.exec (indexFile fs filePath) idx
  = push_file filePath (bare_entry filePath content mtime) idx.
Proof.
  intros Hr Hs Hp. unfold Js.exec, indexFile, Js.try_catch, Js.bind.
  rewrite Hr, Hs. simpl. rewrite parseCode_parse_error by exact Hp. reflexivity.
Qed.

Lemma indexFile_read_error (fs : Host.FileSystem) (filePath : string) (idx : CodeIndex) :
  Host.readFile fs filePath = None ->
  Js.exec (indexFile fs filePath) idx = idx.
Proof.
  intros Hr. unfold Js.exec, indexFile, Js.try_catch, Js.bind. rewrite Hr. reflexivity.
Qed.

Lemma scanDirectory_returns (cfg : Config) (fs : Host.FileSystem) (fuel : nat) :
  forall dirPath depth idx,
    Js.result (scanDirectory fuel cfg fs dirPath depth) idx = Js.Return tt.
Proof.
  destruct fuel as [|fuel]; intros dirPath depth idx; simpl;
    destruct (indexDepth cfg <? depth)%nat; try reflexivity.
  apply try_catch_returns.
Qed.

Lemma scanEntry_returns (cfg : Config) (fs : Host.FileSystem) (fuel : nat)
    (dirPath : string) (depth : nat) (entry : Host.Dirent) (idx : CodeIndex) :
  Js.result (scanEntry (scanDirectory fuel cfg fs) cfg fs dirPath depth entry) idx
  = Js.Return tt.
Proof.
  unfold scanEntry. destruct (Host.d_kind entry).
  - destruct (includes _ _); [apply indexFile_returns | reflexivity].
  - destruct (includes _ _); [reflexivity | apply scanDirectory_returns].
  - reflexivity.
Qed.

(** The loop over a directory goes past every entry. *)
Lemma scan_loop_continues (cfg : Config) (fs : Host.FileSystem) (fuel : nat)
    (dirPath : string) (depth : nat) (before after : list Host.Dirent)
    (entry : Host.Dirent) (idx : CodeIndex) :
  let body := scanEntry (scanDirectory fuel cfg fs) cfg fs dirPath depth in
  Js.for_of (before ++ entry :: after) body idx
  = (Js.Return tt,
     Js.exec (Js.for_of after body)
       (Js.exec (body entry) (Js.exec (Js.for_of before body) idx))).
Proof.
  intros body.
  assert (Hbody : forall x s', Js.result (body x) s' = Js.Return tt)
    by (intros; apply scanEntry_returns).
  rewrite for_of_app. unfold Js.exec.
  rewrite (for_of_total body before idx Hbody). simpl.
  unfold Js.bind.
  match goal with |- context [body entry ?s] =>
    pose proof (Hbody entry s) as He; unfold Js.result in He;
    destruct (body entry s) as [o s']
  end.
  simpl in He. subst o. simpl.
  rewrite (for_of_total body after s' Hbody). reflexivity.
Qed.

Lemma indexCodebase_returns (cfg : Config) (host : Host.t) (codebasePath : string)
    (idx : CodeIndex) :
  exists index,
    indexCodebase cfg host codebasePath idx = (Js.Return index, index).
Proof.
  unfold indexCodebase, Js.bind, resetIndex, updateMetadata, Js.modify, Js.get.
  pose proof (scanDirectory_returns cfg (Host.fs host) (S (indexDepth cfg))
                codebasePath 0 empty_index) as Hs.
  unfold Js.result in Hs.
  destruct (scanDirectory _ _ _ _ _ _) as [o s']. simpl in Hs. subst o.
  eexists. reflexivity.
Qed.

(** The whole scan of that directory: two files in the index, the broken
    one without functions, the sound one with its function. *)
Example indexCodebase_with_failures :
  exists index,
    indexCodebase default_config with_failures "/repo" empty_index
    = (Js.Return index, index)
    /\ map (fun f => (f_path f, length (f_functions f), length (f_classes f)))
         (files index)
       = [("/repo/broken.js", 0, 0); ("/repo/b.js", 1, 0)]
    /\ map (fun fn => (if_filePath fn, fn_name (if_func fn))) (functions index)
       = [("/repo/b.js", "bar")].
Proof. eexists. split; [vm_compute; reflexivity|]. split; reflexivity. Qed.

End Indexing.

(** ** Import resolution and the edges between files *)

Section Resolution.

Import DependencyAnalyzer Disk.

(** With [fs] bound to the promise API every probe fails. *)
Lemma probe_promises (disk : Host.FileSystem) (p : string) : probe fs disk p = false.
Proof. reflexivity. Qed.

Lemma find_probe_promises (disk : Host.FileSystem) (candidates : list string) :
  find (probe fs disk) candidates = None.
Proof. induction candidates as [|c cs IH]; [reflexivity | exact IH]. Qed.

(** So the resolver never looks at the disk: a specifier without extension
    resolves to the path without extension, which names no indexed file. *)
Lemma resolveImportPath_ignores_disk (cfg : Config) (host : Host.t)
    (disk : Host.FileSystem) (importPath currentFilePath : string) :
  resolveImportPath cfg host importPath currentFilePath
  = resolveImportPath cfg
      {| Host.fs := disk; Host.cwd := Host.cwd host; Host.now := Host.now host |}
      importPath currentFilePath.
Proof.
  unfold resolveImportPath, resolveImportPath_with. cbn [Host.cwd Host.fs].
  destruct (negb (includeNodeModules cfg) && _); [reflexivity|].
  destruct (if String.prefix "." importPath then _ else _) as [resolvedPath|];
    [|reflexivity].
  destruct (String.eqb (Path.extname resolvedPath) ""); [|reflexivity].
  now rewrite !find_probe_promises.
Qed.

Lemma relative_is_not_node_modules (importPath : string) :
  String.prefix "." importPath = true ->
  String.prefix "node_modules/" importPath = false.
Proof.
  destruct importPath as [|c rest]; [discriminate|]. cbn -[ascii_dec].
  destruct (ascii_dec "." c) as [<-|]; [|discriminate]. intros _.
  destruct (ascii_dec "n" "."); [discriminate | reflexivity].
Qed.

Lemma resolveImportPath_relative_without_extension (cfg : Config) (host : Host.t)
    (importPath currentFilePath : string) :
  String.prefix "." importPath = true ->
  let resolvedPath :=
    Path.resolve (Host.cwd host) [Path.dirname currentFilePath; importPath] in
  Path.extname resolvedPath = "" ->
  resolveImportPath cfg host importPath currentFilePath = Some resolvedPath.
Proof.
  intros Hdot resolvedPath Hext. unfold resolveImportPath, resolveImportPath_with.
  rewrite Hdot, (relative_is_not_node_modules importPath Hdot).
  cbn [negb orb andb]. rewrite andb_false_r.
  fold resolvedPath. rewrite Hext. cbn [String.eqb].
  now rewrite !find_probe_promises.
Qed.

(** A bare module specifier gives no path, whatever the configuration. *)
Lemma resolveImportPath_bare (fsobj : FsObject) (cfg : Config) (host : Host.t)
    (importPath currentFilePath : string) :
  String.prefix "." importPath = false ->
  String.prefix "/" importPath = false ->
  resolveImportPath_with fsobj cfg host importPath currentFilePath = None.
Proof.
  intros Hdot Hslash. unfold resolveImportPath_with. rewrite Hdot, Hslash. simpl.
  destruct (negb (includeNodeModules cfg) && _); reflexivity.
Qed.

(** C2, on the code. [/repo/a.js] requires (or imports) ['./b'] and
    [/repo/b.js] is on disk and in the index. The resolver answers
    [/repo/b], and the graph has no edge from [a.js] to [b.js]: line 6
    binds [fs] to [require('fs').promises], which has no [existsSync], so
    each probe throws inside its own [try]. With [fs] bound to
    [require('fs')] the same code resolves [/repo/b.js] and adds the
    edge, as it does on the code as it is when the specifier carries its
    extension. *)
Theorem buildDependencyGraph_misses_extensionless_sibling :
  let required := code_base "/repo" "/repo/" a_text in
  let imported := code_base "/repo" "/repo/" a_module_text in
  Host.exists_on_disk (Host.fs required) "/repo/b.js" = true
  /\ has_node (graph_of fs required "/repo") "file:/repo/b.js" = true
  /\ resolveImportPath default_config required "./b" "/repo/a.js" = Some "/repo/b"
  /\ edge_keys (graph_of fs required "/repo")
     = [("function:/repo/a.js:foo", "file:/repo/a.js", "contains");
        ("function:/repo/b.js:bar", "file:/repo/b.js", "contains");
        ("function:/repo/a.js:foo", "function:/repo/b.js:bar", "calls")]
  /\ edge_keys (graph_of fs imported "/repo")
     = [("function:/repo/a.js:foo", "file:/repo/a.js", "contains");
        ("function:/repo/b.js:bar", "file:/repo/b.js", "contains");
        ("function:/repo/a.js:foo", "function:/repo/b.js:bar", "calls")]
  /\ resolveImportPath_with node_fs default_config required "./b" "/repo/a.js"
     = Some "/repo/b.js"
  /\ In ("file:/repo/a.js", "file:/repo/b.js", "requires")
       (edge_keys (graph_of node_fs required "/repo"))
  /\ In ("file:/repo/a.js", "file:/repo/b.js", "imports")
       (edge_keys (graph_of node_fs imported "/repo"))
  /\ In ("file:/repo/a.js", "file:/repo/b.js", "requires")
       (edge_keys (graph_of fs (code_base "/repo" "/repo/" a_text_with_extension) "/repo")).
Proof.
  assert (Hr : edge_keys (graph_of node_fs (code_base "/repo" "/repo/" a_text) "/repo")
               = [("function:/repo/a.js:foo", "file:/repo/a.js", "contains");
                  ("function:/repo/b.js:bar", "file:/repo/b.js", "contains");
                  ("file:/repo/a.js", "file:/repo/b.js", "requires");
                  ("function:/repo/a.js:foo", "function:/repo/b.js:bar", "calls")])
    by (vm_compute; reflexivity).
  assert (Hi : edge_keys (graph_of node_fs (code_base "/repo" "/repo/" a_module_text) "/repo")
               = [("function:/repo/a.js:foo", "file:/repo/a.js", "contains");
                  ("function:/repo/b.js:bar", "file:/repo/b.js", "contains");
                  ("file:/repo/a.js", "file:/repo/b.js", "imports");
                  ("function:/repo/a.js:foo", "function:/repo/b.js:bar", "calls")])
    by (vm_compute; reflexivity).
  assert (He : edge_keys (graph_of fs (code_base "/repo" "/repo/" a_text_with_extension)
                            "/repo")
               = [("function:/repo/a.js:foo", "file:/repo/a.js", "contains");
                  ("function:/repo/b.js:bar", "file:/repo/b.js", "contains");
                  ("file:/repo/a.js", "file:/repo/b.js", "requires");
                  ("function:/repo/a.js:foo", "function:/repo/b.js:bar", "calls")])
    by (vm_compute; reflexivity).
  intros required imported. subst required imported. rewrite Hr, Hi, He.
  split; [vm_compute; reflexivity|].
  split; [vm_compute; reflexivity|].
  split; [vm_compute; reflexivity|].
  split; [vm_compute; reflexivity|].
  split; [vm_compute; reflexivity|].
  split; [vm_compute; reflexivity|].
  split; [right; right; left; reflexivity|].
  split; right; right; left; reflexivity.
Qed.

(** C4, on the code. The scenario of the design document, indexed under
    [/repo]: the four nodes are there and so is the [calls] edge from
    [foo] to [bar], but no edge from [a.js] to [b.js]: the probes of
    [resolveImportPath] throw, ['./b'] resolves to [/repo/b], and
    [addEdge] drops the edge to a node that does not exist. The same
    holds with the file names of the document ([a.js] and [b.js],
    relative to the working directory). *)
Theorem scenario_two_files_has_no_requires_edge :
  let g := graph_of fs (code_base "/repo" "/repo/" a_text) "/repo" in
  let g' := graph_of fs (code_base "." "" a_text) "." in
  map (has_node g)
    ["file:/repo/a.js"; "file:/repo/b.js";
     "function:/repo/a.js:foo"; "function:/repo/b.js:bar"]
  = [true; true; true; true]
  /\ In ("function:/repo/a.js:foo", "function:/repo/b.js:bar", "calls") (edge_keys g)
  /\ ~ In ("file:/repo/a.js", "file:/repo/b.js", "requires") (edge_keys g)
  /\ map (has_node g')
       ["file:a.js"; "file:b.js"; "function:a.js:foo"; "function:b.js:bar"]
     = [true; true; true; true]
  /\ In ("function:a.js:foo", "function:b.js:bar", "calls") (edge_keys g')
  /\ ~ In ("file:a.js", "file:b.js", "requires") (edge_keys g').
Proof.
  assert (Hg : edge_keys (graph_of fs (code_base "/repo" "/repo/" a_text) "/repo")
               = [("function:/repo/a.js:foo", "file:/repo/a.js", "contains");
                  ("function:/repo/b.js:bar", "file:/repo/b.js", "contains");
                  ("function:/repo/a.js:foo", "function:/repo/b.js:bar", "calls")])
    by (vm_compute; reflexivity).
  assert (Hg' : edge_keys (graph_of fs (code_base "." "" a_text) ".")
               = [("function:a.js:foo", "file:a.js", "contains");
                  ("function:b.js:bar", "file:b.js", "contains");
                  ("function:a.js:foo", "function:b.js:bar", "calls")])
    by (vm_compute; reflexivity).
  intros g g'. subst g g'. rewrite Hg, Hg'.
  split; [vm_compute; reflexivity|].
  split; [simpl; tauto|].
  split; [simpl; intros [H|[H|[H|[]]]]; discriminate|].
  split; [vm_compute; reflexivity|].
  split; [simpl; tauto|].
  simpl; intros [H|[H|[H|[]]]]; discriminate.
Qed.

End Resolution.

(** ** The engine and the analyzer that [mapTask] looks for *)

Section EngineFacts.

Import Engine.

(** [initialize] writes to the engine only: whatever it does, and also
    when it throws, [global] is as before; and when it returns, the engine
    holds an index. *)
Lemma initialize_effect (host : Host.t) (codebasePath : string) (p : Process) :
  globals (Js.exec (initialize host codebasePath) p) = globals p
  /\ (Js.result (initialize host codebasePath) p = Js.Return tt ->
      is_Some (codeIndex (engine (Js.exec (initialize host codebasePath) p)))).
Proof.
  unfold Js.exec, Js.result, initialize, Js.bind, Js.get, Js.on_member, Js.modify.
  destruct (CodebaseIndexer.indexCodebase _ _ _ _) as [[index|e1] s1]; simpl;
    [|split; [reflexivity | discriminate]].
  destruct (SemanticAnalyzer.analyzeCodebase _ _) as [[sidx|e2] s2]; simpl;
    [|split; [reflexivity | discriminate]].
  destruct (DependencyAnalyzer.buildDependencyGraph _ _ _) as [[g|e3] s3]; simpl;
    [|split; [reflexivity | discriminate]].
  split; [reflexivity | intros _; eexists; reflexivity].
Qed.

Lemma mapTaskToCode_without_global_analyzer (task : MappingAlgorithm.Task) (p : Process) :
  Global.semanticAnalyzer (globals p) = None ->
  is_Some (codeIndex (engine p)) ->
  Js.result (mapTaskToCode task) p = Js.Throw MappingAlgorithm.analyzer_missing.
Proof.
  intros Hg [index Hi].
  unfold Js.result, mapTaskToCode, Js.bind, Js.get, Js.on_member,
    MappingAlgorithm.mapTask, Js.bind, Js.get. simpl.
  rewrite Hi. simpl. rewrite Hg. reflexivity.
Qed.

(** C10. In a process where nothing has assigned [global.semanticAnalyzer],
    a call of [mapTaskToCode] after [initialize] has returned throws the
    "Semantic analyzer not available" error, for every task: [initialize]
    fills the analyzer of the engine and leaves [global] alone, and
    [mapTask] reads [global]. *)
Theorem mapTaskToCode_throws_after_initialize
    (host : Host.t) (codebasePath : string) (task : MappingAlgorithm.Task)
    (p : Process) :
  Global.semanticAnalyzer (globals p) = None ->
  Js.result (initialize host codebasePath) p = Js.Return tt ->
  let p' := Js.exec (initialize host codebasePath) p in
  Global.semanticAnalyzer (globals p') = None
  /\ Js.result (mapTaskToCode task) p'
     = Js.Throw
         (Js.PlainError
            "Semantic analyzer not available. Initialize the code mapping engine first.").
Proof.
  intros Hg Hinit p'.
  destruct (initialize_effect host codebasePath p) as [Hglobals Hindex].
  assert (Hg' : Global.semanticAnalyzer (globals p') = None)
    by (subst p'; now rewrite Hglobals).
  split; [exact Hg'|].
  apply mapTaskToCode_without_global_analyzer; [exact Hg' | exact (Hindex Hinit)].
Qed.

(** On the two-file code base of the scenario, from a fresh process. *)
Lemma mapTaskToCode_throws_after_initialize_witness :
  let host := Disk.code_base "/repo" "/repo/" Disk.a_text in
  Global.semanticAnalyzer (globals Run.fresh) = None
  /\ Js.result (initialize host "/repo") Run.fresh = Js.Return tt
  /\ Js.result (mapTaskToCode Scoring.task_on_a)
       (Js.exec (initialize host "/repo") Run.fresh)
     = Js.Throw MappingAlgorithm.analyzer_missing.
Proof.
  intros host.
  assert (Hinit : Js.result (initialize host "/repo") Run.fresh = Js.Return tt)
    by (vm_compute; reflexivity).
  split; [reflexivity|]. split; [exact Hinit|].
  exact (proj2 (mapTaskToCode_throws_after_initialize host "/repo" Scoring.task_on_a
                  Run.fresh eq_refl Hinit)).
Defined.

(** Before [initialize], the call fails on the engine's own test. *)
Example mapTaskToCode_before_initialize (task : MappingAlgorithm.Task) :
  Js.result (mapTaskToCode task) Run.fresh = Js.Throw not_initialized.
Proof. reflexivity. Qed.

End EngineFacts.

(** * Further properties of the code *)

(** ** What a traversal returns *)

Section TraversalEntries.

Import DependencyAnalyzer Entries.

Lemma related_edges_usable (g : Graph) (options : Options) (nodeId : string) :
  Forall (usable_edge g options) (related_edges g options nodeId).
Proof.
  unfold related_edges, usable_edge, type_allowed. apply Forall_forall. intros e.
  rewrite list_elem_of_In.
  destruct (types options) as [ts|].
  - rewrite !filter_In. intros [[Hin _] Hty]. split; [exact Hin|].
    apply existsb_exists in Hty as (ty & Hty & Heq).
    apply String.eqb_eq in Heq. now subst ty.
  - rewrite filter_In. intros [Hin _]. auto.
Qed.

Lemma each_edge_sound (g : Graph) (options : Options) (start : string)
    (recurse : string -> Walk -> Walk) (currentDepth : nat) (es : list Edge) :
  (forall targetId w, all_sound g options start w ->
                      all_sound g options start (recurse targetId w)) ->
  Forall (usable_edge g options) es ->
  forall w, all_sound g options start w ->
    all_sound g options start (each_edge recurse g options currentDepth es w).
Proof.
  intros Hrec Hes. induction Hes as [|edge es [Hin Hty] Hes IH]; intros w Hw;
    simpl; [exact Hw|].
  destruct (bool_decide (edge_end options edge ∈ visited w)) eqn:Hv; [now apply IH|].
  apply bool_decide_eq_false in Hv.
  destruct (JsObject.get (nodes g) (edge_end options edge)) as [targetNode|] eqn:Hn; [|now apply IH].
  match goal with |- context [push_dependency ?d w] =>
    assert (Hw1 : all_sound g options start (push_dependency d w))
  end.
  { destruct Hw as [Hall Hstart]. split; [|exact Hstart].
    unfold push_dependency. simpl. apply Forall_app. split; [exact Hall|].
    constructor; [|constructor]. unfold sound. simpl.
    repeat split; try assumption; [|lia].
    intros Heq. apply Hv. now rewrite Heq. }
  destruct (maxResults options <=? _)%nat; [exact Hw1|].
  apply IH, Hrec, Hw1.
Qed.

Lemma getDependenciesRecursive_sound (g : Graph) (options : Options) (start : string)
    (fuel : nat) :
  forall nodeId w currentDepth,
    all_sound g options start w ->
    all_sound g options start
      (getDependenciesRecursive fuel g nodeId options w currentDepth).
Proof.
  induction fuel as [|fuel IH]; intros nodeId w currentDepth Hw; simpl;
    destruct (depth options <=? currentDepth)%nat; try exact Hw.
  apply each_edge_sound.
  - intros targetId w' Hw'. now apply IH.
  - apply related_edges_usable.
  - destruct Hw as [Hall Hstart]. split; [exact Hall|].
    unfold mark_visited. simpl. set_solver.
Qed.

Lemma getNodeDependencies_sound (self : t) (nodeId : string) (options : Options) :
  Forall (sound (dependencyGraph self) options nodeId)
    (getNodeDependencies self nodeId options).
Proof.
  unfold getNodeDependencies.
  destruct (JsObject.get (nodes (dependencyGraph self)) nodeId); [|constructor].
  destruct (depth options) as [|fuel] eqn:Hd; simpl; rewrite Hd; simpl; [constructor|].
  apply each_edge_sound.
  - intros targetId w Hw. now apply getDependenciesRecursive_sound.
  - apply related_edges_usable.
  - split; [constructor|]. unfold mark_visited. simpl. set_solver.
Qed.

Lemma sound_stored (g : Graph) (options : Options) (start : string) (d : Dependency) :
  GraphCalls.endpoints_exist g -> sound g options start d -> stored g d.
Proof.
  intros Hg (Hget & _ & Hin & Hend & _).
  unfold GraphCalls.endpoints_exist in Hg. rewrite Forall_forall in Hg.
  destruct (Hg _ (proj2 (list_elem_of_In _ _) Hin)) as [Hs Ht].
  assert (Hnode : is_Some (nodes g !! dep_id d)).
  { rewrite Hend. unfold edge_end. now destruct (String.eqb _ _). }
  destruct Hnode as [n Hn]. exists n. split; [|exact Hn].
  rewrite (get_own _ _ _ Hn) in Hget. congruence.
Qed.

(** Every entry that [getNodeDependencies] returns holds under [node] what
    [nodes[id]] reads for its name, which is never the name of the start
    node; its edge is an edge of the graph whose far end, in the direction
    asked for, is the entry, and whose type is one of the types asked for;
    and its depth lies between one and the depth asked for. What
    [nodes[id]] reads is a node that the graph stores, or, for a name such
    as ["constructor"] that is no key of the node map, the member of
    [Object.prototype] of that name; on a graph without dangling edge, as
    [buildDependencyGraph] returns it, every entry is a stored node. *)
Theorem getNodeDependencies_entries_sound (self : t) (nodeId : string) (options : Options) :
  Forall (fun d => sound (dependencyGraph self) options nodeId d
                   /\ dep_depth d <= depth options)
    (getNodeDependencies self nodeId options)
  /\ (GraphCalls.endpoints_exist (dependencyGraph self) ->
      Forall (stored (dependencyGraph self)) (getNodeDependencies self nodeId options)).
Proof.
  split.
  - apply Forall_and. split; [apply getNodeDependencies_sound|].
    unfold getNodeDependencies.
    destruct (JsObject.get (nodes (dependencyGraph self)) nodeId); [|constructor].
    apply getDependenciesRecursive_depth. constructor.
  - intros Hg. eapply Forall_impl; [apply getNodeDependencies_sound|].
    intros d. now apply sound_stored.
Qed.

Lemma each_edge_growth (g : Graph) (options : Options)
    (recurse : string -> Walk -> Walk) (currentDepth : nat) (es : list Edge) :
  currentDepth < depth options ->
  (forall targetId w,
     bounded_growth options (currentDepth + 1) (length (dependencies w))
       (length (dependencies (recurse targetId w)))) ->
  forall w,
    let before := length (dependencies w) in
    let after := length (dependencies (each_edge recurse g options currentDepth es w)) in
    before <= after
    /\ (before < maxResults options ->
        after <= maxResults options + (depth options - currentDepth - 1))
    /\ (maxResults options <= before -> after <= before + 1).
Proof.
  intros Hd Hrec. induction es as [|edge es IH]; intros w; [simpl; lia|].
  cbn [each_edge]. cbv zeta.
  destruct (bool_decide _); [apply IH|].
  destruct (JsObject.get (nodes g) _) as [targetNode|]; [|apply IH].
  match goal with |- context [push_dependency ?d w] => set (w1 := push_dependency d w) end.
  assert (Hlen : length (dependencies w1) = length (dependencies w) + 1).
  { unfold w1, push_dependency. simpl. rewrite length_app. simpl. lia. }
  destruct (maxResults options <=? length (dependencies w1))%nat eqn:Hmax.
  - apply Nat.leb_le in Hmax. lia.
  - apply Nat.leb_gt in Hmax.
    destruct (Hrec (edge_end options edge) w1) as (H1 & H2 & H3 & H4).
    specialize (IH (recurse (edge_end options edge) w1)). simpl in IH.
    destruct IH as (I1 & I2 & I3).
    destruct (Nat.lt_ge_cases
                (length (dependencies (recurse (edge_end options edge) w1)))
                (maxResults options)) as [Hlt|Hge].
    + specialize (I2 Hlt). lia.
    + specialize (I3 Hge). specialize (H3 Hmax).
      destruct (Nat.le_gt_cases (depth options) (currentDepth + 1)) as [Hlast|Hmore].
      * specialize (H2 Hlast). lia.
      * lia.
Qed.

Lemma getDependenciesRecursive_growth (g : Graph) (options : Options) (fuel : nat) :
  forall nodeId w currentDepth,
    bounded_growth options currentDepth (length (dependencies w))
      (length (dependencies
                 (getDependenciesRecursive fuel g nodeId options w currentDepth))).
Proof.
  unfold bounded_growth.
  induction fuel as [|fuel IH]; intros nodeId w currentDepth; simpl;
    destruct (depth options <=? currentDepth)%nat eqn:Hd;
    try (apply Nat.leb_le in Hd); try (apply Nat.leb_gt in Hd); try lia.
  pose proof (each_edge_growth g options
                (fun targetId w0 =>
                   getDependenciesRecursive fuel g targetId options w0 (currentDepth + 1))
                currentDepth (related_edges g options nodeId) Hd
                (fun targetId w0 => IH targetId w0 (currentDepth + 1))
                (mark_visited nodeId w)) as H.
  simpl in H. unfold mark_visited in *. simpl in *. lia.
Qed.

Lemma getNodeDependencies_length (self : t) (nodeId : string) (options : Options) :
  length (getNodeDependencies self nodeId options)
  <= Nat.max (maxResults options) 1 + (depth options - 1).
Proof.
  unfold getNodeDependencies.
  destruct (JsObject.get (nodes (dependencyGraph self)) nodeId); [|simpl; lia].
  destruct (getDependenciesRecursive_growth (dependencyGraph self) options
              (depth options) nodeId {| visited := ∅; dependencies := [] |} 0)
    as (H1 & H2 & H3 & H4).
  simpl in *. destruct (Nat.eq_dec (maxResults options) 0) as [Hz|Hz]; lia.
Qed.

(** [maxResults] is not a hard limit, but the excess is bounded: once the
    limit is reached in a nested call, each enclosing call adds at most
    one more entry. The list has at most [max(maxResults, 1) + depth - 1]
    entries; so a one-hop traversal with a positive limit keeps the
    limit. *)
Theorem getNodeDependencies_length_bound (self : t) (nodeId : string) (options : Options) :
  length (getNodeDependencies self nodeId options)
  <= Nat.max (maxResults options) 1 + (depth options - 1).
Proof. apply getNodeDependencies_length. Qed.

End TraversalEntries.

(** ** Impact of a node *)

Section ImpactFacts.

Import DependencyAnalyzer Entries.

(** [getImpactAnalysis] walks the edges backwards for the impacted nodes
    and forwards for the dependencies, down to [maxDepth]: every impacted
    entry is the source of its edge, every dependency entry the target;
    none is the node itself; the depths lie between 1 and [maxDepth]; the
    two scores are the lengths of the two lists and stay below
    [100 + maxDepth - 1]. The [node] of the analysis and of every entry is
    what [nodes[id]] reads: a stored node, or the member of
    [Object.prototype] that the name denotes when it is no key of the
    node map. A name for which [nodes[id]] is undefined has both scores
    0, and so has every name that is neither a key nor such a member; on
    a graph without dangling edge every entry is a stored node. *)
Theorem getImpactAnalysis_directed_and_bounded (self : t) (nodeId : string) :
  let analysis := getImpactAnalysis self nodeId in
  let g := dependencyGraph self in
  let bound := 100 + (maxDepth (config self) - 1) in
  Forall (fun d =>
            e_source (dep_edge d) = dep_id d /\ In (dep_edge d) (edges g)
            /\ JsObject.get (nodes g) (dep_id d) = Some (dep_node d)
            /\ dep_id d <> nodeId
            /\ 1 <= dep_depth d <= maxDepth (config self))
    (impactedNodes analysis)
  /\ Forall (fun d =>
               e_target (dep_edge d) = dep_id d /\ In (dep_edge d) (edges g)
               /\ JsObject.get (nodes g) (dep_id d) = Some (dep_node d)
               /\ dep_id d <> nodeId
               /\ 1 <= dep_depth d <= maxDepth (config self))
       (dependencyNodes analysis)
  /\ impactScore analysis = length (impactedNodes analysis)
  /\ dependencyScore analysis = length (dependencyNodes analysis)
  /\ impactScore analysis <= bound
  /\ dependencyScore analysis <= bound
  /\ i_node analysis = JsObject.get (nodes g) nodeId
  /\ (JsObject.get (nodes g) nodeId = None ->
      impactScore analysis = 0 /\ dependencyScore analysis = 0)
  /\ (nodes g !! nodeId = None -> JsObject.inherited nodeId = false ->
      i_node analysis = None
      /\ impactScore analysis = 0 /\ dependencyScore analysis = 0)
  /\ (GraphCalls.endpoints_exist g ->
      Forall (stored g) (impactedNodes analysis)
      /\ Forall (stored g) (dependencyNodes analysis)).
Proof.
  cbv zeta. unfold getImpactAnalysis. cbn [impactedNodes dependencyNodes impactScore
    dependencyScore i_node].
  set (incoming := {| direction := "incoming"; types := None;
                      depth := maxDepth (config self); maxResults := 100 |}).
  set (outgoing := {| direction := "outgoing"; types := None;
                      depth := maxDepth (config self); maxResults := 100 |}).
  assert (Hdepth : forall options,
            Forall (fun d => dep_depth d <= depth options)
              (getNodeDependencies self nodeId options)).
  { intros options. unfold getNodeDependencies.
    destruct (JsObject.get (nodes (dependencyGraph self)) nodeId); [|constructor].
    apply getDependenciesRecursive_depth. constructor. }
  pose proof (proj2 (Forall_and _ _)
                (conj (getNodeDependencies_sound self nodeId incoming) (Hdepth incoming)))
    as Hi.
  pose proof (proj2 (Forall_and _ _)
                (conj (getNodeDependencies_sound self nodeId outgoing) (Hdepth outgoing)))
    as Ho.
  pose proof (getNodeDependencies_length self nodeId incoming) as Li.
  pose proof (getNodeDependencies_length self nodeId outgoing) as Lo.
  split; [|split].
  - eapply Forall_impl; [exact Hi|]. intros d [(Hn & Hne & Hin & Hend & _ & H1) Hd].
    repeat split; try assumption. now rewrite Hend.
  - eapply Forall_impl; [exact Ho|]. intros d [(Hn & Hne & Hin & Hend & _ & H1) Hd].
    repeat split; try assumption. now rewrite Hend.
  - split; [reflexivity|]. split; [reflexivity|].
    split; [exact Li|]. split; [exact Lo|]. split; [reflexivity|].
    assert (Hundefined : JsObject.get (nodes (dependencyGraph self)) nodeId = None ->
              length (getNodeDependencies self nodeId incoming) = 0
              /\ length (getNodeDependencies self nodeId outgoing) = 0).
    { intros Hnone. unfold getNodeDependencies. rewrite Hnone. split; reflexivity. }
    split; [exact Hundefined|]. split.
    + intros Hkey Hplain.
      assert (Hnone : JsObject.get (nodes (dependencyGraph self)) nodeId = None)
        by (apply get_None; auto).
      split; [exact Hnone | exact (Hundefined Hnone)].
    + intros Hg. split.
      * eapply Forall_impl; [apply (getNodeDependencies_sound self nodeId incoming)|].
        intros d. now apply sound_stored.
      * eapply Forall_impl; [apply (getNodeDependencies_sound self nodeId outgoing)|].
        intros d. now apply sound_stored.
Qed.

End ImpactFacts.

(** ** Computations that return, keep an invariant, or only add *)

Section EffectFacts.

Import Effects.

Context {S : Type}.

Lemma returns_ret {A} (a : A) : returns (@Js.ret S A a).
Proof. intros s. now exists a. Qed.

Lemma returns_get : returns (@Js.get S).
Proof. intros s. now exists s. Qed.

Lemma returns_modify (f : S -> S) : returns (Js.modify f).
Proof. intros s. now exists tt. Qed.

Lemma returns_bind {A B} (m : Js.M S A) (k : A -> Js.M S B) :
  returns m -> (forall a, returns (k a)) -> returns (Js.bind m k).
Proof.
  intros Hm Hk s. unfold Js.bind. destruct (Hm s) as [a Ha].
  destruct (m s) as [[a'|e] s']; simpl in Ha; [apply Hk | discriminate].
Qed.

Lemma returns_try_catch {A} (m : Js.M S A) (handler : Js.Error -> Js.M S A) :
  (forall e, returns (handler e)) -> returns (Js.try_catch m handler).
Proof.
  intros Hh s. unfold Js.try_catch.
  destruct (m s) as [[a|e] s']; [now exists a | apply Hh].
Qed.

Lemma returns_for_of {A} (xs : list A) (body : A -> Js.M S unit) :
  (forall x, returns (body x)) -> returns (Js.for_of xs body).
Proof.
  intros Hb. induction xs as [|x xs IH]; simpl; [apply returns_ret|].
  apply returns_bind; [apply Hb | intros _; exact IH].
Qed.

Lemma returns_unit (m : Js.M S unit) (s : S) :
  returns m -> m s = (Js.Return tt, snd (m s)).
Proof.
  intros Hm. destruct (Hm s) as [[] Ha]. destruct (m s) as [o s']. simpl in *. now subst o.
Qed.

Lemma bind_unit {B} (m : Js.M S unit) (k : unit -> Js.M S B) (s : S) :
  returns m -> Js.bind m k s = k tt (snd (m s)).
Proof. intros Hm. unfold Js.bind. now rewrite (returns_unit m s Hm). Qed.

Lemma preserves_ret (I : S -> Prop) {A} (a : A) : preserves I (Js.ret a).
Proof. intros s H. exact H. Qed.

Lemma preserves_get (I : S -> Prop) : preserves I Js.get.
Proof. intros s H. exact H. Qed.

Lemma preserves_throw (I : S -> Prop) {A} (e : Js.Error) : preserves I (@Js.throw _ A e).
Proof. intros s H. exact H. Qed.

Lemma preserves_of_option (I : S -> Prop) {A} (o : option A) (e : Js.Error) :
  preserves I (Js.of_option o e).
Proof. destruct o; [apply preserves_ret | apply preserves_throw]. Qed.

Lemma preserves_bind (I : S -> Prop) {A B} (m : Js.M S A) (k : A -> Js.M S B) :
  preserves I m -> (forall a, preserves I (k a)) -> preserves I (Js.bind m k).
Proof.
  intros Hm Hk s H. unfold Js.bind. specialize (Hm s H).
  destruct (m s) as [[a|e] s']; [apply Hk, Hm | exact Hm].
Qed.

Lemma preserves_try_catch (I : S -> Prop) {A} (m : Js.M S A)
    (handler : Js.Error -> Js.M S A) :
  preserves I m -> (forall e, preserves I (handler e)) ->
  preserves I (Js.try_catch m handler).
Proof.
  intros Hm Hh s H. unfold Js.try_catch. specialize (Hm s H).
  destruct (m s) as [[a|e] s']; [exact Hm | apply Hh, Hm].
Qed.

Lemma preserves_for_of (I : S -> Prop) {A} (xs : list A) (body : A -> Js.M S unit) :
  (forall x, preserves I (body x)) -> preserves I (Js.for_of xs body).
Proof.
  intros Hb. induction xs as [|x xs IH]; simpl; [apply preserves_ret|].
  apply preserves_bind; [apply Hb | intros _; exact IH].
Qed.

Lemma preserves_traverse (I : S -> Prop)
    (visit : list Ast.Kind -> Ast.Kind -> Js.M S unit) :
  (forall ancestors k, preserves I (visit ancestors k)) ->
  forall ast ancestors, preserves I (Ast.traverse visit ancestors ast).
Proof.
  intros Hv. fix IH 1. intros [k children] ancestors. cbn [Ast.traverse].
  apply preserves_bind; [apply Hv|]. intros _.
  induction children as [|c cs IHcs]; [apply preserves_ret|].
  apply preserves_bind; [apply IH | intros _; exact IHcs].
Qed.

(** A relation between the state before and the state after is an
    invariant in the state after, for each state before. *)
Lemma advances_preserves (R : S -> S -> Prop) {A} (m : Js.M S A) :
  (forall s, R s s) -> (forall s0, preserves (R s0) m) -> advances R m.
Proof. intros Hrefl Hm s. apply Hm, Hrefl. Qed.

(** A loop whose body never throws and only adds establishes, for every
    element, what one round establishes for it. *)
Lemma for_of_establishes {A} (R : S -> S -> Prop) (P : S -> Prop) (Q : A -> S -> Prop)
    (body : A -> Js.M S unit) :
  (forall s, R s s) ->
  (forall s1 s2 s3, R s1 s2 -> R s2 s3 -> R s1 s3) ->
  (forall s s', R s s' -> P s -> P s') ->
  (forall x s s', R s s' -> Q x s -> Q x s') ->
  (forall x, returns (body x)) ->
  (forall x, advances R (body x)) ->
  (forall x s, P s -> Q x (snd (body x s))) ->
  forall xs s, P s ->
    Forall (fun x => Q x (snd (Js.for_of xs body s))) xs
    /\ R s (snd (Js.for_of xs body s)).
Proof.
  intros Hrefl Htrans HP HQ Hret Hadv Hest.
  induction xs as [|x xs IH]; intros s Hs; simpl; [split; [constructor | apply Hrefl]|].
  rewrite (bind_unit (body x) _ s (Hret x)).
  destruct (IH (snd (body x s))) as [Hall Hrel]; [eapply HP; [apply Hadv | exact Hs]|].
  split.
  - constructor; [|exact Hall]. eapply HQ; [exact Hrel|]. now apply Hest.
  - eapply Htrans; [apply Hadv | exact Hrel].
Qed.

End EffectFacts.

(** ** The graph that [buildDependencyGraph] returns *)

Section BuiltGraph.

Import DependencyAnalyzer GraphCalls Effects Built.

Lemma extends_refl (s : t) : extends s s.
Proof. repeat split; auto. Qed.

Lemma extends_trans (s1 s2 s3 : t) : extends s1 s2 -> extends s2 s3 -> extends s1 s3.
Proof.
  intros (Hc & Hn & He) (Hc' & Hn' & He'). repeat split; [congruence | auto | auto].
Qed.

Lemma extends_invariant {A} (m : Js.M t A) (s0 : t) :
  advances extends m -> preserves (extends s0) m.
Proof. intros Hm s Hs. eapply extends_trans; [exact Hs | apply Hm]. Qed.

Lemma on_graph_returns (f : Graph -> Graph) : returns (on_graph f).
Proof. apply returns_modify. Qed.

Lemma set_node_extends nodeId n : advances extends (set_node nodeId n).
Proof.
  intros s. repeat split; simpl; auto. intros id. unfold has_node. simpl.
  destruct (decide (nodeId = id)) as [->|Hne].
  - rewrite lookup_insert_eq. eauto.
  - now rewrite lookup_insert_ne.
Qed.

Lemma addEdge_graph_keeps_edges s t ty md g source target type :
  has_edge source target type g -> has_edge source target type (addEdge_graph s t ty md g).
Proof.
  unfold has_edge, addEdge_graph.
  destruct (JsObject.get (nodes g) s); [|auto].
  destruct (JsObject.get (nodes g) t); [|auto].
  destruct (find _ _); simpl.
  - now rewrite assign_metadata_keys.
  - rewrite map_app, in_app_iff. auto.
Qed.

Lemma addEdge_extends s t ty md : advances extends (addEdge s t ty md).
Proof.
  intros self. repeat split; simpl; auto.
  - intros id. unfold has_node. now rewrite addEdge_graph_nodes.
  - intros. now apply addEdge_graph_keeps_edges.
Qed.

Lemma addEdge_graph_has_edge s t ty md g :
  has_node s g -> has_node t g -> has_edge s t ty (addEdge_graph s t ty md g).
Proof.
  intros [ns Hs] [nt Ht].
  destruct (addEdge_graph_found s t ty md g) as [e He];
    [rewrite (get_own _ _ _ Hs); eauto | rewrite (get_own _ _ _ Ht); eauto|].
  apply find_some in He as [Hin Hsame]. apply same_edge_key in Hsame.
  unfold has_edge. rewrite <- Hsame. now apply in_map.
Qed.

Lemma prefix_append (s p : string) : String.prefix s (s ++ p) = true.
Proof.
  induction s as [|c s IH]; simpl; [now destruct p|].
  destruct (ascii_dec c c); [exact IH | contradiction].
Qed.

Lemma set_node_keyed nodeId n :
  node_id n = nodeId -> String.prefix (node_type n ++ ":") nodeId = true ->
  preserves (fun s => keyed (dependencyGraph s)) (set_node nodeId n).
Proof.
  intros Hid Hty s Hk. unfold keyed in *. simpl. now apply map_Forall_insert_2.
Qed.

Lemma addEdge_keyed s t ty md :
  preserves (fun self => keyed (dependencyGraph self)) (addEdge s t ty md).
Proof. intros self Hk. unfold keyed in *. simpl. now rewrite addEdge_graph_nodes. Qed.

(** Each phase is a sequence of [set_node] and [addEdge] calls, so it keeps
    whatever those two keep. *)
Lemma starts_with (type rest : string) : starts type (type ++ ":" ++ rest).
Proof.
  unfold starts. induction type as [|c type IH].
  - apply (prefix_append ":" rest).
  - simpl. destruct (ascii_dec c c); [exact IH | contradiction].
Qed.

Lemma populate_preserves (I : t -> Prop) (codeIndex : CodebaseIndexer.CodeIndex) :
  (forall nodeId n,
     node_id n = nodeId -> String.prefix (node_type n ++ ":") nodeId = true ->
     preserves I (set_node nodeId n)) ->
  (forall s t ty md, linked s t ty -> preserves I (addEdge s t ty md)) ->
  preserves I (populate codeIndex).
Proof.
  intros Hset Hadd. unfold populate.
  apply preserves_bind.
  { apply preserves_for_of. intros file. apply Hset; [reflexivity | apply prefix_append]. }
  intros _. apply preserves_bind.
  { apply preserves_for_of. intros func.
    apply preserves_bind; [apply Hset; [reflexivity | apply prefix_append]|].
    intros _. apply Hadd. left. split; [reflexivity|].
    split; [left; apply (starts_with "function") | apply (starts_with "file")]. }
  intros _. apply preserves_for_of. intros cls.
  apply preserves_bind; [apply Hset; [reflexivity | apply prefix_append]|]. intros _.
  apply preserves_bind.
  { apply Hadd. left. split; [reflexivity|].
    split; [right; apply (starts_with "class") | apply (starts_with "file")]. }
  intros _. apply preserves_for_of. intros method.
  apply preserves_bind; [apply Hset; [reflexivity | apply prefix_append]|].
  intros _. apply Hadd. right. left. split; [reflexivity|].
  split; [apply (starts_with "method") | apply (starts_with "class")].
Qed.

Lemma read_and_traverse_preserves (I : t -> Prop) host filePath visit :
  (forall ancestors k, preserves I (visit ancestors k)) ->
  preserves I (read_and_traverse host filePath visit).
Proof.
  intros Hv. apply preserves_try_catch; [|intros; apply preserves_ret].
  apply preserves_bind; [apply preserves_of_option|]. intros content.
  apply preserves_bind; [apply preserves_of_option|]. intros ast.
  now apply preserves_traverse.
Qed.

Lemma build_functionMap_values (fns : list CodebaseIndexer.IndexedFunction) :
  map_Forall (fun _ id => starts "function" id) (build_functionMap fns).
Proof.
  unfold build_functionMap.
  generalize (map_Forall_empty (M := gmap string)
                (fun (_ : string) (id : string) => starts "function" id)).
  generalize (∅ : gmap string string).
  induction fns as [|func fns IH]; intros m Hm; simpl; [exact Hm|].
  apply IH. unfold JsObject.set_primitive.
  destruct (String.eqb _ "__proto__"); [exact Hm|].
  apply map_Forall_insert_2; [apply (starts_with "function") | exact Hm].
Qed.

Lemma prefix_split (p s : string) :
  String.prefix p s = true -> exists rest, s = p ++ rest.
Proof.
  revert s. induction p as [|c p IH]; intros s; simpl; [intros _; now exists s|].
  destruct s as [|c' s]; simpl; [discriminate|].
  destruct (ascii_dec c c') as [->|]; [|discriminate].
  intros H. destruct (IH s H) as [rest ->]. now exists rest.
Qed.

Lemma linked_plain (s t ty : string) :
  linked s t ty -> JsObject.inherited s = false /\ JsObject.inherited t = false.
Proof.
  unfold linked, starts.
  intros [(_ & [Hs|Hs] & Ht) | [(_ & Hs & Ht) | [(_ & Hs & Ht) | (_ & Hs & Ht)]]];
    apply prefix_split in Hs as [? ->]; apply prefix_split in Ht as [? ->];
    split; reflexivity.
Qed.

(** No node of a graph whose identifiers start with the type of the node
    is stored under the text of a member of [Object.prototype], so
    [addEdge] towards such a text does nothing. *)
Lemma keyed_member_text (g : Graph) (name : string) :
  keyed g -> JsObject.inherited name = true ->
  JsObject.get (nodes g) (JsObject.member_text name) = None.
Proof.
  intros Hk Hi. apply get_None. split; [|now apply member_text_plain].
  destruct (nodes g !! JsObject.member_text name) as [n|] eqn:Hn; [|reflexivity].
  destruct (Hk _ _ Hn) as [_ Hpre]. exfalso.
  apply existsb_exists in Hi as (m & Hin & Heq).
  apply String.eqb_eq in Heq. subst m. simpl in Hin.
  repeat (destruct Hin as [<-|Hin]; [destruct n; discriminate|]). contradiction.
Qed.

Lemma addEdge_member_text (I : t -> Prop) (s name ty : string) (md : gmap string R) :
  (forall self, I self -> keyed (dependencyGraph self)) ->
  JsObject.inherited name = true ->
  preserves I (addEdge s (JsObject.member_text name) ty md).
Proof.
  intros Hk Hi self Hself. simpl.
  rewrite addEdge_graph_dangling by (right; apply keyed_member_text; auto).
  now destruct self.
Qed.

Lemma analyze_preserves (I : t -> Prop) fsobj host codeIndex :
  (forall s t ty md, linked s t ty -> preserves I (addEdge s t ty md)) ->
  (forall s name md,
     starts "function" s -> JsObject.inherited name = true ->
     preserves I (addEdge s (JsObject.member_text name) "calls" md)) ->
  preserves I (analyze fsobj host codeIndex).
Proof.
  intros Hadd Hmember.
  unfold analyze, analyzeFileDependencies_with, analyzeFunctionCalls.
  apply preserves_bind.
  - apply preserves_for_of. intros file. apply preserves_bind; [apply preserves_get|].
    intros self0. apply read_and_traverse_preserves. intros ancestors k.
    assert (Hlink : forall importPath type,
              type = "imports" \/ type = "requires" ->
              preserves I (link_files (resolveImportPath_with fsobj (config self0) host)
                             (CodebaseIndexer.f_path file) importPath type)).
    { intros importPath type Hty. unfold link_files.
      destruct (resolveImportPath_with _ _ _ _ _) as [resolvedPath|];
        [|apply preserves_ret].
      destruct (String.eqb resolvedPath ""); [apply preserves_ret|].
      apply Hadd. right. right. left. split; [exact Hty|].
      split; apply (starts_with "file"). }
    destruct k as [importPath|callee args| | | | | |]; simpl; try apply preserves_ret.
    + apply Hlink. now left.
    + destruct callee as [name|]; [|apply preserves_ret].
      destruct args as [|[importPath|] args]; try apply preserves_ret.
      destruct (String.eqb name "require"); [apply Hlink; now right | apply preserves_ret].
  - intros _. apply preserves_for_of. intros file.
    apply read_and_traverse_preserves. intros ancestors k.
    destruct k as [|callee args| | | | | |]; simpl; try apply preserves_ret.
    destruct callee as [calleeName|]; [|apply preserves_ret].
    destruct (JsObject.get (build_functionMap _) calleeName) as [found|] eqn:Hmap;
      [|apply preserves_ret].
    destruct (enclosing_function ancestors) as [[name|]|e];
      [|apply preserves_ret | apply preserves_throw].
    destruct (String.eqb name "" || String.eqb name "anonymous");
      [apply preserves_ret|].
    destruct found as [calleeId|member]; simpl.
    + apply Hadd. right. right. right. split; [reflexivity|].
      split; [apply (starts_with "function")|].
      exact (build_functionMap_values _ _ _ (get_Own_inv _ _ _ Hmap)).
    + apply get_Member_inv in Hmap as (-> & _ & Hi).
      apply Hmember; [apply (starts_with "function") | exact Hi].
Qed.

Lemma populate_returns codeIndex : returns (populate codeIndex).
Proof.
  unfold populate, addFilesToGraph, addFunctionsToGraph, addClassesToGraph.
  repeat first
    [ apply on_graph_returns
    | apply returns_bind; [|intros _]
    | apply returns_for_of; intros ? ].
Qed.

Lemma read_and_traverse_returns host filePath visit :
  returns (read_and_traverse host filePath visit).
Proof. apply returns_try_catch. intros _. apply returns_ret. Qed.

Lemma analyze_returns fsobj host codeIndex : returns (analyze fsobj host codeIndex).
Proof.
  unfold analyze, analyzeFileDependencies_with, analyzeFunctionCalls.
  apply returns_bind; [|intros _]; apply returns_for_of; intros file.
  - apply returns_bind; [apply returns_get | intros ?; apply read_and_traverse_returns].
  - apply read_and_traverse_returns.
Qed.

(** [buildDependencyGraph] never throws: it returns the graph it leaves in
    the analyzer, which is the empty graph taken through the three
    phases. *)
Lemma buildDependencyGraph_built fsobj host codeIndex self :
  buildDependencyGraph_with fsobj host codeIndex self
  = (Js.Return (dependencyGraph (built fsobj host codeIndex self)),
     built fsobj host codeIndex self).
Proof.
  pose proof (populate_returns codeIndex) as Hp.
  pose proof (analyze_returns fsobj host codeIndex) as Ha.
  unfold buildDependencyGraph_with, built.
  rewrite (bind_unit resetDependencyGraph _ self (on_graph_returns _)).
  set (s0 := snd (resetDependencyGraph self)).
  change {| config := config self; dependencyGraph := empty_graph |} with s0.
  set (s1 := snd (populate codeIndex s0)).
  set (s2 := snd (analyze fsobj host codeIndex s1)).
  assert (H1 : forall B (k : Js.M t B),
            (let* _ := addFilesToGraph (CodebaseIndexer.files codeIndex) in
             let* _ := addFunctionsToGraph (CodebaseIndexer.functions codeIndex) in
             let* _ := addClassesToGraph (CodebaseIndexer.classes codeIndex) in k) s0
            = k s1).
  { intros B k. unfold s1. specialize (Hp s0). unfold populate, Js.bind in *.
    destruct (addFilesToGraph _ s0) as [[[]|e] sa]; [|destruct Hp; discriminate].
    destruct (addFunctionsToGraph _ sa) as [[[]|e] sb]; [|destruct Hp; discriminate].
    destruct (addClassesToGraph _ sb) as [[[]|e] sc]; [|destruct Hp; discriminate].
    reflexivity. }
  assert (H2 : forall B (k : Js.M t B),
            (let* _ := analyzeFileDependencies_with fsobj host
                         (CodebaseIndexer.files codeIndex) in
             let* _ := analyzeFunctionCalls host (CodebaseIndexer.functions codeIndex)
                         (CodebaseIndexer.files codeIndex) in k) s1
            = k s2).
  { intros B k. unfold s2. specialize (Ha s1). unfold analyze, Js.bind in *.
    destruct (analyzeFileDependencies_with _ _ _ s1) as [[[]|e] sa];
      [|destruct Ha; discriminate].
    destruct (analyzeFunctionCalls _ _ _ sa) as [[[]|e] sb];
      [|destruct Ha; discriminate].
    reflexivity. }
  rewrite H1, H2. reflexivity.
Qed.

Lemma built_well_formed fsobj host codeIndex self :
  well_formed (built fsobj host codeIndex self).
Proof.
  unfold built.
  apply (keeps_on_graph _ (fun g => conj eq_refl eq_refl)).
  assert (Hadd : forall s t ty md, linked s t ty -> keeps (addEdge s t ty md)).
  { intros s t ty md Hl. destruct (linked_plain _ _ _ Hl). now apply keeps_addEdge. }
  apply (analyze_preserves well_formed); [exact Hadd | |].
  { intros s name md Hs Hi. apply prefix_split in Hs as [rest ->].
    apply keeps_addEdge; [reflexivity | now apply member_text_plain]. }
  apply (populate_preserves well_formed);
    [intros; apply keeps_set_node | exact Hadd |].
  split; [constructor | apply NoDup_nil; reflexivity].
Qed.

Lemma built_keyed fsobj host codeIndex self :
  keyed (dependencyGraph (built fsobj host codeIndex self)).
Proof.
  unfold built.
  match goal with |- keyed (dependencyGraph (snd (updateGraphMetadata _ ?s))) =>
    cut (keyed (dependencyGraph s)); [intros H; exact H|]
  end.
  apply (analyze_preserves (fun s => keyed (dependencyGraph s)));
    [intros; apply addEdge_keyed | intros; apply addEdge_keyed |].
  apply (populate_preserves (fun s => keyed (dependencyGraph s)));
    [apply set_node_keyed | intros; apply addEdge_keyed |].
  apply map_Forall_empty.
Qed.

(** Whatever the index, the disk, the object bound to [fs] and the state
    of the analyzer, [buildDependencyGraph] returns (it never throws) the
    graph that it leaves in the analyzer; the configuration is untouched;
    every edge of the graph joins two of its nodes, no two edges share
    source, target and type; every node is stored under its own
    identifier, which starts with the type of the node; and the metadata
    holds the number of nodes and of edges. *)
Theorem buildDependencyGraph_returns_consistent_graph (fsobj : FsObject) (host : Host.t)
    (codeIndex : CodebaseIndexer.CodeIndex) (self : t) :
  let out := buildDependencyGraph_with fsobj host codeIndex self in
  let g := dependencyGraph (snd out) in
  fst out = Js.Return g
  /\ config (snd out) = config self
  /\ endpoints_exist g
  /\ no_duplicate_edges g
  /\ keyed g
  /\ counted g.
Proof.
  cbv zeta. rewrite buildDependencyGraph_built. cbn [fst snd].
  destruct (built_well_formed fsobj host codeIndex self) as [He Hd].
  pose proof (built_keyed fsobj host codeIndex self) as Hk.
  split; [reflexivity|]. split.
  { unfold built. cbn [updateGraphMetadata on_graph Js.modify snd config].
    pose proof (analyze_preserves (fun s => config s = config self) fsobj host codeIndex)
      as Ha.
    apply Ha; [intros ? ? ? ? ? s0 Hs; exact Hs | intros ? ? ? ? ? s0 Hs; exact Hs |].
    apply (populate_preserves (fun s => config s = config self));
      [intros ? ? ? ? s0 Hs; exact Hs | intros ? ? ? ? ? s0 Hs; exact Hs | reflexivity]. }
  split; [exact He|]. split; [exact Hd|]. split; [exact Hk|]. split; reflexivity.
Qed.

Lemma covers_with_mono (node node' : string -> string -> Graph -> Prop)
    (codeIndex : CodebaseIndexer.CodeIndex) (g g' : Graph) :
  (forall ty id, node ty id g -> node' ty id g') ->
  (forall s t ty, has_edge s t ty g -> has_edge s t ty g') ->
  covers_with node codeIndex g -> covers_with node' codeIndex g'.
Proof.
  intros Hn He (Hf & Hfn & Hc). unfold covers_with. split; [|split].
  - eapply Forall_impl; [exact Hf|]. intros file. apply Hn.
  - eapply Forall_impl; [exact Hfn|]. intros func [H1 H2]. split; auto.
  - eapply Forall_impl; [exact Hc|]. intros cls (H1 & H2 & H3).
    split; [auto|]. split; [auto|].
    eapply Forall_impl; [exact H3|]. intros method [H4 H5]. split; auto.
Qed.

Lemma set_node_has_node nodeId n (s : t) :
  has_node nodeId (dependencyGraph (snd (set_node nodeId n s))).
Proof. unfold has_node. simpl. rewrite lookup_insert_eq. eauto. Qed.

(** One round of the loops over functions, classes and methods: the node
    is set, and the edge to the owner is added if the owner has a node. *)
Lemma set_node_then_addEdge nodeId n owner type (s : t) :
  let s' := snd ((let* _ := set_node nodeId n in addEdge nodeId owner type ∅) s) in
  extends s s'
  /\ has_node nodeId (dependencyGraph s')
  /\ (has_node owner (dependencyGraph s) -> has_edge nodeId owner type (dependencyGraph s')).
Proof.
  cbv zeta. rewrite (bind_unit (set_node nodeId n) _ s (on_graph_returns _)).
  pose proof (set_node_extends nodeId n s) as H1.
  pose proof (addEdge_extends nodeId owner type ∅ (snd (set_node nodeId n s))) as H2.
  pose proof (set_node_has_node nodeId n s) as H3.
  split; [eapply extends_trans; eassumption|]. split.
  - destruct H2 as (_ & Hn & _). now apply Hn.
  - intros Ho. apply addEdge_graph_has_edge; [exact H3|].
    destruct H1 as (_ & Hn & _). now apply Hn.
Qed.

Lemma populate_covers (codeIndex : CodebaseIndexer.CodeIndex) (s0 : t) :
  covers_with (fun _ => has_node) codeIndex
    (dependencyGraph (snd (populate codeIndex s0)))
  /\ extends s0 (snd (populate codeIndex s0)).
Proof.
  set (filesP := fun s : t =>
         Forall (fun file =>
                   has_node (file_id (CodebaseIndexer.f_path file)) (dependencyGraph s))
           (CodebaseIndexer.files codeIndex)).
  assert (HfilesP : forall s s', extends s s' -> filesP s -> filesP s').
  { intros s s' (_ & Hn & _) H. eapply Forall_impl; [exact H|]. intros f. apply Hn. }
  assert (Hindexed : forall s p, filesP s -> indexed codeIndex p ->
                                 has_node (file_id p) (dependencyGraph s)).
  { intros s p H Hin. apply in_map_iff in Hin as (file & <- & Hin).
    exact (proj1 (List.Forall_forall _ _) H file Hin). }
  assert (Hfiles : filesP (snd (addFilesToGraph (CodebaseIndexer.files codeIndex) s0))
                   /\ extends s0
                        (snd (addFilesToGraph (CodebaseIndexer.files codeIndex) s0))).
  { unfold filesP, addFilesToGraph.
    apply (for_of_establishes extends (fun _ => True)
             (fun file s =>
                has_node (file_id (CodebaseIndexer.f_path file)) (dependencyGraph s)));
      try exact I; auto using extends_refl.
    - apply extends_trans.
    - intros file s s' (_ & Hn & _). apply Hn.
    - intros file. apply on_graph_returns.
    - intros file. apply set_node_extends.
    - intros file s _. apply set_node_has_node. }
  set (sa := snd (addFilesToGraph (CodebaseIndexer.files codeIndex) s0)) in *.
  destruct Hfiles as [Hfa Hea].
  set (functionQ := fun func (s : t) =>
         has_node (function_id func) (dependencyGraph s)
         /\ (indexed codeIndex (CodebaseIndexer.if_filePath func) ->
             has_edge (function_id func) (file_id (CodebaseIndexer.if_filePath func))
               "contains" (dependencyGraph s))).
  assert (Hfunctions :
            Forall (fun func =>
                      functionQ func
                        (snd (addFunctionsToGraph (CodebaseIndexer.functions codeIndex) sa)))
              (CodebaseIndexer.functions codeIndex)
            /\ extends sa (snd (addFunctionsToGraph
                                  (CodebaseIndexer.functions codeIndex) sa))).
  { unfold addFunctionsToGraph.
    apply (for_of_establishes extends filesP functionQ);
      auto using extends_refl.
    - apply extends_trans.
    - intros func s s' (_ & Hn & He) [H1 H2]. split; [now apply Hn|].
      intros Hin. now apply He, H2.
    - intros func. apply returns_bind; [|intros _]; apply on_graph_returns.
    - intros func s. apply set_node_then_addEdge.
    - intros func s Hs.
      destruct (set_node_then_addEdge (function_id func)
                  (FunctionNode (function_id func)
                     (CodebaseIndexer.fn_name (CodebaseIndexer.if_func func))
                     (CodebaseIndexer.if_filePath func)
                     (CodebaseIndexer.fn_params (CodebaseIndexer.if_func func))
                     (CodebaseIndexer.fn_loc (CodebaseIndexer.if_func func)))
                  (file_id (CodebaseIndexer.if_filePath func)) "contains" s)
        as (_ & H1 & H2).
      split; [exact H1|]. intros Hin. apply H2. now apply Hindexed. }
  set (sb := snd (addFunctionsToGraph (CodebaseIndexer.functions codeIndex) sa)) in *.
  destruct Hfunctions as [Hfb Heb].
  set (methodQ := fun cls method (s : t) =>
         has_node (method_id cls method) (dependencyGraph s)
         /\ has_edge (method_id cls method) (class_id cls) "memberOf" (dependencyGraph s)).
  set (classQ := fun cls (s : t) =>
         has_node (class_id cls) (dependencyGraph s)
         /\ (indexed codeIndex (CodebaseIndexer.ic_filePath cls) ->
             has_edge (class_id cls) (file_id (CodebaseIndexer.ic_filePath cls))
               "contains" (dependencyGraph s))
         /\ Forall (fun method => methodQ cls method s)
              (CodebaseIndexer.cls_methods (CodebaseIndexer.ic_cls cls))).
  assert (Hmethods : forall cls s,
            has_node (class_id cls) (dependencyGraph s) ->
            let body := fun method =>
              let* _ := set_node (method_id cls method)
                (MethodNode (method_id cls method) (CodebaseIndexer.m_name method)
                   (CodebaseIndexer.cls_name (CodebaseIndexer.ic_cls cls))
                   (CodebaseIndexer.ic_filePath cls)
                   (CodebaseIndexer.m_params method) (CodebaseIndexer.m_loc method)) in
              addEdge (method_id cls method) (class_id cls) "memberOf" ∅ in
            let s' := snd (Js.for_of (CodebaseIndexer.cls_methods (CodebaseIndexer.ic_cls cls))
                             body s) in
            Forall (fun method => methodQ cls method s')
              (CodebaseIndexer.cls_methods (CodebaseIndexer.ic_cls cls))
            /\ extends s s').
  { intros cls s Hs. cbv zeta.
    apply (for_of_establishes extends
             (fun s => has_node (class_id cls) (dependencyGraph s)) (methodQ cls));
      auto using extends_refl.
    - apply extends_trans.
    - intros s1 s2 (_ & Hn & _). apply Hn.
    - intros method s1 s2 (_ & Hn & He) [H1 H2]. split; [now apply Hn | now apply He].
    - intros method. apply returns_bind; [|intros _]; apply on_graph_returns.
    - intros method s1. apply set_node_then_addEdge.
    - intros method s1 Hs1.
      destruct (set_node_then_addEdge (method_id cls method)
                  (MethodNode (method_id cls method) (CodebaseIndexer.m_name method)
                     (CodebaseIndexer.cls_name (CodebaseIndexer.ic_cls cls))
                     (CodebaseIndexer.ic_filePath cls)
                     (CodebaseIndexer.m_params method) (CodebaseIndexer.m_loc method))
                  (class_id cls) "memberOf" s1)
        as (_ & H1 & H2).
      split; [exact H1 | now apply H2]. }
  assert (Hclass : forall cls s,
            let body :=
              let* _ := set_node (class_id cls)
                (ClassNode (class_id cls)
                   (CodebaseIndexer.cls_name (CodebaseIndexer.ic_cls cls))
                   (CodebaseIndexer.ic_filePath cls)
                   (CodebaseIndexer.cls_methods (CodebaseIndexer.ic_cls cls))
                   (CodebaseIndexer.cls_loc (CodebaseIndexer.ic_cls cls))) in
              let* _ := addEdge (class_id cls)
                          (file_id (CodebaseIndexer.ic_filePath cls)) "contains" ∅ in
              Js.for_of (CodebaseIndexer.cls_methods (CodebaseIndexer.ic_cls cls))
                (fun method =>
                   let* _ := set_node (method_id cls method)
                     (MethodNode (method_id cls method) (CodebaseIndexer.m_name method)
                        (CodebaseIndexer.cls_name (CodebaseIndexer.ic_cls cls))
                        (CodebaseIndexer.ic_filePath cls)
                        (CodebaseIndexer.m_params method) (CodebaseIndexer.m_loc method)) in
                   addEdge (method_id cls method) (class_id cls) "memberOf" ∅) in
            extends s (snd (body s))
            /\ (filesP s -> classQ cls (snd (body s)))).
  { intros cls s. cbv zeta.
    rewrite (bind_unit (set_node _ _) _ s (on_graph_returns _)).
    rewrite (bind_unit (addEdge _ _ _ _) _ _ (on_graph_returns _)).
    pose proof (set_node_then_addEdge (class_id cls)
                  (ClassNode (class_id cls)
                     (CodebaseIndexer.cls_name (CodebaseIndexer.ic_cls cls))
                     (CodebaseIndexer.ic_filePath cls)
                     (CodebaseIndexer.cls_methods (CodebaseIndexer.ic_cls cls))
                     (CodebaseIndexer.cls_loc (CodebaseIndexer.ic_cls cls)))
                  (file_id (CodebaseIndexer.ic_filePath cls)) "contains" s) as H.
    cbv zeta in H.
    rewrite (bind_unit (set_node _ _) _ s (on_graph_returns _)) in H.
    destruct H as (He & Hn & Hedge).
    destruct (Hmethods cls _ Hn) as [Hm Hem]. cbv zeta in Hm, Hem.
    split; [eapply extends_trans; eassumption|].
    intros Hs. destruct Hem as (_ & Hn' & He'). split; [now apply Hn'|].
    split; [|exact Hm]. intros Hin. apply He', Hedge. now apply Hindexed. }
  assert (Hclasses :
            Forall (fun cls =>
                      classQ cls
                        (snd (addClassesToGraph (CodebaseIndexer.classes codeIndex) sb)))
              (CodebaseIndexer.classes codeIndex)
            /\ extends sb (snd (addClassesToGraph
                                  (CodebaseIndexer.classes codeIndex) sb))).
  { unfold addClassesToGraph.
    apply (for_of_establishes extends filesP classQ);
      auto using extends_refl.
    - apply extends_trans.
    - intros cls s s' (_ & Hn & He) (H1 & H2 & H3). split; [now apply Hn|].
      split; [intros Hin; now apply He, H2|].
      eapply Forall_impl; [exact H3|]. intros method [H4 H5].
      split; [now apply Hn | now apply He].
    - intros cls. apply returns_bind; [apply on_graph_returns|]. intros _.
      apply returns_bind; [apply on_graph_returns|]. intros _.
      apply returns_for_of. intros method.
      apply returns_bind; [|intros _]; apply on_graph_returns.
    - intros cls s. apply (Hclass cls s).
    - intros cls s Hs. now apply (Hclass cls s).
    - now apply (HfilesP sa). }
  set (sc := snd (addClassesToGraph (CodebaseIndexer.classes codeIndex) sb)) in *.
  destruct Hclasses as [Hfc Hec].
  assert (Hfinal : snd (populate codeIndex s0) = sc).
  { unfold populate.
    rewrite (bind_unit (addFilesToGraph _) _ s0).
    2:{ apply returns_for_of. intros file. apply on_graph_returns. }
    rewrite (bind_unit (addFunctionsToGraph _) _ _).
    2:{ apply returns_for_of. intros func.
        apply returns_bind; [|intros _]; apply on_graph_returns. }
    reflexivity. }
  rewrite Hfinal. split.
  - split; [|split].
    + apply (HfilesP sa); [eapply extends_trans; eassumption | exact Hfa].
    + eapply Forall_impl; [exact Hfb|]. intros func [H1 H2].
      destruct Hec as (_ & Hn & He). split; [now apply Hn|].
      intros Hin. now apply He, H2.
    + exact Hfc.
  - eapply extends_trans; [exact Hea|]. eapply extends_trans; eassumption.
Qed.

Lemma keyed_node_type (g : Graph) (type id : string) (p : string) :
  keyed g -> In type ["file"; "function"; "class"; "method"] ->
  id = type ++ ":" ++ p ->
  has_node id g -> has_node_of type id g.
Proof.
  intros Hk Hty -> [n Hn]. exists n. split; [exact Hn|].
  destruct (Hk _ _ Hn) as [Hid Hpre]. split; [exact Hid|].
  simpl in Hty.
  destruct Hty as [<-|[<-|[<-|[<-|[]]]]]; destruct n; simpl in *;
    try reflexivity; vm_compute in Hpre; discriminate.
Qed.

Lemma covers_typed (codeIndex : CodebaseIndexer.CodeIndex) (g : Graph) :
  keyed g -> covers_with (fun _ => has_node) codeIndex g -> covers codeIndex g.
Proof.
  intros Hk (Hf & Hfn & Hc). unfold covers, covers_with. split; [|split].
  - eapply Forall_impl; [exact Hf|]. intros file.
    apply (keyed_node_type g "file" _ (CodebaseIndexer.f_path file) Hk);
      [simpl; auto | reflexivity].
  - eapply Forall_impl; [exact Hfn|]. intros func [H1 H2]. split; [|exact H2].
    revert H1. eapply (keyed_node_type g "function" _ _ Hk); [simpl; auto | reflexivity].
  - eapply Forall_impl; [exact Hc|]. intros cls (H1 & H2 & H3).
    split; [|split; [exact H2|]].
    + revert H1. eapply (keyed_node_type g "class" _ _ Hk); [simpl; auto | reflexivity].
    + eapply Forall_impl; [exact H3|]. intros method [H4 H5]. split; [|exact H5].
      revert H4. eapply (keyed_node_type g "method" _ _ Hk); [simpl; auto | reflexivity].
Qed.

Lemma buildDependencyGraph_covers (fsobj : FsObject) (host : Host.t)
    (codeIndex : CodebaseIndexer.CodeIndex) (self : t) :
  covers codeIndex
    (dependencyGraph (snd (buildDependencyGraph_with fsobj host codeIndex self))).
Proof.
  rewrite buildDependencyGraph_built. cbn [fst snd].
  pose proof (built_keyed fsobj host codeIndex self) as Hk.
  unfold built in *.
  set (s0 := {| config := config self; dependencyGraph := empty_graph |}) in *.
  destruct (populate_covers codeIndex s0) as [Hcov _].
  set (s1 := snd (populate codeIndex s0)) in *.
  assert (Hext : extends s1 (snd (updateGraphMetadata (Host.now host)
                                    (snd (analyze fsobj host codeIndex s1))))).
  { eapply extends_trans with (s2 := snd (analyze fsobj host codeIndex s1)).
    - apply (analyze_preserves (extends s1));
        [intros; apply extends_invariant, addEdge_extends
        |intros; apply extends_invariant, addEdge_extends
        |apply extends_refl].
    - repeat split; auto. }
  destruct Hext as (_ & Hn & He).
  apply covers_typed; [exact Hk|].
  eapply covers_with_mono; [| exact He | exact Hcov]. intros ty id. apply Hn.
Qed.

(** The graph that [buildDependencyGraph] returns has a node of the right
    type for every file, function, class and method of the index, a
    [memberOf] edge from every method to its class, and a [contains] edge
    from every function and class to its file when that file is one of
    the files of the index. *)
Theorem buildDependencyGraph_covers_index (fsobj : FsObject) (host : Host.t)
    (codeIndex : CodebaseIndexer.CodeIndex) (self : t) :
  fst (buildDependencyGraph_with fsobj host codeIndex self)
  = Js.Return (dependencyGraph (snd (buildDependencyGraph_with fsobj host codeIndex self)))
  /\ covers codeIndex
       (dependencyGraph (snd (buildDependencyGraph_with fsobj host codeIndex self))).
Proof.
  split; [|apply buildDependencyGraph_covers].
  now rewrite buildDependencyGraph_built.
Qed.

End BuiltGraph.

(** ** The index that [indexCodebase] returns *)

Section IndexContents.

Import CodebaseIndexer Indexed Effects.

Lemma collect_nil (fi : FileEntry) : collect [] fi = fi.
Proof. destruct fi. unfold collect. simpl. now rewrite !app_nil_r. Qed.

Lemma collect_app (ks1 ks2 : list Ast.Kind) (fi : FileEntry) :
  collect (ks1 ++ ks2) fi = collect ks2 (collect ks1 fi).
Proof.
  unfold collect, function_entries, class_entries. simpl.
  now rewrite !flat_map_app, !app_assoc.
Qed.

Lemma index_visitor_collects (ancestors : list Ast.Kind) (k : Ast.Kind) (fi : FileEntry) :
  index_visitor ancestors k fi = (Js.Return tt, collect [k] fi).
Proof.
  destruct k; simpl; unfold Js.ret, Js.modify, collect; simpl;
    rewrite ?app_nil_r; destruct fi; reflexivity.
Qed.

(** The traversal with the visitor of [parseCode] never throws and adds the
    declarations of the tree in the order of the traversal. *)
Lemma traverse_collects :
  forall (ast : Ast.t) (ancestors : list Ast.Kind) (fi : FileEntry),
    Ast.traverse index_visitor ancestors ast fi
    = (Js.Return tt, collect (preorder ast) fi).
Proof.
  fix IH 1. intros [k children] ancestors fi. cbn [Ast.traverse preorder].
  unfold Js.bind at 1. rewrite index_visitor_collects.
  change (k :: flat_map preorder children) with ([k] ++ flat_map preorder children)%list.
  rewrite collect_app. generalize (collect [k] fi) as fi0.
  induction children as [|c cs IHcs]; intros fi0.
  - simpl. now rewrite collect_nil.
  - cbn [flat_map]. unfold Js.bind at 1. rewrite IH, collect_app. apply IHcs.
Qed.

Lemma parseCode_collects (content : Host.Source) (fi : FileEntry) :
  parseCode content fi = (Js.Return tt, collect (declared content) fi).
Proof.
  unfold parseCode, Js.try_catch, Js.bind, declared.
  destruct (Host.parsed content) as [ast|]; simpl.
  - now rewrite traverse_collects.
  - unfold Js.ret. now rewrite collect_nil.
Qed.

Lemma push_file_consistent (fs : Host.FileSystem) (fi : FileEntry) (idx : CodeIndex) :
  described fs fi -> consistent fs idx -> consistent fs (push_file (f_path fi) fi idx).
Proof.
  intros Hfi (Hf & Hc & Hd). unfold consistent, push_file. simpl.
  rewrite !flat_map_app, Hf, Hc. simpl. rewrite !app_nil_r.
  repeat split. apply Forall_app. split; [exact Hd | now constructor].
Qed.

Lemma indexFile_consistent (fs : Host.FileSystem) (filePath : string) :
  preserves (consistent fs) (indexFile fs filePath).
Proof.
  intros idx Hidx. unfold indexFile, Js.try_catch, Js.bind, Js.of_option.
  destruct (Host.readFile fs filePath) as [content|] eqn:Hread; simpl; [|exact Hidx].
  destruct (Host.stat_mtime fs filePath) as [mtime|] eqn:Hstat; simpl; [|exact Hidx].
  unfold Js.exec. rewrite parseCode_collects. cbn [snd].
  match goal with |- consistent fs (push_file filePath ?fi idx) =>
    change filePath with (f_path fi) at 1
  end.
  apply push_file_consistent; [|exact Hidx].
  exists content, mtime. cbn [f_path collect set_lastModified f_name f_extension f_size
    f_lastModified f_functions f_classes app].
  repeat split; assumption.
Qed.

Lemma scanDirectory_consistent (cfg : Config) (fs : Host.FileSystem) (fuel : nat) :
  forall dirPath depth, preserves (consistent fs) (scanDirectory fuel cfg fs dirPath depth).
Proof.
  induction fuel as [|fuel IH]; intros dirPath depth; simpl;
    destruct (indexDepth cfg <? depth)%nat; try apply preserves_ret.
  apply preserves_try_catch; [|intros; apply preserves_ret].
  apply preserves_bind; [apply preserves_of_option|]. intros entries.
  apply preserves_for_of. intros entry. unfold scanEntry.
  destruct (Host.d_kind entry).
  - destruct (includes (fileExtensions cfg) _);
      [apply indexFile_consistent | apply preserves_ret].
  - destruct (includes (excludeDirs cfg) _); [apply preserves_ret | apply IH].
  - apply preserves_ret.
Qed.

Lemma indexCodebase_state (cfg : Config) (host : Host.t) (codebasePath : string)
    (idx0 : CodeIndex) :
  let scanned :=
    snd (scanDirectory (S (indexDepth cfg)) cfg (Host.fs host) codebasePath 0
           empty_index) in
  indexCodebase cfg host codebasePath idx0
  = (Js.Return (snd (updateMetadata (Host.now host) scanned)),
     snd (updateMetadata (Host.now host) scanned)).
Proof.
  cbv zeta. unfold indexCodebase.
  rewrite (bind_unit resetIndex _ idx0 (returns_modify _)).
  assert (Hscan : returns (scanDirectory (S (indexDepth cfg)) cfg (Host.fs host)
                             codebasePath 0)).
  { intros s. exists tt. apply scanDirectory_returns. }
  rewrite (bind_unit _ _ _ Hscan).
  rewrite (bind_unit (updateMetadata _) _ _ (returns_modify _)).
  reflexivity.
Qed.

Lemma indexCodebase_index_state (cfg : Config) (host : Host.t)
    (codebasePath : string) (idx0 : CodeIndex) :
  fst (indexCodebase cfg host codebasePath idx0)
  = Js.Return (snd (indexCodebase cfg host codebasePath idx0))
  /\ consistent (Host.fs host) (snd (indexCodebase cfg host codebasePath idx0))
  /\ totalled (snd (indexCodebase cfg host codebasePath idx0)).
Proof.
  rewrite indexCodebase_state. cbn [fst snd].
  split; [reflexivity|]. split; [|repeat split].
  pose proof (scanDirectory_consistent cfg (Host.fs host) (S (indexDepth cfg))
                codebasePath 0 empty_index) as H.
  destruct H as (Hf & Hc & Hd); [repeat split; constructor|].
  unfold consistent. cbn [updateMetadata Js.modify snd files functions classes].
  repeat split; assumption.
Qed.

(** [indexCodebase] returns the index it leaves in the indexer. In it, the
    global lists of functions and classes are the functions and classes of
    the indexed files, file after file, each tagged with the path of its
    file; every file entry carries the base name and the extension of its
    path, the length of the text that the disk holds under that path, the
    modification time that the disk reports, and the function and class
    declarations of the parsed text in the order of the traversal (none
    when the text does not parse); and the metadata holds the three
    lengths. *)
Theorem indexCodebase_index_consistent (cfg : Config) (host : Host.t)
    (codebasePath : string) (idx0 : CodeIndex) :
  let out := indexCodebase cfg host codebasePath idx0 in
  fst out = Js.Return (snd out)
  /\ consistent (Host.fs host) (snd out)
  /\ totalled (snd out)
  /\ indexedAt (metadata (snd out)) = Some (Host.now host).
Proof.
  cbv zeta.
  destruct (indexCodebase_index_state cfg host codebasePath idx0) as (H1 & H2 & H3).
  repeat (split; [assumption|]).
  rewrite indexCodebase_state. reflexivity.
Qed.

End IndexContents.

(** ** The change predictor *)

Section Prediction.

Import ChangePredictor Impacts.

Local Open Scope R_scope.

Lemma by_depth_range (depth : nat) : 0 < by_depth depth <= 1.
Proof.
  unfold by_depth. destruct (Nat.eqb_spec depth 0) as [->|Hne]; [lra|].
  assert (H1 : 1 <= INR depth) by (apply (le_INR 1); lia).
  unfold Rdiv. rewrite Rmult_1_l. split.
  - apply Rinv_0_lt_compat. lra.
  - rewrite <- Rinv_1. apply Rinv_le_contravar; lra.
Qed.

Lemma calculateNodeWeight_range (node : DependencyAnalyzer.Dependency)
    (sourceElement : CodeElement) :
  0 < calculateNodeWeight node sourceElement <= 1.8.
Proof.
  unfold calculateNodeWeight.
  pose proof (by_depth_range (DependencyAnalyzer.dep_depth node)) as H.
  repeat match goal with |- context [if ?c then _ else _] => destruct c end; lra.
Qed.

Lemma calculateFileWeight_range (node : DependencyAnalyzer.Dependency) :
  0 < calculateFileWeight node <= 1.5.
Proof.
  unfold calculateFileWeight.
  pose proof (by_depth_range (DependencyAnalyzer.dep_depth node)) as H.
  destruct (DependencyAnalyzer.dep_node node); [|lra].
  repeat match goal with |- context [if ?c then _ else _] => destruct c end; lra.
Qed.

(** The weight of an entry is positive and at most 1.8 for a node (a call
    at depth 1 behind a mapping of high confidence), at most 1.5 for a
    file (a class at depth 1); both shrink with the depth: they are at most
    1.8 and 1.5 divided by the depth. *)
Theorem weights_are_bounded (node : DependencyAnalyzer.Dependency)
    (sourceElement : CodeElement) :
  0 < calculateNodeWeight node sourceElement <= 1.8
  /\ 0 < calculateFileWeight node <= 1.5
  /\ calculateNodeWeight node sourceElement
     <= 1.8 * by_depth (DependencyAnalyzer.dep_depth node)
  /\ calculateFileWeight node <= 1.5 * by_depth (DependencyAnalyzer.dep_depth node)
  /\ (by_depth (DependencyAnalyzer.dep_depth node)
        * INR (Nat.max 1 (DependencyAnalyzer.dep_depth node)) = 1).
Proof.
  split; [apply calculateNodeWeight_range|]. split; [apply calculateFileWeight_range|].
  pose proof (by_depth_range (DependencyAnalyzer.dep_depth node)) as H.
  split; [|split].
  - unfold calculateNodeWeight.
    repeat match goal with |- context [if ?c then _ else _] => destruct c end; lra.
  - unfold calculateFileWeight.
    destruct (DependencyAnalyzer.dep_node node); [|lra].
    repeat match goal with |- context [if ?c then _ else _] => destruct c end; lra.
  - unfold by_depth. destruct (Nat.eqb_spec (DependencyAnalyzer.dep_depth node) 0) as [->|Hne].
    + simpl. lra.
    + replace (Nat.max 1 (DependencyAnalyzer.dep_depth node))
        with (DependencyAnalyzer.dep_depth node) by lia.
      field. apply not_0_INR. exact Hne.
Qed.

Lemma insert_by_permutation {A} (key : A -> R) (x : A) (l : list A) :
  Permutation (SemanticAnalyzer.insert_by key x l) (x :: l).
Proof.
  induction l as [|y l IH]; simpl; [reflexivity|].
  destruct (Rle_dec _ _); [reflexivity|].
  rewrite IH. apply perm_swap.
Qed.

Lemma sort_desc_permutation {A} (key : A -> R) (l : list A) :
  Permutation (SemanticAnalyzer.sort_desc key l) l.
Proof.
  induction l as [|x l IH]; simpl; [reflexivity|].
  rewrite insert_by_permutation. now constructor.
Qed.

Lemma total_weight_from (l : list ImpactedNode) (a : R) :
  fold_left (fun sum node => sum + in_weight node) l a = a + total_weight l.
Proof.
  unfold total_weight. revert a. induction l as [|x l IH]; intros a; simpl; [lra|].
  rewrite IH, (IH (0 + in_weight x)). lra.
Qed.

Lemma total_weight_cons (x : ImpactedNode) (l : list ImpactedNode) :
  total_weight (x :: l) = in_weight x + total_weight l.
Proof. unfold total_weight at 1. simpl. rewrite total_weight_from. lra. Qed.

Lemma total_weight_permutation (l l' : list ImpactedNode) :
  Permutation l l' -> total_weight l = total_weight l'.
Proof.
  induction 1 as [|x l l' _ IH|x y l|l1 l2 l3 _ IH1 _ IH2];
    rewrite ?total_weight_cons; lra.
Qed.

Lemma upsert_node_keys id n source weight m :
  map fst (upsert_node id n source weight m)
  = if existsb (String.eqb id) (map fst m) then map fst m else (map fst m ++ [id])%list.
Proof.
  induction m as [|[k existing] m IH]; simpl; [reflexivity|].
  rewrite (String.eqb_sym id k). destruct (String.eqb k id); simpl; [reflexivity|].
  rewrite IH. now destruct (existsb _ _).
Qed.

Lemma upsert_file_keys filePath id weight m :
  map fst (upsert_file filePath id weight m)
  = if existsb (String.eqb filePath) (map fst m) then map fst m
    else (map fst m ++ [filePath])%list.
Proof.
  induction m as [|[k existing] m IH]; simpl; [reflexivity|].
  rewrite (String.eqb_sym filePath k). destruct (String.eqb k filePath); simpl.
  - now destruct (existsb _ (if_elements existing)).
  - rewrite IH. now destruct (existsb _ _).
Qed.

Lemma added_key_NoDup (k : string) (keys : list string) :
  NoDup keys ->
  NoDup (if existsb (String.eqb k) keys then keys else (keys ++ [k])%list).
Proof.
  intros Hk. destruct (existsb _ _) eqn:He; [exact Hk|].
  apply NoDup_app. split; [exact Hk|]. split; [|apply NoDup_singleton].
  intros x Hx Hx'. apply list_elem_of_singleton in Hx'. subst x.
  apply list_elem_of_In in Hx.
  assert (existsb (String.eqb k) keys = true)
    by (apply existsb_exists; exists k; split; [exact Hx | apply String.eqb_refl]).
  congruence.
Qed.

Lemma added_key_length (k : string) (keys : list string) :
  (length (if existsb (String.eqb k) keys then keys else (keys ++ [k])%list)
   <= length keys + 1)%nat.
Proof. destruct (existsb _ _); rewrite ?length_app; simpl; lia. Qed.

Lemma upsert_node_total id n source weight m :
  total_weight (map snd (upsert_node id n source weight m))
  = total_weight (map snd m) + weight.
Proof.
  induction m as [|[k existing] m IH]; simpl.
  - rewrite total_weight_cons. unfold total_weight. simpl. lra.
  - destruct (String.eqb k id); simpl; rewrite !total_weight_cons; simpl; [lra|].
    rewrite IH. lra.
Qed.

Lemma upsert_file_paths filePath id weight m :
  Forall (fun kv => if_path (snd kv) = fst kv) m ->
  Forall (fun kv => if_path (snd kv) = fst kv) (upsert_file filePath id weight m).
Proof.
  induction 1 as [|[k existing] m Hk Hm IH]; simpl.
  - constructor; [reflexivity | constructor].
  - destruct (String.eqb k filePath).
    + destruct (existsb _ _); constructor; assumption.
    + constructor; assumption.
Qed.


Lemma merge_entries_spec (element : CodeElement) (entries : list GraphObject.Entry) :
  forall side,
    match merge_entries element entries side with
    | Js.Return side' =>
        Forall is_record entries
        /\ (tidy side -> tidy side')
        /\ total_weight (map snd (side_nodes side'))
           = total_weight (map snd (side_nodes side)) + node_weights element entries
        /\ (length (side_nodes side') <= length (side_nodes side) + length entries)%nat
        /\ (length (side_files side') <= length (side_files side) + length entries)%nat
    | Js.Throw _ => ~ Forall is_record entries
    end.
Proof.
  induction entries as [|[s|node] entries IH]; intros side; simpl.
  - split; [constructor|]. split; [auto|]. split; [lra|]. split; lia.
  - intros H. inversion H as [|? ? Hs]. exact Hs.
  - match goal with |- context [merge_entries element entries ?s] =>
      specialize (IH s); destruct (merge_entries element entries s) as [side'|e]
    end.
    + destruct IH as (Hrec & Htidy & Htotal & Hn & Hf). cbn [side_nodes side_files] in *.
      split; [constructor; [exact I | exact Hrec]|]. split; [|split; [|split]].
      * intros (H1 & H2 & H3). apply Htidy. unfold tidy. cbn [side_nodes side_files].
        split; [rewrite upsert_node_keys; now apply added_key_NoDup|].
        destruct (file_of _); [|split; assumption].
        split; [rewrite upsert_file_keys; now apply added_key_NoDup|].
        now apply upsert_file_paths.
      * rewrite Htotal, upsert_node_total. lra.
      * pose proof (added_key_length (DependencyAnalyzer.dep_id node)
                      (map fst (side_nodes side))) as Hl.
        rewrite <- (upsert_node_keys _ (DependencyAnalyzer.dep_node node)
                      (ce_id element) (calculateNodeWeight node element)),
          !length_map in Hl.
        lia.
      * destruct (file_of _) as [filePath|]; [|lia].
        pose proof (added_key_length filePath (map fst (side_files side))) as Hl.
        rewrite <- (upsert_file_keys _ (DependencyAnalyzer.dep_id node)
                      (calculateFileWeight node)), !length_map in Hl.
        lia.
    + intros H. apply IH. now inversion H.
Qed.

Lemma merge_results_spec (impactResults : list (CodeElement * Impact)) :
  forall impacted dependency,
    match merge_results impactResults impacted dependency with
    | Js.Return (impacted', dependency') =>
        records_only impactResults
        /\ (tidy impacted -> tidy impacted')
        /\ (tidy dependency -> tidy dependency')
        /\ total_weight (map snd (side_nodes impacted'))
           = total_weight (map snd (side_nodes impacted)) + impacted_weights impactResults
        /\ total_weight (map snd (side_nodes dependency'))
           = total_weight (map snd (side_nodes dependency))
             + dependency_weights impactResults
        /\ (length (side_nodes impacted')
            <= length (side_nodes impacted) + impacted_count impactResults)%nat
        /\ (length (side_files impacted')
            <= length (side_files impacted) + impacted_count impactResults)%nat
    | Js.Throw _ => ~ records_only impactResults
    end.
Proof.
  induction impactResults as [|[element impact] rest IH]; intros impacted dependency;
    simpl.
  - split; [constructor|]. split; [auto|]. split; [auto|]. split; [lra|]. split; [lra|]. split; lia.
  - pose proof (merge_entries_spec element (i_impactedNodes impact) impacted) as Hi.
    destruct (merge_entries element (i_impactedNodes impact) impacted) as [impacted1|e].
    2:{ intros H. inversion H as [|? ? [Hr _]]. now apply Hi. }
    pose proof (merge_entries_spec element (i_dependencyNodes impact) dependency) as Hd.
    destruct (merge_entries element (i_dependencyNodes impact) dependency)
      as [dependency1|e].
    2:{ intros H. inversion H as [|? ? [_ Hr]]. now apply Hd. }
    specialize (IH impacted1 dependency1).
    destruct (merge_results rest impacted1 dependency1) as [[impacted' dependency']|e].
    + destruct Hi as (Hi0 & Hi1 & Hi2 & Hi3 & Hi4).
      destruct Hd as (Hd0 & Hd1 & Hd2 & Hd3 & Hd4).
      destruct IH as (H0 & H1 & H2 & H3 & H4 & H5 & H6).
      split; [constructor; [split; assumption | exact H0]|].
      split; [auto|]. split; [auto|].
      cbn [fst snd]. split; [lra|]. split; [lra|]. split; lia.
    + intros H. apply IH. now inversion H.
Qed.

Lemma node_weights_range (element : CodeElement) (entries : list GraphObject.Entry) :
  0 <= node_weights element entries <= 1.8 * INR (length entries).
Proof.
  induction entries as [|[s|node] entries IH].
  - simpl. lra.
  - cbn [node_weights fold_right length]. rewrite S_INR.
    fold (node_weights element entries). lra.
  - cbn [node_weights fold_right length]. rewrite S_INR.
    fold (node_weights element entries).
    pose proof (calculateNodeWeight_range node element). lra.
Qed.

Lemma impacted_weights_range (impactResults : list (CodeElement * Impact)) :
  0 <= impacted_weights impactResults <= 1.8 * INR (impacted_count impactResults).
Proof.
  induction impactResults as [|[element impact] rest IH]; simpl; [lra|].
  rewrite plus_INR.
  pose proof (node_weights_range element (i_impactedNodes impact)). lra.
Qed.

Lemma descending_permutation_paths (m : list (string * ImpactedFile)) :
  NoDup (map fst m) -> Forall (fun kv => if_path (snd kv) = fst kv) m ->
  NoDup (map if_path (SemanticAnalyzer.sort_desc if_weight (map snd m))).
Proof.
  intros Hk Hp.
  rewrite (Permutation_map if_path (sort_desc_permutation if_weight (map snd m))).
  replace (map if_path (map snd m)) with (map fst m); [exact Hk|].
  induction Hp as [|kv m Hkv Hm IH]; simpl; [reflexivity|].
  inversion Hk. rewrite Hkv. f_equal. now apply IH.
Qed.

Lemma tidy_empty : tidy empty_side.
Proof. repeat split; simpl; constructor. Qed.

Lemma mergeImpactAnalysis_spec (impactResults : list (CodeElement * Impact)) :
  match mergeImpactAnalysis impactResults with
  | Js.Return merged =>
      records_only impactResults
      /\ totalImpactScore merged = impacted_weights impactResults
      /\ totalDependencyScore merged = dependency_weights impactResults
      /\ descending in_weight (impactedNodes merged)
      /\ descending in_weight (dependencyNodes merged)
      /\ descending if_weight (impactedFiles merged)
      /\ descending if_weight (dependencyFiles merged)
      /\ NoDup (map if_path (impactedFiles merged))
      /\ NoDup (map if_path (dependencyFiles merged))
      /\ (length (impactedNodes merged) <= impacted_count impactResults)%nat
      /\ (length (impactedFiles merged) <= impacted_count impactResults)%nat
  | Js.Throw _ => ~ records_only impactResults
  end.
Proof.
  unfold mergeImpactAnalysis.
  pose proof (merge_results_spec impactResults empty_side empty_side) as H.
  destruct (merge_results impactResults empty_side empty_side)
    as [[impacted dependency]|e]; [|exact H].
  destruct H as (H0 & H1 & H2 & H3 & H4 & H5 & H6).
  destruct (H1 tidy_empty) as (_ & Hi2 & Hi3).
  destruct (H2 tidy_empty) as (_ & Hd2 & Hd3).
  cbn [totalImpactScore totalDependencyScore impactedNodes dependencyNodes
       impactedFiles dependencyFiles].
  split; [exact H0|].
  split.
  { rewrite (total_weight_permutation _ _ (sort_desc_permutation _ _)), H3.
    unfold total_weight. simpl. lra. }
  split.
  { rewrite (total_weight_permutation _ _ (sort_desc_permutation _ _)), H4.
    unfold total_weight. simpl. lra. }
  repeat (split; [apply sort_desc_sorted|]).
  split; [now apply descending_permutation_paths|].
  split; [now apply descending_permutation_paths|].
  rewrite !(Permutation_length (sort_desc_permutation _ _)), !length_map.
  simpl in H5, H6. split; lia.
Qed.

(** When every entry of the impact arrays is a record, as the entries of
    a [DependencyAnalyzer] are, [mergeImpactAnalysis] returns, and the
    merge loses nothing: the total impact score is the sum of the node
    weights of all impacted entries of all elements, and likewise for the
    dependencies; the four arrays are in non-increasing order of weight;
    no path occurs twice among the impacted files, nor among the
    dependency files; there are no more impacted nodes or files than
    impacted entries; and the total impact score is at most 1.8 per
    entry. *)
Theorem mergeImpactAnalysis_conserves_weight (impactResults : list (CodeElement * Impact)) :
  records_only impactResults ->
  exists merged,
    mergeImpactAnalysis impactResults = Js.Return merged
    /\ totalImpactScore merged = impacted_weights impactResults
    /\ totalDependencyScore merged = dependency_weights impactResults
    /\ descending in_weight (impactedNodes merged)
    /\ descending in_weight (dependencyNodes merged)
    /\ descending if_weight (impactedFiles merged)
    /\ descending if_weight (dependencyFiles merged)
    /\ NoDup (map if_path (impactedFiles merged))
    /\ NoDup (map if_path (dependencyFiles merged))
    /\ (length (impactedNodes merged) <= impacted_count impactResults)%nat
    /\ (length (impactedFiles merged) <= impacted_count impactResults)%nat
    /\ 0 <= totalImpactScore merged <= 1.8 * INR (impacted_count impactResults).
Proof.
  intros Hrec. pose proof (mergeImpactAnalysis_spec impactResults) as H.
  destruct (mergeImpactAnalysis impactResults) as [merged|e]; [|contradiction].
  exists merged. split; [reflexivity|].
  destruct H as (_ & H1 & H2 & H3 & H4 & H5 & H6 & H7 & H8 & H9 & H10).
  repeat (split; [assumption|]).
  rewrite H1. apply impacted_weights_range.
Qed.

Lemma mergeImpactAnalysis_conserves_weight_witness :
  records_only one_caller
  /\ exists merged,
       mergeImpactAnalysis one_caller = Js.Return merged
       /\ totalImpactScore merged = impacted_weights one_caller
       /\ totalDependencyScore merged = dependency_weights one_caller
       /\ descending in_weight (impactedNodes merged)
       /\ descending in_weight (dependencyNodes merged)
       /\ descending if_weight (impactedFiles merged)
       /\ descending if_weight (dependencyFiles merged)
       /\ NoDup (map if_path (impactedFiles merged))
       /\ NoDup (map if_path (dependencyFiles merged))
       /\ (length (impactedNodes merged) <= impacted_count one_caller)%nat
       /\ (length (impactedFiles merged) <= impacted_count one_caller)%nat
       /\ 0 <= totalImpactScore merged <= 1.8 * INR (impacted_count one_caller).
Proof.
  assert (H : records_only one_caller).
  { repeat constructor. }
  split; [exact H | exact (mergeImpactAnalysis_conserves_weight one_caller H)].
Defined.

(** The risk level cannot rise on few entries: a merge of at most 10
    impacted entries in all is rated ["low"], and one of at most 20 is not
    rated ["high"]. *)
Theorem few_impacted_entries_bound_the_risk
    (impactResults : list (CodeElement * Impact)) (merged : ImpactAnalysis) :
  mergeImpactAnalysis impactResults = Js.Return merged ->
  ((impacted_count impactResults <= 10)%nat -> calculateRiskLevel merged = "low")
  /\ ((impacted_count impactResults <= 20)%nat -> calculateRiskLevel merged <> "high").
Proof.
  intros Hm. pose proof (mergeImpactAnalysis_spec impactResults) as H.
  rewrite Hm in H.
  destruct H as (_ & H1 & _ & _ & _ & _ & _ & _ & _ & _ & H10).
  pose proof (impacted_weights_range impactResults) as Hw. rewrite <- H1 in Hw.
  unfold calculateRiskLevel. split; intros Hc.
  - assert (INR (impacted_count impactResults) <= 10)
      by (apply le_INR in Hc; simpl in Hc; lra).
    replace (gtb (totalImpactScore merged) 50) with false
      by (symmetry; apply gtb_false; lra).
    replace (gtb (totalImpactScore merged) 20) with false
      by (symmetry; apply gtb_false; lra).
    replace (20 <? length (impactedFiles merged))%nat with false
      by (symmetry; apply Nat.ltb_ge; lia).
    replace (10 <? length (impactedFiles merged))%nat with false
      by (symmetry; apply Nat.ltb_ge; lia).
    reflexivity.
  - assert (INR (impacted_count impactResults) <= 20)
      by (apply le_INR in Hc; simpl in Hc; lra).
    replace (gtb (totalImpactScore merged) 50) with false
      by (symmetry; apply gtb_false; lra).
    replace (20 <? length (impactedFiles merged))%nat with false
      by (symmetry; apply Nat.ltb_ge; lia).
    simpl. destruct (_ || _); discriminate.
Qed.

Lemma few_impacted_entries_bound_the_risk_witness :
  exists merged,
    mergeImpactAnalysis one_caller = Js.Return merged
    /\ calculateRiskLevel merged = "low".
Proof.
  eexists. split; [reflexivity|].
  apply (proj1 (few_impacted_entries_bound_the_risk one_caller _ eq_refl)).
  simpl. lia.
Defined.

Lemma same_path_eq (a b : option string) : same_path a b = true <-> a = b.
Proof.
  destruct a as [x|], b as [y|]; simpl; try (split; (discriminate || reflexivity)).
  rewrite String.eqb_eq. split; congruence.
Qed.

Lemma set_has_In (s : list (option string)) (x : option string) :
  set_has s x = true <-> In x s.
Proof.
  unfold set_has. rewrite existsb_exists. split.
  - intros (y & Hy & Heq). apply same_path_eq in Heq. now subst y.
  - intros Hx. exists x. split; [exact Hx | now apply same_path_eq].
Qed.

Lemma set_add_spec (x : option string) (s : list (option string)) :
  NoDup s ->
  NoDup (set_add x s) /\ forall y, In y (set_add x s) <-> In y s \/ y = x.
Proof.
  intros Hs. unfold set_add. destruct (set_has s x) eqn:Hx.
  - apply set_has_In in Hx. split; [exact Hs|]. intros y. split; [auto|].
    intros [Hy| ->]; assumption.
  - assert (Hnot : ~ In x s) by (rewrite <- set_has_In; congruence).
    split.
    + apply NoDup_app. split; [exact Hs|]. split; [|apply NoDup_singleton].
      intros y Hy Hy'. apply list_elem_of_singleton in Hy'. subst y.
      apply Hnot. now apply list_elem_of_In.
    + intros y. rewrite in_app_iff. simpl. intuition.
Qed.

Lemma files_to_modify_spec {A} (f : A -> option string) (xs : list A) :
  forall s, NoDup s ->
    NoDup (fold_left (fun s x => set_add (f x) s) xs s)
    /\ forall y, In y (fold_left (fun s x => set_add (f x) s) xs s)
                 <-> In y s \/ In y (map f xs).
Proof.
  induction xs as [|x xs IH]; intros s Hs; simpl; [intuition|].
  destruct (set_add_spec (f x) s Hs) as [Hn Hin].
  destruct (IH (set_add (f x) s) Hn) as [Hn' Hin'].
  split; [exact Hn'|]. intros y. rewrite Hin', Hin. intuition.
Qed.

Lemma filter_sublist {A} (f : A -> bool) (l : list A) : sublist (List.filter f l) l.
Proof.
  induction l as [|x l IH]; simpl; [constructor|].
  destruct (f x); [now apply sublist_skip | now apply sublist_cons].
Qed.

Lemma candidate_files_spec (self : t) (filesToModify : list (option string)) (n : nat)
    (files : list ImpactedFile) :
  Forall (fun path =>
            ~ In (Some path) filesToModify
            /\ exists file, In file files /\ if_path file = path
                            /\ if_weight file >= impactThreshold (config self))
    (candidate_files self filesToModify n files)
  /\ (length (candidate_files self filesToModify n files) <= n)%nat
  /\ (NoDup (map if_path files) ->
      NoDup (candidate_files self filesToModify n files)).
Proof.
  unfold candidate_files. split; [|split].
  - apply Forall_map. apply Forall_take. apply List.Forall_forall. intros file Hin.
    apply filter_In in Hin as [Hin Htest]. apply andb_true_iff in Htest as [Hnot Hge].
    split.
    + rewrite <- set_has_In. now destruct (set_has _ _).
    + exists file. repeat split; [exact Hin|]. now apply geb_true.
  - rewrite length_map. apply firstn_le_length.
  - intros Hnd.
    assert (Hsub : sublist
                     (firstn n (List.filter (fun file =>
                        negb (set_has filesToModify (Some (if_path file)))
                        && SemanticAnalyzer.geb (if_weight file)
                             (impactThreshold (config self))) files))
                     files).
    { etransitivity; [apply sublist_take|]. apply filter_sublist. }
    eapply sublist_NoDup; [exact Hnd | apply (fmap_sublist if_path), Hsub].
Qed.

(** The change plan, for any merged impact and any set of files to modify:
    the primary changes are the files to modify, in order; every secondary
    change names an impacted file that is not a file to modify and whose
    weight reaches [impactThreshold], and every dependency check a
    dependency file of that kind; there are at most [maxImpactedFiles]
    secondary changes and at most half as many dependency checks; and the
    summary holds the three counts, the total impact score and the risk
    level of the merged impact. *)
Theorem generateChangePlan_shape (self : t) (impactAnalysis : ImpactAnalysis)
    (filesToModify : list (option string)) :
  let plan := generateChangePlan self impactAnalysis filesToModify in
  let eligible files change :=
    ~ In (c_filePath change) filesToModify
    /\ exists file, In file files /\ c_filePath change = Some (if_path file)
                    /\ if_weight file >= impactThreshold (config self) in
  paths_of (primaryChanges plan) = filesToModify
  /\ Forall (eligible (impactedFiles impactAnalysis)) (secondaryChanges plan)
  /\ Forall (eligible (dependencyFiles impactAnalysis)) (dependencyChecks plan)
  /\ (length (secondaryChanges plan) <= maxImpactedFiles (config self))%nat
  /\ (2 * length (dependencyChecks plan) <= maxImpactedFiles (config self))%nat
  /\ directChanges (impactSummary plan) = length filesToModify
  /\ potentialImpact (impactSummary plan) = length (secondaryChanges plan)
  /\ dependenciesToVerify (impactSummary plan) = length (dependencyChecks plan)
  /\ s_totalImpactScore (impactSummary plan) = totalImpactScore impactAnalysis
  /\ riskLevel (impactSummary plan) = calculateRiskLevel impactAnalysis.
Proof.
  cbv zeta. unfold generateChangePlan, paths_of.
  cbn [primaryChanges secondaryChanges dependencyChecks impactSummary directChanges
       potentialImpact dependenciesToVerify s_totalImpactScore riskLevel].
  destruct (candidate_files_spec self filesToModify (maxImpactedFiles (config self))
              (impactedFiles impactAnalysis)) as (Hs1 & Hs2 & _).
  destruct (candidate_files_spec self filesToModify (maxImpactedFiles (config self) / 2)
              (dependencyFiles impactAnalysis)) as (Hd1 & Hd2 & _).
  split.
  { rewrite map_map. simpl. apply map_id. }
  split.
  { apply Forall_map. eapply Forall_impl; [exact Hs1|].
    intros path (Hnot & file & Hin & Hpath & Hw). simpl. split; [exact Hnot|].
    exists file. rewrite Hpath. auto. }
  split.
  { apply Forall_map. eapply Forall_impl; [exact Hd1|].
    intros path (Hnot & file & Hin & Hpath & Hw). simpl. split; [exact Hnot|].
    exists file. rewrite Hpath. auto. }
  rewrite !length_map. split; [exact Hs2|]. split.
  { pose proof (Nat.Div0.mul_div_le (maxImpactedFiles (config self)) 2). lia. }
  repeat split.
Qed.

Lemma merge_results_without_entries (impactResults : list (CodeElement * Impact)) :
  Forall (fun result => i_impactedNodes (snd result) = []
                        /\ i_dependencyNodes (snd result) = []) impactResults ->
  forall impacted dependency,
    merge_results impactResults impacted dependency = Js.Return (impacted, dependency).
Proof.
  induction 1 as [|[element impact] rest [Hi Hd] _ IH]; intros impacted dependency;
    simpl; [reflexivity|].
  simpl in Hi, Hd. rewrite Hi, Hd. simpl. apply IH.
Qed.

Lemma predictChanges_on_plain_graph_shape (self : t)
    (mappingResults : list MappingAlgorithm.MappingResult)
    (g : DependencyAnalyzer.Graph) :
  exists prediction,
    predictChanges self mappingResults (GraphObject.of_graph g) = Js.Return prediction
    /\ codeElementsToModify prediction = map element_of mappingResults
    /\ NoDup (filesToModify prediction)
    /\ (forall path, In path (filesToModify prediction)
                     <-> In path (map MappingAlgorithm.mr_element_filePath mappingResults))
    /\ impactAnalysis prediction
       = {| impactedNodes := []; dependencyNodes := []; impactedFiles := [];
            dependencyFiles := []; totalImpactScore := 0; totalDependencyScore := 0 |}
    /\ paths_of (primaryChanges (changePlan prediction)) = filesToModify prediction
    /\ secondaryChanges (changePlan prediction) = []
    /\ dependencyChecks (changePlan prediction) = []
    /\ riskLevel (impactSummary (changePlan prediction)) = "low".
Proof.
  unfold predictChanges, mergeImpactAnalysis.
  rewrite merge_results_without_entries.
  2:{ unfold analyzeImpact. apply Forall_map. apply List.Forall_forall.
      intros element _. simpl. split; reflexivity. }
  eexists. split; [reflexivity|].
  cbn [codeElementsToModify filesToModify impactAnalysis changePlan].
  destruct (files_to_modify_spec MappingAlgorithm.mr_element_filePath mappingResults []
              NoDup_nil_2) as [Hn Hin].
  split; [reflexivity|]. split; [exact Hn|].
  split; [intros path; rewrite Hin; simpl; intuition|].
  split; [reflexivity|].
  unfold generateChangePlan, paths_of, candidate_files.
  cbn [primaryChanges secondaryChanges dependencyChecks impactSummary riskLevel
       impactedFiles dependencyFiles empty_side side_files side_nodes map
       SemanticAnalyzer.sort_desc List.filter firstn].
  split; [rewrite map_map; apply map_id|].
  rewrite !firstn_nil. split; [reflexivity|]. split; [reflexivity|].
  unfold calculateRiskLevel. cbn [totalImpactScore impactedFiles length].
  unfold total_weight. simpl.
  replace (gtb 0 50) with false by (symmetry; apply gtb_false; lra).
  replace (gtb 0 20) with false by (symmetry; apply gtb_false; lra).
  reflexivity.
Qed.

(** A graph that is plain data, as the engine hands over, has neither
    [getImpactAnalysis] nor [getNodeDependencies]: the prediction then
    returns with no impact at all. The files to modify are the paths of
    the mapping results, each once ([undefined] among them when a result
    has no path); the plan holds one primary change per file to modify and
    nothing else; and the risk is ["low"], however many results there
    are. *)
Theorem predictChanges_on_plain_graph (self : t)
    (mappingResults : list MappingAlgorithm.MappingResult)
    (g : DependencyAnalyzer.Graph) :
  exists prediction,
    predictChanges self mappingResults (GraphObject.of_graph g) = Js.Return prediction
    /\ codeElementsToModify prediction = map element_of mappingResults
    /\ NoDup (filesToModify prediction)
    /\ (forall path, In path (filesToModify prediction)
                     <-> In path (map MappingAlgorithm.mr_element_filePath mappingResults))
    /\ impactAnalysis prediction
       = {| impactedNodes := []; dependencyNodes := []; impactedFiles := [];
            dependencyFiles := []; totalImpactScore := 0; totalDependencyScore := 0 |}
    /\ paths_of (primaryChanges (changePlan prediction)) = filesToModify prediction
    /\ secondaryChanges (changePlan prediction) = []
    /\ dependencyChecks (changePlan prediction) = []
    /\ riskLevel (impactSummary (changePlan prediction)) = "low".
Proof. apply predictChanges_on_plain_graph_shape. Qed.

(** With a [DependencyAnalyzer] as the graph, every entry is a record and
    the prediction never throws. *)
Lemma analyzeImpact_of_analyzer (codeElements : list CodeElement)
    (a : DependencyAnalyzer.t) :
  records_only (analyzeImpact codeElements (GraphObject.of_analyzer a)).
Proof.
  unfold records_only, analyzeImpact. apply Forall_map. apply List.Forall_forall.
  intros element _. simpl. split; apply Forall_map; apply List.Forall_forall;
    intros d _; exact I.
Qed.

Lemma impacted_count_of_analyzer (codeElements : list CodeElement)
    (a : DependencyAnalyzer.t) :
  (impacted_count (analyzeImpact codeElements (GraphObject.of_analyzer a))
   <= length codeElements
      * (100 + (DependencyAnalyzer.maxDepth (DependencyAnalyzer.config a) - 1)))%nat.
Proof.
  set (bound := (100 + (DependencyAnalyzer.maxDepth (DependencyAnalyzer.config a) - 1))%nat).
  assert (Hone : forall element,
            (length (i_impactedNodes
                       (of_analysis (DependencyAnalyzer.getImpactAnalysis a (ce_id element))))
             <= bound)%nat).
  { intros element. unfold of_analysis, DependencyAnalyzer.getImpactAnalysis.
    cbn [i_impactedNodes DependencyAnalyzer.impactedNodes]. rewrite length_map.
    etransitivity; [apply getNodeDependencies_length|].
    cbn [DependencyAnalyzer.maxResults DependencyAnalyzer.depth]. unfold bound. lia. }
  clearbody bound.
  induction codeElements as [|element rest IH]; [simpl; lia|].
  cbn [analyzeImpact map impacted_count fold_right fst snd length
       GraphObject.getImpactAnalysis GraphObject.of_analyzer].
  specialize (Hone element).
  unfold analyzeImpact, impacted_count in IH.
  cbn [GraphObject.getImpactAnalysis GraphObject.of_analyzer] in IH. lia.
Qed.

(** With a [DependencyAnalyzer] as the graph, the prediction never throws.
    Its total impact score is the sum of the node weights of the impacted
    entries that [getImpactAnalysis] returns for the elements of the
    mapping results, and is at most 1.8 for each of the at most
    [100 + maxDepth - 1] entries of each element; the impacted files come
    in non-increasing order of weight; and the secondary changes of the
    plan are distinct paths, none of which is a file to modify. *)
Theorem predictChanges_on_analyzer (self : t)
    (mappingResults : list MappingAlgorithm.MappingResult)
    (a : DependencyAnalyzer.t) :
  let impactResults :=
    analyzeImpact (map element_of mappingResults) (GraphObject.of_analyzer a) in
  let bound :=
    (length mappingResults
     * (100 + (DependencyAnalyzer.maxDepth (DependencyAnalyzer.config a) - 1)))%nat in
  exists prediction,
    predictChanges self mappingResults (GraphObject.of_analyzer a) = Js.Return prediction
    /\ totalImpactScore (impactAnalysis prediction) = impacted_weights impactResults
    /\ 0 <= totalImpactScore (impactAnalysis prediction) <= 1.8 * INR bound
    /\ (length (impactedNodes (impactAnalysis prediction)) <= bound)%nat
    /\ descending in_weight (impactedNodes (impactAnalysis prediction))
    /\ descending if_weight (impactedFiles (impactAnalysis prediction))
    /\ NoDup (paths_of (secondaryChanges (changePlan prediction)))
    /\ Forall (fun change => ~ In (c_filePath change) (filesToModify prediction))
         (secondaryChanges (changePlan prediction)).
Proof.
  cbv zeta. unfold predictChanges.
  pose proof (mergeImpactAnalysis_spec
                (analyzeImpact (map element_of mappingResults) (GraphObject.of_analyzer a)))
    as H.
  pose proof (analyzeImpact_of_analyzer (map element_of mappingResults) a) as Hrec.
  pose proof (impacted_count_of_analyzer (map element_of mappingResults) a) as Hcount.
  rewrite length_map in Hcount.
  pose proof (impacted_weights_range
                (analyzeImpact (map element_of mappingResults) (GraphObject.of_analyzer a)))
    as Hrange.
  destruct (mergeImpactAnalysis _) as [merged|e]; [|contradiction].
  destruct H as (_ & H1 & _ & H3 & _ & H5 & _ & H7 & _ & H9 & _).
  eexists. split; [reflexivity|].
  cbn [impactAnalysis changePlan filesToModify].
  split; [exact H1|]. split.
  { rewrite H1. split; [lra|]. apply le_INR in Hcount.
    eapply Rle_trans; [apply Hrange|]. lra. }
  split; [lia|]. split; [exact H3|]. split; [exact H5|].
  set (files := fold_left _ mappingResults []).
  destruct (candidate_files_spec self files (maxImpactedFiles (config self))
              (impactedFiles merged)) as (Hs1 & _ & Hs3).
  unfold generateChangePlan, paths_of. cbn [secondaryChanges]. split.
  - rewrite map_map. simpl. apply (NoDup_fmap_2 Some). now apply Hs3.
  - apply Forall_map. eapply Forall_impl; [exact Hs1|]. now intros path [Hnot _].
Qed.

End Prediction.

(** ** The rest of the engine *)

Section EngineRest.

Import Engine.

Lemma mapTask_reads_only (self : MappingAlgorithm.t) (task : MappingAlgorithm.Task)
    (codeIndex : CodebaseIndexer.CodeIndex) (graph : option GraphObject.t)
    (globals : Global.t) :
  snd (MappingAlgorithm.mapTask self task codeIndex graph globals) = globals.
Proof.
  unfold MappingAlgorithm.mapTask, Js.bind, Js.get, Js.of_option.
  destruct (Global.semanticAnalyzer globals); simpl; [|reflexivity].
  destruct (MappingAlgorithm.rankResultsByDependencies _ _ _); reflexivity.
Qed.

Lemma mapTaskToCode_reads_only (task : MappingAlgorithm.Task) (p : Process) :
  snd (mapTaskToCode task p) = p.
Proof.
  unfold mapTaskToCode, Js.bind, Js.get, Js.of_option, Js.on_member.
  destruct (codeIndex (engine p)) as [index|]; simpl; [|reflexivity].
  pose proof (mapTask_reads_only (mappingAlgorithm (engine p)) task index
                (option_map GraphObject.of_graph (dependencyGraph (engine p)))
                (globals p)) as H.
  destruct (MappingAlgorithm.mapTask _ _ _ _ _) as [o g]. simpl in *. subst g.
  now destruct p.
Qed.

Lemma engine_predictChanges_state (changePredictor : ChangePredictor.t)
    (mappingResults : list MappingAlgorithm.MappingResult) (p : Process) :
  snd (predictChanges changePredictor mappingResults p) = p.
Proof.
  unfold predictChanges, Js.bind, Js.get, Js.of_option.
  destruct (dependencyGraph (engine p)) as [g|]; [|reflexivity]. simpl.
  now destruct (ChangePredictor.predictChanges _ _ _).
Qed.

(** [predictChanges] of the engine throws when no graph has been built and
    leaves the engine as it was. Once a graph has been built it returns,
    and since it hands the graph over as plain data, the prediction holds
    no impact: the four arrays of the impact analysis are empty, both
    scores are 0, the plan has no secondary change and no dependency
    check, and the risk is ["low"]. *)
Theorem engine_predictChanges_reports_no_impact (changePredictor : ChangePredictor.t)
    (mappingResults : list MappingAlgorithm.MappingResult) (p : Process) :
  match dependencyGraph (engine p) with
  | None => predictChanges changePredictor mappingResults p = (Js.Throw graph_not_built, p)
  | Some g =>
      exists prediction,
        predictChanges changePredictor mappingResults p = (Js.Return prediction, p)
        /\ ChangePredictor.impactAnalysis prediction
           = {| ChangePredictor.impactedNodes := [];
                ChangePredictor.dependencyNodes := [];
                ChangePredictor.impactedFiles := [];
                ChangePredictor.dependencyFiles := [];
                ChangePredictor.totalImpactScore := 0;
                ChangePredictor.totalDependencyScore := 0 |}
        /\ ChangePredictor.secondaryChanges (ChangePredictor.changePlan prediction) = []
        /\ ChangePredictor.dependencyChecks (ChangePredictor.changePlan prediction) = []
        /\ ChangePredictor.riskLevel
             (ChangePredictor.impactSummary (ChangePredictor.changePlan prediction))
           = "low"
  end.
Proof.
  unfold predictChanges, Js.bind, Js.get, Js.of_option.
  destruct (dependencyGraph (engine p)) as [g|]; [|reflexivity]. simpl.
  destruct (predictChanges_on_plain_graph_shape changePredictor mappingResults g)
    as (prediction & Hp & _ & _ & _ & Hi & _ & Hs & Hd & Hr).
  rewrite Hp. exists prediction. repeat split; assumption.
Qed.

(** [generateCodeModificationSuggestions] throws on every task, whatever
    the state of the process, and leaves the process as it was: either
    the mapping throws, or the prediction throws, or reading
    [changeImpact.impactedFiles.length] throws, because a prediction holds
    its impacted files under [impactAnalysis]. *)
Theorem generateCodeModificationSuggestions_always_throws
    (changePredictor : ChangePredictor.t) (task : MappingAlgorithm.Task) (p : Process) :
  exists e,
    generateCodeModificationSuggestions changePredictor task p = (Js.Throw e, p).
Proof.
  unfold generateCodeModificationSuggestions, Js.bind.
  pose proof (mapTaskToCode_reads_only task p) as Hm.
  destruct (mapTaskToCode task p) as [[mappingResults|e] p']; simpl in Hm; subst p';
    [|now exists e].
  pose proof (engine_predictChanges_state changePredictor mappingResults p) as Hp.
  destruct (predictChanges changePredictor mappingResults p) as [[changeImpact|e] p'];
    simpl in Hp; subst p'; [|now exists e].
  eexists. reflexivity.
Qed.

End EngineRest.

(** ** What [initialize] leaves in the engine *)

Section Initialized.

Import Engine.

Lemma consistent_functions_indexed (fs : Host.FileSystem) (idx : CodebaseIndexer.CodeIndex) :
  Indexed.consistent fs idx ->
  Forall (fun func => Built.indexed idx (CodebaseIndexer.if_filePath func))
    (CodebaseIndexer.functions idx)
  /\ Forall (fun cls => Built.indexed idx (CodebaseIndexer.ic_filePath cls))
       (CodebaseIndexer.classes idx).
Proof.
  intros (Hf & Hc & _). rewrite Hf, Hc. unfold Built.indexed.
  split; apply List.Forall_forall; intros x Hx; apply in_flat_map in Hx as (fi & Hfi & Hx);
    apply in_map_iff in Hx as (y & <- & _); simpl; now apply in_map.
Qed.

(** [initialize] always leaves an index in the engine, also when it
    throws: the index of the indexer, with its global lists made of the
    lists of its files and its metadata counting them, and [global]
    untouched. It throws only when [analyzeCodebase] throws, and then the
    graph of the engine is the one from before. When it returns, the graph
    of the engine is the graph of the dependency analyzer; it has a node
    of the right type for every file, function, class and method of the
    index, and every function and every class of the index has its
    [contains] edge to the node of its file. *)
Theorem initialize_leaves_index_and_graph (host : Host.t) (codebasePath : string)
    (p : Process) :
  let out := initialize host codebasePath p in
  let p' := snd out in
  exists idx,
    codeIndex (engine p') = Some idx
    /\ codebaseIndexer (engine p') = idx
    /\ Indexed.consistent (Host.fs host) idx
    /\ Indexed.totalled idx
    /\ globals p' = globals p
    /\ match fst out with
       | Js.Return _ =>
           exists g,
             dependencyGraph (engine p') = Some g
             /\ g = DependencyAnalyzer.dependencyGraph (dependencyAnalyzer (engine p'))
             /\ Built.covers idx g
             /\ Forall (fun func =>
                          Built.has_edge (Built.function_id func)
                            (Built.file_id (CodebaseIndexer.if_filePath func))
                            "contains" g)
                  (CodebaseIndexer.functions idx)
             /\ Forall (fun cls =>
                          Built.has_edge (Built.class_id cls)
                            (Built.file_id (CodebaseIndexer.ic_filePath cls))
                            "contains" g)
                  (CodebaseIndexer.classes idx)
       | Js.Throw e =>
           fst (SemanticAnalyzer.analyzeCodebase idx (semanticAnalyzer (engine p)))
           = Js.Throw e
           /\ dependencyGraph (engine p') = dependencyGraph (engine p)
       end.
Proof.
  cbv zeta.
  pose proof (indexCodebase_index_state (indexer_config (config (engine p))) host
                codebasePath (codebaseIndexer (engine p))) as (Hout & Hcons & Htot).
  unfold initialize, Js.bind, Js.get, Js.on_member, Js.modify.
  destruct (CodebaseIndexer.indexCodebase _ host codebasePath _) as [o idx].
  cbn [fst snd] in *. subst o. exists idx.
  cbn [engine set_codebaseIndexer set_codeIndex semanticAnalyzer config].
  destruct (SemanticAnalyzer.analyzeCodebase idx (semanticAnalyzer (engine p)))
    as [[sidx|e] sa]; cbn [fst snd engine codeIndex codebaseIndexer globals
                           set_semanticAnalyzer dependencyGraph dependencyAnalyzer].
  2:{ repeat (split; [assumption || reflexivity|]). split; reflexivity. }
  unfold DependencyAnalyzer.buildDependencyGraph.
  pose proof (buildDependencyGraph_built DependencyAnalyzer.fs host idx
                (dependencyAnalyzer (engine p))) as Hb.
  pose proof (buildDependencyGraph_covers DependencyAnalyzer.fs host idx
                (dependencyAnalyzer (engine p))) as Hc.
  change (dependencyAnalyzer (engine (set_codeIndex idx (set_codebaseIndexer idx p))))
    with (dependencyAnalyzer (engine p)).
  rewrite Hb in *.
  cbn [fst snd engine codeIndex codebaseIndexer globals set_dependencyAnalyzer
       set_dependencyGraph dependencyGraph dependencyAnalyzer] in *.
  repeat (split; [assumption || reflexivity|]).
  eexists. split; [reflexivity|]. split; [reflexivity|]. split; [exact Hc|].
  destruct (consistent_functions_indexed _ _ Hcons) as [Hfi Hci].
  destruct Hc as (_ & Hfn & Hcl). split.
  - apply List.Forall_forall. intros func Hin.
    apply (proj2 (proj1 (List.Forall_forall _ _) Hfn func Hin)).
    exact (proj1 (List.Forall_forall _ _) Hfi func Hin).
  - apply List.Forall_forall. intros cls Hin.
    apply (proj1 (proj2 (proj1 (List.Forall_forall _ _) Hcl cls Hin))).
    exact (proj1 (List.Forall_forall _ _) Hci cls Hin).
Qed.

End Initialized.

(** ** Results of a search *)

Lemma findSimilarElements_thresholded_sorted_limited_parts
    (self : SemanticAnalyzer.t) (query : string) (opts : SemanticAnalyzer.Options) :
  Forall (fun r => (SemanticAnalyzer.r_similarity r
                    >= SemanticAnalyzer.threshold_of self opts)%R)
    (SemanticAnalyzer.findSimilarElements self query opts)
  /\ StronglySorted
       (fun a b => (SemanticAnalyzer.r_similarity a >= SemanticAnalyzer.r_similarity b)%R)
       (SemanticAnalyzer.findSimilarElements self query opts).
Proof.
  unfold SemanticAnalyzer.findSimilarElements. split.
  - apply Forall_take, sort_desc_Forall.
    repeat (apply Forall_app; split);
      match goal with |- Forall _ (if ?c then _ else _) => destruct c end;
      (apply search_above_threshold || constructor).
  - apply firstn_sorted, sort_desc_sorted.
Qed.
(** ** Merging the three searches *)

Section Combination.

Import MappingAlgorithm Combined.

Local Open Scope R_scope.

Lemma weighted_mean_between (lo hi s w r weight : R) :
  0 < w -> 0 < weight -> lo <= s <= hi -> lo <= r <= hi ->
  lo <= (s * w + r * weight) / (w + weight) <= hi.
Proof.
  intros Hw Hweight Hs Hr.
  assert (Hpos : 0 < w + weight) by lra.
  split.
  - apply Rmult_le_reg_r with (w + weight); [exact Hpos|].
    unfold Rdiv. rewrite Rmult_assoc, Rinv_l, Rmult_1_r; nra.
  - apply Rmult_le_reg_r with (w + weight); [exact Hpos|].
    unfold Rdiv. rewrite Rmult_assoc, Rinv_l, Rmult_1_r; nra.
Qed.

Lemma combine_one_keys key result weight m :
  map fst (combine_one key result weight m)
  = if existsb (String.eqb key) (map fst m) then map fst m
    else (map fst m ++ [key])%list.
Proof.
  induction m as [|[k existing] m IH]; simpl; [reflexivity|].
  rewrite (String.eqb_sym key k). destruct (String.eqb k key); simpl; [reflexivity|].
  rewrite IH. now destruct (existsb _ _).
Qed.

Lemma combine_one_merged (lo hi : R) result weight m :
  0 < weight -> lo <= SemanticAnalyzer.r_similarity result <= hi ->
  Forall (merged lo hi) m ->
  Forall (merged lo hi) (combine_one (key_of result) result weight m).
Proof.
  intros Hw Hr. induction 1 as [|[k existing] m Hk Hm IH]; simpl.
  - constructor; [|constructor]. unfold merged. simpl. repeat split; auto; lra.
  - destruct (String.eqb k (key_of result)); constructor; auto.
    destruct Hk as (H1 & H2 & H3 & H4 & H5). unfold merged in *. simpl in *.
    split; [exact H1|]. split; [lra|].
    split; [now apply weighted_mean_between|]. split; assumption.
Qed.

Lemma combined_map_spec (lo hi : R) (resultSets : list (list SemanticAnalyzer.Result * R)) :
  bounded lo hi resultSets ->
  forall m,
    NoDup (map fst m) -> Forall (merged lo hi) m ->
    let m' :=
      fold_left (fun acc set =>
        fold_left (fun acc result => combine_one (key_of result) result (snd set) acc)
          (fst set) acc) resultSets m in
    NoDup (map fst m') /\ Forall (merged lo hi) m'
    /\ (forall k, In k (map fst m')
                  <-> In k (map fst m) \/ In k (map key_of (all_results resultSets)))
    /\ (length m' <= length m + length (all_results resultSets))%nat.
Proof.
  induction 1 as [|[results weight] rest [Hw Hrs] _ IH]; intros m Hn Hm; simpl.
  - repeat split; auto; try tauto. lia.
  - simpl in Hw, Hrs.
    assert (Hinner : forall m0,
              NoDup (map fst m0) -> Forall (merged lo hi) m0 ->
              let m1 := fold_left (fun acc result =>
                                     combine_one (key_of result) result weight acc)
                          results m0 in
              NoDup (map fst m1) /\ Forall (merged lo hi) m1
              /\ (forall k, In k (map fst m1)
                            <-> In k (map fst m0) \/ In k (map key_of results))
              /\ (length m1 <= length m0 + length results)%nat).
    { clear IH Hn Hm m. induction Hrs as [|r rs Hr _ IHrs]; intros m0 Hn0 Hm0; simpl.
      - repeat split; auto; try tauto. lia.
      - pose proof (combine_one_keys (key_of r) r weight m0) as Hkeys.
        destruct (IHrs (combine_one (key_of r) r weight m0)) as (H1 & H2 & H3 & H4).
        + rewrite Hkeys. now apply added_key_NoDup.
        + now apply combine_one_merged.
        + split; [exact H1|]. split; [exact H2|]. split.
          * intros k. rewrite H3, Hkeys.
            destruct (existsb (String.eqb (key_of r)) (map fst m0)) eqn:He.
            -- apply existsb_exists in He as (k' & Hk' & Heq).
               apply String.eqb_eq in Heq. subst k'. intuition (subst; auto).
            -- rewrite in_app_iff. simpl. intuition.
          * pose proof (added_key_length (key_of r) (map fst m0)) as Hl.
            rewrite <- Hkeys, !length_map in Hl. lia. }
    destruct (Hinner m Hn Hm) as (H1 & H2 & H3 & H4).
    destruct (IH _ H1 H2) as (I1 & I2 & I3 & I4).
    split; [exact I1|]. split; [exact I2|]. split.
    + intros k. rewrite I3, H3, map_app, in_app_iff. tauto.
    + rewrite length_app. lia.
Qed.

Lemma combineSearchResults_spec (lo hi : R)
    (resultSets : list (list SemanticAnalyzer.Result * R)) :
  bounded lo hi resultSets ->
  let combined := combineSearchResults resultSets in
  NoDup (map getElementKey combined)
  /\ (forall k, In k (map getElementKey combined)
                <-> In k (map key_of (all_results resultSets)))
  /\ StronglySorted (fun a b => el_similarity a >= el_similarity b) combined
  /\ Forall (unranked lo hi) combined
  /\ (length combined <= length (all_results resultSets))%nat.
Proof.
  intros Hb. cbv zeta. unfold combineSearchResults.
  destruct (combined_map_spec lo hi resultSets Hb [] NoDup_nil_2 (List.Forall_nil _))
    as (H1 & H2 & H3 & H4).
  cbv zeta in H1, H2, H3, H4. fold key_of in *.
  set (m := fold_left _ resultSets []) in *.
  assert (Hkeys : map getElementKey (map snd m) = map fst m).
  { clear -H2. induction H2 as [|kv m' (Hk & _) _ IH]; simpl; [reflexivity|].
    now rewrite Hk, IH. }
  pose proof (sort_desc_permutation el_similarity (map snd m)) as Hperm.
  split; [|split; [|split; [|split]]].
  - rewrite (Permutation_map getElementKey Hperm), Hkeys. exact H1.
  - intros k. rewrite (Permutation_in' (eq_refl k) (Permutation_map getElementKey Hperm)),
      Hkeys, H3. simpl. tauto.
  - apply sort_desc_sorted.
  - apply sort_desc_Forall. apply Forall_map. eapply Forall_impl; [exact H2|].
    intros kv (_ & Hw & Hs & Hd & Hf). repeat split; assumption || apply Hs.
  - rewrite (Permutation_length Hperm), length_map. simpl in H4. exact H4.
Qed.

(** [combineSearchResults], when every set has a positive weight: the
    merged elements have distinct keys, exactly the keys of the results;
    they come in non-increasing order of similarity; the similarity of an
    element is a weighted mean of the similarities of the results with its
    key, so it lies in any interval that holds them all; and no element
    carries a dependency score or a final score. *)
Theorem combineSearchResults_deduplicates (lo hi : R)
    (resultSets : list (list SemanticAnalyzer.Result * R)) :
  bounded lo hi resultSets ->
  let combined := combineSearchResults resultSets in
  NoDup (map getElementKey combined)
  /\ (forall k, In k (map getElementKey combined)
                <-> In k (map key_of (all_results resultSets)))
  /\ StronglySorted (fun a b => el_similarity a >= el_similarity b) combined
  /\ Forall (unranked lo hi) combined
  /\ (length combined <= length (all_results resultSets))%nat.
Proof. apply combineSearchResults_spec. Qed.

Lemma combineSearchResults_deduplicates_witness :
  let hit similarity :=
    {| SemanticAnalyzer.r_type := "function"; SemanticAnalyzer.r_item := Scoring.foo_item;
       SemanticAnalyzer.r_similarity := similarity |} in
  let resultSets := [([hit 0.9], 0.3); ([hit 0.7], 0.4)] in
  bounded 0 1 resultSets
  /\ NoDup (map getElementKey (combineSearchResults resultSets))
  /\ (forall k, In k (map getElementKey (combineSearchResults resultSets))
                <-> In k (map key_of (all_results resultSets)))
  /\ StronglySorted (fun a b => el_similarity a >= el_similarity b)
       (combineSearchResults resultSets)
  /\ Forall (unranked 0 1) (combineSearchResults resultSets)
  /\ (length (combineSearchResults resultSets) <= length (all_results resultSets))%nat.
Proof.
  intros hit resultSets.
  assert (H : bounded 0 1 resultSets).
  { repeat constructor; simpl; lra. }
  split; [exact H | exact (combineSearchResults_deduplicates 0 1 resultSets H)].
Defined.

Lemma similarities_have_a_bound (results : list SemanticAnalyzer.Result) :
  exists hi, Forall (fun r => SemanticAnalyzer.r_similarity r <= hi) results.
Proof.
  induction results as [|r rs [hi IH]]; [exists 0; constructor|].
  exists (Rmax (SemanticAnalyzer.r_similarity r) hi). constructor; [apply Rmax_l|].
  eapply Forall_impl; [exact IH|]. intros r' Hr'. simpl in *.
  pose proof (Rmax_r (SemanticAnalyzer.r_similarity r) hi). lra.
Qed.

Lemma findSimilarElements_at_least (sa : SemanticAnalyzer.t) (query : string)
    (threshold lo : R) :
  lo <= threshold ->
  Forall (fun r => lo <= SemanticAnalyzer.r_similarity r)
    (SemanticAnalyzer.findSimilarElements sa query
       {| SemanticAnalyzer.o_limit := None; SemanticAnalyzer.o_types := None;
          SemanticAnalyzer.o_threshold := Some threshold |}).
Proof.
  intros Hlo.
  destruct (findSimilarElements_thresholded_sorted_limited_parts sa query
              {| SemanticAnalyzer.o_limit := None; SemanticAnalyzer.o_types := None;
                 SemanticAnalyzer.o_threshold := Some threshold |}) as [H _].
  eapply Forall_impl; [exact H|]. intros r Hr. simpl in Hr.
  unfold SemanticAnalyzer.threshold_of in Hr. simpl in Hr. lra.
Qed.

Lemma findSimilarCodeElements_unranked (self : t) (taskAnalysis : TaskAnalysis)
    (sa : SemanticAnalyzer.t) :
  0 <= similarityThreshold (config self) ->
  exists hi,
    let elements := findSimilarCodeElements self taskAnalysis sa in
    Forall (unranked (similarityThreshold (config self) * 0.8) hi) elements
    /\ StronglySorted (fun a b => el_similarity a >= el_similarity b) elements
    /\ NoDup (map getElementKey elements).
Proof.
  intros Ht. unfold findSimilarCodeElements.
  set (threshold := similarityThreshold (config self)) in *.
  set (options factor :=
         {| SemanticAnalyzer.o_limit := None; SemanticAnalyzer.o_types := None;
            SemanticAnalyzer.o_threshold := Some factor |}).
  set (titleResults := SemanticAnalyzer.findSimilarElements sa _ _).
  set (descriptionResults := SemanticAnalyzer.findSimilarElements sa _ _).
  set (keywordResults := SemanticAnalyzer.findSimilarElements sa _ _).
  destruct (similarities_have_a_bound
              (titleResults ++ descriptionResults ++ keywordResults)%list) as [hi Hhi].
  apply Forall_app in Hhi as [Hh1 Hhi]. apply Forall_app in Hhi as [Hh2 Hh3].
  exists hi. cbv zeta.
  assert (Hb : bounded (threshold * 0.8) hi
                 [(titleResults, 0.3); (descriptionResults, 0.4); (keywordResults, 0.3)]).
  { repeat constructor; simpl; try lra.
    - apply Forall_and. split; [|exact Hh1].
      apply findSimilarElements_at_least. lra.
    - apply Forall_and. split; [|exact Hh2].
      apply findSimilarElements_at_least. lra.
    - apply Forall_and. split; [|exact Hh3].
      apply findSimilarElements_at_least. lra. }
  destruct (combineSearchResults_spec _ _ _ Hb) as (H1 & _ & H3 & H4 & _).
  repeat split; assumption.
Qed.

Lemma StronglySorted_map {A B} (RA : A -> A -> Prop) (RB : B -> B -> Prop) (f : A -> B)
    (l : list A) :
  (forall x y, RA x y -> RB (f x) (f y)) ->
  StronglySorted RA l -> StronglySorted RB (map f l).
Proof.
  intros Hf. induction 1 as [|x l Hl IH Hx]; simpl; constructor; [exact IH|].
  apply Forall_map. eapply Forall_impl; [exact Hx|]. intros y. apply Hf.
Qed.

(** [mapTask] when [global.semanticAnalyzer] is set and the graph is plain
    data or absent, as in the engine, and the threshold is not negative:
    it returns, without touching [global], at most [maxResults] results in
    non-increasing order of similarity; no dependency enters the ranking:
    every result has dependency score 0, final score equal to its
    similarity, and the confidence of its similarity; its similarity is at
    least 0.8 times the threshold; and it carries the id, title and type
    of the task. *)
Theorem mapTask_without_traversal (self : t) (task : Task)
    (codeIndex : CodebaseIndexer.CodeIndex) (g : option DependencyAnalyzer.Graph)
    (globals : Global.t) (sa : SemanticAnalyzer.t) :
  Global.semanticAnalyzer globals = Some sa ->
  0 <= similarityThreshold (config self) ->
  exists results,
    mapTask self task codeIndex (option_map GraphObject.of_graph g) globals
    = (Js.Return results, globals)
    /\ (length results <= maxResults (config self))%nat
    /\ StronglySorted (fun a b => mr_similarity a >= mr_similarity b) results
    /\ Forall (fun r =>
                 mr_dependencyScore r = 0
                 /\ mr_finalScore r = mr_similarity r
                 /\ mr_confidence r = calculateConfidence (mr_similarity r)
                 /\ mr_similarity r >= similarityThreshold (config self) * 0.8
                 /\ mr_task_id r = task_id task
                 /\ mr_task_title r = task_title task
                 /\ mr_task_type r = task_type task)
         results.
Proof.
  intros Hsa Ht. unfold mapTask, Js.bind, Js.get, Js.of_option. rewrite Hsa. simpl.
  destruct (findSimilarCodeElements_unranked self (analyzeTask task) sa Ht)
    as (hi & Hu & Hs & _).
  set (elements := findSimilarCodeElements self (analyzeTask task) sa) in *.
  assert (Hrank : rankResultsByDependencies elements
                    (option_map GraphObject.of_graph g) task = Js.Return elements).
  { destruct g; reflexivity. }
  rewrite Hrank. eexists. split; [reflexivity|].
  unfold generateMappingResults. split; [|split].
  - rewrite length_map. apply firstn_le_length.
  - apply (StronglySorted_map (fun a b => el_similarity a >= el_similarity b));
      [auto | now apply firstn_sorted].
  - apply Forall_map, Forall_take. eapply Forall_impl; [exact Hu|].
    intros element (_ & [Hlo _] & Hd & Hf). simpl. rewrite Hd, Hf. simpl.
    repeat split; try reflexivity. lra.
Qed.

End Combination.

(** ** Queries and the semantic index *)

Section SemanticIndexFacts.

Import SemanticAnalyzer Semantics Effects.

Local Open Scope R_scope.

Lemma averageIdf_unknown (self : t) (token : string) :
  unknown self token -> averageIdf self token = 0.
Proof.
  intros Hu. unfold averageIdf.
  replace (List.filter (fun doc => document_has self doc token) (tfidf self))
    with (@nil Document).
  - reflexivity.
  - symmetry. induction Hu as [|doc docs Hd _ IH]; simpl; [reflexivity|].
    now rewrite Hd.
Qed.

Lemma queryVector_of_unknown (self : t) (queryTokens : list string) :
  Forall (unknown self) queryTokens ->
  map_Forall (fun _ x => x = 0) (queryVector_of self queryTokens).
Proof.
  unfold queryVector_of. generalize (∅ : VectorUtils.Vector) (map_Forall_empty (M := gmap string)
    (fun (_ : string) (x : R) => x = 0)).
  intros v Hv Hu. revert v Hv.
  induction Hu as [|token tokens Ht _ IH]; intros v Hv; simpl; [exact Hv|].
  apply IH. unfold JsObject.set_primitive.
  destruct (String.eqb token "__proto__"); [exact Hv|].
  apply map_Forall_insert_2; [now apply averageIdf_unknown | exact Hv].
Qed.

Lemma magnitude_of_zeros (v : VectorUtils.Vector) :
  map_Forall (fun _ x => x = 0) v -> VectorUtils.magnitude v = 0.
Proof.
  intros Hv. unfold VectorUtils.magnitude. rewrite sum_squares_entries.
  apply map_Forall_to_list in Hv.
  replace (Vectors.entries_squares (map_to_list v)) with 0; [apply sqrt_0|].
  induction Hv as [|[k x] l Hx _ IH]; simpl; [reflexivity|].
  simpl in Hx. rewrite <- IH, Hx. lra.
Qed.

Lemma search_of_zeros (kind : string) (queryVector : VectorUtils.Vector) (threshold : R)
    (d : Dict) :
  VectorUtils.magnitude queryVector = 0 -> 0 < threshold ->
  search kind queryVector threshold d = [].
Proof.
  intros Hm Ht. unfold search. induction d as [|entry d IH]; simpl; [reflexivity|].
  rewrite IH, app_nil_r. unfold calculateSimilarity.
  assert (Hd : VectorUtils.cosineDistance (Some queryVector) (it_vector (snd entry))
               = Some 1).
  { destruct (it_vector (snd entry)) as [v|]; [|reflexivity].
    apply cosineDistance_guarded. auto. }
  rewrite Hd. unfold geb. destruct (Rle_dec threshold (1 - 1)); [lra | reflexivity].
Qed.

Lemma findSimilarElements_of_unknown (self : t) (query : string) (opts : Options) :
  Forall (unknown self) (tokenizeAndStem self query) ->
  0 < threshold_of self opts ->
  findSimilarElements self query opts = [].
Proof.
  intros Hu Ht. unfold findSimilarElements.
  pose proof (magnitude_of_zeros _ (queryVector_of_unknown self _ Hu)) as Hm.
  rewrite !(search_of_zeros _ _ _ _ Hm Ht).
  repeat match goal with |- context [if ?c then _ else _] => destruct c end;
    simpl; apply firstn_nil.
Qed.

(** A query none of whose tokens a document of the corpus holds (an empty
    query among them) finds nothing when the threshold is positive: its
    vector holds only zeros, so its similarity to every entry is 0. *)
Theorem unknown_query_finds_nothing (self : t) (query : string) (opts : Options) :
  Forall (unknown self) (tokenizeAndStem self query) ->
  0 < threshold_of self opts ->
  findSimilarElements self query opts = [].
Proof.
  intros Hu Ht. unfold findSimilarElements.
  assert (Hm : VectorUtils.magnitude (queryVector_of self (tokenizeAndStem self query)) = 0)
    by (apply magnitude_of_zeros, queryVector_of_unknown, Hu).
  destruct (includes (types_of opts) "files"), (includes (types_of opts) "functions"),
    (includes (types_of opts) "classes");
    rewrite ?(search_of_zeros _ _ _ _ Hm Ht); apply firstn_nil.
Qed.

(** On the analyzer that has analysed the function [total]: the corpus
    has a document and the index an entry with a vector, and the query
    [zzz], whose only token no document holds, finds nothing. *)
Lemma unknown_query_finds_nothing_witness :
  let self := Run.analysed in
  tfidf self <> []
  /\ section_of Functions (semanticIndex self)
     = [("function:/repo/a.js:total", Run.total_item)]
  /\ tokenizeAndStem self "zzz" = ["zzz"]
  /\ Forall (unknown self) (tokenizeAndStem self "zzz")
  /\ 0 < threshold_of self no_options
  /\ findSimilarElements self "zzz" no_options = [].
Proof.
  intros self.
  assert (Hu : Forall (unknown self) (tokenizeAndStem self "zzz")).
  { vm_compute. repeat constructor. }
  assert (Ht : 0 < threshold_of self no_options) by (unfold threshold_of; simpl; lra).
  split; [vm_compute; discriminate|]. split; [vm_compute; reflexivity|].
  split; [vm_compute; reflexivity|]. split; [exact Hu|]. split; [exact Ht|].
  exact (unknown_query_finds_nothing self "zzz" no_options Hu Ht).
Defined.

Lemma dict_set_Forall (P : string * Item -> Prop) (k : string) (v : Item) (d : Dict) :
  P (k, v) -> Forall P d -> Forall P (dict_set k v d).
Proof.
  intros Hv. induction 1 as [|[k' v'] d Hk Hd IH]; simpl.
  - constructor; [exact Hv | constructor].
  - destruct (String.eqb k k'); constructor; assumption.
Qed.

Lemma dict_get_Forall (P : string * Item -> Prop) (d : Dict) (k : string) (v : Item) :
  Forall P d -> dict_get d k = Some v -> P (k, v).
Proof.
  induction 1 as [|[k' v'] d Hk Hd IH]; simpl; [discriminate|].
  destruct (String.eqb_spec k k') as [->|Hne]; [|exact IH].
  intros [= <-]. exact Hk.
Qed.

Lemma store_shaped (sec : Section_) (k : string) (v : Item) :
  entry_of sec (k, v) -> preserves shaped (store sec k v).
Proof.
  intros Hv self Hs sec'. unfold store, Js.modify. cbn [snd semanticIndex set_semanticIndex].
  specialize (Hs sec') as Hsec'. pose proof (Hs sec) as Hsec.
  destruct sec, sec'; cbn [section_of set_section files functions classes] in *;
    try assumption; now apply dict_set_Forall.
Qed.

Lemma addDocument_shaped (tokens : list string) (key : string) :
  preserves shaped (addDocument tokens key).
Proof. intros self Hs. exact Hs. Qed.

Lemma entry_of_with_vector (sec : Section_) (k : string) (v : VectorUtils.Vector)
    (item : Item) :
  entry_of sec (k, item) -> entry_of sec (k, with_vector v item).
Proof. destruct sec; exact (fun H => H). Qed.

Lemma entry_of_with_keywords (sec : Section_) (k : string) (kws : list Keyword)
    (item : Item) :
  entry_of sec (k, item) -> entry_of sec (k, with_keywords kws item).
Proof. destruct sec; exact (fun H => H). Qed.

Lemma complete_entry_shaped (sec : Section_) (docId : string) :
  preserves shaped (complete_entry sec docId).
Proof.
  intros self Hs. unfold complete_entry, Js.bind at 1, Js.get at 1.
  destruct (dict_get (section_of sec (semanticIndex self)) docId) as [semantics|] eqn:Hget;
    [|exact Hs].
  pose proof (dict_get_Forall _ _ _ _ (Hs sec) Hget) as Hitem.
  unfold Js.bind at 1, Js.of_option, Js.ret.
  unfold Js.bind at 1, calculateTfIdfVector.
  destruct (tfidf_vector self docId _ ∅) as [vector|e]; [|exact Hs].
  apply preserves_bind; [|intros _; apply preserves_bind;
                            [apply preserves_get | intros self'] | exact Hs];
    apply store_shaped.
  - now apply entry_of_with_vector.
  - now apply entry_of_with_keywords, entry_of_with_vector.
Qed.

Lemma analyzeCodebase_shaped (codeIndex : CodebaseIndexer.CodeIndex) (self : t) :
  shaped (snd (analyzeCodebase codeIndex self)).
Proof.
  unfold analyzeCodebase.
  unfold Js.bind at 1, Js.modify at 1. unfold Js.bind at 1, Js.modify at 1.
  match goal with |- shaped (snd (?m ?s0)) =>
    cut (preserves shaped m);
      [intros Hp; apply Hp; intros sec; destruct sec; constructor|]
  end.
  apply preserves_bind.
  { unfold analyzeFiles. apply preserves_bind; [|intros _];
      apply preserves_for_of; intros file; [|apply complete_entry_shaped].
    apply preserves_bind; [apply preserves_get|]. intros self0.
    apply preserves_bind; [apply addDocument_shaped|]. intros _.
    apply store_shaped. repeat split. }
  intros _. apply preserves_bind.
  { unfold analyzeFunctions. apply preserves_bind; [|intros _];
      apply preserves_for_of; intros func; [|apply complete_entry_shaped].
    apply preserves_bind; [apply preserves_get|]. intros self0.
    apply preserves_bind; [apply addDocument_shaped|]. intros _.
    apply store_shaped. repeat split; simpl; eauto. }
  intros _. apply preserves_bind.
  { unfold analyzeClasses. apply preserves_bind; [|intros _];
      apply preserves_for_of; intros cls; [|apply complete_entry_shaped].
    apply preserves_bind; [apply preserves_get|]. intros self0.
    apply preserves_bind; [apply addDocument_shaped|]. intros _.
    apply store_shaped. repeat split; simpl; eauto. }
  intros _. apply preserves_bind; [apply preserves_get | intros; apply preserves_ret].
Qed.

Lemma returns_own_index_bind {A} (m : Js.M t A) (k : A -> Js.M t SemanticIndex) :
  (forall a self, match fst (k a self) with
                  | Js.Return idx => idx = semanticIndex (snd (k a self))
                  | Js.Throw _ => True
                  end) ->
  forall self, match fst (Js.bind m k self) with
               | Js.Return idx => idx = semanticIndex (snd (Js.bind m k self))
               | Js.Throw _ => True
               end.
Proof.
  intros Hk self. unfold Js.bind.
  destruct (m self) as [[a|e] self']; [apply Hk | exact I].
Qed.

(** Whether it returns or throws, [analyzeCodebase] leaves a semantic
    index in which every file entry holds its path and neither [name] nor
    [filePath], and every function and class entry is stored under the
    key that [getElementKey] forms for it, which is also the identifier
    of its node in the dependency graph; and when it returns, it returns
    the index it leaves in the analyzer. *)
Theorem analyzeCodebase_keys_the_index (codeIndex : CodebaseIndexer.CodeIndex) (self : t) :
  let out := analyzeCodebase codeIndex self in
  shaped (snd out)
  /\ match fst out with
     | Js.Return idx => idx = semanticIndex (snd out)
     | Js.Throw _ => True
     end
  /\ Forall (fun func => function_docId func = Built.function_id func)
       (CodebaseIndexer.functions codeIndex)
  /\ Forall (fun cls => class_docId cls = Built.class_id cls)
       (CodebaseIndexer.classes codeIndex).
Proof.
  cbv zeta. split; [|split; [|split; apply List.Forall_forall; reflexivity]].
  - apply analyzeCodebase_shaped.
  - unfold analyzeCodebase.
    do 5 (apply returns_own_index_bind; intros ? ?).
    reflexivity.
Qed.

End SemanticIndexFacts.

(** ** A task on an analysed code base *)

Section AnalysedCorpus.

Import SemanticAnalyzer Semantics MappingAlgorithm.

Local Open Scope R_scope.

Lemma analysed_index :
  semanticIndex Run.analysed
  = {| files := []; functions := [("function:/repo/a.js:total", Run.total_item)];
       classes := [] |}.
Proof. vm_compute. reflexivity. Qed.

Lemma averageIdf_total : averageIdf Run.analysed "total" = 1.
Proof.
  unfold averageIdf.
  replace (List.filter (fun doc => document_has Run.analysed doc "total")
             (tfidf Run.analysed))
    with (tfidf Run.analysed) by (vm_compute; reflexivity).
  replace (tfidf Run.analysed)
    with [{| doc_tokens := ["total"; "function total() {}"];
             doc_key := "function:/repo/a.js:total" |}]
    by (vm_compute; reflexivity).
  simpl. field.
Qed.

(** The query [{total: 1}] against the vector of [total], which has a
    second term for the text of the function: the cosine is [1 / sqrt 2]. *)
Lemma similarity_of_total :
  let v : VectorUtils.Vector := {["total" := 1; "function total() {}" := 1]} in
  calculateSimilarity (Some {["total" := 1]}) (Some v) = Some (1 - (1 - 1 / (1 * sqrt 2))).
Proof.
  intros v. unfold calculateSimilarity.
  assert (M1 : VectorUtils.magnitude {["total" := 1]} = 1)
    by (rewrite magnitude_singleton; apply Rabs_R1).
  assert (M2 : VectorUtils.magnitude v = sqrt 2).
  { unfold VectorUtils.magnitude. rewrite sum_squares_entries. f_equal.
    replace (map_to_list v) with [("function total() {}", 1); ("total", 1)]
      by (vm_compute; reflexivity).
    simpl. lra. }
  assert (Hpos : 0 < sqrt 2) by (apply sqrt_lt_R0; lra).
  rewrite cosineDistance_unguarded; [|rewrite M1; lra | rewrite M2; lra | reflexivity].
  rewrite M1, M2. do 3 f_equal.
  rewrite dotProduct_entries, map_to_list_singleton. simpl.
  unfold Vectors.weight_in.
  replace (v !! "total") with (Some 1) by (vm_compute; reflexivity). simpl. lra.
Qed.

Lemma sqrt_2_bound : sqrt 2 <= 1.5.
Proof. rewrite <- (sqrt_square 1.5) by lra. apply sqrt_le_1_alt. lra. Qed.

Lemma total_is_found (threshold : R) :
  threshold <= 0.6 ->
  findSimilarElements Run.analysed "total"
    {| o_limit := None; o_types := None; o_threshold := Some threshold |}
  = [{| r_type := "function"; r_item := Run.total_item;
        r_similarity := 1 - (1 - 1 / (1 * sqrt 2)) |}].
Proof.
  intros Ht. unfold findSimilarElements.
  replace (tokenizeAndStem Run.analysed "total") with ["total"] by (vm_compute; reflexivity).
  rewrite analysed_index. cbn [types_of o_types default includes existsb String.eqb
    Ascii.eqb Bool.eqb orb files functions classes search flat_map app limit_of o_limit
    threshold_of o_threshold snd it_vector Run.total_item].
  unfold queryVector_of. cbn [fold_left]. unfold JsObject.set_primitive.
  cbn [String.eqb Ascii.eqb Bool.eqb]. rewrite averageIdf_total, insert_empty.
  rewrite similarity_of_total.
  unfold geb. destruct (Rle_dec _ _) as [_|Hn]; [reflexivity|].
  exfalso. apply Hn. pose proof sqrt_2_bound.
  assert (0 < sqrt 2) by (apply sqrt_lt_R0; lra).
  assert (Hinv : / 1.5 <= / sqrt 2) by (apply Rinv_le_contravar; lra).
  replace (1 / (1 * sqrt 2)) with (/ sqrt 2) by (field; lra).
  simpl. lra.
Qed.

Lemma empty_query_finds_nothing (threshold : R) :
  0 < threshold ->
  findSimilarElements Run.analysed ""
    {| o_limit := None; o_types := None; o_threshold := Some threshold |} = [].
Proof.
  intros Ht. apply findSimilarElements_of_unknown; [|exact Ht].
  replace (tokenizeAndStem Run.analysed "") with (@nil string) by (vm_compute; reflexivity).
  constructor.
Qed.

Lemma total_is_the_one_element :
  length (findSimilarCodeElements {| config := default_config |}
            (analyzeTask Run.task_total) Run.analysed) = 1%nat.
Proof.
  unfold findSimilarCodeElements.
  cbn [analyzeTask ta_title ta_description ta_keywords Run.task_total task_title
    task_description task_keywords or_empty default String.concat config default_config
    similarityThreshold].
  change (Datatypes.id "total") with "total".
  rewrite (total_is_found (0.7 * 0.8)) by lra.
  rewrite !empty_query_finds_nothing by lra.
  reflexivity.
Qed.

(** On the analyzer that has analysed the function [total], with the
    task whose title is [total] and the plain graph data of the engine:
    the hypotheses hold, and the result has one element, so that what the
    theorem says of every result is said of it. *)
Lemma mapTask_without_traversal_witness :
  let self := {| config := default_config |} in
  let sa := Run.analysed in
  let globals := {| Global.semanticAnalyzer := Some sa |} in
  Global.semanticAnalyzer globals = Some sa
  /\ 0 <= similarityThreshold (config self)
  /\ exists results,
       mapTask self Run.task_total Run.one_function
         (option_map GraphObject.of_graph (Some DependencyAnalyzer.empty_graph)) globals
       = (Js.Return results, globals)
       /\ length results = 1%nat
       /\ (length results <= maxResults (config self))%nat
       /\ StronglySorted (fun a b => mr_similarity a >= mr_similarity b) results
       /\ Forall (fun r =>
                    mr_dependencyScore r = 0
                    /\ mr_finalScore r = mr_similarity r
                    /\ mr_confidence r = calculateConfidence (mr_similarity r)
                    /\ mr_similarity r >= similarityThreshold (config self) * 0.8
                    /\ mr_task_id r = task_id Run.task_total
                    /\ mr_task_title r = task_title Run.task_total
                    /\ mr_task_type r = task_type Run.task_total)
            results.
Proof.
  intros self sa globals.
  assert (Ht : 0 <= similarityThreshold (config self)) by (simpl; lra).
  split; [reflexivity|]. split; [exact Ht|].
  destruct (mapTask_without_traversal self Run.task_total Run.one_function
              (Some DependencyAnalyzer.empty_graph) globals sa eq_refl Ht)
    as (results & Hrun & Hrest).
  exists results. split; [exact Hrun|]. split; [|exact Hrest].
  assert (Hvalue : mapTask self Run.task_total Run.one_function
                     (option_map GraphObject.of_graph (Some DependencyAnalyzer.empty_graph))
                     globals
                   = (Js.Return
                        (generateMappingResults self
                           (findSimilarCodeElements self (analyzeTask Run.task_total) sa)
                           Run.task_total), globals)) by reflexivity.
  rewrite Hvalue in Hrun. injection Hrun as <-.
  unfold generateMappingResults. rewrite length_map, length_firstn.
  unfold self, sa. rewrite total_is_the_one_element. reflexivity.
Defined.

End AnalysedCorpus.

(** ** File hits in a mapping *)

Section FileHits.

Import MappingAlgorithm Combined Semantics.

Local Open Scope R_scope.

Lemma search_hits (sec : SemanticAnalyzer.Section_) (kind : string)
    (queryVector : VectorUtils.Vector) (threshold : R) (d : SemanticAnalyzer.Dict) :
  kind = match sec with
         | SemanticAnalyzer.Files => "file"
         | SemanticAnalyzer.Functions => "function"
         | SemanticAnalyzer.Classes => "class"
         end ->
  Forall (entry_of sec) d ->
  Forall (fun r => hit (SemanticAnalyzer.r_type r) (SemanticAnalyzer.r_item r))
    (SemanticAnalyzer.search kind queryVector threshold d).
Proof.
  intros -> Hd. unfold SemanticAnalyzer.search.
  induction Hd as [|entry d He _ IH]; simpl; [constructor|].
  apply Forall_app. split; [|exact IH].
  destruct (SemanticAnalyzer.calculateSimilarity _ _) as [similarity|]; [|constructor].
  destruct (SemanticAnalyzer.geb similarity threshold); constructor; [|constructor].
  unfold hit. destruct sec; simpl in *.
  - destruct He as (_ & Hn & Hf). unfold item_key. now rewrite Hn, Hf.
  - destruct He as (_ & Hn & Hf). split; assumption.
  - destruct He as (_ & Hn & Hf). split; assumption.
Qed.

Lemma findSimilarElements_hits (sa : SemanticAnalyzer.t) (query : string)
    (opts : SemanticAnalyzer.Options) :
  shaped sa ->
  Forall (fun r => hit (SemanticAnalyzer.r_type r) (SemanticAnalyzer.r_item r))
    (SemanticAnalyzer.findSimilarElements sa query opts).
Proof.
  intros Hs. unfold SemanticAnalyzer.findSimilarElements.
  apply Forall_take, sort_desc_Forall.
  repeat (apply Forall_app; split);
    match goal with |- Forall _ (if ?c then _ else _) => destruct c end;
    try constructor.
  - apply (search_hits SemanticAnalyzer.Files); [reflexivity | apply (Hs SemanticAnalyzer.Files)].
  - apply (search_hits SemanticAnalyzer.Functions);
      [reflexivity | apply (Hs SemanticAnalyzer.Functions)].
  - apply (search_hits SemanticAnalyzer.Classes);
      [reflexivity | apply (Hs SemanticAnalyzer.Classes)].
Qed.

Lemma combine_one_items (Q : string -> SemanticAnalyzer.Item -> Prop) key result weight m :
  Q (SemanticAnalyzer.r_type result) (SemanticAnalyzer.r_item result) ->
  Forall (fun kv => Q (el_type (snd kv)) (el_item (snd kv))) m ->
  Forall (fun kv => Q (el_type (snd kv)) (el_item (snd kv)))
    (combine_one key result weight m).
Proof.
  intros Hr. induction 1 as [|[k existing] m Hk Hm IH]; simpl.
  - constructor; [exact Hr | constructor].
  - destruct (String.eqb k key); constructor; assumption.
Qed.

Lemma combineSearchResults_items (Q : string -> SemanticAnalyzer.Item -> Prop)
    (resultSets : list (list SemanticAnalyzer.Result * R)) :
  Forall (fun set =>
            Forall (fun r => Q (SemanticAnalyzer.r_type r) (SemanticAnalyzer.r_item r))
              (fst set)) resultSets ->
  Forall (fun element => Q (el_type element) (el_item element))
    (combineSearchResults resultSets).
Proof.
  intros Hsets. unfold combineSearchResults. apply sort_desc_Forall, Forall_map.
  generalize (List.Forall_nil (fun kv : string * Element =>
                                 Q (el_type (snd kv)) (el_item (snd kv)))).
  generalize (@nil (string * Element)).
  induction Hsets as [|[results weight] rest Hrs _ IH]; intros m Hm; simpl; [exact Hm|].
  apply IH. simpl in Hrs. clear IH. revert m Hm.
  induction Hrs as [|r rs Hr _ IHrs]; intros m Hm; simpl; [exact Hm|].
  apply IHrs. now apply combine_one_items.
Qed.

Lemma similarities_have_a_floor (results : list SemanticAnalyzer.Result) :
  exists lo, Forall (fun r => lo <= SemanticAnalyzer.r_similarity r) results.
Proof.
  induction results as [|r rs [lo IH]]; [exists 0; constructor|].
  exists (Rmin (SemanticAnalyzer.r_similarity r) lo). constructor; [apply Rmin_l|].
  eapply Forall_impl; [exact IH|]. intros r' Hr'. simpl in *.
  pose proof (Rmin_r (SemanticAnalyzer.r_similarity r) lo). lra.
Qed.

Lemma findSimilarCodeElements_keys (self : t) (taskAnalysis : TaskAnalysis)
    (sa : SemanticAnalyzer.t) :
  NoDup (map getElementKey (findSimilarCodeElements self taskAnalysis sa)).
Proof.
  unfold findSimilarCodeElements.
  set (titleResults := SemanticAnalyzer.findSimilarElements sa _ _).
  set (descriptionResults := SemanticAnalyzer.findSimilarElements sa _ _).
  set (keywordResults := SemanticAnalyzer.findSimilarElements sa _ _).
  destruct (similarities_have_a_bound
              (titleResults ++ descriptionResults ++ keywordResults)%list) as [hi Hhi].
  destruct (similarities_have_a_floor
              (titleResults ++ descriptionResults ++ keywordResults)%list) as [lo Hlo].
  apply Forall_app in Hhi as [Hh1 Hhi]. apply Forall_app in Hhi as [Hh2 Hh3].
  apply Forall_app in Hlo as [Hl1 Hlo]. apply Forall_app in Hlo as [Hl2 Hl3].
  assert (Hb : bounded lo hi
                 [(titleResults, 0.3); (descriptionResults, 0.4); (keywordResults, 0.3)]).
  { repeat constructor; simpl; try lra; apply Forall_and; split; assumption. }
  apply (combineSearchResults_spec _ _ _ Hb).
Qed.

Lemma at_most_one_with_key {A} (f : A -> string) (p : A -> bool) (c : string)
    (l : list A) :
  NoDup (map f l) -> Forall (fun x => p x = true -> f x = c) l ->
  (length (List.filter p l) <= 1)%nat.
Proof.
  intros Hn Hl. induction Hl as [|x l Hx Hl IH]; simpl; [lia|].
  apply NoDup_cons in Hn as [Hnot Hn]. specialize (IH Hn).
  destruct (p x) eqn:Hp; [|exact IH]. simpl.
  replace (List.filter p l) with (@nil A); [simpl; lia|].
  symmetry. clear IH. induction Hl as [|y l Hy Hl IH]; simpl; [reflexivity|].
  simpl in Hnot, Hn. apply NoDup_cons in Hn as [_ Hn].
  destruct (p y) eqn:Hpy.
  - exfalso. apply Hnot. rewrite (Hx eq_refl), <- (Hy eq_refl). constructor.
  - apply IH; [|exact Hn]. intros Hin. apply Hnot. now constructor.
Qed.

(** After [analyzeCodebase], whether it returned or threw: the elements
    that [findSimilarCodeElements] returns hold at most one element of
    type [file], whatever the task and however many files match, because
    the entry of a file has neither [filePath] nor [name] and every file
    hit gets the key ["file:undefined:undefined"]; every other element
    has both. *)
Theorem file_hits_collapse (self : t) (taskAnalysis : TaskAnalysis)
    (codeIndex : CodebaseIndexer.CodeIndex) (sa0 : SemanticAnalyzer.t) :
  let sa := snd (SemanticAnalyzer.analyzeCodebase codeIndex sa0) in
  let elements := findSimilarCodeElements self taskAnalysis sa in
  (length (List.filter is_file elements) <= 1)%nat
  /\ Forall (fun element =>
               if is_file element
               then getElementKey element = "file:undefined:undefined"
               else is_Some (SemanticAnalyzer.it_name (el_item element))
                    /\ is_Some (SemanticAnalyzer.it_filePath (el_item element)))
       elements.
Proof.
  cbv zeta. pose proof (analyzeCodebase_shaped codeIndex sa0) as Hs.
  set (sa := snd (SemanticAnalyzer.analyzeCodebase codeIndex sa0)) in *.
  assert (Hhits : Forall (fun element => hit (el_type element) (el_item element))
                    (findSimilarCodeElements self taskAnalysis sa)).
  { unfold findSimilarCodeElements. apply combineSearchResults_items.
    repeat constructor; simpl; now apply findSimilarElements_hits. }
  assert (Hshape : Forall (fun element =>
                             if is_file element
                             then getElementKey element = "file:undefined:undefined"
                             else is_Some (SemanticAnalyzer.it_name (el_item element))
                                  /\ is_Some (SemanticAnalyzer.it_filePath (el_item element)))
                     (findSimilarCodeElements self taskAnalysis sa)).
  { eapply Forall_impl; [exact Hhits|]. intros element. unfold hit, is_file.
    now destruct (String.eqb (el_type element) "file"). }
  split; [|exact Hshape].
  apply (at_most_one_with_key getElementKey is_file "file:undefined:undefined").
  - apply findSimilarCodeElements_keys.
  - eapply Forall_impl; [exact Hshape|]. intros element H Hf. cbv beta in H. now rewrite Hf in H.
Qed.

End FileHits.

(** ** The kinds of edge of a built graph *)

Section EdgeSchema.

Import DependencyAnalyzer GraphCalls Effects Built.

Lemma prefix_cons (a b : ascii) (s t : string) :
  String.prefix (String a s) (String b t) = true -> a = b /\ String.prefix s t = true.
Proof. simpl. destruct (ascii_dec a b); [auto | discriminate]. Qed.

Lemma starts_one_type (a b id : string) :
  In a ["file"; "function"; "class"; "method"] ->
  In b ["file"; "function"; "class"; "method"] ->
  starts a id -> starts b id -> a = b.
Proof.
  unfold starts. simpl.
  intros [<-|[<-|[<-|[<-|[]]]]] [<-|[<-|[<-|[<-|[]]]]] Ha Hb; try reflexivity; exfalso;
    destruct id as [|c1 [|c2 id]]; try discriminate;
    apply prefix_cons in Ha as [Ha1 Ha]; apply prefix_cons in Hb as [Hb1 Hb];
    try (rewrite <- Ha1 in Hb1; discriminate);
    apply prefix_cons in Ha as [Ha2 _]; apply prefix_cons in Hb as [Hb2 _];
    rewrite <- Ha2 in Hb2; discriminate.
Qed.

Lemma node_type_known (n : Node) :
  In (node_type n) ["file"; "function"; "class"; "method"].
Proof. destruct n; simpl; auto. Qed.

Lemma addEdge_linked s t ty md :
  linked s t ty ->
  preserves (fun self => linked_edges (dependencyGraph self)) (addEdge s t ty md).
Proof.
  intros Hl self He. unfold linked_edges in *. simpl. unfold addEdge_graph.
  destruct (JsObject.get _ s); [|exact He]. destruct (JsObject.get _ t); [|exact He].
  destruct (find _ _); simpl.
  - apply assign_metadata_forall; [auto | exact He].
  - apply Forall_app. split; [exact He|]. constructor; [exact Hl | constructor].
Qed.

Lemma built_linked fsobj host codeIndex self :
  linked_edges (dependencyGraph (built fsobj host codeIndex self)).
Proof.
  unfold built.
  match goal with |- linked_edges (dependencyGraph (snd (updateGraphMetadata _ ?s))) =>
    cut (linked_edges (dependencyGraph s)); [intros H; exact H|]
  end.
  set (I := fun s : t => keyed (dependencyGraph s) /\ linked_edges (dependencyGraph s)).
  assert (Hadd : forall s t ty md, linked s t ty -> preserves I (addEdge s t ty md)).
  { intros s t ty md Hl self0 [Hk He].
    split; [now apply addEdge_keyed | now apply addEdge_linked]. }
  match goal with |- linked_edges (dependencyGraph ?s) =>
    cut (I s); [intros [_ H]; exact H|]
  end.
  apply (analyze_preserves I); [exact Hadd | |].
  { intros s name md _ Hi. apply addEdge_member_text; [intros self0 [Hk _]; exact Hk|].
    exact Hi. }
  apply (populate_preserves I); [| exact Hadd | split; [apply map_Forall_empty | constructor]].
  intros nodeId n Hid Hty self0 [Hk He]. split; [now apply set_node_keyed | exact He].
Qed.

Lemma keyed_starts (g : Graph) (id type : string) (n : Node) :
  keyed g -> nodes g !! id = Some n -> starts type id ->
  In type ["file"; "function"; "class"; "method"] -> node_type n = type.
Proof.
  intros Hk Hn Hs Hty. destruct (Hk _ _ Hn) as [_ Hpre].
  exact (starts_one_type _ _ id (node_type_known n) Hty Hpre Hs).
Qed.

(** Every edge of the graph that [buildDependencyGraph] returns is of one
    of six kinds: [contains] from a function or a class to a file,
    [memberOf] from a method to a class, [imports] or [requires] from a
    file to a file, [calls] from a function to a function; the types are
    those of the nodes that the graph stores at the two ends. *)
Theorem buildDependencyGraph_edges_follow_schema (fsobj : FsObject) (host : Host.t)
    (codeIndex : CodebaseIndexer.CodeIndex) (self : t) :
  let g := dependencyGraph (snd (buildDependencyGraph_with fsobj host codeIndex self)) in
  Forall (typed_edge g) (edges g).
Proof.
  cbv zeta. rewrite buildDependencyGraph_built. cbn [snd].
  destruct (built_well_formed fsobj host codeIndex self) as [He _].
  pose proof (built_keyed fsobj host codeIndex self) as Hk.
  pose proof (built_linked fsobj host codeIndex self) as Hl.
  set (g := dependencyGraph (built fsobj host codeIndex self)) in *.
  unfold endpoints_exist, linked_edges in *.
  apply List.Forall_forall. intros e Hin.
  destruct (proj1 (List.Forall_forall _ _) He e Hin) as [[ns Hns] [nt Hnt]].
  pose proof (proj1 (List.Forall_forall _ _) Hl e Hin) as Hle.
  exists ns, nt. split; [exact Hns|]. split; [exact Hnt|].
  assert (Hsrc : forall type, starts type (e_source e) ->
                              In type ["file"; "function"; "class"; "method"] ->
                              node_type ns = type)
    by (intros; now apply (keyed_starts g (e_source e))).
  assert (Htgt : forall type, starts type (e_target e) ->
                              In type ["file"; "function"; "class"; "method"] ->
                              node_type nt = type)
    by (intros; now apply (keyed_starts g (e_target e))).
  destruct Hle as [(-> & [Hs|Hs] & Ht) | [(-> & Hs & Ht) | [([-> | ->] & Hs & Ht)
                  | (-> & Hs & Ht)]]];
    rewrite (Hsrc _ Hs), (Htgt _ Ht) by (simpl; auto); simpl; auto 10.
Qed.

End EdgeSchema.

(** ** The resolver and its configuration *)

Section ResolverFacts.

Import DependencyAnalyzer.

Lemma absolute_is_not_node_modules (importPath : string) :
  String.prefix "/" importPath = true ->
  String.prefix "node_modules/" importPath = false.
Proof.
  destruct importPath as [|c rest]; [discriminate|]. cbn -[ascii_dec].
  destruct (ascii_dec "/" c) as [<-|]; [|discriminate]. intros _.
  destruct (ascii_dec "n" "/"); [discriminate | reflexivity].
Qed.

(** [includeNodeModules] has no effect on [resolveImportPath]: under any
    two configurations it gives the same answer, whatever object is bound
    to [fs]. A specifier that starts neither with a dot nor with a slash
    resolves to nothing, also when external modules are asked for; and an
    absolute specifier with an extension resolves to itself. *)
Theorem resolveImportPath_ignores_includeNodeModules (fsobj : FsObject)
    (cfg cfg' : Config) (host : Host.t) (importPath currentFilePath : string) :
  resolveImportPath_with fsobj cfg host importPath currentFilePath
  = resolveImportPath_with fsobj cfg' host importPath currentFilePath
  /\ (String.prefix "." importPath = false -> String.prefix "/" importPath = false ->
      resolveImportPath_with fsobj cfg host importPath currentFilePath = None)
  /\ (String.prefix "/" importPath = true -> Path.extname importPath <> "" ->
      resolveImportPath_with fsobj cfg host importPath currentFilePath = Some importPath).
Proof.
  unfold resolveImportPath_with. split; [|split].
  - destruct (String.prefix "." importPath) eqn:Hdot.
    + rewrite (relative_is_not_node_modules importPath Hdot). simpl.
      now rewrite !andb_false_r.
    + destruct (String.prefix "/" importPath) eqn:Hslash.
      * rewrite (absolute_is_not_node_modules importPath Hslash). simpl.
        now rewrite !andb_false_r.
      * simpl. now destruct (negb (includeNodeModules cfg) && _),
                            (negb (includeNodeModules cfg') && _).
  - intros -> ->. simpl. now destruct (negb (includeNodeModules cfg) && _).
  - intros Hslash Hext.
    destruct (String.prefix "." importPath) eqn:Hdot.
    + destruct importPath as [|c rest]; [discriminate|].
      apply prefix_cons in Hslash as [<- _]. apply prefix_cons in Hdot as [Hc _].
      discriminate.
    + rewrite (absolute_is_not_node_modules importPath Hslash), Hslash. simpl.
      rewrite andb_false_r.
      destruct (String.eqb_spec (Path.extname importPath) ""); [contradiction | reflexivity].
Qed.

End ResolverFacts.

(** ** Searching the index by name *)

Section SearchFacts.

Import CodebaseIndexer CodebaseSearch Searches.

Lemma lower_char_idempotent (c : ascii) :
  SemanticAnalyzer.lower_char (SemanticAnalyzer.lower_char c) = SemanticAnalyzer.lower_char c.
Proof. destruct c as [[] [] [] [] [] [] [] []]; reflexivity. Qed.

Lemma toLowerCase_idempotent (text : string) :
  SemanticAnalyzer.toLowerCase (SemanticAnalyzer.toLowerCase text)
  = SemanticAnalyzer.toLowerCase text.
Proof.
  induction text as [|c text IH]; simpl; [reflexivity|].
  now rewrite lower_char_idempotent, IH.
Qed.

Lemma toLowerCase_empty (text : string) :
  String.eqb (SemanticAnalyzer.toLowerCase text) "" = String.eqb text "".
Proof. now destruct text. Qed.

Lemma prefix_itself (s : string) : String.prefix s s = true.
Proof.
  induction s as [|c s IH]; simpl; [reflexivity|].
  destruct (ascii_dec c c); [exact IH | contradiction].
Qed.

Lemma includes_itself (s : string) : MappingAlgorithm.includes s s = true.
Proof.
  destruct s as [|c s]; [reflexivity|]. cbn [MappingAlgorithm.includes].
  now rewrite prefix_itself.
Qed.

Lemma matching_lower {A} (name : A -> string) (q : option string) (xs : list A) :
  matching name (option_map SemanticAnalyzer.toLowerCase q) xs = matching name q xs.
Proof.
  destruct q as [text|]; [|reflexivity]. simpl.
  now rewrite toLowerCase_empty, toLowerCase_idempotent.
Qed.

Lemma matching_sublist {A} (name : A -> string) (q : option string) (xs : list A) :
  sublist (matching name q xs) xs.
Proof.
  destruct q as [text|]; simpl; [|apply sublist_nil_l].
  destruct (String.eqb text ""); [apply sublist_nil_l | apply filter_sublist].
Qed.

Lemma matching_blank {A} (name : A -> string) (q : option string) (xs : list A) :
  blank q -> matching name q xs = [].
Proof. now intros [-> | ->]. Qed.

Lemma matching_own_name {A} (name : A -> string) (xs : list A) :
  Forall (fun x => name x = "" \/ In x (matching name (Some (name x)) xs)) xs.
Proof.
  apply List.Forall_forall. intros x Hx. simpl.
  destruct (String.eqb_spec (name x) "") as [He|Hne]; [now left | right].
  apply filter_In. split; [exact Hx | apply includes_itself].
Qed.

(** [searchIndex]: each of the three result lists is a sub-list of the
    list of the index, in the order of the index; the search does not
    distinguish upper and lower case in the query; a field of the query
    that is absent or the empty string selects nothing (not everything);
    and every file, function and class with a non-empty name is found by
    its own name. *)
Theorem searchIndex_selects_by_name (codeIndex : CodeIndex) (query : Query) :
  let results := searchIndex codeIndex query in
  sublist (found_files results) (files codeIndex)
  /\ sublist (found_functions results) (functions codeIndex)
  /\ sublist (found_classes results) (classes codeIndex)
  /\ searchIndex codeIndex (lower query) = results
  /\ (blank (fileName query) -> found_files results = [])
  /\ (blank (functionName query) -> found_functions results = [])
  /\ (blank (className query) -> found_classes results = [])
  /\ Forall (fun file =>
               f_name file = ""
               \/ In file (found_files (searchIndex codeIndex (for_file (f_name file)))))
       (files codeIndex)
  /\ Forall (fun func =>
               fn_name (if_func func) = ""
               \/ In func (found_functions
                             (searchIndex codeIndex (for_function (fn_name (if_func func))))))
       (functions codeIndex)
  /\ Forall (fun cls =>
               cls_name (ic_cls cls) = ""
               \/ In cls (found_classes
                            (searchIndex codeIndex (for_class (cls_name (ic_cls cls))))))
       (classes codeIndex).
Proof.
  cbv zeta. unfold searchIndex. cbn [found_files found_functions found_classes
    fileName functionName className lower for_file for_function for_class].
  repeat (split; [apply matching_sublist|]).
  split; [now rewrite !matching_lower|].
  repeat (split; [apply matching_blank|]).
  split; [|split].
  - apply (matching_own_name f_name).
  - apply (matching_own_name (fun func => fn_name (if_func func))).
  - apply (matching_own_name (fun cls => cls_name (ic_cls cls))).
Qed.

End SearchFacts.

(** ** What a traversal does not miss *)

Section TraversalReach.

Import DependencyAnalyzer Reach.

Lemma each_edge_reach (g : Graph) (options : Options) (start : string)
    (recurse : string -> Walk -> Walk) (currentDepth : nat) (es : list Edge) :
  (forall targetId w,
     accounted start w -> In targetId (ids w) ->
     accounted start (recurse targetId w) /\ incl (ids w) (ids (recurse targetId w))) ->
  forall w,
    accounted start w ->
    let w' := each_edge recurse g options currentDepth es w in
    accounted start w'
    /\ incl (ids w) (ids w')
    /\ (length (dependencies w') < maxResults options ->
        Forall (reached g options start (ids w')) es).
Proof.
  intros Hrec. induction es as [|edge es IH]; intros w Hw; cbn [each_edge]; cbv zeta.
  - split; [exact Hw|]. split; [apply incl_refl | constructor].
  - destruct (bool_decide (edge_end options edge ∈ visited w)) eqn:Hv.
    + apply bool_decide_eq_true in Hv.
      destruct (IH w Hw) as (H1 & H2 & H3). cbv zeta in H1, H2, H3.
      split; [exact H1|]. split; [exact H2|]. intros Hlen.
      constructor; [|now apply H3].
      destruct (Hw _ Hv) as [Hs|Hin]; [now left | right; right; now apply H2].
    + destruct (JsObject.get (nodes g) (edge_end options edge)) as [targetNode|] eqn:Hn.
      2:{ destruct (IH w Hw) as (H1 & H2 & H3). cbv zeta in H1, H2, H3.
          split; [exact H1|]. split; [exact H2|]. intros Hlen.
          constructor; [|now apply H3].
          right. left. exact (proj1 (proj1 (get_None _ _) Hn)). }
      match goal with |- context [push_dependency ?d w] =>
        set (w1 := push_dependency d w)
      end.
      assert (Hids : ids w1 = (ids w ++ [edge_end options edge])%list)
        by (unfold ids, w1, push_dependency; simpl; now rewrite map_app).
      assert (Hw1 : accounted start w1).
      { intros x Hx. destruct (Hw x Hx) as [Hs|Hin]; [now left | right].
        rewrite Hids. apply in_or_app. now left. }
      assert (Hin1 : In (edge_end options edge) (ids w1))
        by (rewrite Hids; apply in_or_app; right; now left).
      assert (Hincl1 : incl (ids w) (ids w1))
        by (rewrite Hids; apply incl_appl, incl_refl).
      destruct (maxResults options <=? length (dependencies w1))%nat eqn:Hmax.
      * apply Nat.leb_le in Hmax. split; [exact Hw1|]. split; [exact Hincl1|]. lia.
      * destruct (Hrec (edge_end options edge) w1 Hw1 Hin1) as [Hw2 Hincl2].
        destruct (IH _ Hw2) as (H1 & H2 & H3). cbv zeta in H1, H2, H3.
        split; [exact H1|]. split.
        { eapply incl_tran; [exact Hincl1|]. eapply incl_tran; [exact Hincl2 | exact H2]. }
        intros Hlen. constructor; [|now apply H3].
        right. right. now apply H2, Hincl2.
Qed.

Lemma getDependenciesRecursive_reach (g : Graph) (options : Options) (start : string)
    (fuel : nat) :
  forall nodeId w currentDepth,
    accounted start w -> In nodeId (ids w) ->
    accounted start (getDependenciesRecursive fuel g nodeId options w currentDepth)
    /\ incl (ids w) (ids (getDependenciesRecursive fuel g nodeId options w currentDepth)).
Proof.
  induction fuel as [|fuel IH]; intros nodeId w currentDepth Hw Hin; simpl;
    destruct (depth options <=? currentDepth)%nat;
    try (split; [exact Hw | apply incl_refl]).
  destruct (each_edge_reach g options start
              (fun targetId w0 =>
                 getDependenciesRecursive fuel g targetId options w0 (currentDepth + 1))
              currentDepth (related_edges g options nodeId)
              (fun targetId w0 => IH targetId w0 (currentDepth + 1))
              (mark_visited nodeId w)) as (H1 & H2 & _).
  - intros x Hx. unfold mark_visited in Hx. simpl in Hx.
    apply elem_of_union in Hx as [Hx|Hx]; [|now apply Hw].
    apply elem_of_singleton in Hx. subst x. now right.
  - split; [exact H1 | exact H2].
Qed.

(** What a traversal does not miss: when the start node is in the graph,
    at least one hop is asked for, and the limit has not been reached,
    every edge of the start node (in the direction and of the types asked
    for) has its far end in the result, unless that end is the start node
    itself or no node of the graph. *)
Theorem getNodeDependencies_finds_every_neighbour (self : t) (nodeId : string)
    (options : Options) :
  is_Some (nodes (dependencyGraph self) !! nodeId) ->
  1 <= depth options ->
  length (getNodeDependencies self nodeId options) < maxResults options ->
  Forall (reached (dependencyGraph self) options nodeId
            (map dep_id (getNodeDependencies self nodeId options)))
    (related_edges (dependencyGraph self) options nodeId).
Proof.
  intros [n Hn] Hdepth. unfold getNodeDependencies. rewrite (get_own _ _ _ Hn).
  destruct (depth options) as [|fuel] eqn:Hd; [lia|].
  cbn [getDependenciesRecursive]. rewrite Hd. cbn [Nat.leb].
  intros Hlen.
  destruct (each_edge_reach (dependencyGraph self) options nodeId
              (fun targetId w0 =>
                 getDependenciesRecursive fuel (dependencyGraph self) targetId options w0
                   (0 + 1))
              0 (related_edges (dependencyGraph self) options nodeId)
              (fun targetId w0 =>
                 getDependenciesRecursive_reach (dependencyGraph self) options nodeId
                   fuel targetId w0 (0 + 1))
              (mark_visited nodeId {| visited := ∅; dependencies := [] |}))
    as (_ & _ & H).
  - intros x Hx. unfold mark_visited in Hx. simpl in Hx.
    apply elem_of_union in Hx as [Hx|Hx]; [|now apply not_elem_of_empty in Hx].
    apply elem_of_singleton in Hx. now left.
  - apply H. exact Hlen.
Qed.

Lemma getNodeDependencies_finds_every_neighbour_witness :
  is_Some (nodes (dependencyGraph GraphCalls.fork) !! "file:/repo/a.js")
  /\ 1 <= depth defaults
  /\ length (getNodeDependencies GraphCalls.fork "file:/repo/a.js" defaults)
     < maxResults defaults
  /\ Forall (reached (dependencyGraph GraphCalls.fork) defaults "file:/repo/a.js"
               (map dep_id (getNodeDependencies GraphCalls.fork "file:/repo/a.js" defaults)))
       (related_edges (dependencyGraph GraphCalls.fork) defaults "file:/repo/a.js").
Proof.
  assert (H1 : is_Some (nodes (dependencyGraph GraphCalls.fork) !! "file:/repo/a.js"))
    by (vm_compute; eauto).
  assert (H2 : 1 <= depth defaults) by (simpl; lia).
  assert (H3 : length (getNodeDependencies GraphCalls.fork "file:/repo/a.js" defaults)
               < maxResults defaults) by (vm_compute; lia).
  split; [exact H1|]. split; [exact H2|]. split; [exact H3|].
  exact (getNodeDependencies_finds_every_neighbour GraphCalls.fork "file:/repo/a.js"
           defaults H1 H2 H3).
Defined.

End TraversalReach.

(** ** The semantic index after a successful analysis *)

Section SemanticCompleteness.

Import SemanticAnalyzer Completed Effects.

Lemma dict_get_set_eq (k : string) (v : Item) (d : Dict) :
  dict_get (dict_set k v d) k = Some v.
Proof.
  induction d as [|[k' v'] d IH]; simpl; [now rewrite String.eqb_refl|].
  destruct (String.eqb k k') eqn:He; simpl; [now rewrite String.eqb_refl|].
  now rewrite He.
Qed.

Lemma dict_get_set_ne (k k' : string) (v : Item) (d : Dict) :
  k <> k' -> dict_get (dict_set k v d) k' = dict_get d k'.
Proof.
  intros Hne. induction d as [|[k0 v0] d IH]; simpl.
  - destruct (String.eqb_spec k' k); [congruence | reflexivity].
  - destruct (String.eqb_spec k k0) as [->|Hk]; simpl.
    + destruct (String.eqb_spec k' k0); [congruence | reflexivity].
    + destruct (String.eqb_spec k' k0); [reflexivity | exact IH].
Qed.

Lemma section_of_set (sec sec' : Section_) (d : Dict) (idx : SemanticIndex) :
  section_of sec (set_section sec' d idx)
  = if same_section sec sec' then d else section_of sec idx.
Proof. destruct sec, sec'; reflexivity. Qed.

Lemma same_section_eq (a b : Section_) : same_section a b = true <-> a = b.
Proof. destruct a, b; simpl; split; (reflexivity || discriminate). Qed.

Lemma store_completed (sec sec' : Section_) (k k' : string) (item : Item) (self : t) :
  completed sec k self
  \/ (sec = sec' /\ k = k'
      /\ exists v, it_vector item = Some v /\ spans v (it_tokens item)) ->
  (sec = sec' -> k = k' ->
   exists v, it_vector item = Some v /\ spans v (it_tokens item)) ->
  completed sec k (snd (store sec' k' item self)).
Proof.
  intros Hbefore Hsame. unfold completed, store, Js.modify.
  cbn [snd semanticIndex set_semanticIndex]. rewrite section_of_set.
  destruct (same_section sec sec') eqn:Hs.
  - apply same_section_eq in Hs. subst sec'.
    destruct (String.eqb_spec k' k) as [->|Hne].
    + destruct (Hsame eq_refl eq_refl) as (v & Hv & Hdom).
      exists item, v. now rewrite dict_get_set_eq.
    + destruct Hbefore as [(item0 & v & Hget & Hv & Hdom) | (_ & Heq & _)];
        [|congruence].
      exists item0, v. now rewrite dict_get_set_ne.
  - destruct Hbefore as [H | (Heq & _)]; [exact H|].
    subst sec'. now destruct sec.
Qed.

Lemma unique_In (tokens seen : list string) (term : string) :
  In term (unique seen tokens) <-> In term tokens /\ ~ In term seen.
Proof.
  revert seen. induction tokens as [|tok tokens IH]; intros seen; simpl; [tauto|].
  destruct (existsb (String.eqb tok) seen) eqn:He.
  - apply existsb_exists in He as (x & Hx & Heq). apply String.eqb_eq in Heq. subst x.
    rewrite IH. split; [tauto|]. intros [[<-|H] Hn]; [contradiction | tauto].
  - assert (Hn : ~ In tok seen).
    { intros Hin. assert (existsb (String.eqb tok) seen = true); [|congruence].
      apply existsb_exists. exists tok. split; [exact Hin | apply String.eqb_refl]. }
    simpl. rewrite IH. simpl. split.
    + intros [<-|[H1 H2]]; [tauto|]. split; [tauto|]. tauto.
    + intros [[<-|H] Hs]; [tauto|].
      destruct (string_dec tok term) as [->|Hne]; [tauto|]. right. tauto.
Qed.

Lemma tfidf_vector_dom (self : t) (docId : string) (tokens : list string) :
  forall (vector result : VectorUtils.Vector),
    tfidf_vector self docId tokens vector = Js.Return result ->
    forall term,
      term ∈ dom result
      <-> term ∈ dom vector \/ (In term tokens /\ term <> "__proto__").
Proof.
  induction tokens as [|token tokens IH]; intros vector result; simpl.
  - intros [= <-] term. tauto.
  - destruct (tfidf_of (natural self) (tfidf self) token docId) as [w|e]; [|discriminate].
    intros H term. rewrite (IH _ _ H). unfold JsObject.set_primitive.
    destruct (String.eqb_spec token "__proto__") as [->|Hne].
    + split; [tauto|]. intros [Hd|[[<-|Hin] Hp]]; [tauto | contradiction | tauto].
    + rewrite dom_insert_L, elem_of_union, elem_of_singleton.
      split; [intros [[->|Hd]|Hin]; tauto|].
      intros [Hd|[[->|Hin] Hp]]; tauto.
Qed.

Lemma complete_entry_completed (sec sec' : Section_) (k k' : string) (self : t) :
  (completed sec k self -> completed sec k (snd (complete_entry sec' k' self)))
  /\ (fst (complete_entry sec' k' self) = Js.Return tt ->
      completed sec' k' (snd (complete_entry sec' k' self))).
Proof.
  unfold complete_entry, calculateTfIdfVector, Js.bind, Js.get, Js.of_option, Js.ret.
  cbv beta. cbn [fst snd].
  destruct (dict_get (section_of sec' (semanticIndex self)) k') as [semantics|];
    [|cbn [fst snd]; split; [auto | discriminate]].
  cbv beta iota. cbn [fst snd].
  destruct (tfidf_vector self k' (unique [] (it_tokens semantics)) ∅) as [vector|e]
    eqn:Hvec; [|cbn [fst snd]; split; [auto | discriminate]].
  assert (Hdom : spans vector (it_tokens semantics)).
  { intros term. rewrite (tfidf_vector_dom _ _ _ _ _ Hvec), dom_empty_L, unique_In.
    split; [intros [H|[[H _] Hp]]; [now apply not_elem_of_empty in H | auto] | ].
    intros [H Hp]. right. auto. }
  cbv beta iota. cbn [fst snd].
  split.
  - intros Hc.
    apply (store_completed sec sec' k k');
      [left | intros _ _; eexists; split; [reflexivity | exact Hdom]].
    apply (store_completed sec sec' k k' _ self); [now left|].
    intros _ _. eexists. split; [reflexivity | exact Hdom].
  - intros _. apply (store_completed sec' sec' k' k').
    + right. split; [reflexivity|]. split; [reflexivity|].
      eexists. split; [reflexivity | exact Hdom].
    + intros _ _. eexists. split; [reflexivity | exact Hdom].
Qed.

Lemma for_of_ensures {S A} (Q : A -> S -> Prop) (body : A -> Js.M S unit) :
  (forall x y, preserves (Q y) (body x)) ->
  (forall x s, fst (body x s) = Js.Return tt -> Q x (snd (body x s))) ->
  forall xs s,
    fst (Js.for_of xs body s) = Js.Return tt ->
    Forall (fun x => Q x (snd (Js.for_of xs body s))) xs.
Proof.
  intros Hpres Hens. induction xs as [|x xs IH]; intros s; simpl; [constructor|].
  unfold Js.bind. pose proof (Hens x s) as Hx.
  destruct (body x s) as [[[]|e] s1]; [|discriminate]. cbn [fst snd] in Hx.
  intros Hret. constructor; [|now apply IH].
  apply (preserves_for_of (Q x)); [intros y; apply Hpres | now apply Hx].
Qed.

Lemma preserves_Forall {S A B} (Q : B -> S -> Prop) (xs : list B) (m : Js.M S A) :
  (forall x, preserves (Q x) m) -> preserves (fun s => Forall (fun x => Q x s) xs) m.
Proof.
  intros Hm s Hs. eapply Forall_impl; [exact Hs|]. intros x. apply Hm.
Qed.

(** One of the three analyses: a first loop that stores an entry per
    element, and a second loop that completes the entries. *)
Lemma analysis_completes {A} (sec : Section_) (docId : A -> string)
    (first : A -> Js.M t unit) (xs : list A) :
  forall self,
    fst ((let* _ := Js.for_of xs first in
          Js.for_of xs (fun x => complete_entry sec (docId x))) self) = Js.Return tt ->
    Forall (fun x =>
              completed sec (docId x)
                (snd ((let* _ := Js.for_of xs first in
                       Js.for_of xs (fun x => complete_entry sec (docId x))) self)))
      xs.
Proof.
  intros self. unfold Js.bind at 1 2.
  destruct (Js.for_of xs first self) as [[[]|e] s1]; [|discriminate].
  apply (for_of_ensures (fun x => completed sec (docId x))).
  - intros x y s. apply complete_entry_completed.
  - intros x s. apply (complete_entry_completed sec sec (docId x) (docId x) s).
Qed.

Lemma first_pass_preserves (sec sec' : Section_) (k docId : string)
    (tokens : t -> list string) (entry : t -> Item) :
  sec <> sec' ->
  preserves (completed sec k)
    (let* self := Js.get in
     let* _ := addDocument (tokens self) docId in
     store sec' docId (entry self)).
Proof.
  intros Hne. apply preserves_bind; [apply preserves_get|]. intros self.
  apply preserves_bind; [intros s Hs; exact Hs|]. intros _ s Hs.
  apply store_completed; [now left | intros Heq; contradiction].
Qed.

Lemma analysis_preserves {A} (sec sec' : Section_) (k : string) (docId : A -> string)
    (first : A -> Js.M t unit) (xs : list A) :
  (forall x, preserves (completed sec k) (first x)) ->
  preserves (completed sec k)
    (let* _ := Js.for_of xs first in
     Js.for_of xs (fun x => complete_entry sec' (docId x))).
Proof.
  intros Hfirst. apply preserves_bind; [|intros _]; apply preserves_for_of; intros x.
  - apply Hfirst.
  - intros s. apply complete_entry_completed.
Qed.

Lemma analyzeFiles_completes (fs : list CodebaseIndexer.FileEntry) (self : t) :
  fst (analyzeFiles fs self) = Js.Return tt ->
  Forall (fun file => completed Files (CodebaseIndexer.f_path file)
                        (snd (analyzeFiles fs self))) fs.
Proof. apply (analysis_completes Files CodebaseIndexer.f_path). Qed.

Lemma analyzeFunctions_completes (fns : list CodebaseIndexer.IndexedFunction) (self : t) :
  fst (analyzeFunctions fns self) = Js.Return tt ->
  Forall (fun func => completed Functions (function_docId func)
                        (snd (analyzeFunctions fns self))) fns.
Proof. apply (analysis_completes Functions function_docId). Qed.

Lemma analyzeClasses_completes (cs : list CodebaseIndexer.IndexedClass) (self : t) :
  fst (analyzeClasses cs self) = Js.Return tt ->
  Forall (fun cls => completed Classes (class_docId cls)
                       (snd (analyzeClasses cs self))) cs.
Proof. apply (analysis_completes Classes class_docId). Qed.

Lemma analyzeFunctions_keeps (fns : list CodebaseIndexer.IndexedFunction) (k : string) :
  preserves (completed Files k) (analyzeFunctions fns).
Proof.
  apply (analysis_preserves Files Functions k function_docId). intros func.
  apply (first_pass_preserves Files Functions k (function_docId func)
           (fun self => _) (fun self => _)). discriminate.
Qed.

Lemma analyzeClasses_keeps (cs : list CodebaseIndexer.IndexedClass) (sec : Section_)
    (k : string) :
  sec <> Classes -> preserves (completed sec k) (analyzeClasses cs).
Proof.
  intros Hne. apply (analysis_preserves sec Classes k class_docId). intros cls.
  apply (first_pass_preserves sec Classes k (class_docId cls)
           (fun self => _) (fun self => _)). exact Hne.
Qed.

(** When [analyzeCodebase] returns, the index it returns has an entry for
    every file, function and class of the code index, under its path or
    its [type:filePath:name] identifier, and every such entry has a
    vector whose terms are the tokens of the entry, except the token
    ["__proto__"], which the assignment [vector[token] = tfidf] does not
    make a property. *)
Theorem analyzeCodebase_completes_every_entry (codeIndex : CodebaseIndexer.CodeIndex)
    (self : t) :
  match fst (analyzeCodebase codeIndex self) with
  | Js.Return idx => covers codeIndex idx
  | Js.Throw _ => True
  end.
Proof.
  unfold analyzeCodebase.
  unfold Js.bind at 1, Js.modify at 1. unfold Js.bind at 1, Js.modify at 1.
  set (s0 := set_semanticIndex empty_index (set_tfidf [] self)).
  unfold Js.bind at 1.
  pose proof (analyzeFiles_completes (CodebaseIndexer.files codeIndex) s0) as H1.
  destruct (analyzeFiles (CodebaseIndexer.files codeIndex) s0) as [[[]|e] s1]; [|exact I].
  specialize (H1 eq_refl). cbn [snd] in H1.
  unfold Js.bind at 1.
  pose proof (analyzeFunctions_completes (CodebaseIndexer.functions codeIndex) s1) as H2.
  pose proof (preserves_Forall _ _ _
                (fun file => analyzeFunctions_keeps (CodebaseIndexer.functions codeIndex)
                               (CodebaseIndexer.f_path file)) s1 H1) as H1'.
  destruct (analyzeFunctions (CodebaseIndexer.functions codeIndex) s1) as [[[]|e] s2];
    [|exact I].
  specialize (H2 eq_refl). cbn [snd] in H2, H1'.
  unfold Js.bind at 1.
  pose proof (analyzeClasses_completes (CodebaseIndexer.classes codeIndex) s2) as H3.
  pose proof (preserves_Forall _ _ _
                (fun file => analyzeClasses_keeps (CodebaseIndexer.classes codeIndex) Files
                               (CodebaseIndexer.f_path file) ltac:(discriminate))
                s2 H1') as H1''.
  pose proof (preserves_Forall _ _ _
                (fun func => analyzeClasses_keeps (CodebaseIndexer.classes codeIndex)
                               Functions (function_docId func) ltac:(discriminate))
                s2 H2) as H2'.
  destruct (analyzeClasses (CodebaseIndexer.classes codeIndex) s2) as [[[]|e] s3];
    [|exact I].
  specialize (H3 eq_refl). cbn [snd] in H3, H1'', H2'.
  cbn [Js.bind Js.get Js.ret fst]. split; [exact H1''|]. split; [exact H2' | exact H3].
Qed.

End SemanticCompleteness.

(** ** What a scan puts in the index *)

Section ScanSelection.

Import CodebaseIndexer Scanned Effects.

Lemma preserves_for_of_in {S A} (I : S -> Prop) (xs : list A) (body : A -> Js.M S unit) :
  (forall x, In x xs -> preserves I (body x)) -> preserves I (Js.for_of xs body).
Proof.
  induction xs as [|x xs IH]; intros Hb; simpl; [apply preserves_ret|].
  apply preserves_bind; [apply Hb; now left | intros _; apply IH].
  intros y Hy. apply Hb. now right.
Qed.

Lemma indexFile_selected (cfg : Config) (fs : Host.FileSystem) (root filePath : string) :
  (forall fi, f_path fi = filePath -> selected cfg fs root fi) ->
  preserves (all_selected cfg fs root) (indexFile fs filePath).
Proof.
  intros Hsel idx Hidx. unfold indexFile, Js.try_catch, Js.bind, Js.of_option.
  destruct (Host.readFile fs filePath) as [content|]; simpl; [|exact Hidx].
  destruct (Host.stat_mtime fs filePath) as [mtime|]; simpl; [|exact Hidx].
  unfold all_selected, push_file. cbn [files].
  apply Forall_app. split; [exact Hidx|]. constructor; [|constructor].
  apply Hsel. unfold Js.exec. rewrite parseCode_collects. reflexivity.
Qed.

Lemma scanDirectory_selected (cfg : Config) (fs : Host.FileSystem) (root : string)
    (fuel : nat) :
  forall dirPath depth,
    entered cfg fs root depth dirPath ->
    preserves (all_selected cfg fs root) (scanDirectory fuel cfg fs dirPath depth).
Proof.
  induction fuel as [|fuel IH]; intros dirPath depth Hdir; simpl;
    destruct (Nat.ltb_spec (indexDepth cfg) depth) as [Hdeep|Hdepth];
    try apply preserves_ret.
  apply preserves_try_catch; [|intros; apply preserves_ret].
  intros idx Hidx. unfold Js.bind, Js.of_option.
  destruct (Host.readdir fs dirPath) as [entries|] eqn:Hread; [|exact Hidx].
  cbv beta iota. revert idx Hidx. apply preserves_for_of_in.
  intros entry Hentry. unfold scanEntry.
  destruct (Host.d_kind entry) eqn:Hkind.
  - destruct (includes (fileExtensions cfg) _) eqn:Hext; [|apply preserves_ret].
    apply indexFile_selected. intros fi Hfi.
    exists depth, dirPath, entries, entry. repeat split; assumption.
  - destruct (includes (excludeDirs cfg) _) eqn:Hexcluded; [apply preserves_ret|].
    apply IH. now apply (entered_sub cfg fs root depth dirPath entries entry).
  - apply preserves_ret.
Qed.

(** Every file of the index that [indexCodebase] leaves is a file entry
    of a directory that the scan enters: a directory reached from the
    code base path through directory entries whose names are not
    excluded, at a depth of at most [indexDepth]; and the name of the
    file has one of the configured extensions. *)
Theorem indexCodebase_indexes_selected_files_only (cfg : Config) (host : Host.t)
    (codebasePath : string) (idx0 : CodeIndex) :
  Forall (selected cfg (Host.fs host) codebasePath)
    (files (snd (indexCodebase cfg host codebasePath idx0))).
Proof.
  rewrite indexCodebase_state. cbn [snd]. unfold updateMetadata, Js.modify.
  cbn [snd files].
  apply (scanDirectory_selected cfg (Host.fs host) codebasePath (S (indexDepth cfg))
           codebasePath 0 (entered_root _ _ _) empty_index).
  constructor.
Qed.

End ScanSelection.

(** ** A scan goes past the files that fail *)

Section ScanCompleteness.

Import CodebaseIndexer Scanned Effects Indexed Disk.

Lemma indexFile_keeps_indexed (fs : Host.FileSystem) (path filePath : string) :
  preserves (indexed_at fs path) (indexFile fs filePath).
Proof.
  intros idx (fi & Hin & Hrest). unfold indexFile, Js.try_catch, Js.bind, Js.of_option.
  destruct (Host.readFile fs filePath) as [content|]; simpl; [|now exists fi].
  destruct (Host.stat_mtime fs filePath) as [mtime|]; simpl; [|now exists fi].
  exists fi. split; [|exact Hrest]. unfold push_file. cbn [files].
  apply in_or_app. now left.
Qed.

Lemma scanDirectory_keeps_indexed (cfg : Config) (fs : Host.FileSystem) (path : string)
    (fuel : nat) :
  forall dirPath depth,
    preserves (indexed_at fs path) (scanDirectory fuel cfg fs dirPath depth).
Proof.
  induction fuel as [|fuel IH]; intros dirPath depth; simpl;
    destruct (indexDepth cfg <? depth)%nat; try apply preserves_ret.
  apply preserves_try_catch; [|intros; apply preserves_ret].
  apply preserves_bind; [apply preserves_of_option|]. intros entries.
  apply preserves_for_of. intros entry. unfold scanEntry.
  destruct (Host.d_kind entry).
  - destruct (includes (fileExtensions cfg) _);
      [apply indexFile_keeps_indexed | apply preserves_ret].
  - destruct (includes (excludeDirs cfg) _); [apply preserves_ret | apply IH].
  - apply preserves_ret.
Qed.

Lemma indexFile_indexes (fs : Host.FileSystem) (path : string) (idx : CodeIndex)
    (content : Host.Source) (mtime : string) :
  Host.readFile fs path = Some content ->
  Host.stat_mtime fs path = Some mtime ->
  indexed_at fs path (snd (indexFile fs path idx)).
Proof.
  intros Hread Hstat. unfold indexFile, Js.try_catch, Js.bind, Js.of_option.
  rewrite Hread. simpl. rewrite Hstat. simpl.
  unfold Js.exec. rewrite parseCode_collects. cbn [snd].
  eexists. split; [unfold push_file; cbn [files]; apply in_or_app; right; now left|].
  split; [reflexivity|].
  intros content' mtime' Hread' Hstat' Hparse.
  rewrite Hread in Hread'. rewrite Hstat in Hstat'.
  injection Hread' as <-. injection Hstat' as <-.
  unfold declared. rewrite Hparse. reflexivity.
Qed.

(** One call of [scanDirectory] on a directory that can be listed: the
    loop body runs on every entry, and what it leaves behind for a path
    is still there at the end of the call. *)
Lemma scanDirectory_runs_entry (cfg : Config) (fs : Host.FileSystem) (fuel : nat)
    (dirPath : string) (depth : nat) (entries : list Host.Dirent) (entry : Host.Dirent)
    (path : string) (idx : CodeIndex) :
  depth <= indexDepth cfg ->
  Host.readdir fs dirPath = Some entries ->
  In entry entries ->
  exists before,
    indexed_at fs path
      (snd (scanEntry (scanDirectory fuel cfg fs) cfg fs dirPath depth entry before)) ->
    indexed_at fs path (snd (scanDirectory (S fuel) cfg fs dirPath depth idx)).
Proof.
  intros Hdepth Hread Hin.
  apply in_split in Hin as (l1 & l2 & ->).
  exists (Js.exec (Js.for_of l1 (scanEntry (scanDirectory fuel cfg fs) cfg fs dirPath depth))
            idx).
  intros Hentry. cbn [scanDirectory].
  destruct (Nat.ltb_spec (indexDepth cfg) depth) as [Hdeep|_]; [lia|].
  unfold Js.try_catch, Js.bind at 1, Js.of_option. rewrite Hread. cbn [Js.ret].
  rewrite scan_loop_continues. cbn [snd].
  unfold Js.exec at 1.
  apply (preserves_for_of (indexed_at fs path)); [|exact Hentry].
  intros x. unfold scanEntry. destruct (Host.d_kind x).
  - destruct (includes (fileExtensions cfg) _);
      [apply indexFile_keeps_indexed | apply preserves_ret].
  - destruct (includes (excludeDirs cfg) _);
      [apply preserves_ret | apply scanDirectory_keeps_indexed].
  - apply preserves_ret.
Qed.

(** The scan from the root calls [scanDirectory] on every directory that
    it enters, with enough fuel, and keeps what that call leaves. *)
Lemma entered_is_scanned (cfg : Config) (fs : Host.FileSystem) (root path : string) :
  forall depth dirPath,
    entered cfg fs root depth dirPath ->
    exists fuel idx,
      indexDepth cfg < depth + fuel
      /\ (indexed_at fs path (snd (scanDirectory fuel cfg fs dirPath depth idx)) ->
          indexed_at fs path
            (snd (scanDirectory (S (indexDepth cfg)) cfg fs root 0 empty_index))).
Proof.
  induction 1 as [|depth dirPath entries entry Hdir IH Hdepth Hread Hin Hkind Hexcl].
  - exists (S (indexDepth cfg)), empty_index. split; [lia | auto].
  - destruct IH as (fuel & idx & Hfuel & Hkeep).
    destruct fuel as [|fuel]; [lia|].
    destruct (scanDirectory_runs_entry cfg fs fuel dirPath depth entries entry path idx
                Hdepth Hread Hin) as [before Hrun].
    exists fuel, before. split; [lia|]. intros Hsub. apply Hkeep, Hrun.
    unfold scanEntry. rewrite Hkind, Hexcl. exact Hsub.
Qed.

Lemma scan_indexes_chosen (cfg : Config) (fs : Host.FileSystem) (root path : string)
    (content : Host.Source) (mtime : string) :
  chosen cfg fs root path ->
  Host.readFile fs path = Some content ->
  Host.stat_mtime fs path = Some mtime ->
  indexed_at fs path (snd (scanDirectory (S (indexDepth cfg)) cfg fs root 0 empty_index)).
Proof.
  intros (depth & dirPath & entries & entry & Hdir & Hdepth & Hlist & Hin & Hkind & Hext
          & ->) Hread Hstat.
  destruct (entered_is_scanned cfg fs root (Path.join dirPath (Host.d_name entry))
              depth dirPath Hdir) as (fuel & idx & Hfuel & Hkeep).
  destruct fuel as [|fuel]; [lia|].
  destruct (scanDirectory_runs_entry cfg fs fuel dirPath depth entries entry
              (Path.join dirPath (Host.d_name entry)) idx Hdepth Hlist Hin)
    as [before Hrun].
  apply Hkeep, Hrun. unfold scanEntry. rewrite Hkind, Hext.
  now apply (indexFile_indexes fs _ before content mtime).
Qed.

(** C9. [indexCodebase] never throws, whatever the disk answers. Every
    file that the scan selects (a file entry with a configured extension
    in a directory entered within [indexDepth]) and that can be read is
    in the index it returns, whatever happened to the files and
    directories listed before it; when its text does not parse, its entry
    is the one without functions and classes. A file that cannot be read
    has no entry. And [indexFile] itself never throws: it leaves the
    index as it was when the file cannot be read, and appends the bare
    entry, adding nothing to the global lists, when the text does not
    parse. *)
Theorem indexing_survives_file_failures (cfg : Config) (host : Host.t)
    (codebasePath : string) (idx0 : CodeIndex) :
  let fs := Host.fs host in
  let index := snd (indexCodebase cfg host codebasePath idx0) in
  fst (indexCodebase cfg host codebasePath idx0) = Js.Return index
  /\ (forall path content mtime,
        chosen cfg fs codebasePath path ->
        Host.readFile fs path = Some content ->
        Host.stat_mtime fs path = Some mtime ->
        exists fi,
          In fi (files index) /\ f_path fi = path
          /\ (Host.parsed content = None -> fi = bare_entry path content mtime))
  /\ (forall path,
        Host.readFile fs path = None -> ~ In path (map f_path (files index)))
  /\ (forall filePath idx, Js.result (indexFile fs filePath) idx = Js.Return tt)
  /\ (forall filePath idx,
        Host.readFile fs filePath = None ->
        Js.exec (indexFile fs filePath) idx = idx)
  /\ (forall filePath idx content mtime,
        Host.readFile fs filePath = Some content ->
        Host.stat_mtime fs filePath = Some mtime ->
        Host.parsed content = None ->
        let idx' := Js.exec (indexFile fs filePath) idx in
        files idx' = (files idx ++ [bare_entry filePath content mtime])%list
        /\ functions idx' = functions idx
        /\ classes idx' = classes idx).
Proof.
  cbv zeta.
  destruct (indexCodebase_index_state cfg host codebasePath idx0) as (Hret & Hcons & _).
  split; [exact Hret|]. split; [|split; [|split; [|split]]].
  - intros path content mtime Hchosen Hread Hstat.
    destruct (scan_indexes_chosen cfg (Host.fs host) codebasePath path content mtime
                Hchosen Hread Hstat) as (fi & Hin & Hpath & Hbare).
    exists fi. split; [|split; [exact Hpath | intros Hp; now apply (Hbare content mtime)]].
    rewrite indexCodebase_state. exact Hin.
  - intros path Hread Hin. apply in_map_iff in Hin as (fi & Hpath & Hin).
    destruct Hcons as (_ & _ & Hdesc). rewrite Forall_forall in Hdesc.
    destruct (Hdesc fi (proj2 (list_elem_of_In _ _) Hin)) as (content & mtime & Hr & _).
    rewrite Hpath, Hread in Hr. discriminate.
  - intros. apply indexFile_returns.
  - intros. now apply indexFile_read_error.
  - intros filePath idx content mtime Hr Hs Hp.
    rewrite (indexFile_parse_error (Host.fs host) filePath idx content mtime Hr Hs Hp).
    unfold push_file, bare_entry. simpl. rewrite !app_nil_r. auto.
Qed.

(** On the directory [/repo] of [with_failures], whose listing is
    [broken.js], which does not parse, [gone.js], which cannot be read,
    and [b.js]: the index holds the bare entry of [broken.js], no entry
    for [gone.js], and an entry for [b.js], which comes after both. *)
Lemma indexing_survives_file_failures_witness :
  let index := snd (indexCodebase default_config with_failures "/repo" empty_index) in
  In (bare_entry "/repo/broken.js" (source 9 None) "2024-01-01T00:00:00.000Z")
    (files index)
  /\ ~ In "/repo/gone.js" (map f_path (files index))
  /\ In "/repo/b.js" (map f_path (files index)).
Proof.
  intros index.
  destruct (indexing_survives_file_failures default_config with_failures "/repo"
              empty_index) as (_ & Hfound & Hskipped & _).
  assert (Hchosen : forall name,
            In (file name) [file "broken.js"; file "gone.js"; file "b.js"] ->
            Path.extname name = ".js" ->
            chosen default_config (Host.fs with_failures) "/repo" (Path.join "/repo" name)).
  { intros name Hin Hext. exists 0, "/repo", [file "broken.js"; file "gone.js"; file "b.js"],
      (file name).
    split; [constructor|]. split; [simpl; lia|]. split; [reflexivity|].
    split; [exact Hin|]. split; [reflexivity|]. split; [|reflexivity].
    simpl. rewrite Hext. reflexivity. }
  split; [|split].
  - destruct (Hfound "/repo/broken.js" (source 9 None) "2024-01-01T00:00:00.000Z")
      as (fi & Hin & _ & Hbare); [|reflexivity|reflexivity|].
    + apply (Hchosen "broken.js"); [simpl; auto | reflexivity].
    + rewrite <- (Hbare eq_refl). exact Hin.
  - apply Hskipped. reflexivity.
  - destruct (Hfound "/repo/b.js" b_text "2024-01-01T00:00:00.000Z")
      as (fi & Hin & Hpath & _); [|reflexivity|reflexivity|].
    + apply (Hchosen "b.js"); [simpl; auto | reflexivity].
    + rewrite <- Hpath. now apply in_map.
Defined.

End ScanCompleteness.
